(* ===== verification/_CoqProject ===== *)
-Q . S2P
Prelude.v
JsString.v
Regex.v
Highlight.v
Dom.v
CodeBlock.v
Sorting.v
FileTree.v
JsNum.v
NumText.v
Decor.v
Ui.v
State.v
RetroGrid.v
Json.v
Site.v
SiteViews.v
TypingAnimation.v
Terminal.v
Particles.v
HexagonPattern.v
Widgets.v
FlickeringGrid.v
JsValue.v
CommitMessage.v
AutoCommit.v
CommitRuns.v
IconCloud.v
DiaTextReveal.v
Effects.v
Wrappers.v
Platform.v
Home.v
DocPages.v
Pages.v
SiteGraph.v
RetroShader.v
Waiting.v
