(* ===== verification/Prelude.v ===== *)
(** * KubeCell: verification library

    This library verifies the TypeScript and JavaScript programs of the repository: the KubeCell
    website under [website/], with its syntax highlighter and code blocks, file tree, site data and
    the files generated from it, interface primitives, page furniture, the animated components of
    [components/magicui], the sections of the home page and every page with its layouts; the plugin
    [.opencode/plugins/auto-commit.js], which commits the changes of a coding session; and the waiting
    functions of a debugging skill under [.agents/skills].
    Paths below are relative to [website/] unless they say otherwise.  The website and the plugin do
    not interact; within the website the pages use the furniture, the sections and the site data, code
    blocks use the highlighter, and the repository tree uses the file tree.

    ** How the program is modelled

    A React component is split into the parts its source has: its props (a [Record]), its state (a
    [Record] holding state variables, refs and the variables its effects capture), one definition per
    handler, effect or timer callback, and its view, a function to a tree of elements ([Dom.vnode]).
    Components whose effects act on the browser are state machines: an event is a notification of the
    browser (a frame, a timer, an observer, the pointer), a handler is a computation in the state
    monad of [State], what the browser answers while it runs is a record [env], and reachability is
    defined by arbitrary sequences of events with arbitrary answers.  Strings are lists of UTF-16 code
    units, numbers are IEEE 754 binary64 values, regular expressions are terms run by a backtracking
    matcher in the style of ECMA-262.

    The site is exported statically, so a page is what its components return on their first render: a
    page is a tree of elements inside its layouts, built from the components with the state they start
    with, and the whole site is the list of its pages ([Pages.pages]).

    The plugin is asynchronous: an [async] function is a tree of the calls it awaits, with a branch for
    every answer, fulfilled or rejected, and its accesses to the two module variables.  A step relation
    interleaves the handlers of all events received, their generators and the timeouts.

    Code that is not in the sources is a parameter: [cn] (class names, over two packages), the
    collator of the file tree (hypothesis: a consistent comparison), [Math.random] and the values of
    [Math.sin] and [Math.cos], which the language leaves to the implementation, the pixel a browser
    paints for a colour, the URL parser, the clock and the file system of the generator script,
    [Math.atan2], [Math.pow] and the exponentiation operator (hypothesis where it is used: zero to the
    third power is zero, as the language specifies), [renderToString] and [btoa], the width of a text,
    the variant function [cva] and the identifiers of [useId].  What the pages need of these is the
    class [Platform.Platform], against which the properties of the whole site are proved.
    The session client, git and the timer of the plugin answer in any way.

    ** Files

    - [Prelude]: tactics, the hint database [kubecell], slices, iteration, options.
    - [JsString], [Regex], [Sorting], [JsNum], [NumText], [Json]: the parts of the language and its
      library the program uses (strings, regular expressions, [Array.prototype.sort] and [Set],
      numbers, numbers as text, [JSON.stringify] with a reference parser).
    - [Dom]: rendered elements.  [State]: the state monad and its rules.
    - [Highlight]: [lib/highlight.ts].  [CodeBlock]: [components/code-block.tsx] and
      [components/copy-button.tsx].
    - [FileTree]: [components/magicui/file-tree.tsx], [components/architecture/repo-tree.tsx].
    - [RetroGrid]: [components/magicui/retro-grid.tsx].  [RetroShader]: the shaders in it.
    - [Waiting]: [condition-based-waiting-example.ts] of the debugging skill in [.agents/skills].
    - [Site]: [lib/docs-nav.ts], [site.ts], [content.ts], [faq.ts], [metadata.ts],
      [components/json-ld.tsx], [scripts/generate-seo.ts].
    - [Ui]: the interface primitives of [components/ui].  [Wrappers]: links and buttons with a shimmer,
      the bento grid and its cards, the backlight, the scroll progress.
    - [SiteViews]: header, footer, sidebar, pager, callouts, sections, FAQ.
    - [TypingAnimation], [Terminal], [Particles], [HexagonPattern], [FlickeringGrid]: the files of the
      same name in [components/magicui].
    - [Widgets]: the animated list, the rotating words, the interactive and the animated grid, the
      circular progress bar.
    - [IconCloud]: [components/magicui/icon-cloud.tsx].  [DiaTextReveal]:
      [components/magicui/dia-text-reveal.tsx].
    - [Decor]: components without state (glare, progressive blur, orbiting circles, marquee, revealed
      words, blur fade, border beams, gradient texts).
    - [Effects]: components with small effects (magic card, sparkles, number ticker, highlighter,
      animated beam, dot pattern, meteors).
    - [Platform]: the class of what the pages take from elsewhere, and components as they are first
      rendered.  [Home]: the sections of [components/home] and [components/architecture].  [DocPages]:
      the pages of [app/docs].  [Pages]: the other pages and the layouts of [app], the metadata they
      export, and the route table.  [SiteGraph]: the site as a whole.
    - [JsValue]: values of the language with [JSON.parse].  [CommitMessage]: reading a commit message
      from a reply.  [AutoCommit]: the plugin as programs and the interleaving machine, with the
      abstract specification of the lock.  [CommitRuns]: how long a flow lasts and what it does.

    ** What the theorems show

    - Highlighter: every tokenizer terminates; outside the shells the token texts concatenate to the
      line; for the shells the exact text rendered is given, with the exact condition under which it
      is the line; the comment finder returns the first comment start.  The JSON tokenizer never
      yields a key, although it means to.
    - Code block: it always renders, what is shown is what is copied, and the copied mark is cleared.
    - File tree: sorting gives the unique order the comparator asks for and keeps the elements;
      rendering terminates and is equivalent to rendering a tree sorted once; mounting reveals the
      selected element; clicks change exactly what they name; the expanded list has no duplicates.
    - Retro grid: no graphics object leaks, at most one frame is pending, each frame draws once with
      clamped parameters, unmounting releases everything, and the fallback is shown exactly while the
      canvas is not.  Its shader writes premultiplied colours within their bounds, never loses the lines
      of the coarsest level of detail, and repeats its picture every four cells.
    - Site: previous and next are inverse and visit every page, the sitemap lists every route once,
      the generated manifest and structured data parse back to the data and are safe to inline, and the
      navigation marks the current page.
    - The whole site, for every platform and year: every link leads to an existing page and anchor,
      following links from the home page visits exactly the pages, the pages are the entries of the
      sitemap with their own canonical URLs and titles, anchors and the keys of rendered lists are
      distinct, every page renders and has a well-formed outline.  These are evaluated on the pages with
      a text in place of the repository tree, whose order depends on the collation; that the tree adds
      nothing to what is read, and that its keys are distinct in any order, is proved separately.
    - Animations: the typed text is always a prefix and is completed (or repeats for ever); terminal
      items appear in order and to the end; particles keep their number although the array is changed
      while it is visited; the dashed hexagon pattern draws every edge once; the animated list shows
      all its children; grid squares keep their identity; the flickering grid paints every square of
      its array.

    - Icon cloud: at most one frame is pending, the closure of the effect is never outdated, the
      animation goes on exactly as long as it should; a press on a drawn icon aims at it, and the
      rotation arrives.  Text reveal: one animation or one timer at a time, every text in turn.
    - Glare colours have their declared type for every string; a progressive blur has one layer per
      level; sparkles keep their number, a ticker reaches its value, an annotation is never doubled.
    - Waiting: a wait ends at the first check that sees its event or is too late, and prefers the event.
    - Plugin: in every interleaving the git commands are one transaction after the other, as in the
      abstract specification with a lock; no handler ends with an exception, the lock is released,
      and the number of awaited answers is bounded by the number of events; each branch of a flow
      issues exactly the commands it should; the plugin's own sessions never start a flow.  A message
      is read back from the reply the prompt asks for and is bounded for every reply; the subject can
      be empty after it is cleaned, which the code does not mean.

    ** Bounds and fuel

    The matcher of [Regex] is structural in the pattern and bounded by the text in stars, and the
    scanning loop [exec_while] has fuel for one match per position, proved sufficient for patterns that
    do not match the empty string.  [FileTree.renderTreeElements] is given more fuel than the tree is
    deep, and a theorem shows that any such fuel gives the result.  [Json.parse_value] is run with the
    size of the value, which the round trip proves enough.  [Site.follow] gives the same
    pages for every fuel of at least their number.  [JsValue.JSON_parse] runs with twice the length of
    the text and one, proved to be enough.  [IconCloud.flush] renders twice, and the invariant shows that
    nothing is left to render; a handler of the plugin awaits at most thirteen answers.  The loops of [NumText] run for the number of binary
    digits (digits of an integer), a few steps from an estimate of the decimal exponent, and the 17
    digits a binary64 number needs.  Identifiers of
    frames, timers and graphics objects are natural numbers that are never reused.

    ** What is not modelled

    Rendering by React beyond the order of effects and their dependencies, style sheets, the
    precision of the graphics processor (the shader computes with exact rationals), and the motion library, which appears through the notifications it sends.  The primitives
    under [components/ui] are elements with the attributes they are given; what the third-party
    components behind them do is outside the sources.  How the framework merges the metadata of a page
    with that of its layouts is not modelled, nor are the options of the build.  React effects are
    assumed to run before the next event.  The Kubernetes operator is written in Go and is outside this
    library. *)

From Stdlib Require Import List Arith NArith ZArith Lia Bool Permutation.
Import ListNotations.

(** ** Tactics *)

(** Inversion that leaves no trivial equations behind. *)
Ltac inv H := inversion H; subst; clear H.

(** Case analysis on the scrutinee of a [match] or [if] in the goal. *)
Ltac case_goal :=
  match goal with
  | |- context [match ?x with _ => _ end] => destruct x eqn:?
  end.

(** Case analysis on the scrutinee of a [match] or [if] in [H]. *)
Ltac case_hyp H :=
  match type of H with
  | context [match ?x with _ => _ end] => destruct x eqn:?
  end.

(** Boolean connectives and comparisons as propositions. *)
Ltac bprop :=
  repeat match goal with
  | H : _ && _ = true |- _ => apply andb_true_iff in H; destruct H
  | H : _ || _ = false |- _ => apply orb_false_iff in H; destruct H
  | H : negb _ = true |- _ => apply negb_true_iff in H
  | H : negb _ = false |- _ => apply negb_false_iff in H
  | H : (_ =? _)%nat = true |- _ => apply Nat.eqb_eq in H
  | H : (_ =? _)%nat = false |- _ => apply Nat.eqb_neq in H
  | H : (_ <? _)%nat = true |- _ => apply Nat.ltb_lt in H
  | H : (_ <? _)%nat = false |- _ => apply Nat.ltb_ge in H
  | H : (_ <=? _)%nat = true |- _ => apply Nat.leb_le in H
  | H : (_ <=? _)%nat = false |- _ => apply Nat.leb_gt in H
  | H : (_ =? _)%N = true |- _ => apply N.eqb_eq in H
  | H : (_ =? _)%N = false |- _ => apply N.eqb_neq in H
  | H : (_ <=? _)%N = true |- _ => apply N.leb_le in H
  | H : (_ <=? _)%N = false |- _ => apply N.leb_gt in H
  | H : (_ <? _)%N = true |- _ => apply N.ltb_lt in H
  | H : (_ <? _)%N = false |- _ => apply N.ltb_ge in H
  | H : (_ =? _)%Z = true |- _ => apply Z.eqb_eq in H
  | H : (_ =? _)%Z = false |- _ => apply Z.eqb_neq in H
  | H : (_ <? _)%Z = true |- _ => apply Z.ltb_lt in H
  | H : (_ <? _)%Z = false |- _ => apply Z.ltb_ge in H
  end.

(** Comparisons stay folded under [cbn]. *)
#[global] Arguments Nat.ltb : simpl never.

(** ** Slices of lists

    [slice a b l] is JavaScript's [l.slice(a, b)] for non-negative indices: out-of-range
    indices are clamped and an inverted range is empty. *)

Definition slice {A} (a b : nat) (l : list A) : list A := firstn (b - a) (skipn a l).

(** [l.slice(a)]. *)
Definition slice_from {A} (a : nat) (l : list A) : list A := skipn a l.

Section Slices.
Context {A : Type}.
Implicit Types l : list A.

Lemma skipn_add (n m : nat) l : skipn n (skipn m l) = skipn (m + n) l.
Proof. rewrite skipn_skipn. f_equal. lia. Qed.

Lemma firstn_add (n m : nat) l : firstn (n + m) l = firstn n l ++ firstn m (skipn n l).
Proof.
  revert l. induction n as [|n IH]; intros [|x l]; cbn; try reflexivity.
  - destruct m; reflexivity.
  - now rewrite IH.
Qed.

Lemma slice_app (a b c : nat) l : a <= b -> b <= c -> slice a b l ++ slice b c l = slice a c l.
Proof.
  intros Hab Hbc. unfold slice.
  replace (c - a) with ((b - a) + (c - b)) by lia.
  rewrite firstn_add, skipn_add. do 3 f_equal. lia.
Qed.

Lemma slice_to_end (a b : nat) l : a <= b -> slice a b l ++ slice_from b l = slice_from a l.
Proof.
  intros Hab. unfold slice, slice_from.
  rewrite <- (firstn_skipn (b - a) (skipn a l)) at 2. f_equal.
  rewrite skipn_add. f_equal. lia.
Qed.

Lemma slice_0 (b : nat) l : slice 0 b l = firstn b l.
Proof. unfold slice. cbn. now rewrite Nat.sub_0_r. Qed.

Lemma slice_all l : slice 0 (length l) l = l.
Proof. rewrite slice_0. apply firstn_all. Qed.

Lemma slice_from_end (a : nat) l : length l <= a -> slice_from a l = [].
Proof. apply skipn_all2. Qed.

Lemma slice_past_end (a b : nat) l : length l <= b -> slice a b l = slice_from a l.
Proof.
  intros H. unfold slice, slice_from. apply firstn_all2. rewrite length_skipn. lia.
Qed.

Lemma length_slice (a b : nat) l : b <= length l -> length (slice a b l) = b - a.
Proof. intros H. unfold slice. rewrite length_firstn, length_skipn. lia. Qed.

Lemma slice_nonempty (a b : nat) l : a < b -> b <= length l -> slice a b l <> [].
Proof.
  intros Hab Hb E. apply (f_equal (@length A)) in E.
  rewrite length_slice in E by assumption. cbn in E. lia.
Qed.

Lemma slice_from_nonempty (a : nat) l : a < length l -> slice_from a l <> [].
Proof.
  intros Ha E. apply (f_equal (@length A)) in E. unfold slice_from in E.
  rewrite length_skipn in E. cbn in E. lia.
Qed.

Lemma slice_from_app (u v : list A) : slice_from (length u) (u ++ v) = v.
Proof. unfold slice_from. now rewrite skipn_app, skipn_all, Nat.sub_diag. Qed.
End Slices.

Lemma skipn_nth_cons {A} (l : list A) n x : nth_error l n = Some x -> skipn n l = x :: skipn (S n) l.
Proof.
  revert n. induction l as [|y l IH]; intros [|n] H; try discriminate; cbn in *; [now inv H|now apply IH].
Qed.

(** ** Iteration *)

Fixpoint iterate {A} (n : nat) (f : A -> A) (x : A) : A :=
  match n with O => x | S m => f (iterate m f x) end.

Lemma iterate_add {A} (f : A -> A) m n x : iterate (m + n) f x = iterate m f (iterate n f x).
Proof. induction m as [|m IH]; cbn; [reflexivity|]. now rewrite IH. Qed.

Lemma iterate_succ_r {A} (f : A -> A) n x : iterate (S n) f x = iterate n f (f x).
Proof. induction n as [|n IH]; [reflexivity|]. change (f (iterate (S n) f x) = f (iterate n f (f x))). now rewrite IH. Qed.

(** ** Options *)

(** [o ?? d]. *)
Definition default_of {A} (d : A) (o : option A) : A := match o with Some x => x | None => d end.

(** A list of computations that may fail: the first failure is the failure of the whole. *)
Fixpoint map_opt {A B} (f : A -> option B) (l : list A) : option (list B) :=
  match l with
  | [] => Some []
  | x :: l' => match f x, map_opt f l' with Some y, Some ys => Some (y :: ys) | _, _ => None end
  end.

Lemma map_opt_all {A B} (f : A -> option B) (g : A -> B) l :
  (forall x, In x l -> f x = Some (g x)) -> map_opt f l = Some (map g l).
Proof.
  induction l as [|x l IH]; intros H; cbn; [reflexivity|].
  rewrite H by now left. rewrite IH; [reflexivity|]. intros y Hy. apply H. now right.
Qed.

Lemma map_opt_total {A B} (f : A -> option B) l :
  (forall x, In x l -> exists y, f x = Some y) -> exists ys, map_opt f l = Some ys.
Proof.
  induction l as [|x l IH]; intros H; cbn; [eauto|].
  destruct (H x) as [y ->]; [now left|]. destruct IH as [ys ->]; [|eauto].
  intros z Hz. apply H. now right.
Qed.

Lemma nth_error_mid {A} (l1 : list A) x l2 : nth_error (l1 ++ x :: l2) (length l1) = Some x.
Proof. now rewrite nth_error_app2, Nat.sub_diag. Qed.

(** ** Permutations *)

Lemma Permutation_flat_map_ext {A B} (f g : A -> list B) l :
  (forall x, In x l -> Permutation (f x) (g x)) -> Permutation (flat_map f l) (flat_map g l).
Proof.
  induction l as [|x l IH]; intros H; cbn; [constructor|].
  apply Permutation_app; [apply H; now left|]. apply IH. intros y Hy. apply H. now right.
Qed.

(** ** The hint database of the development *)

Create HintDb kubecell.
Create Rewrite HintDb kubecell.
#[export] Hint Resolve slice_nonempty slice_from_nonempty : kubecell.
#[export] Hint Rewrite @slice_all @slice_0 : kubecell.
