(* ===== verification/JsString.v ===== *)
(** * JavaScript strings

    A JavaScript string is a sequence of UTF-16 code units; [jsstring] is the list of them, each a
    value of type [N] below [65536].  Literals are written as Rocq strings (UTF-8 bytes) and
    translated by [js], which decodes UTF-8 and encodes every code point as one or two units.
    The file also models the String methods the source calls: [trim], [trimEnd], [startsWith],
    [split], [join], [Array.from]. *)

From Stdlib Require Import String Ascii List Arith NArith Lia Bool.
From S2P Require Import Prelude.
Import ListNotations.
Local Open Scope N_scope.
Local Open Scope list_scope.

Abbreviation jsstring := (list N).

(** ** Literals *)

(** The scalar value whose UTF-8 encoding starts the byte list, with the bytes after it.
    Literals are written by hand, so ill-formed bytes only need some total answer: they are
    read as single units. *)
Definition utf8_head (b0 : N) (bs : list N) : N * list N :=
  match bs with
  | b1 :: bs1 =>
      if (192 <=? b0) && (b0 <? 224) then ((b0 - 192) * 64 + (b1 - 128), bs1)
      else match bs1 with
      | b2 :: bs2 =>
          if (224 <=? b0) && (b0 <? 240)
          then ((b0 - 224) * 4096 + (b1 - 128) * 64 + (b2 - 128), bs2)
          else match bs2 with
          | b3 :: bs3 =>
              if 240 <=? b0
              then ((b0 - 240) * 262144 + (b1 - 128) * 4096 + (b2 - 128) * 64 + (b3 - 128), bs3)
              else (b0, bs)
          | [] => (b0, bs)
          end
      | [] => (b0, bs)
      end
  | [] => (b0, [])
  end.

Fixpoint utf8_decode (fuel : nat) (bs : list N) : list N :=
  match fuel, bs with
  | S n, b :: rest => let '(c, rest') := utf8_head b rest in c :: utf8_decode n rest'
  | _, _ => []
  end.

(** UTF-16 units of one code point. *)
Definition utf16_units (c : N) : jsstring :=
  if c <? 65536 then [c]
  else [55296 + (c - 65536) / 1024; 56320 + (c - 65536) mod 1024].

Definition js (s : string) : jsstring :=
  let bytes := map N_of_ascii (list_ascii_of_string s) in
  flat_map utf16_units (utf8_decode (length bytes) bytes).

(** A literal in which the grave accent stands for a double quote. *)
Definition jsq (s : string) : jsstring := map (fun c => if c =? 96 then 34 else c) (js s).

Abbreviation dquote := 34 (only parsing).
Abbreviation squote := 39 (only parsing).
Abbreviation backtick := 96 (only parsing).

Example js_ascii : js "ab" = [97; 98].
Proof. reflexivity. Qed.

Example js_emdash : js "—" = [8212].
Proof. reflexivity. Qed.

Example js_astral : js "😀" = [55357; 56832].
Proof. reflexivity. Qed.

(** ** Equality *)

Definition jseqb (a b : jsstring) : bool := if list_eq_dec N.eq_dec a b then true else false.

Lemma jseqb_eq a b : jseqb a b = true <-> a = b.
Proof. unfold jseqb. destruct (list_eq_dec N.eq_dec a b); split; congruence. Qed.

Lemma jseqb_neq a b : jseqb a b = false <-> a <> b.
Proof. unfold jseqb. destruct (list_eq_dec N.eq_dec a b); split; congruence. Qed.

Lemma jseqb_refl a : jseqb a a = true.
Proof. now apply jseqb_eq. Qed.

(** ** White space

    The code units matched by the regular expression escape [s] and removed by [trim]: the
    WhiteSpace and LineTerminator productions of ECMA-262. *)

Definition in_range (c : N) (r : N * N) : bool := (fst r <=? c) && (c <=? snd r).

Definition ws_ranges : list (N * N) :=
  [(9, 13); (32, 32); (160, 160); (5760, 5760); (8192, 8202); (8232, 8233); (8239, 8239);
   (8287, 8287); (12288, 12288); (65279, 65279)].

Definition is_ws (c : N) : bool := existsb (in_range c) ws_ranges.

(** ** Methods *)

Fixpoint drop_while {A} (p : A -> bool) (l : list A) : list A :=
  match l with
  | [] => []
  | x :: xs => if p x then drop_while p xs else l
  end.

Fixpoint take_while {A} (p : A -> bool) (l : list A) : list A :=
  match l with
  | [] => []
  | x :: xs => if p x then x :: take_while p xs else []
  end.

Definition trimStart (s : jsstring) : jsstring := drop_while is_ws s.
Definition trimEnd (s : jsstring) : jsstring := rev (drop_while is_ws (rev s)).
Definition trim (s : jsstring) : jsstring := trimStart (trimEnd s).

Fixpoint startsWith (s p : jsstring) : bool :=
  match p, s with
  | [], _ => true
  | c :: p', d :: s' => (c =? d) && startsWith s' p'
  | _ :: _, [] => false
  end.

(** [s.split(sep)] for a separator of one code unit. *)
Fixpoint split1 (sep : N) (s : jsstring) : list jsstring :=
  match s with
  | [] => [[]]
  | c :: s' =>
      if c =? sep then [] :: split1 sep s'
      else match split1 sep s' with
           | [] => [[c]]
           | w :: ws => (c :: w) :: ws
           end
  end.

(** [l.join(sep)]. *)
Fixpoint join (sep : jsstring) (l : list jsstring) : jsstring :=
  match l with
  | [] => []
  | [s] => s
  | s :: l' => s ++ sep ++ join sep l'
  end.

(** [Array.from(s)]: the code points of [s], a surrogate pair counting as one element. *)
Definition is_high (c : N) : bool := (55296 <=? c) && (c <? 56320).
Definition is_low (c : N) : bool := (56320 <=? c) && (c <? 57344).

Fixpoint code_points (s : jsstring) : list jsstring :=
  match s with
  | [] => []
  | c :: s' =>
      match s' with
      | d :: s'' => if is_high c && is_low d then [c; d] :: code_points s'' else [c] :: code_points s'
      | [] => [[c]]
      end
  end.

(** ** Lemmas *)

Lemma take_drop_while {A} (p : A -> bool) l : take_while p l ++ drop_while p l = l.
Proof. induction l as [|x l IH]; cbn; [reflexivity|]. destruct (p x); cbn; congruence. Qed.

Lemma take_while_forallb {A} (p : A -> bool) l : forallb p (take_while p l) = true.
Proof. induction l as [|x l IH]; cbn; [reflexivity|]. destruct (p x) eqn:E; cbn; [now rewrite E, IH|reflexivity]. Qed.

Lemma drop_while_nil {A} (p : A -> bool) l : drop_while p l = [] <-> forallb p l = true.
Proof.
  induction l as [|x l IH]; cbn; [tauto|].
  destruct (p x); cbn; [exact IH|]. split; discriminate.
Qed.

Lemma drop_while_hd {A} (p : A -> bool) l x y : drop_while p l = x :: y -> p x = false.
Proof. induction l as [|z l IH]; cbn; [discriminate|]. destruct (p z) eqn:E; [exact IH|]. congruence. Qed.

Lemma drop_while_id {A} (p : A -> bool) x l : p x = false -> drop_while p (x :: l) = x :: l.
Proof. intros H. cbn. now rewrite H. Qed.

Lemma forallb_rev {A} (p : A -> bool) l : forallb p (rev l) = forallb p l.
Proof.
  induction l as [|x l IH]; cbn; [reflexivity|].
  rewrite forallb_app, IH. cbn. destruct (p x), (forallb p l); reflexivity.
Qed.

Lemma trimEnd_nil s : trimEnd s = [] <-> forallb is_ws s = true.
Proof.
  unfold trimEnd. rewrite <- forallb_rev, <- drop_while_nil.
  split; intros H; [|now rewrite H].
  now rewrite <- (rev_involutive (drop_while _ _)), H.
Qed.

(** [trimEnd] removes a suffix of white space. *)
Lemma trimEnd_suffix s : trimEnd s ++ rev (take_while is_ws (rev s)) = s.
Proof.
  unfold trimEnd. rewrite <- rev_app_distr, take_drop_while. apply rev_involutive.
Qed.

Lemma startsWith_spec s p : startsWith s p = true <-> exists t, s = p ++ t.
Proof.
  revert s. induction p as [|c p IH]; intros s; cbn.
  - split; [intros _; now exists s|now destruct s].
  - destruct s as [|d s]; cbn.
    + split; [discriminate|intros [t H]; discriminate].
    + rewrite andb_true_iff, N.eqb_eq, IH. split.
      * intros [-> [t ->]]. now exists t.
      * intros [t H]. injection H as -> ->. split; [reflexivity|now exists t].
Qed.

Lemma split1_nonempty sep s : split1 sep s <> [].
Proof. induction s as [|c s IH]; cbn; [discriminate|]. destruct (c =? sep); [discriminate|]. now destruct (split1 sep s). Qed.

Lemma join_cons sep s l : l <> [] -> join sep (s :: l) = s ++ sep ++ join sep l.
Proof. destruct l; [congruence|reflexivity]. Qed.

(** Splitting and joining with the same separator is the identity. *)
Lemma join_split1 sep s : join [sep] (split1 sep s) = s.
Proof.
  induction s as [|c s IH]; cbn; [reflexivity|].
  destruct (N.eqb_spec c sep) as [->|Hne].
  - rewrite join_cons by apply split1_nonempty. cbn. now rewrite IH.
  - destruct (split1 sep s) as [|w ws] eqn:E; [now apply split1_nonempty in E|].
    destruct ws; cbn in *; now rewrite <- IH.
Qed.

(** No line of a split contains the separator. *)
Lemma split1_no_sep sep s : Forall (fun w => ~ In sep w) (split1 sep s).
Proof.
  induction s as [|c s IH]; cbn; [repeat constructor; auto|].
  destruct (N.eqb_spec c sep) as [->|Hne]; [constructor; [auto|exact IH]|].
  destruct (split1 sep s) as [|w ws] eqn:E; [repeat constructor; cbn; intuition|].
  inv IH. constructor; [|assumption]. cbn. intuition.
Qed.

(** Induction that steps over one or two elements, the shape of [code_points]. *)
Lemma list_ind2 {A} (P : list A -> Prop) :
  P [] -> (forall x, P [x]) -> (forall x y l, P l -> P (y :: l) -> P (x :: y :: l)) ->
  forall l, P l.
Proof.
  intros H0 H1 H2 l. enough (P l /\ forall x, P (x :: l)) by tauto.
  induction l as [|y l [IH1 IH2]]; split; auto.
Qed.

Lemma code_points_concat s : concat (code_points s) = s.
Proof.
  induction s as [| |c d s IH1 IH2] using list_ind2; [reflexivity|reflexivity|].
  cbn [code_points]. destruct (is_high c && is_low d); cbn [concat].
  - now rewrite IH1.
  - cbn [code_points] in IH2. now rewrite IH2.
Qed.

#[export] Hint Rewrite jseqb_refl @code_points_concat join_split1 : kubecell.
