(* ===== verification/Regex.v ===== *)
(** * ECMAScript regular expressions

    The fragment of ECMA-262 regular expressions the source uses, with its backtracking matcher
    written in the continuation-passing style of the standard, a declarative relation it is sound
    and complete for, and [RegExp.prototype.exec] with the global flag ([lastIndex] driven search).

    Capture groups occur neither under a star nor inside a lookahead in the source's patterns;
    [wf_regex] checks that, and the standard's resetting of captures in those two places is
    therefore not part of the model. *)

From Stdlib Require Import String Ascii List Arith NArith Lia Bool.
From S2P Require Import Prelude JsString.
Import ListNotations.
Local Open Scope list_scope.

(** ** Character classes *)

Record cclass := Cls { cls_neg : bool; cls_ranges : list (N * N) }.

Definition cls_in (c : N) (k : cclass) : bool :=
  xorb (cls_neg k) (existsb (in_range c) (cls_ranges k)).

Definition singles (l : jsstring) : list (N * N) := map (fun c => (c, c)) l.
Definition rng (a b : ascii) : N * N := (N_of_ascii a, N_of_ascii b).

Definition c_space : cclass := Cls false ws_ranges.
Definition c_digit : cclass := Cls false [rng "0" "9"].
(** [.]: every unit but the line terminators. *)
Definition c_dot : cclass := Cls true (singles [10; 13; 8232; 8233]%N).
Definition c_one (c : N) : cclass := Cls false (singles [c]).
Definition c_not (l : jsstring) : cclass := Cls true (singles l).
Definition alpha : list (N * N) := [rng "A" "Z"; rng "a" "z"].
Definition alnum : list (N * N) := alpha ++ [rng "0" "9"].

(** Word characters of the [b] assertion: [[A-Za-z0-9_]]. *)
Definition is_word (c : N) : bool := cls_in c (Cls false (alnum ++ [rng "_" "_"])).

(** ** Syntax *)

Inductive regex : Type :=
| REps
| RChr (k : cclass)
| RSeq (r1 r2 : regex)
| RAlt (r1 r2 : regex)
| RStar (r : regex)
| RGrp (n : nat) (r : regex)
| RBol
| REol
| RWordB
| RLook (r : regex).

Declare Scope regex_scope.
Delimit Scope regex_scope with re.
Bind Scope regex_scope with regex.
Infix "·" := RSeq (at level 56, right associativity) : regex_scope.
Infix "∥" := RAlt (at level 57, right associativity) : regex_scope.
Local Open Scope regex_scope.

Definition rch (c : N) : regex := RChr (c_one c).
Definition ropt (r : regex) : regex := r ∥ REps.
Definition rplus (r : regex) : regex := r · RStar r.
Definition rword (s : string) : regex := fold_right (fun c r => rch c · r) REps (js s).
Fixpoint rtimes (n : nat) (r : regex) : regex := match n with O => REps | S n' => r · rtimes n' r end.

Fixpoint has_group (r : regex) : bool :=
  match r with
  | RSeq a b | RAlt a b => has_group a || has_group b
  | RStar a | RLook a => has_group a
  | RGrp _ _ => true
  | _ => false
  end.

Fixpoint wf_regex (r : regex) : bool :=
  match r with
  | RSeq a b | RAlt a b => wf_regex a && wf_regex b
  | RStar a | RLook a => negb (has_group a)
  | RGrp _ a => wf_regex a
  | _ => true
  end.

(** ** The matcher *)

(** A position in the input: the units before it, nearest first, the units after it, and the
    captures made so far, latest first. *)
Record mstate := MS { before : jsstring; after : jsstring; caps : list (nat * jsstring) }.

Definition word_at (l : jsstring) : bool := match l with c :: _ => is_word c | [] => false end.

Definition consumed (st st' : mstate) : jsstring :=
  firstn (length (after st) - length (after st')) (after st).

Fixpoint m {R : Type} (r : regex) (st : mstate) (k : mstate -> option R) {struct r} : option R :=
  match r with
  | REps => k st
  | RChr c =>
      match after st with
      | x :: xs => if cls_in x c then k (MS (x :: before st) xs (caps st)) else None
      | [] => None
      end
  | RSeq r1 r2 => m r1 st (fun st' => m r2 st' k)
  | RAlt r1 r2 => match m r1 st k with Some v => Some v | None => m r2 st k end
  | RStar r1 =>
      (fix star (n : nat) (st : mstate) : option R :=
         match n with
         | O => k st
         | S n' =>
             match m r1 st (fun st' => if length (after st') <? length (after st)
                                       then star n' st' else None) with
             | Some v => Some v
             | None => k st
             end
         end) (length (after st)) st
  | RGrp g r1 =>
      m r1 st (fun st' => k (MS (before st') (after st') ((g, consumed st st') :: caps st')))
  | RBol => match before st with [] => k st | _ :: _ => None end
  | REol => match after st with [] => k st | _ :: _ => None end
  | RWordB => if xorb (word_at (before st)) (word_at (after st)) then k st else None
  | RLook r1 => match m r1 st Some with Some _ => k st | None => None end
  end.

(** The star of [m], named. *)
Section Star.
Context {R : Type} (r1 : regex) (k : mstate -> option R).

Fixpoint m_star (n : nat) (st : mstate) : option R :=
  match n with
  | O => k st
  | S n' =>
      match m r1 st (fun st' => if length (after st') <? length (after st)
                                then m_star n' st' else None) with
      | Some v => Some v
      | None => k st
      end
  end.
End Star.

Lemma m_star_eq {R} r1 st (k : mstate -> option R) :
  m (RStar r1) st k = m_star r1 k (length (after st)) st.
Proof. reflexivity. Qed.

(** ** Declarative semantics: which positions a pattern can reach, in any order. *)

Inductive rmatch : regex -> mstate -> mstate -> Prop :=
| rm_eps st : rmatch REps st st
| rm_chr c x b a cs : cls_in x c = true -> rmatch (RChr c) (MS b (x :: a) cs) (MS (x :: b) a cs)
| rm_seq r1 r2 st st' st'' : rmatch r1 st st' -> rmatch r2 st' st'' -> rmatch (r1 · r2) st st''
| rm_altl r1 r2 st st' : rmatch r1 st st' -> rmatch (r1 ∥ r2) st st'
| rm_altr r1 r2 st st' : rmatch r2 st st' -> rmatch (r1 ∥ r2) st st'
| rm_star0 r st : rmatch (RStar r) st st
| rm_star1 r st st' st'' :
    rmatch r st st' -> length (after st') < length (after st) ->
    rmatch (RStar r) st' st'' -> rmatch (RStar r) st st''
| rm_grp g r st st' :
    rmatch r st st' ->
    rmatch (RGrp g r) st (MS (before st') (after st') ((g, consumed st st') :: caps st'))
| rm_bol a cs : rmatch RBol (MS [] a cs) (MS [] a cs)
| rm_eol b cs : rmatch REol (MS b [] cs) (MS b [] cs)
| rm_wordb st : xorb (word_at (before st)) (word_at (after st)) = true -> rmatch RWordB st st
| rm_look r st st' : rmatch r st st' -> rmatch (RLook r) st st.

#[export] Hint Constructors rmatch : kubecell.

Lemma m_sound {R} r : forall st (k : mstate -> option R) v,
  m r st k = Some v -> exists st', rmatch r st st' /\ k st' = Some v.
Proof.
  revert R. induction r as [|c|r1 IH1 r2 IH2|r1 IH1 r2 IH2|r1 IH1|g r1 IH1| | | |r1 IH1];
    intros R st k v H.
  - eauto with kubecell.
  - cbn in H. destruct st as [b [|x a] cs]; cbn in H; [discriminate|].
    destruct (cls_in x c) eqn:E; [eauto with kubecell|discriminate].
  - cbn in H. apply IH1 in H as (st' & Hr & H). apply IH2 in H as (st'' & Hr' & H).
    eauto with kubecell.
  - cbn in H. destruct (m r1 st k) eqn:E.
    + injection H as ->. apply IH1 in E as (st' & ? & ?). eauto with kubecell.
    + apply IH2 in H as (st' & ? & ?). eauto with kubecell.
  - rewrite m_star_eq in H. revert H. generalize (length (after st)) as n. intros n. revert st.
    induction n as [|n IHn]; intros st H; cbn in H; [eauto with kubecell|].
    destruct (m r1 st _) eqn:E; [|eauto with kubecell].
    injection H as ->. apply IH1 in E as (st' & Hr & Hk). cbn beta in Hk.
    destruct (length (after st') <? length (after st)) eqn:Hl; [|discriminate].
    apply Nat.ltb_lt in Hl. apply IHn in Hk as (st'' & ? & ?). eauto with kubecell.
  - cbn in H. apply IH1 in H as (st' & Hr & Hk). eauto with kubecell.
  - cbn in H. destruct st as [[|] a cs]; cbn in *; [eauto with kubecell|discriminate].
  - cbn in H. destruct st as [b [|] cs]; cbn in *; [eauto with kubecell|discriminate].
  - cbn in H. destruct (xorb _ _) eqn:E; [eauto with kubecell|discriminate].
  - cbn in H. destruct (m r1 st Some) eqn:E; [|discriminate].
    apply IH1 in E as (st' & Hr & _). eauto with kubecell.
Qed.

Lemma m_star_complete {R} r (k : mstate -> option R)
  (IH : forall st st', rmatch r st st' -> forall k' : mstate -> option R,
          k' st' <> None -> m r st k' <> None) :
  forall n st st', length (after st) <= n -> rmatch (RStar r) st st' -> k st' <> None ->
  m_star r k n st <> None.
Proof.
  induction n as [|n IHn]; intros st st' Hn H Hk; inv H; cbn; try exact Hk; try lia.
  - now destruct (m r _ _).
  - destruct (m r st _) eqn:E; [discriminate|exfalso].
    revert E. eapply IH; [eassumption|].
    destruct (Nat.ltb_spec (length (after st'0)) (length (after st))); [|lia].
    eapply IHn; [lia|eassumption|exact Hk].
Qed.

Lemma m_complete {R} r : forall st st', rmatch r st st' ->
  forall k : mstate -> option R, k st' <> None -> m r st k <> None.
Proof.
  revert R. induction r as [|c|r1 IH1 r2 IH2|r1 IH1 r2 IH2|r1 IH1|g r1 IH1| | | |r1 IH1];
    intros R st st' H k Hk.
  - now inv H.
  - inv H. cbn. match goal with E : cls_in _ _ = true |- _ => now rewrite E end.
  - inv H. cbn. eapply IH1; [eassumption|]. eapply IH2; eassumption.
  - cbn. destruct (m r1 st k) eqn:E; [discriminate|]. inv H.
    + exfalso. revert E. eapply IH1; eassumption.
    + eapply IH2; eassumption.
  - rewrite m_star_eq. eapply m_star_complete; eauto.
  - inv H. cbn. eapply IH1; eassumption.
  - now inv H.
  - now inv H.
  - inv H. cbn. match goal with E : xorb _ _ = true |- _ => now rewrite E end.
  - inv H. cbn. destruct (m r1 st' Some) eqn:E; [exact Hk|].
    exfalso. revert E. eapply IH1; [eassumption|discriminate].
Qed.

(** A pattern either matches, or reaches no position at all. *)
Lemma m_none {R} r st (k : mstate -> option R) :
  (forall st', k st' <> None) -> m r st k = None -> forall st', ~ rmatch r st st'.
Proof. intros Hk H st' Hr. revert H. eapply m_complete; eauto. Qed.

(** ** A match consumes a segment of the input *)

(** [st'] is [st] moved forward over the units [w]. *)
Definition advances (st st' : mstate) (w : jsstring) : Prop :=
  after st = w ++ after st' /\ before st' = rev w ++ before st.

Lemma advances_refl st : advances st st [].
Proof. split; reflexivity. Qed.

Lemma advances_trans st1 st2 st3 w1 w2 :
  advances st1 st2 w1 -> advances st2 st3 w2 -> advances st1 st3 (w1 ++ w2).
Proof.
  intros [Ha Hb] [Ha' Hb']. split.
  - rewrite Ha, Ha'. now rewrite app_assoc.
  - rewrite Hb', Hb, rev_app_distr. now rewrite app_assoc.
Qed.

#[export] Hint Resolve advances_refl advances_trans : kubecell.

Lemma rmatch_advances r st st' : rmatch r st st' -> exists w, advances st st' w.
Proof.
  induction 1 as [st|c x b a cs Hc|r1 r2 st st' st'' H1 [w1 IH1] H2 [w2 IH2]
    |r1 r2 st st' H1 IH1|r1 r2 st st' H1 IH1|r st|r st st' st'' H1 [w1 IH1] Hl H2 [w2 IH2]
    |g r st st' H1 [w IH1]|a cs|b cs|st Hw|r st st' H1 IH1]; eauto with kubecell.
  exists [x]. split; reflexivity.
Qed.

Lemma advances_consumed st st' w : advances st st' w -> consumed st st' = w.
Proof.
  intros [Ha _]. unfold consumed. rewrite Ha, length_app, Nat.add_sub.
  rewrite firstn_app, Nat.sub_diag, firstn_all, app_nil_r. reflexivity.
Qed.

(** A lower bound on the number of units a pattern consumes. *)
Fixpoint min_len (r : regex) : nat :=
  match r with
  | RChr _ => 1
  | RSeq a b => min_len a + min_len b
  | RAlt a b => Nat.min (min_len a) (min_len b)
  | RGrp _ a => min_len a
  | _ => 0
  end.

Lemma rmatch_min_len r st st' :
  rmatch r st st' -> length (after st') + min_len r <= length (after st).
Proof. induction 1; cbn in *; lia. Qed.

(** ** [exec] *)

Record rmatch_result := RM { m_index : nat; m_text : jsstring; m_caps : list (nat * jsstring) }.

(** First position, from the current one on, where the pattern matches. *)
Fixpoint search (r : regex) (b a : jsstring) : option rmatch_result :=
  match m r (MS b a []) Some with
  | Some st => Some (RM (length b) (consumed (MS b a []) st) (caps st))
  | None => match a with
            | [] => None
            | c :: a' => search r (c :: b) a'
            end
  end.

(** [pattern.exec(s)] of a pattern whose [lastIndex] is [last]. *)
Definition exec (r : regex) (s : jsstring) (last : nat) : option rmatch_result :=
  if last <=? length s then search r (rev (firstn last s)) (skipn last s) else None.

Definition test (r : regex) (s : jsstring) : bool :=
  match exec r s 0 with Some _ => true | None => false end.

(** Text of a capture group, [undefined] when it did not participate. *)
Definition cap (mt : rmatch_result) (g : nat) : option jsstring :=
  option_map snd (find (fun p => fst p =? g) (m_caps mt)).

(** Where the pattern leaves [lastIndex] after a match. *)
Definition m_end (mt : rmatch_result) : nat := m_index mt + length (m_text mt).

Lemma search_spec r : forall a b mt, search r b a = Some mt ->
  exists u w v st,
    a = u ++ w ++ v /\ m_index mt = length b + length u /\ m_text mt = w /\
    rmatch r (MS (rev u ++ b) (w ++ v) []) st /\ after st = v /\
    before st = rev w ++ rev u ++ b /\ m_caps mt = caps st.
Proof.
  induction a as [|c a IH]; intros b mt H; cbn [search] in H.
  - destruct (m r _ Some) eqn:E; [|discriminate].
    apply m_sound in E as (st & Hr & E). injection E as ->. inv H.
    destruct (rmatch_advances _ _ _ Hr) as [w Hw]. pose proof (advances_consumed _ _ _ Hw) as Hc.
    destruct Hw as [Ha Hb]. cbn in *. exists [], w, (after m0), m0. cbn.
    rewrite <- Ha. repeat split; auto.
  - destruct (m r _ Some) eqn:E.
    + apply m_sound in E as (st & Hr & E). injection E as ->. inv H.
      destruct (rmatch_advances _ _ _ Hr) as [w Hw]. pose proof (advances_consumed _ _ _ Hw) as Hc.
      destruct Hw as [Ha Hb]. cbn in *. exists [], w, (after m0), m0. cbn.
      rewrite <- Ha. repeat split; auto.
    + apply IH in H as (u & w & v & st & -> & Hi & Ht & Hr & Hv & Hb & Hc).
      exists (c :: u), w, v, st. cbn in *. rewrite <- !app_assoc. cbn.
      repeat split; auto. lia.
Qed.

Lemma search_none r : forall a b, search r b a = None ->
  forall u v, a = u ++ v -> forall st, ~ rmatch r (MS (rev u ++ b) v []) st.
Proof.
  induction a as [|c a IH]; intros b H u v Huv st; cbn [search] in H.
  - destruct (m r _ Some) eqn:E; [discriminate|].
    symmetry in Huv. apply app_eq_nil in Huv as [-> ->].
    eapply m_none; [|exact E]. discriminate.
  - destruct (m r _ Some) eqn:E; [discriminate|].
    destruct u as [|c' u]; cbn in Huv.
    + subst v. eapply m_none; [|exact E]. discriminate.
    + injection Huv as <- ->. cbn. rewrite <- app_assoc. cbn. eapply IH; eauto.
Qed.

(** A successful [exec] returns a segment of the string at or after [lastIndex], reached by the
    pattern from its first unit. *)
Lemma exec_spec r s last mt : exec r s last = Some mt ->
  last <= m_index mt /\ m_end mt <= length s /\
  m_text mt = slice (m_index mt) (m_end mt) s /\
  exists st, rmatch r (MS (rev (firstn (m_index mt) s)) (skipn (m_index mt) s) []) st /\
             after st = skipn (m_end mt) s /\ m_caps mt = caps st.
Proof.
  unfold exec, m_end. destruct (Nat.leb_spec last (length s)) as [Hl|]; [|discriminate].
  intros H. apply search_spec in H as (u & w & v & st & Ha & Hi & Ht & Hr & Hv & Hb & Hc).
  rewrite length_rev, length_firstn, Nat.min_l in Hi by assumption.
  assert (Hs : s = (firstn last s ++ u) ++ w ++ v).
  { rewrite <- app_assoc, <- Ha. symmetry. apply firstn_skipn. }
  assert (Hp : m_index mt = length (firstn last s ++ u)) by (rewrite length_app, length_firstn; lia).
  rewrite <- rev_app_distr in Hr. revert Hr Hp Hs. generalize (firstn last s ++ u) as p.
  intros p Hr Hp Hs. rewrite Ht, Hp, Hs in *. rewrite !length_app in *.
  repeat split; try lia.
  - unfold slice. rewrite skipn_app, skipn_all, Nat.sub_diag. cbn.
    replace (length p + length w - length p) with (length w) by lia.
    now rewrite firstn_app, Nat.sub_diag, firstn_all, app_nil_r.
  - exists st. rewrite firstn_app, firstn_all, Nat.sub_diag, app_nil_r.
    rewrite skipn_app, skipn_all, Nat.sub_diag, Hv. cbn.
    rewrite <- skipn_add, skipn_app, skipn_all, Nat.sub_diag. cbn.
    rewrite skipn_app, skipn_all, Nat.sub_diag. repeat split; auto.
Qed.

(** A failed [exec] means the pattern matches at no position from [lastIndex] on. *)
Lemma exec_none r s last i st : exec r s last = None -> last <= i <= length s ->
  ~ rmatch r (MS (rev (firstn i s)) (skipn i s) []) st.
Proof.
  unfold exec. destruct (Nat.leb_spec last (length s)) as [Hl|]; [|lia].
  intros H Hi. apply search_none with (u := slice last i s) (v := skipn i s) (st := st) in H.
  - replace (rev (firstn i s)) with (rev (slice last i s) ++ rev (firstn last s)); [exact H|].
    rewrite <- rev_app_distr. f_equal. rewrite <- !slice_0. apply slice_app; lia.
  - symmetry. apply slice_to_end. lia.
Qed.

Lemma exec_nonempty r s last mt :
  0 < min_len r -> exec r s last = Some mt -> m_index mt < m_end mt.
Proof.
  intros Hr H. apply exec_spec in H as (_ & Hle & _ & st & Hm & Ha & _).
  apply rmatch_min_len in Hm. cbn in Hm. rewrite Ha, !length_skipn in Hm. lia.
Qed.

(** ** Derived facts about patterns *)

(** Without groups a pattern leaves the captures alone. *)
Lemma rmatch_caps r st st' : rmatch r st st' -> has_group r = false -> caps st' = caps st.
Proof.
  induction 1; cbn; intros Hg; try reflexivity; try discriminate; bprop; auto.
  rewrite IHrmatch2, IHrmatch1; auto.
  rewrite IHrmatch2, IHrmatch1; auto.
Qed.

Lemma rmatch_seq_inv r1 r2 st st'' :
  rmatch (r1 · r2) st st'' -> exists st', rmatch r1 st st' /\ rmatch r2 st' st''.
Proof. intros H. inv H. eauto. Qed.

Lemma rmatch_alt_inv r1 r2 st st' : rmatch (r1 ∥ r2) st st' -> rmatch r1 st st' \/ rmatch r2 st st'.
Proof. intros H. inv H; auto. Qed.

Lemma rmatch_chr_inv k st st' : rmatch (RChr k) st st' ->
  exists c, advances st st' [c] /\ cls_in c k = true.
Proof. intros H. inv H. eexists. split; [|eassumption]. split; reflexivity. Qed.

Lemma existsb_singles c l : existsb (in_range c) (singles l) = true <-> In c l.
Proof.
  unfold singles. rewrite existsb_exists. split.
  - intros (r & Hr & Hc). apply in_map_iff in Hr as (x & <- & Hx). unfold in_range in Hc. cbn in Hc.
    bprop. replace c with x by lia. exact Hx.
  - intros Hc. exists (c, c). split; [now apply in_map_iff; exists c|].
    unfold in_range. cbn. now rewrite N.leb_refl.
Qed.

Lemma c_not_in c l : cls_in c (c_not l) = true <-> ~ In c l.
Proof.
  unfold cls_in, c_not. cbn [cls_neg cls_ranges].
  rewrite <- existsb_singles, xorb_true_l, negb_true_iff, not_true_iff_false. tauto.
Qed.

Lemma rmatch_one c st st' : rmatch (rch c) st st' -> advances st st' [c].
Proof.
  intros H. apply rmatch_chr_inv in H as (x & Hx & Hk). unfold cls_in in Hk. cbn [cls_neg c_one] in Hk.
  rewrite xorb_false_l in Hk. apply existsb_singles in Hk as [->|[]]. exact Hx.
Qed.

Lemma rmatch_look_inv r st st' : rmatch (RLook r) st st' -> st' = st /\ exists st1, rmatch r st st1.
Proof. intros H. inv H. eauto. Qed.

Lemma rmatch_bol_inv st st' : rmatch RBol st st' -> st' = st /\ before st = [].
Proof. intros H. now inv H. Qed.

(** A group records exactly what its pattern consumed. *)
Lemma rmatch_grp_inv g r st st' : has_group r = false -> rmatch (RGrp g r) st st' ->
  exists w, advances st st' w /\ caps st' = (g, w) :: caps st /\ min_len r <= length w.
Proof.
  intros Hg H. inversion H as [| | | | | | |g' r' st0 st1 H1| | | |]; subst.
  destruct (rmatch_advances _ _ _ H1) as [w Hw].
  pose proof (rmatch_min_len _ _ _ H1) as Hl. pose proof (rmatch_caps _ _ _ H1 Hg) as Hc.
  exists w. rewrite (advances_consumed _ _ _ Hw). destruct Hw as [Ha Hb]. cbn.
  rewrite Ha, length_app in Hl. repeat split; cbn; [exact Ha|exact Hb|congruence|lia].
Qed.

(** [hd_not c r]: no match of [r] starts with the unit [c]. *)
Fixpoint hd_not (c : N) (r : regex) : bool :=
  match r with
  | RChr k => negb (cls_in c k)
  | RSeq a b => hd_not c a && (negb (min_len a =? 0) || hd_not c b)
  | RAlt a b => hd_not c a && hd_not c b
  | RStar a | RGrp _ a => hd_not c a
  | _ => true
  end.

Lemma app_hd_error {A} (w1 w2 : list A) c :
  hd_error (w1 ++ w2) = Some c -> hd_error w1 = Some c \/ (w1 = [] /\ hd_error w2 = Some c).
Proof. destruct w1; cbn; auto. Qed.

Lemma advances_inj st st' w w' : advances st st' w -> advances st st' w' -> w = w'.
Proof. intros H H'. apply advances_consumed in H, H'. congruence. Qed.

Lemma rmatch_hd_not c r st st' :
  rmatch r st st' -> hd_not c r = true -> forall w, advances st st' w -> hd_error w <> Some c.
Proof.
  induction 1 as [st|k x b a cs Hc|r1 r2 st st' st'' H1 IH1 H2 IH2|r1 r2 st st' H1 IH1
    |r1 r2 st st' H1 IH1|r st|r st st' st'' H1 IH1 Hl H2 IH2|g r st st' H1 IH1|a cs|b cs|st Hw
    |r st st' H1 IH1]; cbn; intros Hn w Hadv Hhd;
    try (pose proof (advances_inj _ _ _ _ Hadv (advances_refl _)); subst; discriminate).
  - assert (advances (MS b (x :: a) cs) (MS (x :: b) a cs) [x]) as Hx by (split; reflexivity).
    rewrite (advances_inj _ _ _ _ Hadv Hx) in Hhd. injection Hhd as ->. now rewrite Hc in Hn.
  - bprop. destruct (rmatch_advances _ _ _ H1) as [w1 Hw1], (rmatch_advances _ _ _ H2) as [w2 Hw2].
    rewrite (advances_inj _ _ _ _ Hadv (advances_trans _ _ _ _ _ Hw1 Hw2)) in Hhd.
    apply app_hd_error in Hhd as [Hhd|[-> Hhd]]; [eapply IH1; eauto|].
    apply orb_true_iff in H0 as [H0|H0]; [|eapply IH2; eauto].
    bprop. apply rmatch_min_len in H1. destruct Hw1 as [Ha _]. rewrite Ha in H1. cbn in H1. lia.
  - bprop. eapply IH1; eauto.
  - bprop. eapply IH1; eauto.
  - destruct (rmatch_advances _ _ _ H1) as [w1 Hw1], (rmatch_advances _ _ _ H2) as [w2 Hw2].
    rewrite (advances_inj _ _ _ _ Hadv (advances_trans _ _ _ _ _ Hw1 Hw2)) in Hhd.
    apply app_hd_error in Hhd as [Hhd|[-> Hhd]]; [eapply IH1; eauto|].
    destruct Hw1 as [Ha _]. cbn in Ha. rewrite Ha in Hl. lia.
  - eapply IH1; eauto.
Qed.

(** A greedy star of a character class takes the longest run of the class. *)
Lemma m_star_class {R} k (kont : mstate -> option R) : (forall st, kont st <> None) ->
  forall n b a cs, length a <= n ->
  m_star (RChr k) kont n (MS b a cs) =
  kont (MS (rev (take_while (fun c => cls_in c k) a) ++ b) (drop_while (fun c => cls_in c k) a) cs).
Proof.
  intros Hk. induction n as [|n IH]; intros b a cs Hn.
  - destruct a; [reflexivity|cbn in Hn; lia].
  - cbn [m_star m after before caps]. destruct a as [|x a]; [reflexivity|].
    cbn [take_while drop_while]. destruct (cls_in x k); [|reflexivity].
    cbn [after length]. rewrite (proj2 (Nat.ltb_lt _ _)) by lia.
    rewrite IH by (cbn in Hn; lia). cbn. rewrite <- app_assoc. cbn.
    now destruct (kont _) eqn:E; [|apply Hk in E].
Qed.

(** ** The scanning loop

    [while ((match = pattern.exec(s)) !== null) { body }]: the body updates the loop's variables
    and leaves [pattern.lastIndex] alone.  [None] is an exhausted budget, never the result of a
    pattern that cannot match the empty string when the budget exceeds the length ([exec_loop_total]). *)
Fixpoint exec_loop {A} (fuel : nat) (r : regex) (s : jsstring) (body : A -> rmatch_result -> A)
  (last : nat) (a : A) : option A :=
  match fuel with
  | O => None
  | S n => match exec r s last with
           | None => Some a
           | Some mt => exec_loop n r s body (m_end mt) (body a mt)
           end
  end.

Definition exec_while {A} (r : regex) (s : jsstring) (body : A -> rmatch_result -> A) (a : A) : option A :=
  exec_loop (S (length s)) r s body 0 a.

Lemma exec_loop_total {A} r s (body : A -> rmatch_result -> A) : 0 < min_len r ->
  forall fuel last a, length s < fuel + last -> 0 < fuel ->
  exists a', exec_loop fuel r s body last a = Some a'.
Proof.
  intros Hr. induction fuel as [|n IH]; intros last a Hf Hp; [lia|]. cbn [exec_loop].
  destruct (exec r s last) eqn:E; [|eauto].
  pose proof (exec_nonempty _ _ _ _ Hr E). apply exec_spec in E as (Hi & He & _).
  destruct n as [|n].
  - lia.
  - apply IH; lia.
Qed.

Lemma exec_loop_inv {A} (P : nat -> A -> Prop) r s (body : A -> rmatch_result -> A) :
  (forall last a mt, P last a -> exec r s last = Some mt -> P (m_end mt) (body a mt)) ->
  forall fuel last a a', P last a -> exec_loop fuel r s body last a = Some a' ->
  exists last', P last' a' /\ exec r s last' = None.
Proof.
  intros Hstep. induction fuel as [|n IH]; intros last a a' HP H; cbn [exec_loop] in H; [discriminate|].
  destruct (exec r s last) eqn:E; [eapply IH; [|exact H]; eauto|].
  injection H as <-. eauto.
Qed.

(** The rule for the whole loop: it returns, and an invariant of its body holds at the exit. *)
Lemma exec_while_spec {A} (P : nat -> A -> Prop) r s (body : A -> rmatch_result -> A) a :
  0 < min_len r -> P 0 a ->
  (forall last a mt, P last a -> exec r s last = Some mt -> P (m_end mt) (body a mt)) ->
  exists a' last, exec_while r s body a = Some a' /\ P last a' /\ exec r s last = None.
Proof.
  intros Hr H0 Hstep. unfold exec_while.
  destruct (exec_loop_total r s body Hr (S (length s)) 0 a ltac:(lia) ltac:(lia)) as [a' Ha'].
  destruct (exec_loop_inv P r s body Hstep _ _ _ _ H0 Ha') as (last & HP & Hn). eauto.
Qed.

(** ** [String.prototype.replace] with an empty replacement *)

(** [s.replace(re, '')]: the first match is removed. *)
Definition replace_first (re : regex) (s : jsstring) : jsstring :=
  match exec re s 0 with
  | Some mt => slice 0 (m_index mt) s ++ slice_from (m_end mt) s
  | None => s
  end.

(** [s.replace(re, '')] with the global flag, for a pattern that matches no empty string. *)
Definition replace_all (re : regex) (s : jsstring) : option jsstring :=
  option_map (fun st : jsstring * nat => fst st ++ slice_from (snd st) s)
    (exec_while re s (fun st mt => (fst st ++ slice (snd st) (m_index mt) s, m_end mt)) ([], 0)).

(** ** More on stars of a class *)

Lemma m_chr_cons {R} k x b a cs (kont : mstate -> option R) :
  m (RChr k) (MS b (x :: a) cs) kont = if cls_in x k then kont (MS (x :: b) a cs) else None.
Proof. reflexivity. Qed.

Section StarClass.
Context (k : cclass).
Let inb (c : N) : bool := cls_in c k.

(** Up to the end of the input: everything must be in the class. *)
Lemma m_star_class_eol {R} (kont : mstate -> option R) : (forall st, kont st <> None) ->
  forall n b a cs, length a <= n ->
  m_star (RChr k) (fun st => m REol st kont) n (MS b a cs)
  = if forallb inb a then kont (MS (rev a ++ b) [] cs) else None.
Proof.
  intros Hk. induction n as [|n IH]; intros b a cs Hn.
  - destruct a; [reflexivity|cbn in Hn; lia].
  - cbn [m_star]. destruct a as [|x a]; [reflexivity|]. cbn [m after before caps forallb]. fold (inb x).
    destruct (inb x); [|reflexivity]. cbn [after length andb]. rewrite (proj2 (Nat.ltb_lt _ _)) by lia.
    rewrite IH by (cbn in Hn; lia). cbn [rev]. rewrite <- app_assoc. cbn [app]. destruct (forallb inb a); [|reflexivity].
    now destruct (kont _) eqn:E; [|apply Hk in E].
Qed.
End StarClass.

(** The class of every character, [[\s\S]]. *)
Definition c_any : cclass := Cls true [].

(** A greedy [[\s\S]*] followed by a character reaches the last occurrence of that character. *)
Lemma m_star_any_last c : forall n b a cs, length a <= n ->
  match m_star (RChr c_any) (fun st => m (rch c) st Some) n (MS b a cs) with
  | Some st => ~ In c (after st)
  | None => ~ In c a
  end.
Proof.
  induction n as [|n IH]; intros b a cs Hn; (destruct a as [|x a]; [cbn; tauto|]); [cbn in Hn; lia|].
  cbn [m_star m after before caps]. cbn [cls_in c_any cls_neg cls_ranges existsb xorb after length].
  rewrite (proj2 (Nat.ltb_lt _ _)) by lia. specialize (IH (x :: b) a cs ltac:(cbn in Hn; lia)).
  destruct (m_star _ _ n _) as [st|]; [exact IH|]. unfold rch. cbn [m after before caps].
  destruct (cls_in x (c_one c)) eqn:E; cbn [after]; [exact IH|]. intros [->|H]; [|contradiction].
  unfold cls_in, c_one, singles in E. cbn in E. unfold in_range in E. cbn in E. now rewrite N.leb_refl in E.
Qed.

Lemma m_seq {R} r1 r2 st (k : mstate -> option R) : m (r1 · r2) st k = m r1 st (fun st' => m r2 st' k).
Proof. reflexivity. Qed.

Lemma rmatch_ch c b a cs : rmatch (rch c) (MS b (c :: a) cs) (MS (c :: b) a cs).
Proof. apply rm_chr. unfold cls_in, c_one, singles, in_range. cbn. now rewrite N.leb_refl. Qed.

Lemma rmatch_any w : forall b a cs, rmatch (RStar (RChr c_any)) (MS b (w ++ a) cs) (MS (rev w ++ b) a cs).
Proof.
  induction w as [|x w IH]; intros b a cs; cbn [app rev]; [constructor|]. rewrite <- app_assoc.
  eapply rm_star1; [now apply rm_chr|cbn; lia|apply IH].
Qed.

Lemma rmatch_word s : forall b a cs, rmatch (rword s) (MS b (js s ++ a) cs) (MS (rev (js s) ++ b) a cs).
Proof.
  unfold rword. induction (js s) as [|x w IH]; intros b a cs; cbn [app rev fold_right]; [constructor|]. rewrite <- app_assoc.
  eapply rm_seq; [apply rmatch_ch|apply IH].
Qed.

Lemma search_first r b a st :
  m r (MS b a []) Some = Some st -> search r b a = Some (RM (length b) (consumed (MS b a []) st) (caps st)).
Proof. intros H. destruct a; cbn [search]; now rewrite H. Qed.
