(* ===== verification/Highlight.v ===== *)
(** * The syntax highlighter ([website/lib/highlight.ts])

    The line tokenizers of the code blocks: comment detection, one tokenizer per language, and
    [highlightLine], which dispatches on the language.  Regular expressions are terms of
    [Regex.regex] written in the order of the source's alternatives; the [while (exec)] loops are
    [Regex.exec_while].  A tokenizer returns [option (list Token)]: [None] would be a scanning loop
    that ran out of its budget, and the theorems show it never happens. *)

From Stdlib Require Import String Ascii List Arith NArith Lia Bool.
From S2P Require Import Prelude JsString Regex.
Import ListNotations.
Local Open Scope list_scope.
Local Open Scope regex_scope.

(** ** Data *)

Inductive TokenType :=
| tt_plain | tt_comment | tt_key | tt_string | tt_number | tt_flag | tt_command | tt_keyword | tt_punct.

Record Token := Tok { text : jsstring; type : TokenType }.

Inductive Language := l_yaml | l_bash | l_shell | l_go | l_json | l_text.

(** ** Patterns *)

Definition rc (a : ascii) : regex := rch (N_of_ascii a).
Fixpoint ralts (l : list regex) : regex :=
  match l with [] => REps | [r] => r | r :: l' => r ∥ ralts l' end.
Definition rb_word (s : string) : regex := RWordB · rword s · RWordB.
Definition r_dq_string : regex := rch dquote · RStar (RChr (c_not [dquote])) · rch dquote.
Definition r_sq_string : regex := rch squote · RStar (RChr (c_not [squote])) · rch squote.
Definition r_bt_string : regex := rch backtick · RStar (RChr (c_not [backtick])) · rch backtick.
Definition r_digits : regex := rplus (RChr c_digit).

Definition GO_KEYWORDS : regex :=
  RWordB · RGrp 1 (ralts (map rword
    ["package"; "import"; "func"; "return"; "if"; "else"; "for"; "range"; "var"; "const"; "type";
     "struct"; "interface"; "map"; "chan"; "go"; "defer"; "select"; "case"; "switch"; "break";
     "continue"; "nil"; "true"; "false"]%string)) · RWordB.

Definition yaml_key_re : regex :=
  RBol · RGrp 1 (RStar (RChr c_space)) · RGrp 2 (rplus (RChr (Cls false (alnum ++ singles (js "_.-/")))))
  · RGrp 3 (rc ":") · RGrp 4 (RStar (RChr c_space)).

Definition yaml_list_re : regex :=
  RBol · RGrp 1 (RStar (RChr c_space)) · RGrp 2 (rc "-") · RGrp 3 (rplus (RChr c_space)).

Definition yaml_value_re : regex :=
  RGrp 1 (ralts
    [r_dq_string; r_sq_string;
     rc "{" · RStar (RChr (c_not (js "}"))) · rc "}";
     rc "[" · RStar (RChr (c_not (js "]"))) · rc "]";
     rb_word "true"; rb_word "false"; rb_word "null";
     RWordB · r_digits · ropt (rc "." · r_digits) · ropt (rplus (RChr (Cls false alpha))) · RWordB]).

Definition yaml_string_start_re : regex :=
  RBol · RChr (Cls false (singles [dquote; squote; 123; 91; 32]%N)).

Definition keyword_value_re : regex :=
  RBol · RGrp 1 (ralts [rword "true"; rword "false"; rword "null"]) · REol.

Definition bash_re : regex :=
  RGrp 1 (ralts
    [r_dq_string; r_sq_string;
     rc "$" · rc "{" · RStar (RChr (c_not (js "}"))) · rc "}";
     rc "$" · RChr (Cls false (alpha ++ singles (js "_"))) · RStar (RChr (Cls false (alnum ++ singles (js "_"))));
     rc "-" · ropt (rc "-") · RChr (Cls false alpha) · RStar (RChr (Cls false (alnum ++ singles (js "-"))));
     rword "||"; rword "&&"; rc "|"; rc ">"; rc "<";
     RWordB · r_digits · RWordB]).

Definition bash_quote_start_re : regex := RBol · RChr (Cls false (singles [dquote; squote])).
Definition bash_punct_re : regex :=
  RBol · RGrp 1 (ralts [rword "||"; rword "&&"; rc "|"; rc ">"; rc "<"]) · REol.
Definition bash_number_re : regex := RBol · r_digits · REol.
Definition leading_ws_re : regex := RBol · RStar (RChr c_space).

Definition go_string_re : regex := RGrp 1 (ralts [r_dq_string; r_bt_string; r_sq_string]).

(** The inside of a JSON string: anything but a quote or a backslash, or an escape. *)
Definition json_string_unit : regex := RChr (c_not [dquote; 92]%N) ∥ rc "\" · RChr c_dot.
Definition json_string : regex := rch dquote · RStar json_string_unit · rch dquote.
Definition json_key_test_re : regex := json_string · RLook (RStar (RChr c_space) · rc ":").

Definition json_re : regex :=
  RGrp 1 (ralts
    [json_key_test_re; json_string;
     rb_word "true"; rb_word "false"; rb_word "null";
     ropt (rc "-") · RWordB · r_digits · ropt (rc "." · r_digits) · RWordB;
     RChr (Cls false (singles (js "{}[],:")))]).

Definition json_number_start_re : regex := RBol · ropt (rc "-") · RChr c_digit.

(** ** Comment detection *)

(** The loop of [findCommentStart] at index [i], [prev] being [line[i - 1]].  The result [-1] of
    the source is [None]. *)
Fixpoint findCommentStart_at (inSingle inDouble : bool) (prev : option N) (i : nat) (rest : jsstring)
  : option nat :=
  match rest with
  | [] => None
  | char :: rest' =>
      if (char =? squote)%N && negb inDouble
      then findCommentStart_at (negb inSingle) inDouble (Some char) (S i) rest'
      else if (char =? dquote)%N && negb inSingle
      then findCommentStart_at inSingle (negb inDouble) (Some char) (S i) rest'
      else if (char =? N_of_ascii "#")%N && negb inSingle && negb inDouble
      then if match prev with None => true | Some p => is_ws p end
           then Some i
           else findCommentStart_at inSingle inDouble (Some char) (S i) rest'
      else findCommentStart_at inSingle inDouble (Some char) (S i) rest'
  end.

Definition findCommentStart (line : jsstring) : option nat :=
  findCommentStart_at false false None 0 line.

Fixpoint findGoCommentStart_at (inDouble inBacktick : bool) (i : nat) (rest : jsstring) : option nat :=
  match rest with
  | [] => None
  | char :: rest' =>
      if (char =? dquote)%N && negb inBacktick
      then findGoCommentStart_at (negb inDouble) inBacktick (S i) rest'
      else if (char =? backtick)%N
      then findGoCommentStart_at inDouble (negb inBacktick) (S i) rest'
      else if (char =? 47)%N && match rest' with c :: _ => (c =? 47)%N | [] => false end
              && negb inDouble && negb inBacktick
      then Some i
      else findGoCommentStart_at inDouble inBacktick (S i) rest'
  end.

Definition findGoCommentStart (line : jsstring) : option nat := findGoCommentStart_at false false 0 line.

(** ** Tokenizers *)

(** [if (s) tokens.push({ text: s, type })]. *)
Definition push_if (tokens : list Token) (s : jsstring) (ty : TokenType) : list Token :=
  match s with [] => tokens | _ :: _ => tokens ++ [Tok s ty] end.

(** [if (match.index > lastIndex) tokens.push({ text: s.slice(lastIndex, match.index), type: plain })]. *)
Definition push_gap (s : jsstring) (tokens : list Token) (lastIndex index : nat) : list Token :=
  if lastIndex <? index then tokens ++ [Tok (slice lastIndex index s) tt_plain] else tokens.

(** [if (lastIndex < s.length) tokens.push({ text: s.slice(lastIndex), type: plain })]. *)
Definition push_rest (s : jsstring) (tokens : list Token) (lastIndex : nat) : list Token :=
  if lastIndex <? length s then tokens ++ [Tok (slice_from lastIndex s) tt_plain] else tokens.

Definition group (mt : rmatch_result) (g : nat) : jsstring := default_of [] (cap mt g).

Definition yaml_value_type (value : jsstring) : TokenType :=
  if test yaml_string_start_re value || startsWith value (js "{") || startsWith value (js "[")
  then tt_string
  else if test keyword_value_re value then tt_keyword else tt_number.

(** The key or list prefix: its tokens and the rest of the line. *)
Definition yaml_prefix (code : jsstring) : list Token * jsstring :=
  match exec yaml_key_re code 0 with
  | Some keyMatch =>
      let tokens := push_if [] (group keyMatch 1) tt_plain in
      let tokens := tokens ++ [Tok (group keyMatch 2) tt_key] in
      let tokens := tokens ++ [Tok (group keyMatch 3) tt_punct] in
      let tokens := push_if tokens (group keyMatch 4) tt_plain in
      (tokens, slice_from (length (m_text keyMatch)) code)
  | None =>
      match exec yaml_list_re code 0 with
      | Some listMatch =>
          let tokens := push_if [] (group listMatch 1) tt_plain in
          let tokens := tokens ++ [Tok (group listMatch 2) tt_punct] in
          let tokens := tokens ++ [Tok (group listMatch 3) tt_plain] in
          (tokens, slice_from (length (m_text listMatch)) code)
      | None => ([], code)
      end
  end.

Definition yaml_step (rest : jsstring) (st : list Token * nat) (mt : rmatch_result) : list Token * nat :=
  let '(tokens, lastIndex) := st in
  let tokens := push_gap rest tokens lastIndex (m_index mt) in
  let value := m_text mt in
  (tokens ++ [Tok value (yaml_value_type value)], m_index mt + length value).

Definition tokenizeYaml (code : jsstring) : option (list Token) :=
  let '(tokens, rest) := yaml_prefix code in
  match exec_while yaml_value_re rest (yaml_step rest) (tokens, 0) with
  | Some (tokens, lastIndex) => Some (push_rest rest tokens lastIndex)
  | None => None
  end.

(** The closure [pushPlain] of [tokenizeBash]: it reads and clears [first]. *)
Definition pushPlain (st : list Token * bool) (t : jsstring) : list Token * bool :=
  let '(tokens, first) := st in
  match t with
  | [] => (tokens, first)
  | _ :: _ =>
      if first && (0 <? length (trim t)) then
        let leading := match exec leading_ws_re t 0 with Some mt => m_text mt | None => [] end in
        let word := trimEnd t in
        let tokens := push_if tokens leading tt_plain in
        (tokens ++ [Tok word tt_command], false)
      else (tokens ++ [Tok t tt_plain], first)
  end.

Definition bash_value_type (value : jsstring) : TokenType :=
  if test bash_quote_start_re value then tt_string
  else if startsWith value (js "$") then tt_string
  else if startsWith value (js "-") then tt_flag
  else if test bash_punct_re value then tt_punct
  else if test bash_number_re value then tt_number
  else tt_plain.

Definition bash_step (code : jsstring) (st : list Token * bool * nat) (mt : rmatch_result)
  : list Token * bool * nat :=
  let '(tokens, first, lastIndex) := st in
  let '(tokens, first) :=
    if lastIndex <? m_index mt then pushPlain (tokens, first) (slice lastIndex (m_index mt) code)
    else (tokens, first) in
  let value := m_text mt in
  (tokens ++ [Tok value (bash_value_type value)], false, m_index mt + length value).

Definition tokenizeBash (code : jsstring) : option (list Token) :=
  match exec_while bash_re code (bash_step code) ([], true, 0) with
  | Some (tokens, first, lastIndex) =>
      Some (if lastIndex <? length code
            then fst (pushPlain (tokens, first) (slice_from lastIndex code)) else tokens)
  | None => None
  end.

Definition go_word_step (t : jsstring) (st : list Token * nat) (mt : rmatch_result) : list Token * nat :=
  let '(tokens, index) := st in
  let tokens := push_gap t tokens index (m_index mt) in
  (tokens ++ [Tok (m_text mt) tt_keyword], m_index mt + length (m_text mt)).

(** The closure [pushCode] of [tokenizeGo]. *)
Definition pushCode (tokens : list Token) (t : jsstring) : option (list Token) :=
  match t with
  | [] => Some tokens
  | _ :: _ =>
      match exec_while GO_KEYWORDS t (go_word_step t) (tokens, 0) with
      | Some (tokens, index) => Some (push_rest t tokens index)
      | None => None
      end
  end.

Definition go_step (code : jsstring) (st : option (list Token) * nat) (mt : rmatch_result)
  : option (list Token) * nat :=
  let '(tokens, lastIndex) := st in
  let tokens :=
    if lastIndex <? m_index mt
    then match tokens with
         | Some toks => pushCode toks (slice lastIndex (m_index mt) code)
         | None => None
         end
    else tokens in
  (option_map (fun toks => toks ++ [Tok (m_text mt) tt_string]) tokens,
   m_index mt + length (m_text mt)).

Definition tokenizeGo (code : jsstring) : option (list Token) :=
  match exec_while go_string_re code (go_step code) (Some [], 0) with
  | Some (Some tokens, lastIndex) =>
      if lastIndex <? length code then pushCode tokens (slice_from lastIndex code) else Some tokens
  | _ => None
  end.

Definition json_value_type (value : jsstring) : TokenType :=
  if startsWith value [dquote] then (if test json_key_test_re value then tt_key else tt_string)
  else if test keyword_value_re value then tt_keyword
  else if test json_number_start_re value then tt_number
  else tt_punct.

Definition json_step (code : jsstring) (st : list Token * nat) (mt : rmatch_result) : list Token * nat :=
  let '(tokens, lastIndex) := st in
  let tokens := push_gap code tokens lastIndex (m_index mt) in
  let value := m_text mt in
  (tokens ++ [Tok value (json_value_type value)], m_index mt + length value).

Definition tokenizeJson (code : jsstring) : option (list Token) :=
  match exec_while json_re code (json_step code) ([], 0) with
  | Some (tokens, lastIndex) => Some (push_rest code tokens lastIndex)
  | None => None
  end.

Definition tokenizeWith (language : Language) (code : jsstring) : option (list Token) :=
  match language with
  | l_yaml => tokenizeYaml code
  | l_json => tokenizeJson code
  | _ => tokenizeBash code
  end.

Definition highlightLine (line : jsstring) (language : Language) : option (list Token) :=
  match language with
  | l_text => Some [Tok line tt_plain]
  | l_go =>
      match findGoCommentStart line with
      | Some comment =>
          option_map (fun tokens => tokens ++ [Tok (slice_from comment line) tt_comment])
            (tokenizeGo (slice 0 comment line))
      | None => tokenizeGo line
      end
  | _ =>
      let comment := findCommentStart line in
      let code := match comment with Some c => slice 0 c line | None => line end in
      option_map
        (fun tokens => match comment with
                       | Some c => tokens ++ [Tok (slice_from c line) tt_comment]
                       | None => tokens
                       end)
        (tokenizeWith language code)
  end.

Definition TOKEN_CLASS (ty : TokenType) : jsstring :=
  match ty with
  | tt_plain => js ""
  | tt_comment => js "text-slate-500 italic"
  | tt_key => js "text-sky-300"
  | tt_string => js "text-emerald-300/90"
  | tt_number => js "text-amber-300/90"
  | tt_flag => js "text-violet-300/90"
  | tt_command => js "text-sky-200 font-medium"
  | tt_keyword => js "text-fuchsia-300/90"
  | tt_punct => js "text-slate-400"
  end.

Definition tokenClassName (ty : TokenType) : jsstring := TOKEN_CLASS ty.

(** ** The text of a token list *)

Definition texts (tokens : list Token) : jsstring := concat (map text tokens).
#[global] Arguments texts : simpl never.

(** No span of the rendered line is empty. *)
Definition solid (tokens : list Token) : Prop := Forall (fun t => text t <> []) tokens.

Lemma texts_app a b : texts (a ++ b) = texts a ++ texts b.
Proof. unfold texts. now rewrite map_app, concat_app. Qed.

Lemma texts_one s ty : texts [Tok s ty] = s.
Proof. unfold texts. cbn. apply app_nil_r. Qed.

Lemma solid_snoc tokens s ty : solid tokens -> s <> [] -> solid (tokens ++ [Tok s ty]).
Proof. intros H Hs. apply Forall_app. split; [exact H|]. repeat constructor. exact Hs. Qed.

#[export] Hint Rewrite texts_app texts_one app_nil_r : kubecell.
#[export] Hint Resolve solid_snoc : kubecell.

Lemma push_if_texts tokens s ty : texts (push_if tokens s ty) = texts tokens ++ s.
Proof. destruct s; cbn; autorewrite with kubecell; reflexivity. Qed.

Lemma push_if_solid tokens s ty : solid tokens -> solid (push_if tokens s ty).
Proof. intros H. destruct s; cbn; [exact H|]. apply solid_snoc; [exact H|discriminate]. Qed.

Lemma push_gap_texts s tokens a b : a <= b -> texts (push_gap s tokens a b) = texts tokens ++ slice a b s.
Proof.
  intros H. unfold push_gap. destruct (Nat.ltb_spec a b); autorewrite with kubecell; [reflexivity|].
  replace a with b by lia. unfold slice. rewrite Nat.sub_diag. cbn. now rewrite app_nil_r.
Qed.

Lemma push_gap_solid s tokens a b : b <= length s -> solid tokens -> solid (push_gap s tokens a b).
Proof.
  intros Hb H. unfold push_gap. destruct (Nat.ltb_spec a b); [|exact H].
  apply solid_snoc; auto with kubecell.
Qed.

Lemma push_rest_texts s tokens a : texts (push_rest s tokens a) = texts tokens ++ slice_from a s.
Proof.
  unfold push_rest. destruct (Nat.ltb_spec a (length s)); autorewrite with kubecell; [reflexivity|].
  rewrite slice_from_end by lia. now rewrite app_nil_r.
Qed.

Lemma push_rest_solid s tokens a : solid tokens -> solid (push_rest s tokens a).
Proof.
  intros H. unfold push_rest. destruct (Nat.ltb_spec a (length s)); [|exact H].
  apply solid_snoc; auto with kubecell.
Qed.

#[export] Hint Resolve push_if_solid push_gap_solid push_rest_solid : kubecell.

(** ** The scanning loops

    [scanned pre s Q last (tokens, lastIndex)]: the invariant of a loop over [s] that starts after
    the text [pre]: the loop's own [lastIndex] is the pattern's, everything before it has been
    emitted, no token is empty and every token satisfies [Q]. *)
Definition scanned (pre s : jsstring) (Q : Token -> Prop) (last : nat) (st : list Token * nat) : Prop :=
  snd st = last /\ last <= length s /\ texts (fst st) = pre ++ slice 0 last s /\ solid (fst st) /\
  Forall Q (fst st).

Lemma emit_match r s last mt pre tokens ty :
  0 < min_len r -> exec r s last = Some mt -> last <= length s ->
  texts tokens = pre ++ slice 0 last s -> solid tokens ->
  texts (push_gap s tokens last (m_index mt) ++ [Tok (m_text mt) ty]) = pre ++ slice 0 (m_end mt) s /\
  solid (push_gap s tokens last (m_index mt) ++ [Tok (m_text mt) ty]).
Proof.
  intros Hr E Hl Ht Hs. pose proof (exec_nonempty _ _ _ _ Hr E) as Hne.
  apply exec_spec in E as (Hi & He & Htx & _). split.
  - rewrite texts_app, push_gap_texts, texts_one, Ht, Htx by lia.
    rewrite <- !app_assoc. do 2 f_equal. rewrite slice_app by lia. apply slice_app; lia.
  - apply solid_snoc; [apply push_gap_solid; [lia|exact Hs]|].
    rewrite Htx. apply slice_nonempty; lia.
Qed.

Section PlainLoop.
(** The loops of [tokenizeYaml], [tokenizeJson] and [pushCode]: the gap as a plain token, then
    the match with the type [f] gives its text. *)
Context (r : regex) (s pre : jsstring) (f : jsstring -> TokenType) (Q : Token -> Prop).
Context (step : list Token * nat -> rmatch_result -> list Token * nat).
Context (Hr : 0 < min_len r).
Context (Hstep : forall tokens last mt,
  step (tokens, last) mt =
  (push_gap s tokens last (m_index mt) ++ [Tok (m_text mt) (f (m_text mt))], m_end mt)).
Context (Qplain : forall t, Q (Tok t tt_plain)).
Context (Qmatch : forall last mt, exec r s last = Some mt -> Q (Tok (m_text mt) (f (m_text mt)))).

Lemma plain_loop tokens0 : texts tokens0 = pre -> solid tokens0 -> Forall Q tokens0 ->
  exists tokens last,
    exec_while r s step (tokens0, 0) = Some (tokens, last) /\
    texts (push_rest s tokens last) = pre ++ s /\ solid (push_rest s tokens last) /\
    Forall Q (push_rest s tokens last).
Proof using All.
  intros H0 Hs0 HQ0.
  destruct (exec_while_spec (scanned pre s Q) r s step (tokens0, 0) Hr) as ([tokens li] & last & E & HP & _).
  - unfold scanned. cbn. rewrite app_nil_r. repeat split; auto. lia.
  - intros last [tokens li] mt (Hli & Hl & Ht & Hs & HQ) E. cbn in *. subst li.
    rewrite Hstep. unfold scanned. cbn [fst snd].
    destruct (emit_match r s last mt pre tokens (f (m_text mt)) Hr E Hl Ht Hs) as [Ht' Hs'].
    repeat split; auto; [now apply exec_spec in E as (_ & ? & _)|].
    apply Forall_app. split; [|repeat constructor; eauto].
    unfold push_gap. destruct (last <? m_index mt); [|exact HQ].
    apply Forall_app. split; [exact HQ|repeat constructor; apply Qplain].
  - destruct HP as (Hli & Hl & Ht & Hs & HQ). cbn in *. subst li. exists tokens, last.
    repeat split; auto with kubecell.
    + rewrite push_rest_texts, Ht, <- app_assoc. f_equal. rewrite slice_to_end by lia. reflexivity.
    + unfold push_rest. destruct (last <? length s); [|exact HQ].
      apply Forall_app. split; [exact HQ|repeat constructor; apply Qplain].
Qed.
End PlainLoop.

Definition any_token (_ : Token) : Prop := True.
Lemma any_tokens l : Forall any_token l.
Proof. apply Forall_forall. unfold any_token. auto. Qed.
#[export] Hint Resolve any_tokens : kubecell.

(** *** YAML *)

(** An anchored match starts at the beginning of the string. *)
Lemma exec_bol r s last mt : exec (RBol · r) s last = Some mt ->
  m_index mt = 0 /\
  exists st, rmatch r (MS [] s []) st /\ s = m_text mt ++ after st /\ m_caps mt = caps st.
Proof.
  intros E. apply exec_spec in E as (Hi & He & Htx & st & Hm & Ha & Hc).
  apply rmatch_seq_inv in Hm as (st0 & Hb & Hm). apply rmatch_bol_inv in Hb as [-> Hbol].
  cbn in Hbol. assert (Hz : m_index mt = 0).
  { apply (f_equal (@length N)) in Hbol. rewrite length_rev, length_firstn in Hbol.
    unfold m_end in He. cbn in Hbol. lia. }
  rewrite Hz in *. cbn in Hm. split; [reflexivity|].
  exists st. repeat split; auto. now rewrite Ha, Htx, slice_0, firstn_skipn.
Qed.

Lemma cap_eq mt g w l : m_caps mt = (g, w) :: l -> group mt g = w.
Proof. intros H. unfold group, cap. rewrite H. cbn. now rewrite Nat.eqb_refl. Qed.

Lemma cap_ne mt g g' w l : m_caps mt = (g', w) :: l -> g' <> g ->
  group mt g = default_of [] (option_map snd (find (fun p => fst p =? g) l)).
Proof.
  intros H Hne. unfold group, cap. rewrite H. cbn. now rewrite (proj2 (Nat.eqb_neq _ _)) by auto.
Qed.

(** One group of an anchored pattern: what it consumed is the text of its capture. *)
Lemma peel_group g r r' st st' : has_group r = false -> rmatch (RGrp g r · r') st st' ->
  exists w st1, after st = w ++ after st1 /\ caps st1 = (g, w) :: caps st /\ min_len r <= length w /\
                rmatch r' st1 st'.
Proof.
  intros Hg H. apply rmatch_seq_inv in H as (st1 & H1 & H2).
  apply rmatch_grp_inv in H1 as (w & [Ha _] & Hc & Hl); [|exact Hg]. eauto 8.
Qed.

Lemma last_group g r st st' : has_group r = false -> rmatch (RGrp g r) st st' ->
  exists w, after st = w ++ after st' /\ caps st' = (g, w) :: caps st /\ min_len r <= length w.
Proof. intros Hg H. apply rmatch_grp_inv in H as (w & [Ha _] & Hc & Hl); eauto. Qed.

Lemma nonempty_of_length {A} (l : list A) : 1 <= length l -> l <> [].
Proof. destruct l; cbn; [lia|discriminate]. Qed.

Lemma yaml_key_groups code last mt : exec yaml_key_re code last = Some mt ->
  m_text mt = group mt 1 ++ group mt 2 ++ group mt 3 ++ group mt 4 /\
  group mt 2 <> [] /\ group mt 3 <> [] /\ code = m_text mt ++ slice_from (length (m_text mt)) code.
Proof.
  intros E. apply exec_bol in E as (_ & st & Hm & Hcode & Hcaps).
  apply peel_group in Hm as (w1 & st1 & H1 & C1 & _ & Hm); [|reflexivity].
  apply peel_group in Hm as (w2 & st2 & H2 & C2 & L2 & Hm); [|reflexivity].
  apply peel_group in Hm as (w3 & st3 & H3 & C3 & L3 & Hm); [|reflexivity].
  apply last_group in Hm as (w4 & H4 & C4 & _); [|reflexivity].
  rewrite C4, C3, C2, C1 in Hcaps. cbn in H1, L2, L3.
  pose proof (cap_eq _ _ _ _ Hcaps) as G4.
  assert (G3 : group mt 3 = w3) by (rewrite (cap_ne _ _ _ _ _ Hcaps) by discriminate; reflexivity).
  assert (G2 : group mt 2 = w2) by (rewrite (cap_ne _ _ _ _ _ Hcaps) by discriminate; reflexivity).
  assert (G1 : group mt 1 = w1) by (rewrite (cap_ne _ _ _ _ _ Hcaps) by discriminate; reflexivity).
  rewrite G1, G2, G3, G4. rewrite H2, H3, H4 in H1.
  repeat split; try (apply nonempty_of_length; lia).
  - apply (app_inv_tail (after st)). rewrite <- Hcode, H1. now rewrite <- !app_assoc.
  - rewrite Hcode at 2. now rewrite slice_from_app.
Qed.

Lemma yaml_list_groups code last mt : exec yaml_list_re code last = Some mt ->
  m_text mt = group mt 1 ++ group mt 2 ++ group mt 3 /\
  group mt 2 <> [] /\ group mt 3 <> [] /\ code = m_text mt ++ slice_from (length (m_text mt)) code.
Proof.
  intros E. apply exec_bol in E as (_ & st & Hm & Hcode & Hcaps).
  apply peel_group in Hm as (w1 & st1 & H1 & C1 & _ & Hm); [|reflexivity].
  apply peel_group in Hm as (w2 & st2 & H2 & C2 & L2 & Hm); [|reflexivity].
  apply last_group in Hm as (w3 & H3 & C3 & L3); [|reflexivity].
  rewrite C3, C2, C1 in Hcaps. cbn in H1, L2, L3.
  pose proof (cap_eq _ _ _ _ Hcaps) as G3.
  assert (G2 : group mt 2 = w2) by (rewrite (cap_ne _ _ _ _ _ Hcaps) by discriminate; reflexivity).
  assert (G1 : group mt 1 = w1) by (rewrite (cap_ne _ _ _ _ _ Hcaps) by discriminate; reflexivity).
  rewrite G1, G2, G3. rewrite H2, H3 in H1.
  repeat split; try (apply nonempty_of_length; lia).
  - apply (app_inv_tail (after st)). rewrite <- Hcode, H1. now rewrite <- !app_assoc.
  - rewrite Hcode at 2. now rewrite slice_from_app.
Qed.

Lemma yaml_prefix_spec code tokens rest : yaml_prefix code = (tokens, rest) ->
  texts tokens ++ rest = code /\ solid tokens.
Proof.
  unfold yaml_prefix. intros E.
  destruct (exec yaml_key_re code 0) as [mt|] eqn:Ek; [|destruct (exec yaml_list_re code 0) as [mt|] eqn:El].
  - apply yaml_key_groups in Ek as (Ht & H2 & H3 & Hc). inv E. split.
    + transitivity (m_text mt ++ slice_from (length (m_text mt)) code); [|now symmetry].
      f_equal. rewrite push_if_texts, !texts_app, !texts_one, push_if_texts, Ht.
      now rewrite <- !app_assoc.
    + repeat (apply push_if_solid || apply solid_snoc || assumption || constructor).
  - apply yaml_list_groups in El as (Ht & H2 & H3 & Hc). inv E. split.
    + transitivity (m_text mt ++ slice_from (length (m_text mt)) code); [|now symmetry].
      f_equal. rewrite !texts_app, !texts_one, push_if_texts, Ht. now rewrite <- !app_assoc.
    + repeat (apply push_if_solid || apply solid_snoc || assumption || constructor).
  - inv E. split; [reflexivity|constructor].
Qed.

Lemma tokenizeYaml_spec code :
  exists tokens, tokenizeYaml code = Some tokens /\ texts tokens = code /\ solid tokens.
Proof.
  unfold tokenizeYaml. destruct (yaml_prefix code) as [tokens rest] eqn:E.
  apply yaml_prefix_spec in E as [Ht Hs].
  destruct (plain_loop yaml_value_re rest (texts tokens) yaml_value_type any_token (yaml_step rest))
    with (tokens0 := tokens) as (toks & last & -> & Ht' & Hs' & _);
    try (unfold any_token; cbn; auto with kubecell; lia).
  eexists. split; [reflexivity|]. split; [congruence|assumption].
Qed.

(** *** JSON *)

Lemma tokenizeJson_spec (Q : Token -> Prop) code :
  (forall t, Q (Tok t tt_plain)) ->
  (forall last mt, exec json_re code last = Some mt -> Q (Tok (m_text mt) (json_value_type (m_text mt)))) ->
  exists tokens, tokenizeJson code = Some tokens /\ texts tokens = code /\ solid tokens /\ Forall Q tokens.
Proof.
  intros Qp Qm. unfold tokenizeJson.
  destruct (plain_loop json_re code [] json_value_type Q (json_step code))
    with (tokens0 := @nil Token) as (toks & last & -> & Ht' & Hs' & HQ');
    auto; try (cbn; lia); try constructor.
  eexists. split; [reflexivity|]. auto.
Qed.

(** *** Go *)

Lemma pushCode_spec tokens t : solid tokens ->
  exists tokens', pushCode tokens t = Some tokens' /\ texts tokens' = texts tokens ++ t /\ solid tokens'.
Proof.
  intros Hs. unfold pushCode. destruct t as [|c t]; [exists tokens; now rewrite app_nil_r|].
  destruct (plain_loop GO_KEYWORDS (c :: t) (texts tokens) (fun _ => tt_keyword) any_token
              (go_word_step (c :: t)))
    with (tokens0 := tokens) as (toks & last & -> & Ht' & Hs' & _);
    try (unfold any_token; cbn; auto with kubecell; lia).
  eexists. split; [reflexivity|]. auto.
Qed.

Definition go_scanned (s : jsstring) (last : nat) (st : option (list Token) * nat) : Prop :=
  snd st = last /\ last <= length s /\
  exists tokens, fst st = Some tokens /\ texts tokens = slice 0 last s /\ solid tokens.

Lemma tokenizeGo_spec code :
  exists tokens, tokenizeGo code = Some tokens /\ texts tokens = code /\ solid tokens.
Proof.
  unfold tokenizeGo.
  destruct (exec_while_spec (go_scanned code) go_string_re code (go_step code) (Some [], 0))
    as ([otoks li] & last & -> & (Hli & Hl & tokens & Hto & Ht & Hs) & _).
  - cbn. lia.
  - unfold go_scanned. cbn. repeat split; [lia|]. exists []. repeat constructor.
  - intros last [otoks li] mt (Hli & Hl & tokens & Hto & Ht & Hs) E. cbn in *. subst.
    pose proof (exec_nonempty go_string_re _ _ _ ltac:(cbn; lia) E) as Hne.
    apply exec_spec in E as (Hi & He & Htx & _).
    assert (exists toks', (if last <? m_index mt then pushCode tokens (slice last (m_index mt) code)
               else Some tokens) = Some toks' /\ texts toks' = slice 0 (m_index mt) code /\ solid toks')
      as (toks' & E' & Ht' & Hs').
    { destruct (Nat.ltb_spec last (m_index mt)).
      - destruct (pushCode_spec tokens (slice last (m_index mt) code) Hs) as (t' & ? & Ht' & ?).
        exists t'. repeat split; auto. rewrite Ht', Ht. apply slice_app; lia.
      - exists tokens. repeat split; auto. rewrite Ht. f_equal. lia. }
    unfold go_scanned. cbn. rewrite E'. cbn. repeat split; auto.
    eexists. split; [reflexivity|]. split.
    + rewrite texts_app, texts_one, Ht', Htx. apply slice_app; lia.
    + apply solid_snoc; [assumption|]. rewrite Htx. apply slice_nonempty; lia.
  - cbn in *. subst. destruct (Nat.ltb_spec last (length code)).
    + destruct (pushCode_spec tokens (slice_from last code) Hs) as (t' & -> & Ht' & ?).
      exists t'. repeat split; auto. rewrite Ht', Ht. apply slice_to_end. lia.
    + exists tokens. repeat split; auto. rewrite Ht. replace last with (length code) by lia.
      apply slice_all.
Qed.

(** *** Bash *)

(** The text before the first match of the pattern: the only chunk [pushPlain] may see with
    [first] still set. *)
Definition first_chunk (code : jsstring) : jsstring :=
  match exec bash_re code 0 with Some mt => slice 0 (m_index mt) code | None => code end.

(** What [pushPlain] emits for that chunk: when it is not blank, its leading white space, then the
    chunk without its trailing white space (and so with the leading one a second time). *)
Definition render_first (t : jsstring) : jsstring :=
  if forallb is_ws t then t else take_while is_ws t ++ trimEnd t.

Lemma leading_ws_exec t : exists mt, exec leading_ws_re t 0 = Some mt /\ m_text mt = take_while is_ws t.
Proof.
  unfold exec. cbn [Nat.leb length firstn skipn rev].
  assert (E : m leading_ws_re (MS [] t []) Some
              = Some (MS (rev (take_while is_ws t)) (drop_while is_ws t) [])).
  { change (m_star (RChr c_space) Some (length t) (MS [] t [])
            = Some (MS (rev (take_while is_ws t)) (drop_while is_ws t) [])).
    rewrite m_star_class by (discriminate || lia). now rewrite app_nil_r. }
  destruct t as [|c t]; cbn [search]; rewrite E; eexists; (split; [reflexivity|]); cbn [m_text].
  - reflexivity.
  - apply advances_consumed. split; cbn [after before].
    + symmetry. apply take_drop_while.
    + now rewrite app_nil_r.
Qed.

Lemma trim_blank t : (0 <? length (trim t)) = negb (forallb is_ws t).
Proof.
  unfold trim, trimStart. destruct (forallb is_ws t) eqn:E.
  - apply trimEnd_nil in E. now rewrite E.
  - cbn. apply Nat.ltb_lt. destruct (drop_while is_ws (trimEnd t)) eqn:Ed; [|cbn; lia].
    apply drop_while_nil in Ed. exfalso.
    assert (forallb is_ws t = true); [|congruence].
    rewrite <- (trimEnd_suffix t), forallb_app, Ed, forallb_rev.
    apply take_while_forallb.
Qed.

Lemma pushPlain_first t tokens : t <> [] -> solid tokens ->
  texts (fst (pushPlain (tokens, true) t)) = texts tokens ++ render_first t /\
  solid (fst (pushPlain (tokens, true) t)).
Proof.
  intros Hne Hs. unfold pushPlain, render_first. destruct t as [|c t]; [congruence|].
  rewrite trim_blank. cbn [andb]. destruct (forallb is_ws (c :: t)) eqn:Hb; cbn [negb].
  - cbn [fst]. rewrite texts_app, texts_one. split; [reflexivity|]. apply solid_snoc; auto.
  - destruct (leading_ws_exec (c :: t)) as (mt & -> & Hmt). cbn [fst]. rewrite Hmt.
    rewrite texts_app, texts_one, push_if_texts, app_assoc. split; [reflexivity|].
    apply solid_snoc; [now apply push_if_solid|].
    intros E. apply trimEnd_nil in E. congruence.
Qed.

Lemma pushPlain_later t tokens : t <> [] -> solid tokens ->
  pushPlain (tokens, false) t = (tokens ++ [Tok t tt_plain], false) /\ solid (tokens ++ [Tok t tt_plain]).
Proof. intros Hne Hs. destruct t; [congruence|]. split; [reflexivity|]. now apply solid_snoc. Qed.

(** Loop invariant: before the first match nothing has been emitted; afterwards the first chunk
    has been rendered by [render_first] and everything else verbatim. *)
Definition bash_scanned (code : jsstring) (last : nat) (st : list Token * bool * nat) : Prop :=
  let '(tokens, first, li) := st in
  li = last /\ last <= length code /\ solid tokens /\
  if first then last = 0 /\ tokens = []
  else length (first_chunk code) <= last /\
       texts tokens = render_first (first_chunk code) ++ slice (length (first_chunk code)) last code.

Lemma render_first_nil : render_first [] = [].
Proof. reflexivity. Qed.

Lemma bash_step_scanned code last st mt :
  bash_scanned code last st -> exec bash_re code last = Some mt ->
  bash_scanned code (m_end mt) (bash_step code st mt).
Proof.
  destruct st as [[tokens first] li]. intros (-> & Hl & Hs & Hf) E. unfold bash_step.
  pose proof (exec_nonempty bash_re _ _ _ ltac:(cbn; lia) E) as Hne.
  pose proof (exec_spec _ _ _ _ E) as (Hi & He & Htx & _).
  assert (Hv : m_text mt <> []) by (rewrite Htx; apply slice_nonempty; lia).
  assert (Hlt : m_index mt + length (m_text mt) = m_end mt) by reflexivity.
  destruct first.
  - destruct Hf as [-> ->]. unfold bash_scanned.
    assert (Hc : first_chunk code = slice 0 (m_index mt) code) by (unfold first_chunk; now rewrite E).
    assert (Hcl : length (first_chunk code) = m_index mt) by (rewrite Hc, length_slice; lia).
    destruct (Nat.ltb_spec 0 (m_index mt)) as [Hp|Hp].
    + destruct (pushPlain_first (slice 0 (m_index mt) code) []) as [Ht Hs'];
        [apply slice_nonempty; lia|constructor|].
      destruct (pushPlain ([], true) _) as [tokens' f']. cbn [fst] in *.
      repeat split; auto with kubecell; try lia. rewrite texts_app, texts_one, Ht, Hcl, Hc, Htx.
      reflexivity.
    + assert (Hz : m_index mt = 0) by lia.
      repeat split; auto with kubecell; try lia. rewrite Hcl, Hc, Htx, Hz. cbn [app].
      rewrite texts_one. reflexivity.
  - destruct Hf as [Hc Ht]. unfold bash_scanned.
    destruct (Nat.ltb_spec last (m_index mt)) as [Hp|Hp].
    + destruct (pushPlain_later (slice last (m_index mt) code) tokens) as [-> Hs'];
        [apply slice_nonempty; lia|exact Hs|].
      repeat split; auto with kubecell; try lia.
      rewrite !texts_app, !texts_one, Ht, Htx, <- !app_assoc. f_equal.
      rewrite (slice_app last), slice_app by lia. reflexivity.
    + repeat split; auto with kubecell; try lia.
      rewrite texts_app, texts_one, Ht, Htx, <- app_assoc. f_equal.
      replace last with (m_index mt) by lia. apply slice_app; lia.
Qed.

Lemma tokenizeBash_spec code :
  exists tokens, tokenizeBash code = Some tokens /\ solid tokens /\
    texts tokens = render_first (first_chunk code) ++ slice_from (length (first_chunk code)) code.
Proof.
  unfold tokenizeBash.
  destruct (exec_while_spec (bash_scanned code) bash_re code (bash_step code) ([], true, 0))
    as ([[tokens first] li] & last & -> & (-> & Hl & Hs & Hf) & Hnone).
  - cbn. lia.
  - unfold bash_scanned. repeat split; [lia|constructor].
  - intros. eapply bash_step_scanned; eassumption.
  - destruct first.
    + destruct Hf as [-> ->]. assert (Hc : first_chunk code = code) by (unfold first_chunk; now rewrite Hnone).
      rewrite Hc, (slice_from_end (length code)), app_nil_r by lia. eexists. split; [reflexivity|].
      destruct (Nat.ltb_spec 0 (length code)) as [Hp|Hp].
      * destruct (pushPlain_first (slice_from 0 code) []) as [Ht Hs']; [now apply slice_from_nonempty|constructor|].
        split; [exact Hs'|exact Ht].
      * destruct code; [|cbn in Hp; lia]. split; [constructor|reflexivity].
    + destruct Hf as [Hc Ht]. eexists. split; [reflexivity|].
      destruct (Nat.ltb_spec last (length code)) as [Hp|Hp].
      * destruct (pushPlain_later (slice_from last code) tokens) as [-> Hs'];
          [now apply slice_from_nonempty|exact Hs|].
        split; [exact Hs'|]. cbn [fst]. rewrite texts_app, texts_one, Ht, <- app_assoc. f_equal.
        now apply slice_to_end.
      * split; [exact Hs|]. rewrite Ht. f_equal. apply slice_past_end. lia.
Qed.

(** *** The JSON key test never succeeds on a token *)

(** The inside of a JSON string as words. *)
Inductive junits : jsstring -> Prop :=
| ju_nil : junits []
| ju_plain c w : c <> dquote -> c <> 92%N -> junits w -> junits (c :: w)
| ju_esc d w : junits w -> junits (92%N :: d :: w).

Lemma rmatch_json_unit st st' w : rmatch json_string_unit st st' -> advances st st' w ->
  (exists c, c <> dquote /\ c <> 92%N /\ w = [c]) \/ (exists d, w = [92%N; d]).
Proof.
  intros H Hw. apply rmatch_alt_inv in H as [H|H].
  - left. apply rmatch_chr_inv in H as (c & Hc & Hk). exists c. apply c_not_in in Hk.
    rewrite (advances_inj _ _ _ _ Hw Hc). cbn in Hk. intuition.
  - right. apply rmatch_seq_inv in H as (st1 & H1 & H2).
    apply rmatch_one in H1. apply rmatch_chr_inv in H2 as (d & Hd & _). exists d.
    exact (advances_inj _ _ _ _ Hw (advances_trans _ _ _ _ _ H1 Hd)).
Qed.

Lemma rmatch_json_units st st' : rmatch (RStar json_string_unit) st st' ->
  exists w, advances st st' w /\ junits w.
Proof.
  intros H. remember (RStar json_string_unit) as r eqn:Er. induction H; try discriminate; injection Er as ->.
  - exists []. split; [apply advances_refl|constructor].
  - destruct IHrmatch2 as (w2 & Hw2 & Hj); [reflexivity|].
    destruct (rmatch_advances _ _ _ H) as [w1 Hw1]. exists (w1 ++ w2).
    split; [eapply advances_trans; eassumption|].
    destruct (rmatch_json_unit _ _ _ H Hw1) as [(c & ? & ? & ->)|(d & ->)];
      [now apply ju_plain|now apply ju_esc].
Qed.

Lemma rmatch_json_string st st' : rmatch json_string st st' ->
  exists w, advances st st' (dquote :: w ++ [dquote]) /\ junits w.
Proof.
  intros H. apply rmatch_seq_inv in H as (st1 & H1 & H). apply rmatch_seq_inv in H as (st2 & H2 & H3).
  apply rmatch_one in H1, H3. apply rmatch_json_units in H2 as (w & Hw & Hj).
  exists w. split; [|exact Hj].
  exact (advances_trans _ _ _ _ _ H1 (advances_trans _ _ _ _ _ Hw H3)).
Qed.

Ltac list_clash H :=
  exfalso; apply (f_equal (@length N)) in H;
  repeat (cbn [length app] in H; rewrite length_app in H); cbn [length] in H; lia.

(** The closing quote of a JSON string is determined by its opening one. *)
Lemma junits_close w w' t : junits w -> junits w' -> w ++ [dquote] = w' ++ dquote :: t -> t = [].
Proof.
  intros H. revert w'. induction H as [|c w Hc Hc' H IH|d w H IH]; intros w' H' E.
  - destruct H'; cbn in E; [congruence| |]; list_clash E.
  - destruct H'; cbn in E; inversion E; subst; try congruence. eapply IH; eassumption.
  - destruct H'; cbn in E; inversion E; subst; try congruence. eapply IH; eassumption.
Qed.

(** No JSON string inside the text of a JSON string is followed by anything. *)
Lemma junits_inner w u w' t : junits w -> junits w' ->
  dquote :: w ++ [dquote] = u ++ dquote :: w' ++ dquote :: t -> t = [].
Proof.
  intros H H' E. destruct u as [|q u]; cbn in E.
  - apply (junits_close w w'); congruence.
  - assert (E2 : w ++ [dquote] = u ++ dquote :: w' ++ dquote :: t) by congruence. clear E.
    revert u E2. induction H as [|c w Hc Hc' H IH|d w H IH]; intros u E.
    + list_clash E.
    + destruct u; cbn in E; inversion E; subst; [congruence|]. eauto.
    + destruct u as [|x [|y u]]; cbn in E; inversion E; subst; try congruence.
      * eauto using junits_close.
      * eauto.
Qed.

Lemma json_key_test_false w : junits w -> test json_key_test_re (dquote :: w ++ [dquote]) = false.
Proof.
  intros Hw. unfold test. destruct (exec _ _ 0) as [mt|] eqn:E; [exfalso|reflexivity].
  apply exec_spec in E as (_ & _ & _ & st & Hm & _ & _).
  apply rmatch_seq_inv in Hm as (st1 & Hs & Hl).
  apply rmatch_json_string in Hs as (w' & [Ha _] & Hw'). cbn [after] in Ha.
  assert (Hne : after st1 <> []).
  { apply rmatch_look_inv in Hl as [_ [st2 Hl]]. apply rmatch_min_len in Hl. cbn in Hl.
    apply nonempty_of_length. lia. }
  apply Hne. eapply (junits_inner w (firstn (m_index mt) (dquote :: w ++ [dquote])) w'); eauto.
  rewrite <- (firstn_skipn (m_index mt) (dquote :: w ++ [dquote])) at 1. f_equal. rewrite Ha.
  cbn. now rewrite <- app_assoc.
Qed.

Lemma json_match_no_key code last mt :
  exec json_re code last = Some mt -> json_value_type (m_text mt) <> tt_key.
Proof.
  intros E. unfold json_value_type. destruct (startsWith (m_text mt) [dquote]) eqn:Hq;
    [|repeat case_goal; discriminate].
  apply startsWith_spec in Hq as [rest Hq].
  apply exec_spec in E as (_ & _ & Htx & st & Hm & Ha & _).
  set (st0 := MS _ _ _) in Hm.
  assert (Hadv : exists v, advances st0 st v) by (eapply rmatch_advances; eassumption).
  destruct Hadv as [v Hadv]. assert (Hv : v = m_text mt).
  { pose proof Hadv as [Hv _]. subst st0. cbn [after] in Hv. rewrite Ha in Hv.
    rewrite Htx. apply (app_inv_tail (skipn (m_end mt) code)).
    rewrite <- Hv. symmetry. apply slice_to_end. unfold m_end. lia. }
  subst v. inversion Hm as [| | | | | | |g r' s0 st1 Hm1| | | |]; subst; clear Hm.
  assert (Hadv1 : advances st0 st1 (m_text mt)) by exact Hadv. clear Hadv.
  assert (Hcase : (exists st2, rmatch json_string st0 st2 /\ advances st0 st2 (m_text mt)) \/
                  hd_error (m_text mt) <> Some dquote).
  { apply rmatch_alt_inv in Hm1 as [Hm1|Hm1].
    - apply rmatch_seq_inv in Hm1 as (st2 & Hs & Hl). left. exists st2.
      split; [exact Hs|]. apply rmatch_look_inv in Hl as [-> _]. exact Hadv1.
    - apply rmatch_alt_inv in Hm1 as [Hm1|Hm1]; [left; eauto|right].
      eapply rmatch_hd_not; [eassumption|vm_compute; reflexivity|eassumption]. }
  destruct Hcase as [(st2 & Hs & Hadv2)|Hcase]; [|rewrite Hq in Hcase; cbn in Hcase; congruence].
  apply rmatch_json_string in Hs as (w & Hadv' & Hw).
  rewrite (advances_inj _ _ _ _ Hadv2 Hadv'), json_key_test_false by assumption. discriminate.
Qed.

(** *** Comments *)

(** The quote state [(inSingle, inDouble)] after one unit of the line. *)
Definition quote_step (q : bool * bool) (c : N) : bool * bool :=
  let '(s, d) := q in
  if (c =? squote)%N && negb d then (negb s, d)
  else if (c =? dquote)%N && negb s then (s, negb d) else (s, d).

Definition quote_state (l : jsstring) : bool * bool := fold_left quote_step l (false, false).

(** A hash outside quotes, at the start of the line or after white space. *)
Definition comment_at (line : jsstring) (i : nat) : Prop :=
  nth_error line i = Some 35%N /\ quote_state (firstn i line) = (false, false) /\
  match i with O => True | S j => exists p, nth_error line j = Some p /\ is_ws p = true end.

Lemma quote_state_snoc l c : quote_state (l ++ [c]) = quote_step (quote_state l) c.
Proof. unfold quote_state. now rewrite fold_left_app. Qed.

Lemma firstn_mid {A} (u v : list A) c : firstn (length u) (u ++ c :: v) = u.
Proof. now rewrite firstn_app, firstn_all, Nat.sub_diag, app_nil_r. Qed.

Definition prev_of (seen : jsstring) : option N := hd_error (rev seen).

Lemma prev_of_snoc l c : prev_of (l ++ [c]) = Some c.
Proof. unfold prev_of. now rewrite rev_app_distr. Qed.

Lemma prev_of_spec seen rest :
  match prev_of seen with None => true | Some p => is_ws p end = true <->
  match length seen with
  | O => True
  | S j => exists p, nth_error (seen ++ rest) j = Some p /\ is_ws p = true
  end.
Proof.
  destruct seen as [|x l] using rev_ind; [cbn; tauto|].
  rewrite prev_of_snoc, length_app, Nat.add_comm. cbn. rewrite <- app_assoc. cbn.
  rewrite nth_error_mid. split; [eauto|]. intros (p & E & H). congruence.
Qed.

Lemma comment_at_mid seen c rest : comment_at (seen ++ c :: rest) (length seen) <->
  c = 35%N /\ quote_state seen = (false, false) /\
  match prev_of seen with None => true | Some p => is_ws p end = true.
Proof.
  unfold comment_at. rewrite nth_error_mid, firstn_mid, (prev_of_spec seen (c :: rest)).
  split; intros (H1 & H2); (split; [congruence|exact H2]).
Qed.

Lemma findCommentStart_at_spec rest : forall seen s d,
  quote_state seen = (s, d) ->
  (forall j, j < length seen -> ~ comment_at (seen ++ rest) j) ->
  match findCommentStart_at s d (prev_of seen) (length seen) rest with
  | Some i => comment_at (seen ++ rest) i /\ forall j, j < i -> ~ comment_at (seen ++ rest) j
  | None => forall j, ~ comment_at (seen ++ rest) j
  end.
Proof.
  induction rest as [|c rest IH]; intros seen s d Hq Hold; cbn [findCommentStart_at].
  - intros j Hj. destruct (Nat.lt_ge_cases j (length seen)) as [Hlt|Hge]; [eapply Hold; eassumption|].
    destruct Hj as (Hn & _). rewrite app_nil_r in Hn.
    assert (nth_error seen j = None) by now apply nth_error_None. congruence.
  - assert (Hnext : forall s' d', quote_step (s, d) c = (s', d') -> ~ comment_at (seen ++ c :: rest) (length seen) ->
      match findCommentStart_at s' d' (Some c) (S (length seen)) rest with
      | Some i => comment_at (seen ++ c :: rest) i /\ forall j, j < i -> ~ comment_at (seen ++ c :: rest) j
      | None => forall j, ~ comment_at (seen ++ c :: rest) j
      end).
    { intros s' d' Hs' Hc. replace (seen ++ c :: rest) with ((seen ++ [c]) ++ rest)
        by now rewrite <- app_assoc.
      rewrite <- (prev_of_snoc seen c).
      replace (S (length seen)) with (length (seen ++ [c])) by (rewrite length_app; cbn; lia).
      apply IH; [now rewrite quote_state_snoc, Hq|].
      intros j Hj. rewrite length_app in Hj. cbn in Hj. rewrite <- app_assoc. cbn.
      destruct (Nat.eq_dec j (length seen)) as [->|]; [exact Hc|]. apply Hold. lia. }
    pose proof (comment_at_mid seen c rest) as Hmid. rewrite Hq in Hmid. unfold quote_step in Hnext.
    destruct ((c =? squote)%N && negb d) eqn:E1.
    { apply Hnext; [reflexivity|]. bprop. intros Hc. apply Hmid in Hc as [-> _]. discriminate. }
    destruct ((c =? dquote)%N && negb s) eqn:E2.
    { apply Hnext; [reflexivity|]. bprop. intros Hc. apply Hmid in Hc as [-> _]. discriminate. }
    destruct ((c =? N_of_ascii "#")%N && negb s && negb d) eqn:E3.
    2:{ apply Hnext; [reflexivity|]. intros Hc. apply Hmid in Hc as (-> & E & _). inv E. discriminate. }
    destruct (match prev_of seen with None => true | Some p => is_ws p end) eqn:E4.
    2:{ apply Hnext; [reflexivity|]. intros Hc. apply Hmid in Hc as (_ & _ & E). discriminate. }
    bprop. subst. split; [|exact Hold]. apply Hmid. auto.
Qed.

(** *** The two halves of a highlighted line *)

Definition code_part (line : jsstring) : jsstring :=
  match findCommentStart line with Some c => slice 0 c line | None => line end.

Lemma highlightLine_scripted language line :
  language <> l_go -> language <> l_text ->
  highlightLine line language =
  option_map (fun tokens => match findCommentStart line with
                            | Some c => tokens ++ [Tok (slice_from c line) tt_comment]
                            | None => tokens
                            end) (tokenizeWith language (code_part line)).
Proof. destruct language; intros; try congruence; reflexivity. Qed.

Lemma findCommentStart_lt line c : findCommentStart line = Some c -> c < length line.
Proof.
  intros E. pose proof (findCommentStart_at_spec line [] false false eq_refl) as H.
  cbn in H. unfold findCommentStart, prev_of in E. cbn in H. rewrite E in H.
  destruct H as [(Hn & _) _]; [lia|]. apply nth_error_Some. congruence.
Qed.

Lemma findGoCommentStart_at_lt rest : forall d b i c,
  findGoCommentStart_at d b i rest = Some c -> c < i + length rest.
Proof.
  induction rest as [|x rest IH]; intros d b i c E; cbn [findGoCommentStart_at] in E; [discriminate|].
  cbn [length]. repeat case_hyp E; try (apply IH in E; lia). injection E as <-. lia.
Qed.

Lemma findGoCommentStart_lt line c : findGoCommentStart line = Some c -> c < length line.
Proof. intros E. apply findGoCommentStart_at_lt in E. exact E. Qed.

(** Appending the comment token to the tokens of the code before it. *)
Lemma with_comment line c tokens w :
  c < length line -> texts tokens = w -> solid tokens ->
  texts (tokens ++ [Tok (slice_from c line) tt_comment]) = w ++ slice_from c line /\
  solid (tokens ++ [Tok (slice_from c line) tt_comment]).
Proof.
  intros Hc <- Hs. rewrite texts_app, texts_one. split; [reflexivity|].
  apply solid_snoc; auto with kubecell.
Qed.

(** ** Theorems *)

Example patterns_in_fragment :
  forallb wf_regex
    [GO_KEYWORDS; yaml_key_re; yaml_list_re; yaml_value_re; yaml_string_start_re; keyword_value_re; bash_re;
     bash_quote_start_re; bash_punct_re; bash_number_re; leading_ws_re; go_string_re; json_re;
     json_key_test_re; json_number_start_re] = true.
Proof. reflexivity. Qed.

Lemma tokenizeWith_spec language code : language = l_yaml \/ language = l_json ->
  exists tokens, tokenizeWith language code = Some tokens /\ texts tokens = code /\ solid tokens.
Proof.
  intros [->| ->]; [apply tokenizeYaml_spec|].
  destruct (tokenizeJson_spec any_token code) as (tokens & H1 & H2 & H3 & _); unfold any_token; auto.
  exists tokens. auto.
Qed.

Lemma highlightLine_exact line language : language <> l_bash -> language <> l_shell ->
  exists tokens, highlightLine line language = Some tokens /\ texts tokens = line /\
                 (language <> l_text -> solid tokens).
Proof.
  intros Hb Hs. destruct language; try congruence.
  - rewrite highlightLine_scripted by discriminate.
    destruct (tokenizeWith_spec l_yaml (code_part line) ltac:(auto)) as (tokens & -> & Ht & Hso).
    cbn [option_map]. eexists. split; [reflexivity|]. unfold code_part in Ht.
    destruct (findCommentStart line) as [c|] eqn:E; [|auto].
    apply findCommentStart_lt in E. destruct (with_comment line c tokens _ E Ht Hso) as [-> ?].
    split; [apply slice_to_end; lia|auto].
  - cbn [highlightLine]. destruct (findGoCommentStart line) as [c|] eqn:E.
    + destruct (tokenizeGo_spec (slice 0 c line)) as (tokens & -> & Ht & Hso).
      cbn [option_map]. eexists. split; [reflexivity|].
      apply findGoCommentStart_lt in E. destruct (with_comment line c tokens _ E Ht Hso) as [-> ?].
      split; [apply slice_to_end; lia|auto].
    + destruct (tokenizeGo_spec line) as (tokens & -> & Ht & Hso). eauto.
  - rewrite highlightLine_scripted by discriminate.
    destruct (tokenizeWith_spec l_json (code_part line) ltac:(auto)) as (tokens & -> & Ht & Hso).
    cbn [option_map]. eexists. split; [reflexivity|]. unfold code_part in Ht.
    destruct (findCommentStart line) as [c|] eqn:E; [|auto].
    apply findCommentStart_lt in E. destruct (with_comment line c tokens _ E Ht Hso) as [-> ?].
    split; [apply slice_to_end; lia|auto].
  - eexists. split; [reflexivity|]. rewrite texts_one. split; [reflexivity|congruence].
Qed.

(** C1: for every language but the two shells, highlighting terminates and only cuts the line: the
    texts of the tokens, in order, are the line itself. *)
Theorem highlightLine_lossless line language :
  language <> l_bash -> language <> l_shell ->
  exists tokens, highlightLine line language = Some tokens /\ texts tokens = line.
Proof.
  intros Hb Hs. destruct (highlightLine_exact line language Hb Hs) as (tokens & ? & ? & _). eauto.
Qed.

Lemma highlightLine_lossless_witness :
  exists tokens, highlightLine (js "  name: child-dev # x") l_yaml = Some tokens /\
                 texts tokens = js "  name: child-dev # x".
Proof. apply highlightLine_lossless; discriminate. Defined.

Lemma first_chunk_prefix code : exists k, k <= length code /\ first_chunk code = slice 0 k code.
Proof.
  unfold first_chunk. destruct (exec bash_re code 0) as [mt|] eqn:E.
  - exists (m_index mt). split; [|reflexivity].
    apply exec_spec in E as (_ & He & _). unfold m_end in He. lia.
  - exists (length code). split; [lia|]. now rewrite slice_all.
Qed.

Lemma highlightLine_bash_exact line language : language = l_bash \/ language = l_shell ->
  exists tokens, highlightLine line language = Some tokens /\ solid tokens /\
    texts tokens = render_first (first_chunk (code_part line)) ++
                   slice_from (length (first_chunk (code_part line))) line.
Proof.
  intros Hl. rewrite highlightLine_scripted by (destruct Hl; subst; discriminate).
  replace (tokenizeWith language (code_part line)) with (tokenizeBash (code_part line))
    by now destruct Hl; subst.
  destruct (tokenizeBash_spec (code_part line)) as (tokens & -> & Hs & Ht).
  cbn [option_map]. eexists. split; [reflexivity|].
  destruct (findCommentStart line) as [c|] eqn:E.
  - pose proof (findCommentStart_lt _ _ E) as Hc.
    destruct (with_comment line c tokens _ Hc Ht Hs) as [-> Hs']. split; [exact Hs'|].
    rewrite <- app_assoc. f_equal. destruct (first_chunk_prefix (code_part line)) as (k & Hk & ->).
    unfold code_part in *. rewrite E in *. rewrite length_slice by exact Hk.
    rewrite length_slice in Hk by lia. rewrite !Nat.sub_0_r in *.
    rewrite <- (slice_to_end k c line) by lia. f_equal.
    rewrite slice_0. apply skipn_firstn_comm.
  - split; [exact Hs|]. unfold code_part in *. now rewrite E in *.
Qed.

(** C3: for the shells, highlighting terminates, and the rendered text is the line with its first
    chunk (the text before the first string, variable, flag, operator or number of the code)
    replaced: a chunk that is not blank is rendered as its leading white space followed by the chunk
    stripped of its trailing white space only.  The leading white space appears twice and the
    trailing one is lost. *)
Theorem highlightLine_bash line language :
  language = l_bash \/ language = l_shell ->
  exists tokens, highlightLine line language = Some tokens /\
    texts tokens = render_first (first_chunk (code_part line)) ++
                   slice_from (length (first_chunk (code_part line))) line.
Proof. intros Hl. destruct (highlightLine_bash_exact line language Hl) as (t & ? & _ & ?). eauto. Qed.

Lemma highlightLine_bash_witness :
  exists tokens, highlightLine (js "kubectl get pods -A") l_bash = Some tokens /\
    texts tokens = js "kubectl get pods-A".
Proof.
  destruct (highlightLine_bash (js "kubectl get pods -A") l_bash (or_introl eq_refl)) as (t & E & Ht).
  exists t. split; [exact E|]. rewrite Ht. vm_compute. reflexivity.
Defined.

Lemma render_fixed w : forallb is_ws w = false -> take_while is_ws w ++ trimEnd w = w -> take_while is_ws w = [].
Proof.
  intros Hb H. destruct w as [|c w]; [reflexivity|]. cbn [take_while] in *.
  destruct (is_ws c) eqn:Ec; [exfalso|reflexivity].
  pose proof (take_drop_while is_ws (c :: w)) as Hd. cbn [take_while] in Hd. rewrite Ec in Hd.
  rewrite <- Hd in H at 2. apply app_inv_head in H.
  pose proof (trimEnd_suffix (c :: w)) as Hsuf.
  assert (Hne : trimEnd (c :: w) <> []) by (rewrite trimEnd_nil; congruence).
  destruct (trimEnd (c :: w)) as [|x y]; [congruence|]. injection Hsuf as -> _.
  pose proof (drop_while_hd is_ws (c :: w) c y (eq_sym H)). congruence.
Qed.

(** the rendering of a shell line is faithful exactly when its first chunk is blank or has no
    white space at either end. *)
Theorem highlightLine_bash_faithful line language tokens :
  language = l_bash \/ language = l_shell -> highlightLine line language = Some tokens ->
  (texts tokens = line <->
   forallb is_ws (first_chunk (code_part line)) = true \/
   (take_while is_ws (first_chunk (code_part line)) = [] /\
    trimEnd (first_chunk (code_part line)) = first_chunk (code_part line))).
Proof.
  intros Hl E. destruct (highlightLine_bash_exact line language Hl) as (t & E' & _ & Ht).
  assert (t = tokens) by congruence. subst t. rewrite Ht. clear E E' Ht tokens. destruct (first_chunk_prefix (code_part line)) as (k & Hk & Hc).
  assert (Hline : line = first_chunk (code_part line) ++ slice_from (length (first_chunk (code_part line))) line).
  { rewrite Hc, length_slice, Nat.sub_0_r by exact Hk. unfold code_part in *.
    destruct (findCommentStart line) as [c|] eqn:Ec; [|symmetry; apply slice_to_end; lia].
    apply findCommentStart_lt in Ec. rewrite length_slice in Hk by lia.
    rewrite (slice_0 k), (slice_0 c), firstn_firstn, Nat.min_l, <- slice_0 by lia.
    symmetry. apply slice_to_end. lia. }
  generalize dependent (first_chunk (code_part line)). intros w _ Hline.
  assert (Hiff : render_first w ++ slice_from (length w) line = line <-> render_first w = w).
  { split; intros H; [|now rewrite H].
    rewrite Hline in H at 2. now apply app_inv_tail in H. }
  rewrite Hiff. unfold render_first. destruct (forallb is_ws w) eqn:Hb; [tauto|].
  split.
  - intros H. right. pose proof (render_fixed w Hb H) as Hlw. now rewrite Hlw in H.
  - intros [|[Htw Hte]]; [discriminate|]. now rewrite Htw, Hte.
Qed.

Lemma highlightLine_bash_faithful_witness :
  texts (default_of [] (highlightLine (js "$HOME/bin/run") l_shell)) = js "$HOME/bin/run".
Proof.
  apply (highlightLine_bash_faithful (js "$HOME/bin/run") l_shell); auto.
Defined.

(** No rendered span is empty: outside the plain-text language every token has a non-empty text. *)
Theorem highlightLine_solid line language tokens :
  language <> l_text -> highlightLine line language = Some tokens ->
  Forall (fun t => text t <> []) tokens.
Proof.
  intros Hl E.
  assert (Hb : (language = l_bash \/ language = l_shell) \/ (language <> l_bash /\ language <> l_shell))
    by (destruct language; intuition discriminate).
  destruct Hb as [Hb|[Hb Hs]].
  - destruct (highlightLine_bash_exact line language Hb) as (t & E' & Hso & _).
    assert (t = tokens) by congruence. now subst.
  - destruct (highlightLine_exact line language Hb Hs) as (t & E' & _ & Hso).
    assert (t = tokens) by congruence. subst. now apply Hso.
Qed.


(** C7: in JSON no token is ever classified as a key, although the type and its colour exist and
    the tokenizer tests for it: the lookahead for the colon is run on the token alone, which never
    contains the colon that follows the string. *)
Theorem highlightLine_json_no_key line tokens :
  highlightLine line l_json = Some tokens -> Forall (fun t => type t <> tt_key) tokens.
Proof.
  rewrite highlightLine_scripted by discriminate. cbn [tokenizeWith]. intros E.
  destruct (tokenizeJson_spec (fun t => type t <> tt_key) (code_part line)) as (t & Et & _ & _ & HQ).
  - discriminate.
  - intros last mt Em. cbn. eapply json_match_no_key. eassumption.
  - rewrite Et in E. cbn [option_map] in E. injection E as <-.
    destruct (findCommentStart line); [|exact HQ].
    apply Forall_app. split; [exact HQ|]. repeat constructor. discriminate.
Qed.

Lemma highlightLine_json_no_key_witness :
  Forall (fun t => type t <> tt_key) (default_of [] (highlightLine (jsq "{`a`: 1}") l_json)).
Proof. apply (highlightLine_json_no_key (jsq "{`a`: 1}")). vm_compute. reflexivity. Defined.

(** C9: [findCommentStart] returns the first hash that stands outside quotes at the start of the
    line or after white space, and [-1] when there is none. *)
Theorem findCommentStart_spec line :
  match findCommentStart line with
  | Some i => comment_at line i /\ forall j, j < i -> ~ comment_at line j
  | None => forall j, ~ comment_at line j
  end.
Proof. apply (findCommentStart_at_spec line [] false false); [reflexivity|]. cbn. lia. Qed.
