(* ===== verification/Dom.v ===== *)
(** * Rendered elements

    What a component returns: a tree of elements and text.  [className] strings are computed by
    [cn], which is [twMerge(clsx(...))] of two third-party packages and therefore a parameter of
    the components that use it: a function of the list of class values after the falsy ones have
    been dropped. *)

From Stdlib Require Import String List Arith NArith Lia Bool.
From S2P Require Import Prelude JsString.
Import ListNotations.
Local Open Scope list_scope.

#[warnings="-register-all"]
Inductive vnode : Type :=
| VText (s : jsstring)
| VEl (tag : string) (attrs : list (string * jsstring)) (kids : list vnode).

(** Induction with the hypothesis for every child. *)
Fixpoint vnode_ind' (P : vnode -> Prop) (Ht : forall s, P (VText s))
  (He : forall tag attrs kids, Forall P kids -> P (VEl tag attrs kids)) (v : vnode) : P v :=
  match v with
  | VText s => Ht s
  | VEl tag attrs kids =>
      He tag attrs kids
        ((fix go (l : list vnode) : Forall P l :=
            match l with
            | [] => Forall_nil P
            | x :: l' => Forall_cons x (vnode_ind' P Ht He x) (go l')
            end) kids)
  end.

(** [node.textContent]. *)
Fixpoint textContent (v : vnode) : jsstring :=
  match v with
  | VText s => s
  | VEl _ _ kids => flat_map textContent kids
  end.

Fixpoint attr (name : string) (attrs : list (string * jsstring)) : option jsstring :=
  match attrs with
  | [] => None
  | (n, v) :: l => if String.eqb n name then Some v else attr name l
  end.

(** The values of an attribute in a tree, in document order. *)
Fixpoint collect (tag name : string) (v : vnode) : list jsstring :=
  match v with
  | VText _ => []
  | VEl t attrs kids =>
      (if String.eqb t tag then match attr name attrs with Some s => [s] | None => [] end else [])
      ++ flat_map (collect tag name) kids
  end.

(** [{cond ? a : null}] and [{cond && a}]. *)
Definition when (b : bool) (v : vnode) : list vnode := if b then [v] else [].

Definition when_some {A} (o : option A) (f : A -> vnode) : list vnode :=
  match o with Some x => [f x] | None => [] end.

(** A class value that is kept only when its condition holds, and an optional one: the empty string
    is falsy too. *)
Definition cls_if (b : bool) (s : jsstring) : list jsstring := if b then [s] else [].
Definition cls_opt (o : option jsstring) : list jsstring := match o with Some [] | None => [] | Some s => [s] end.

(** [<... key={k}>]: the key React identifies an element of a list by. *)
Definition keyed (k : jsstring) (v : vnode) : vnode :=
  match v with VText s => VText s | VEl tag attrs kids => VEl tag (("key"%string, k) :: attrs) kids end.

(** [l.map((x, i) => ...)], from index [i] on. *)
Fixpoint mapi_from {A B} (f : nat -> A -> B) (i : nat) (l : list A) : list B :=
  match l with [] => [] | x :: l' => f i x :: mapi_from f (S i) l' end.

(** Decimal digits of a natural number ([String(n)] of a small non-negative integer). *)
Fixpoint digits_rev (fuel n : nat) : jsstring :=
  match fuel with
  | O => []
  | S f => N.of_nat (48 + n mod 10) :: (if n <? 10 then [] else digits_rev f (n / 10))
  end.
Definition nat_to_js (n : nat) : jsstring := rev (digits_rev (S n) n).

Example nat_to_js_ex : nat_to_js 1024 = js "1024".
Proof. reflexivity. Qed.

Lemma textContent_app l1 l2 :
  flat_map textContent (l1 ++ l2) = flat_map textContent l1 ++ flat_map textContent l2.
Proof. apply flat_map_app. Qed.

Lemma attr_app n l1 l2 : attr n (l1 ++ l2) = match attr n l1 with Some v => Some v | None => attr n l2 end.
Proof. induction l1 as [|[m v] l1 IH]; cbn; [reflexivity|]. destruct (String.eqb m n); auto. Qed.

#[export] Hint Rewrite textContent_app : kubecell.

(** ** Decimal digits *)

Definition digits_value (l : jsstring) : nat := fold_right (fun d acc => N.to_nat d - 48 + 10 * acc) 0 l.

Lemma digits_rev_value f n : n < f -> digits_value (digits_rev f n) = n.
Proof.
  revert n. induction f as [|f IH]; intros n H; [lia|]. cbn [digits_rev digits_value fold_right].
  fold (digits_value (if n <? 10 then [] else digits_rev f (n / 10))).
  rewrite Nat2N.id. pose proof (Nat.div_mod_eq n 10). pose proof (Nat.mod_upper_bound n 10).
  destruct (Nat.ltb_spec n 10) as [Hn|Hn].
  - cbn [digits_value fold_right]. lia.
  - rewrite IH; [lia|]. assert (n / 10 < n) by (apply Nat.div_lt; lia). lia.
Qed.

Lemma nat_to_js_inj m n : nat_to_js m = nat_to_js n -> m = n.
Proof.
  intros H. unfold nat_to_js in H. apply (f_equal (fun l => digits_value (rev l))) in H.
  rewrite !rev_involutive, !digits_rev_value in H; lia.
Qed.

Lemma digits_rev_digit f n : Forall (fun c => in_range c (48, 57)%N = true) (digits_rev f n).
Proof.
  revert n. induction f as [|f IH]; intros n; cbn [digits_rev]; constructor; [|destruct (n <? 10); auto].
  pose proof (Nat.mod_upper_bound n 10). unfold in_range. cbn [fst snd]. apply andb_true_intro. split; apply N.leb_le; lia.
Qed.

Lemma nat_to_js_digit n : Forall (fun c => in_range c (48, 57)%N = true) (nat_to_js n).
Proof. apply Forall_rev, digits_rev_digit. Qed.

(** Digits followed by a separator that is not a digit determine what is on both sides. *)
Lemma digits_sep_inj a b s t (c : N) :
  in_range c (48, 57)%N = false -> Forall (fun c => in_range c (48, 57)%N = true) a ->
  Forall (fun c => in_range c (48, 57)%N = true) b -> a ++ c :: s = b ++ c :: t -> a = b /\ s = t.
Proof.
  intros Hc Ha. revert b. induction Ha as [|x a Hx Ha IH]; intros [|y b] Hb E; cbn in E; inv E; auto.
  - inv Hb. congruence.
  - congruence.
  - inv Hb. destruct (IH b H3 H1). now subst.
Qed.
