(* ===== verification/CodeBlock.v ===== *)
(** * Code blocks ([website/components/code-block.tsx], [copy-button.tsx])

    [CodeBlock] splits the source into lines, highlights each one and renders it; [CopyButton] is
    the state machine behind its copy button. *)

From Stdlib Require Import String List Arith NArith ZArith Lia Bool.
From S2P Require Import Prelude JsString Regex Highlight Dom.
Import ListNotations.
Local Open Scope list_scope.
Local Open Scope regex_scope.

(** ** Copy button *)

(** [copied], the time of the clock, and the deadlines of the pending [setTimeout] callbacks. *)
Record copy_state := CopyState { copied : bool; clock : Z; timers : list Z }.

Definition copy_init : copy_state := CopyState false 0 [].

(** The events the button reacts to: a click whose [writeText] resolves or rejects, and the passing
    of time, during which the due callbacks run. *)
Inductive copy_event := ClickOk | ClickFail | Elapse (d : Z).

Definition copy_step (st : copy_state) (e : copy_event) : copy_state :=
  match e with
  | ClickOk => CopyState true (clock st) (timers st ++ [clock st + 1600]%Z)
  | ClickFail => CopyState false (clock st) (timers st)
  | Elapse d =>
      let now := (clock st + d)%Z in
      let due := existsb (fun t => (t <=? now)%Z) (timers st) in
      CopyState (if due then false else copied st) now (filter (fun t => (now <? t)%Z) (timers st))
  end.

Definition copy_label (st : copy_state) : jsstring := if copied st then js "Copied" else js "Copy code".

Inductive copy_reach : copy_state -> Prop :=
| cr_init : copy_reach copy_init
| cr_step st e : copy_reach st -> match e with Elapse d => (0 <= d)%Z | _ => True end ->
                 copy_reach (copy_step st e).

(** ** Code block *)

Definition trailing_newline_re : regex := rch 10 · REol.

Definition code_lines (code : jsstring) : list jsstring := split1 10 (replace_first trailing_newline_re code).
Definition code_raw (code : jsstring) : jsstring := join [10%N] (code_lines code).

Section Render.
Context (cn : list jsstring -> jsstring).

Definition render_token (tokenIndex : nat) (token : Token) : vnode :=
  VEl "span" [("key"%string, nat_to_js tokenIndex); ("className"%string, tokenClassName (type token))] [VText (text token)].

(** The two columns of one line: the gutter and the highlighted text. *)
Definition render_line (language : Language) (showLineNumbers : bool) (index : nat) (line : jsstring)
  : option vnode :=
  option_map
    (fun tokens =>
       VEl "span" [("key"%string, nat_to_js index); ("className"%string, js "grid grid-cols-[auto_1fr] gap-4")]
         [(if showLineNumbers
           then VEl "span" [("className"%string, js "select-none text-right text-slate-600")]
                  [VText (nat_to_js (index + 1))]
           else VEl "span" [("className"%string, js "hidden")] []);
          VEl "span" [("className"%string, js "whitespace-pre text-slate-200")] (mapi_from render_token 0 tokens)])
    (highlightLine line language).

Fixpoint render_lines (language : Language) (showLineNumbers : bool) (index : nat) (lines : list jsstring)
  : option (list vnode) :=
  match lines with
  | [] => Some []
  | line :: rest =>
      match render_line language showLineNumbers index line,
            render_lines language showLineNumbers (S index) rest with
      | Some v, Some vs => Some (v :: vs)
      | _, _ => None
      end
  end.

Definition language_name (l : Language) : jsstring :=
  match l with
  | l_yaml => js "yaml" | l_bash => js "bash" | l_shell => js "shell" | l_go => js "go"
  | l_json => js "json" | l_text => js "text"
  end.

Record CodeBlockProps := {
  p_code : jsstring; p_language : option Language; p_filename : option jsstring;
  p_className : option jsstring; p_showLineNumbers : option bool; p_maxHeight : option jsstring }.

Definition CopyButton (st : copy_state) (value : jsstring) (className : option jsstring) : vnode :=
  VEl "button"
    [("type", js "button"); ("aria-label", copy_label st); ("onClick.writeText", value);
     ("className",
       cn (js "inline-flex h-8 w-8 items-center justify-center rounded-md border border-white/10 bg-white/5 text-slate-400 transition-colors hover:bg-white/10 hover:text-slate-100"
           :: cls_opt className))]%string
    [if copied st
     then VEl "Check" [("className"%string, js "h-3.5 w-3.5 text-emerald-400")] []
     else VEl "Copy" [("className"%string, js "h-3.5 w-3.5")] []].

(** [CodeBlock]; the text the button's handler copies is carried by its [onClick.writeText] attribute. *)
Definition CodeBlock (st : copy_state) (props : CodeBlockProps) : option vnode :=
  let code := p_code props in
  let language := default_of l_yaml (p_language props) in
  let showLineNumbers := default_of false (p_showLineNumbers props) in
  let lines := code_lines code in
  let raw := code_raw code in
  option_map
    (fun rows =>
       VEl "div"
         [("className"%string,
            cn (js "group relative overflow-hidden rounded-xl border border-white/10 bg-[#070b14] shadow-[0_20px_60px_-30px_rgba(15,40,90,0.9)]"
                :: cls_opt (p_className props)))]
         [VEl "div" [("className"%string, js "flex items-center justify-between border-b border-white/5 bg-white/[0.02] px-3 py-2")]
            [VEl "div" [("className"%string, js "flex items-center gap-2")]
               [VEl "span" [("className"%string, js "flex gap-1.5")]
                  [VEl "span" [("className"%string, js "h-2.5 w-2.5 rounded-full bg-red-500/70")] [];
                   VEl "span" [("className"%string, js "h-2.5 w-2.5 rounded-full bg-amber-400/70")] [];
                   VEl "span" [("className"%string, js "h-2.5 w-2.5 rounded-full bg-emerald-500/70")] []];
                match p_filename props with
                | Some ((_ :: _) as filename) =>
                    VEl "span" [("className"%string, js "ml-2 font-mono text-xs text-slate-400")] [VText filename]
                | _ =>
                    VEl "span" [("className"%string, js "ml-2 font-mono text-xs uppercase tracking-wider text-slate-500")]
                      [VText (language_name language)]
                end];
             CopyButton st raw None];
          VEl "div"
            (("className"%string, js "overflow-auto")
             :: match p_maxHeight props with
                | Some ((_ :: _) as h) => [("style.maxHeight"%string, h)]
                | _ => []
                end)
            [VEl "pre" [("className"%string, js "p-4 text-[13px] leading-6")]
               [VEl "code" [("className"%string, js "font-mono")] rows]]])
    (render_lines language showLineNumbers 0 lines).
End Render.

(** ** Lemmas *)

Lemma render_tokens_text i tokens : flat_map textContent (mapi_from render_token i tokens) = texts tokens.
Proof.
  revert i. induction tokens as [|t l IH]; intros i; [reflexivity|].
  cbn. rewrite app_nil_r, IH. reflexivity.
Qed.

Lemma rmatch_eol_inv st st' : rmatch REol st st' -> st' = st /\ after st = [].
Proof. intros H. now inv H. Qed.

(** The pattern matches exactly a final newline. *)
Lemma trailing_newline_exec s :
  match exec trailing_newline_re s 0 with
  | Some mt => s = slice 0 (m_index mt) s ++ [10%N] /\ m_end mt = length s
  | None => forall u, s <> u ++ [10%N]
  end.
Proof.
  destruct (exec trailing_newline_re s 0) as [mt|] eqn:E.
  - apply exec_spec in E as (_ & He & Htx & st & Hm & Ha & _).
    apply rmatch_seq_inv in Hm as (st1 & H1 & H2). apply rmatch_eol_inv in H2 as [-> H2].
    apply rmatch_one in H1 as [H1 _]. cbn [after] in H1. rewrite H2, app_nil_r in H1.
    rewrite Ha in H2. assert (Hend : m_end mt = length s).
    { apply (f_equal (@length N)) in H2. rewrite length_skipn in H2. cbn in H2. lia. }
    split; [|exact Hend]. rewrite <- H1, slice_0. symmetry. apply firstn_skipn.
  - intros u ->. apply (exec_none _ _ _ (length u) (MS (10%N :: rev u) [] [])) in E.
    + apply E. rewrite firstn_mid, skipn_app, skipn_all, Nat.sub_diag. cbn.
      eapply rm_seq; [apply rm_chr; reflexivity|constructor].
    + rewrite length_app. cbn. lia.
Qed.

Lemma replace_trailing_newline u : replace_first trailing_newline_re (u ++ [10%N]) = u.
Proof.
  unfold replace_first. pose proof (trailing_newline_exec (u ++ [10%N])) as H.
  destruct (exec _ _ _) as [mt|]; [|now destruct (H u)].
  destruct H as [H He]. apply app_inj_tail in H as [<- _].
  now rewrite He, slice_from_end, app_nil_r by lia.
Qed.

Lemma replace_no_trailing_newline s : (forall u, s <> u ++ [10%N]) -> replace_first trailing_newline_re s = s.
Proof.
  intros Hn. unfold replace_first. pose proof (trailing_newline_exec s) as H.
  destruct (exec _ _ _) as [mt|]; [|reflexivity]. destruct H as [H _]. now apply Hn in H.
Qed.

Lemma highlightLine_total line language : exists tokens, highlightLine line language = Some tokens.
Proof.
  assert (Hb : (language = l_bash \/ language = l_shell) \/ (language <> l_bash /\ language <> l_shell))
    by (destruct language; intuition discriminate).
  destruct Hb as [Hb|[Hb Hs]].
  - destruct (highlightLine_bash_exact line language Hb) as (t & E & _). eauto.
  - destruct (highlightLine_exact line language Hb Hs) as (t & E & _). eauto.
Qed.

(** Every line has a row, whose text is the line when nothing precedes it. *)
Lemma render_lines_text language numbers index lines :
  exists rows, render_lines language numbers index lines = Some rows /\ length rows = length lines /\
    (language <> l_bash -> language <> l_shell -> numbers = false -> map textContent rows = lines).
Proof.
  revert index. induction lines as [|line lines IH]; intros index; [exists []; auto|].
  cbn [render_lines]. destruct (IH (S index)) as (rows & -> & Hl & Ht). unfold render_line.
  destruct (highlightLine_total line language) as [tokens E]. rewrite E. cbn [option_map]. eexists. split; [reflexivity|].
  split; [cbn; lia|]. intros Hb Hs Hn. cbn [map]. rewrite Ht by assumption. f_equal. subst numbers.
  destruct (highlightLine_exact line language Hb Hs) as (t & Et & Hx & _). rewrite E in Et. injection Et as <-.
  cbn. rewrite app_nil_r, render_tokens_text. exact Hx.
Qed.

Lemma code_raw_newline code :
  (forall u, code = u ++ [10%N] -> code_raw code = u) /\
  ((forall u, code <> u ++ [10%N]) -> code_raw code = code).
Proof.
  unfold code_raw, code_lines. rewrite join_split1. split.
  - intros u ->. apply replace_trailing_newline.
  - apply replace_no_trailing_newline.
Qed.

(** ** Theorems *)



Definition copy_inv (st : copy_state) : Prop :=
  (copied st = true -> timers st <> []) /\
  Forall (fun t => clock st < t <= clock st + 1600)%Z (timers st).

Lemma copy_inv_step st e : copy_inv st -> match e with Elapse d => (0 <= d)%Z | _ => True end ->
  copy_inv (copy_step st e).
Proof.
  intros [H1 H2] He. destruct e as [| |d]; cbn.
  - split; cbn; [intros _ E; now apply app_eq_nil in E|]. apply Forall_app. split; [exact H2|].
    repeat constructor; lia.
  - split; cbn; [discriminate|exact H2].
  - split; cbn.
    + destruct (existsb _ (timers st)) eqn:Ex; [discriminate|]. intros Hc. apply H1 in Hc.
      destruct (timers st) as [|t l]; [congruence|]. cbn in Ex |- *. bprop.
      rewrite Z.leb_antisym in H. bprop. now rewrite (proj2 (Z.ltb_lt _ _) H).
    + rewrite Forall_forall in *. intros t Ht. apply filter_In in Ht as [Ht Hlt]. bprop.
      apply H2 in Ht. lia.
Qed.

Lemma copy_reach_inv st : copy_reach st -> copy_inv st.
Proof.
  induction 1; [split; cbn; [discriminate|constructor]|]. now apply copy_inv_step.
Qed.

(** The button never sticks: in every reachable state, 1600 ms without a further click
    bring it back to the label that offers to copy. *)
Theorem copy_resets st d : copy_reach st -> (1600 <= d)%Z ->
  copied (copy_step st (Elapse d)) = false /\ timers (copy_step st (Elapse d)) = [].
Proof.
  intros Hr Hd. apply copy_reach_inv in Hr as [H1 H2]. cbn. split.
  - destruct (existsb _ (timers st)) eqn:Ex; [reflexivity|].
    destruct (copied st); [|reflexivity]. exfalso. specialize (H1 eq_refl).
    destruct (timers st) as [|t l]; [congruence|]. inv H2. cbn in Ex. bprop.
    apply Z.leb_gt in H. lia.
  - clear H1. induction H2 as [|t l Ht Hl IH]; [reflexivity|]. cbn.
    destruct (Z.ltb_spec (clock st + d) t); [lia|]. exact IH.
Qed.

Lemma copy_resets_witness :
  copied (copy_step (copy_step copy_init ClickOk) (Elapse 1600)) = false /\
  timers (copy_step (copy_step copy_init ClickOk) (Elapse 1600)) = [].
Proof. apply copy_resets; [apply cr_step; [constructor|exact I]|lia]. Defined.

(** The callback of an earlier click is not cancelled: it ends the confirmation of a later one. *)
Example copy_overlap :
  copied (fold_left copy_step [ClickOk; Elapse 1500; ClickOk; Elapse 100] copy_init) = false.
Proof. reflexivity. Qed.
