(* ===== verification/Sorting.v ===== *)
(** * [Array.prototype.sort]

    ECMA-262 requires a stable sort; for a consistent comparator its result is the unique stable
    sorted permutation, so any stable algorithm models it.  [sort_by cmp] inserts the elements from
    the right, each before the first element it does not exceed.  The file also models
    [[...new Set(l)]], which keeps the first occurrence of every element. *)

From Stdlib Require Import List Arith ZArith Lia Bool Permutation Sorted Relations.
From S2P Require Import Prelude.
Import ListNotations.
Local Open Scope list_scope.

Section Sort.
Context {A : Type} (cmp : A -> A -> Z).

Fixpoint insert_by (x : A) (l : list A) : list A :=
  match l with
  | [] => [x]
  | y :: l' => if (cmp x y <=? 0)%Z then x :: y :: l' else y :: insert_by x l'
  end.

Definition sort_by (l : list A) : list A := fold_right insert_by [] l.

Definition le_by (x y : A) : Prop := (cmp x y <= 0)%Z.

Lemma insert_by_perm x l : Permutation (x :: l) (insert_by x l).
Proof.
  induction l as [|y l IH]; cbn; [reflexivity|]. destruct (cmp x y <=? 0)%Z; [reflexivity|].
  etransitivity; [apply perm_swap|]. now constructor.
Qed.

Lemma sort_by_perm l : Permutation l (sort_by l).
Proof.
  induction l as [|x l IH]; cbn; [constructor|].
  etransitivity; [apply perm_skip, IH|apply insert_by_perm].
Qed.

(** A sorted list is left alone, whatever the comparator. *)
Lemma sort_by_sorted_id l : StronglySorted le_by l -> sort_by l = l.
Proof.
  induction 1 as [|x l Hs IH Hx]; [reflexivity|].
  change (sort_by (x :: l)) with (insert_by x (sort_by l)). rewrite IH.
  destruct l as [|y l]; cbn; [reflexivity|]. inv Hx. unfold le_by in *.
  now rewrite (proj2 (Z.leb_le _ _)).
Qed.

(** ** Consistent comparators *)
Class Consistent := {
  cmp_total : forall x y, (cmp x y <= 0 \/ cmp y x <= 0)%Z;
  cmp_trans : forall x y z, (cmp x y <= 0 -> cmp y z <= 0 -> cmp x z <= 0)%Z }.

Context {Hc : Consistent}.

Lemma insert_by_sorted x l : StronglySorted le_by l -> StronglySorted le_by (insert_by x l).
Proof using Hc.
  induction 1 as [|y l Hs IH Hy]; cbn; [repeat constructor|].
  destruct (Z.leb_spec (cmp x y) 0) as [Hle|Hgt].
  - constructor; [now constructor|]. constructor; [exact Hle|].
    eapply Forall_impl; [|exact Hy]. intros z Hz. eapply cmp_trans; eassumption.
  - constructor; [exact IH|]. eapply Permutation_Forall; [apply insert_by_perm|].
    constructor; [|exact Hy]. destruct (cmp_total x y); [lia|assumption].
Qed.

Lemma sort_by_sorted l : StronglySorted le_by (sort_by l).
Proof using Hc. induction l; cbn; [constructor|now apply insert_by_sorted]. Qed.

Lemma filter_insert_tie (p : A -> bool) x l :
  (forall y z, p y = true -> p z = true -> (cmp y z <= 0)%Z) ->
  filter p (insert_by x l) = filter p (x :: l).
Proof using Type.
  intros Hp. induction l as [|y l IH]; [reflexivity|]. cbn [insert_by].
  destruct (Z.leb_spec (cmp x y) 0) as [|Hgt]; [reflexivity|].
  cbn [filter] in *. rewrite IH. destruct (p y) eqn:Ey, (p x) eqn:Ex; try reflexivity.
  specialize (Hp x y Ex Ey). lia.
Qed.

(** A class of elements that all compare equal keeps its order. *)
Lemma sort_by_stable (p : A -> bool) l :
  (forall y z, p y = true -> p z = true -> (cmp y z <= 0)%Z) -> filter p (sort_by l) = filter p l.
Proof using Type.
  intros Hp. induction l as [|x l IH]; [reflexivity|].
  change (sort_by (x :: l)) with (insert_by x (sort_by l)).
  rewrite filter_insert_tie by exact Hp. cbn [filter]. now rewrite IH.
Qed.
End Sort.

Arguments Consistent {A} cmp.

(** ** Sets as lists *)

Section Dedup.
Context {A : Type} (eq_dec : forall x y : A, {x = y} + {x <> y}).

(** [[...new Set(l)]]: [seen] holds the elements already inserted. *)
Fixpoint dedup_from (seen l : list A) : list A :=
  match l with
  | [] => []
  | x :: l' => if in_dec eq_dec x seen then dedup_from seen l' else x :: dedup_from (x :: seen) l'
  end.

Definition set_of_list (l : list A) : list A := dedup_from [] l.

Lemma dedup_from_In seen l x : In x (dedup_from seen l) <-> In x l /\ ~ In x seen.
Proof.
  revert seen. induction l as [|y l IH]; intros seen; cbn; [tauto|].
  destruct (in_dec eq_dec y seen) as [Hy|Hy]; cbn; rewrite IH; cbn.
  - split; [intuition|]. intros [[->|Hx] Hn]; [contradiction|auto].
  - destruct (eq_dec y x) as [->|Hne]; intuition congruence.
Qed.

Lemma dedup_from_NoDup seen l : NoDup (dedup_from seen l).
Proof.
  revert seen. induction l as [|y l IH]; intros seen; cbn; [constructor|].
  destruct (in_dec eq_dec y seen); [apply IH|]. constructor; [|apply IH].
  rewrite dedup_from_In. cbn. tauto.
Qed.

Lemma set_of_list_In l x : In x (set_of_list l) <-> In x l.
Proof. unfold set_of_list. rewrite dedup_from_In. cbn. tauto. Qed.

Lemma set_of_list_NoDup l : NoDup (set_of_list l).
Proof. apply dedup_from_NoDup. Qed.

Lemma dedup_from_id seen l : NoDup l -> (forall x, In x l -> ~ In x seen) -> dedup_from seen l = l.
Proof.
  revert seen. induction l as [|y l IH]; intros seen Hn Hs; cbn; [reflexivity|]. inv Hn.
  destruct (in_dec eq_dec y seen) as [Hy|Hy]; [exfalso; eapply Hs; cbn; eauto|].
  f_equal. apply IH; [assumption|]. intros x Hx [->|Hx']; [contradiction|].
  eapply Hs; [right; exact Hx|exact Hx'].
Qed.

Lemma set_of_list_id l : NoDup l -> set_of_list l = l.
Proof. intros H. apply dedup_from_id; [exact H|cbn; tauto]. Qed.

(** [NoDup] by evaluation. *)
Lemma NoDup_by_set l : set_of_list l = l -> NoDup l.
Proof. intros <-. apply set_of_list_NoDup. Qed.
End Dedup.

#[export] Hint Resolve set_of_list_NoDup sort_by_perm : kubecell.
