(* ===== verification/FileTree.v ===== *)
(** * The file tree ([website/components/magicui/file-tree.tsx], [architecture/repo-tree.tsx])

    [Tree] keeps the selected item and the list of expanded folders; [Folder], [File] and
    [CollapseButton] change them through the tree context.  The sorting collator
    ([Intl.Collator]) is implementation-defined and a parameter; the theorems that need it assume
    it is a consistent comparison, which its specification requires. *)

From Stdlib Require Import String List Arith NArith ZArith Lia Bool Permutation Sorted.
From S2P Require Import Prelude JsString Dom Sorting.
Import ListNotations.
Local Open Scope list_scope.

(** ** Data *)

Inductive elem_type := t_file | t_folder.

#[warnings="-register-all"]
Inductive TreeViewElement : Type :=
| Element (e_id e_name : jsstring) (e_type : option elem_type) (e_selectable : option bool)
          (e_children : option (list TreeViewElement)).

Definition id (e : TreeViewElement) : jsstring := let '(Element i _ _ _ _) := e in i.
Definition name (e : TreeViewElement) : jsstring := let '(Element _ n _ _ _) := e in n.
Definition etype (e : TreeViewElement) : option elem_type := let '(Element _ _ t _ _) := e in t.
Definition isSelectable (e : TreeViewElement) : option bool := let '(Element _ _ _ s _) := e in s.
Definition children (e : TreeViewElement) : option (list TreeViewElement) := let '(Element _ _ _ _ c) := e in c.

Definition kids (e : TreeViewElement) : list TreeViewElement := default_of [] (children e).

(** Induction with the hypothesis for every child. *)
Section TreeInd.
Context (P : TreeViewElement -> Prop).
Context (H : forall i n t s c, Forall P (default_of [] c) -> P (Element i n t s c)).

Fixpoint tree_ind (e : TreeViewElement) : P e :=
  match e with
  | Element i n t s c =>
      H i n t s c
        (match c return Forall P (default_of [] c) with
         | Some l => (fix go (l : list TreeViewElement) : Forall P l :=
                        match l with
                        | [] => Forall_nil P
                        | x :: l' => Forall_cons x (tree_ind x) (go l')
                        end) l
         | None => Forall_nil P
         end)
  end.
End TreeInd.

Inductive TreeSortMode :=
| sort_default
| sort_none
| sort_custom (f : TreeViewElement -> TreeViewElement -> Z).

(** ** Sorting *)

Definition isFolderElement (element : TreeViewElement) : bool :=
  match etype element with
  | Some t => match t with t_folder => true | t_file => false end
  | None => match children element with Some _ => true | None => false end
  end.

Definition js_eq_dec : forall a b : jsstring, {a = b} + {a <> b} := list_eq_dec N.eq_dec.

Definition includes (l : list jsstring) (x : jsstring) : bool := existsb (jseqb x) l.

Definition mergeExpandedItems (currentItems : option (list jsstring)) (nextItems : list jsstring)
  : list jsstring := set_of_list js_eq_dec (default_of [] currentItems ++ nextItems).

Section Collation.
Context (collate : jsstring -> jsstring -> Z).

Definition defaultTreeComparator (a b : TreeViewElement) : Z :=
  let aIsFolder := isFolderElement a in
  let bIsFolder := isFolderElement b in
  if negb (Bool.eqb aIsFolder bIsFolder) then (if aIsFolder then -1 else 1)%Z
  else collate (name a) (name b).

Definition getTreeComparator (sort : TreeSortMode) : option (TreeViewElement -> TreeViewElement -> Z) :=
  match sort with
  | sort_none => None
  | sort_default => Some defaultTreeComparator
  | sort_custom f => Some f
  end.

Definition sort_level (sort : TreeSortMode) (elements : list TreeViewElement) : list TreeViewElement :=
  match getTreeComparator sort with
  | None => elements
  | Some comparator => sort_by comparator elements
  end.

(** The body of the [map] of [sortTreeElements]: the children sorted, recursively. *)
Fixpoint sort_element (sort : TreeSortMode) (e : TreeViewElement) : TreeViewElement :=
  match e with
  | Element i n t s None => Element i n t s None
  | Element i n t s (Some c) => Element i n t s (Some (sort_level sort (map (sort_element sort) c)))
  end.

Definition sortTreeElements (elements : list TreeViewElement) (sort : TreeSortMode) : list TreeViewElement :=
  sort_level sort (map (sort_element sort) elements).
End Collation.

(** ** The state of the tree *)

Record tree_state := TS { selectedId : option jsstring; expandedItems : option (list jsstring) }.

Definition selectItem (i : jsstring) (st : tree_state) : tree_state := TS (Some i) (expandedItems st).

Definition expand_toggle (prev : option (list jsstring)) (i : jsstring) : list jsstring :=
  if match prev with Some l => includes l i | None => false end
  then filter (fun item => negb (jseqb item i)) (default_of [] prev)
  else default_of [] prev ++ [i].

Definition handleExpand (i : jsstring) (st : tree_state) : tree_state :=
  TS (selectedId st) (Some (expand_toggle (expandedItems st) i)).

Definition selectable (e : TreeViewElement) : bool := default_of true (isSelectable e).

(** The closure [findParent]: the expanded items after visiting [e] below [currentPath]. *)
Fixpoint findParent (selectId : jsstring) (e : TreeViewElement) (currentPath : list jsstring)
  (expanded : option (list jsstring)) : option (list jsstring) :=
  match e with
  | Element i n t s c =>
      let newPath := currentPath ++ [i] in
      if jseqb i selectId then
        if default_of true s then Some (mergeExpandedItems expanded newPath)
        else if includes newPath i then Some (mergeExpandedItems expanded (removelast newPath)) else expanded
      else
        match c with
        | Some cs => fold_left (fun ex child => findParent selectId child newPath ex) cs expanded
        | None => expanded
        end
  end.

Definition expandSpecificTargetedElements (elements : option (list TreeViewElement))
  (selectId : option jsstring) (st : tree_state) : tree_state :=
  match elements, selectId with
  | Some els, Some ((_ :: _) as sid) =>
      TS (selectedId st) (fold_left (fun ex e => findParent sid e [] ex) els (expandedItems st))
  | _, _ => st
  end.

(** The closure [expandTree]: the identifiers it pushes, in order. *)
Fixpoint expandTree (e : TreeViewElement) : list jsstring :=
  match e with
  | Element i n t s (Some ((_ :: _) as cs)) =>
      if default_of true s then i :: flat_map expandTree cs else []
  | _ => []
  end.

Definition expendAllTree (elements : list TreeViewElement) : list jsstring :=
  set_of_list js_eq_dec (flat_map expandTree elements).

Definition setExpandedItems (l : list jsstring) (st : tree_state) : tree_state := TS (selectedId st) (Some l).

Definition closeAll (st : tree_state) : tree_state := setExpandedItems [] st.

(** The click handler of [CollapseButton]. *)
Definition collapse_click (elements : list TreeViewElement) (st : tree_state) : tree_state :=
  match expandedItems st with
  | Some (_ :: _) => closeAll st
  | _ => setExpandedItems (expendAllTree elements) st
  end.

(** The events of a mounted tree.  A disabled control delivers no click. *)
Inductive tree_event :=
| ev_folder (value : jsstring) (isSelectable : bool)
| ev_file (value : jsstring) (isSelectable : bool)
| ev_collapse (elements : list TreeViewElement)
| ev_expand_all (elements : list TreeViewElement).

Definition tree_step (st : tree_state) (e : tree_event) : tree_state :=
  match e with
  | ev_folder v s => if s then handleExpand v (selectItem v st) else st
  | ev_file v s => if s then selectItem v st else st
  | ev_collapse els => collapse_click els st
  | ev_expand_all els => setExpandedItems (expendAllTree els) st
  end.

(** Mounting: the initial state, then the effect that reveals the initially selected item. *)
Definition tree_mount (elements : option (list TreeViewElement)) (initialSelectedId : option jsstring)
  (initialExpandedItems : option (list jsstring)) : tree_state :=
  let st := TS initialSelectedId initialExpandedItems in
  match initialSelectedId with
  | Some (_ :: _) => expandSpecificTargetedElements elements initialSelectedId st
  | _ => st
  end.

(** ** Views *)

Inductive direction := dir_rtl | dir_ltr.

Record TreeContextProps := {
  c_state : tree_state; c_indicator : bool;
  c_openIcon : option vnode; c_closeIcon : option vnode; c_direction : direction }.

(** [useTree] throws outside a provider. *)
Definition useTree (context : option TreeContextProps) : jsstring + TreeContextProps :=
  match context with
  | None => inl (js "useTree must be used within a TreeProvider")
  | Some c => inr c
  end.

Definition dir_name (d : direction) : jsstring := match d with dir_rtl => js "rtl" | dir_ltr => js "ltr" end.

Definition attr_if (b : bool) (n : string) (v : jsstring) : list (string * jsstring) := if b then [(n, v)] else [].

Section Views.
Context (cn : list jsstring -> jsstring) (context : TreeContextProps).

Definition TreeIndicator (className : option jsstring) (props : list (string * jsstring)) : vnode :=
  VEl "div"
    ([("dir"%string, dir_name (c_direction context));
      ("className"%string,
        cn (js "bg-muted absolute left-1.5 h-full w-px rounded-md py-3 duration-300 ease-in-out hover:bg-slate-300 rtl:right-1.5"
            :: cls_opt className))] ++ props) [].

(** [isSelect ?? selectedId === value]. *)
Definition is_selected (isSelect : option bool) (value : jsstring) : bool :=
  default_of (match selectedId (c_state context) with Some s => jseqb s value | None => false end) isSelect.

Definition is_expanded (value : jsstring) : bool :=
  match expandedItems (c_state context) with Some l => includes l value | None => false end.

(** [value={expandedItems}]: one attribute for each element of the list. *)
Definition value_attrs : list (string * jsstring) :=
  map (fun v => ("value[]"%string, v)) (default_of [] (expandedItems (c_state context))).

(** [Folder]; the item its click handler selects and toggles is the attribute [onClick.folder]. *)
Definition Folder (className : option jsstring) (element value : jsstring) (isSelectable isSelect : option bool)
  (children : list vnode) : vnode :=
  let isSelectable := default_of true isSelectable in
  let isSelected := is_selected isSelect value in
  VEl "AccordionPrimitive.Item"
    [("value"%string, value); ("className"%string, js "relative h-full overflow-hidden")]
    [VEl "AccordionPrimitive.Trigger"
       (("className"%string,
          cn (js "flex items-center gap-1 rounded-md text-sm"
              :: cls_opt className
              ++ cls_if (isSelected && isSelectable) (js "bg-muted rounded-md")
              ++ cls_if isSelectable (js "cursor-pointer")
              ++ cls_if (negb isSelectable) (js "cursor-not-allowed opacity-50")))
        :: attr_if (negb isSelectable) "disabled" []
        ++ [("onClick.folder"%string, value)])
       [(if is_expanded value
         then default_of (VEl "FolderOpenIcon" [("className"%string, js "size-4")] []) (c_openIcon context)
         else default_of (VEl "FolderIcon" [("className"%string, js "size-4")] []) (c_closeIcon context));
        VEl "span" [] [VText element]];
     VEl "AccordionPrimitive.Content"
       [("className"%string, js "data-[state=closed]:animate-accordion-up data-[state=open]:animate-accordion-down relative h-full overflow-hidden text-sm")]
       (when (match element with [] => false | _ => true end && c_indicator context)
          (TreeIndicator None [("aria-hidden"%string, js "true")])
        ++ [VEl "AccordionPrimitive.Root"
              ([("dir"%string, dir_name (c_direction context)); ("type"%string, js "multiple");
               ("className"%string, js "ml-5 flex flex-col gap-1 py-1 rtl:mr-5")] ++ value_attrs)
              children])].

(** [File]; the item its click handler selects is the attribute [onClick.file]. *)
Definition File (value : jsstring) (className : option jsstring) (isSelectable isSelect : option bool)
  (fileIcon : option vnode) (children : list vnode) : vnode :=
  let isSelectable := default_of true isSelectable in
  let isSelected := is_selected isSelect value in
  VEl "button"
    ([("type"%string, js "button")] ++ attr_if (negb isSelectable) "disabled" []
     ++ [("className"%string,
           cn ([js "flex w-fit items-center gap-1 rounded-md pr-1 text-sm duration-200 ease-in-out rtl:pr-0 rtl:pl-1"]
               ++ cls_if (isSelected && isSelectable) (js "bg-muted")
               ++ [if isSelectable then js "cursor-pointer" else js "cursor-not-allowed opacity-50"]
               ++ [match c_direction context with dir_rtl => js "rtl" | dir_ltr => js "ltr" end]
               ++ cls_opt className));
         ("onClick.file"%string, value)])
    (default_of (VEl "FileIcon" [("className"%string, js "size-4")] []) fileIcon :: children).

Definition CollapseButton (className : option jsstring) (children : list vnode) : vnode :=
  VEl "Button"
    [("variant"%string, js "ghost");
     ("className"%string, cn (js "absolute right-2 bottom-1 h-8 w-fit p-1" :: cls_opt className))]
    (children ++ [VEl "span" [("className"%string, js "sr-only")] [VText (js "Toggle")]]).

Context (collate : jsstring -> jsstring -> Z).

(** [renderTreeElements] sorts its argument and renders it, and does both again for the children of
    every folder: the recursion is on the children of a sorted element, so it carries fuel. *)
Fixpoint renderTreeElements (fuel : nat) (elements : list TreeViewElement) (sort : TreeSortMode)
  : option (list vnode) :=
  match fuel with
  | O => None
  | S fuel' =>
      map_opt
        (fun element =>
           if isFolderElement element then
             match children element with
             | Some c =>
                 option_map (fun c' => keyed (id element) (Folder None (name element) (id element) (isSelectable element) None c'))
                   (renderTreeElements fuel' c sort)
             | None => Some (keyed (id element) (Folder None (name element) (id element) (isSelectable element) None []))
             end
           else Some (keyed (id element) (File (id element) None (isSelectable element) None None
                        [VEl "span" [] [VText (name element)]])))
        (sortTreeElements collate elements sort)
  end.

(** The nesting depth, which bounds the recursion. *)
Fixpoint height (e : TreeViewElement) : nat :=
  match e with
  | Element _ _ _ _ None => 1
  | Element _ _ _ _ (Some c) => S (list_max (map height c))
  end.

Definition forest_height (l : list TreeViewElement) : nat := list_max (map height l).

(** Rendering an already sorted tree, by structural recursion. *)
Fixpoint render_element (element : TreeViewElement) : vnode :=
  match element with
  | Element i n t s c =>
      if isFolderElement element
      then keyed i (Folder None n i s None (match c with Some cs => map render_element cs | None => [] end))
      else keyed i (File i None s None None [VEl "span" [] [VText n]])
  end.
End Views.

(** [Tree] provides the context and renders its elements, or the children it is given. *)
Definition Tree (cn : list jsstring -> jsstring) (collate : jsstring -> jsstring -> Z) (st : tree_state)
  (className : option jsstring) (elements : option (list TreeViewElement)) (tree_children : option (list vnode))
  (indicator : option bool) (openIcon closeIcon : option vnode) (sort : option TreeSortMode)
  (dir : option direction) (props : list (string * jsstring)) : option vnode :=
  let context := {| c_state := st; c_indicator := default_of true indicator;
                    c_openIcon := openIcon; c_closeIcon := closeIcon;
                    c_direction := match dir with Some dir_rtl => dir_rtl | _ => dir_ltr end |} in
  let dir_attr := match dir with Some d => [("dir"%string, dir_name d)] | None => [] end in
  option_map
    (fun treeChildren =>
       VEl "div" [("className"%string, cn (js "size-full" :: cls_opt className))]
         [VEl "ScrollArea" (("className"%string, js "relative h-full px-2") :: dir_attr)
            [VEl "AccordionPrimitive.Root"
               (props ++ [("type"%string, js "multiple")] ++ value_attrs context
                ++ [("className"%string, js "flex flex-col gap-1")] ++ dir_attr)
               treeChildren]])
    (match tree_children, elements with
     | Some c, _ => Some c
     | None, Some els =>
         renderTreeElements cn context collate (S (forest_height els)) els (default_of sort_default sort)
     | None, None => Some []
     end).

(** ** Sorting: theorems *)

Fixpoint all_ids (e : TreeViewElement) : list jsstring :=
  match e with
  | Element i _ _ _ None => [i]
  | Element i _ _ _ (Some c) => i :: flat_map all_ids c
  end.

(** A property of a list of siblings, at every level of a tree. *)
#[warnings="-register-all"]
Inductive every_level (P : list TreeViewElement -> Prop) : TreeViewElement -> Prop :=
| el_leaf i n t s : every_level P (Element i n t s None)
| el_node i n t s c : P c -> Forall (every_level P) c -> every_level P (Element i n t s (Some c)).

Definition every_forest_level (P : list TreeViewElement -> Prop) (l : list TreeViewElement) : Prop :=
  P l /\ Forall (every_level P) l.

(** Folders come before files. *)
Definition folders_first (l : list TreeViewElement) : Prop :=
  exists folders files, l = folders ++ files /\ Forall (fun e => isFolderElement e = true) folders
                        /\ Forall (fun e => isFolderElement e = false) files.

Section SortTheorems.
Context (collate : jsstring -> jsstring -> Z).

Lemma sort_level_perm s l : Permutation l (sort_level collate s l).
Proof. unfold sort_level. case_goal; auto with kubecell. Qed.

(** Sorting the mapped siblings only permutes what is collected from them. *)
Lemma sort_level_flat {B} (f : TreeViewElement -> list B) s c :
  (forall e, In e c -> Permutation (f (sort_element collate s e)) (f e)) ->
  Permutation (flat_map f (sort_level collate s (map (sort_element collate s) c))) (flat_map f c).
Proof.
  intros H. etransitivity; [apply Permutation_flat_map, Permutation_sym, sort_level_perm|].
  rewrite flat_map_concat_map, map_map, <- flat_map_concat_map. now apply Permutation_flat_map_ext.
Qed.

Lemma sort_element_shape s e :
  id (sort_element collate s e) = id e /\ name (sort_element collate s e) = name e /\
  etype (sort_element collate s e) = etype e /\ isSelectable (sort_element collate s e) = isSelectable e /\
  isFolderElement (sort_element collate s e) = isFolderElement e.
Proof. destruct e as [i n t se [c|]]; repeat split. Qed.

Lemma sort_element_ids s e : Permutation (all_ids (sort_element collate s e)) (all_ids e).
Proof.
  induction e as [i n t se [c|] IH] using tree_ind; cbn; [|reflexivity].
  apply perm_skip, sort_level_flat. now apply Forall_forall.
Qed.

Lemma sort_element_height s e : height (sort_element collate s e) = height e.
Proof.
  induction e as [i n t se [c|] IH] using tree_ind; cbn; [|reflexivity]. f_equal.
  transitivity (list_max (map height (map (sort_element collate s) c))).
  - symmetry. apply Permutation_list_max, Permutation_map, sort_level_perm.
  - rewrite map_map. f_equal. apply map_ext_Forall, IH.
Qed.

Lemma sortTreeElements_height s l : forest_height (sortTreeElements collate l s) = forest_height l.
Proof.
  unfold sortTreeElements, forest_height.
  transitivity (list_max (map height (map (sort_element collate s) l))).
  - symmetry. apply Permutation_list_max, Permutation_map, sort_level_perm.
  - rewrite map_map. f_equal. apply map_ext, sort_element_height.
Qed.

Lemma in_forest_height e l : In e l -> height e <= forest_height l.
Proof.
  intros H. unfold forest_height. assert (Hl := proj1 (list_max_le (map height l) _) (le_n _)).
  rewrite Forall_forall in Hl. apply Hl, in_map, H.
Qed.

(** The order in force at each level; [none] imposes nothing. *)
Definition level_sorted (s : TreeSortMode) (l : list TreeViewElement) : Prop :=
  match getTreeComparator collate s with
  | None => True
  | Some cmp => StronglySorted (le_by cmp) l
  end.

Definition consistent_sort (s : TreeSortMode) : Prop :=
  match getTreeComparator collate s with None => True | Some cmp => Consistent cmp end.

Lemma sort_level_sorted s l : consistent_sort s -> level_sorted s (sort_level collate s l).
Proof.
  unfold consistent_sort, level_sorted, sort_level.
  destruct (getTreeComparator collate s); intros; [now apply sort_by_sorted|exact I].
Qed.

Lemma sort_level_id s l : level_sorted s l -> sort_level collate s l = l.
Proof.
  unfold level_sorted, sort_level.
  destruct (getTreeComparator collate s); [apply sort_by_sorted_id|reflexivity].
Qed.

Lemma sort_forest_sorted s l :
  consistent_sort s -> Forall (fun e => every_level (level_sorted s) (sort_element collate s e)) l ->
  every_forest_level (level_sorted s) (sortTreeElements collate l s).
Proof.
  intros Hs Hl. split; [now apply sort_level_sorted|].
  eapply Permutation_Forall; [apply sort_level_perm|]. now apply Forall_map.
Qed.

Lemma sort_element_sorted s e :
  consistent_sort s -> every_level (level_sorted s) (sort_element collate s e).
Proof.
  intros Hs. induction e as [i n t se [c|] IH] using tree_ind; cbn; [|constructor].
  destruct (sort_forest_sorted s c Hs IH). now constructor.
Qed.

Lemma sortTreeElements_levels s l :
  consistent_sort s -> every_forest_level (level_sorted s) (sortTreeElements collate l s).
Proof.
  intros Hs. apply sort_forest_sorted; [exact Hs|].
  apply Forall_forall. intros e _. now apply sort_element_sorted.
Qed.

Lemma sort_element_id s e : every_level (level_sorted s) e -> sort_element collate s e = e.
Proof.
  induction e as [i n t se [c|] IH] using tree_ind; intros H; cbn; [|reflexivity]. inv H.
  do 2 f_equal. rewrite (map_ext_Forall _ (fun x => x)), map_id.
  - now apply sort_level_id.
  - rewrite Forall_forall in *. auto.
Qed.

Lemma sortTreeElements_id s l :
  every_forest_level (level_sorted s) l -> sortTreeElements collate l s = l.
Proof.
  intros [H1 H2]. unfold sortTreeElements. rewrite (map_ext_Forall _ (fun x => x)), map_id.
  - now apply sort_level_id.
  - eapply Forall_impl; [|exact H2]. apply sort_element_id.
Qed.

Lemma default_consistent : Consistent collate -> Consistent (defaultTreeComparator collate).
Proof.
  intros [Htot Htr]. split.
  - intros x y. unfold defaultTreeComparator.
    destruct (isFolderElement x), (isFolderElement y); cbn; auto; lia.
  - intros x y z. unfold defaultTreeComparator.
    destruct (isFolderElement x), (isFolderElement y), (isFolderElement z); cbn; eauto; lia.
Qed.

Lemma sorted_folders_first l :
  StronglySorted (le_by (defaultTreeComparator collate)) l -> folders_first l.
Proof.
  induction 1 as [|x l Hs (fo & fi & -> & Hfo & Hfi) Hx]; [exists [], []; repeat constructor|].
  destruct (isFolderElement x) eqn:Ex; [exists (x :: fo), fi; auto|].
  exists [], (x :: fo ++ fi). repeat split; auto. constructor; [exact Ex|].
  eapply Forall_impl; [|exact Hx]. intros y. unfold le_by, defaultTreeComparator. rewrite Ex.
  destruct (isFolderElement y); cbn; [lia|reflexivity].
Qed.
End SortTheorems.

Lemma every_level_impl (P Q : list TreeViewElement -> Prop) e :
  (forall l, P l -> Q l) -> every_level P e -> every_level Q e.
Proof.
  intros HPQ. induction e as [i n t s [c|] IH] using tree_ind; intros H; inv H; constructor; auto.
  rewrite Forall_forall in *. auto.
Qed.

(** Sorting a tree keeps exactly its elements, at every depth, whatever the sort mode: the
    identifiers of the result are a permutation of those of the input. *)
Lemma sortTreeElements_perm collate els s :
  Permutation (flat_map all_ids (sortTreeElements collate els s)) (flat_map all_ids els).
Proof.
  apply sort_level_flat. intros. apply sort_element_ids.
Qed.

(** C20: With the default sort and a consistent collator, at every level of the sorted tree the
    siblings are in comparator order and all folders precede all files; sorting again changes
    nothing.  In every sort mode the sorted tree has exactly the elements of the input, at every depth. *)
Theorem sortTreeElements_sorted collate els :
  Consistent collate ->
  let r := sortTreeElements collate els sort_default in
  every_forest_level
    (fun l => StronglySorted (le_by (defaultTreeComparator collate)) l /\ folders_first l) r
  /\ sortTreeElements collate r sort_default = r
  /\ forall s, Permutation (flat_map all_ids (sortTreeElements collate els s)) (flat_map all_ids els).
Proof.
  intros Hc r. assert (Hr : every_forest_level (level_sorted collate sort_default) r)
    by (apply sortTreeElements_levels, default_consistent, Hc).
  assert (Himp : forall l, level_sorted collate sort_default l ->
            StronglySorted (le_by (defaultTreeComparator collate)) l /\ folders_first l)
    by (intros l Hl; split; [exact Hl|now apply sorted_folders_first in Hl]).
  split; [|split; [now apply sortTreeElements_id|intros s; apply sortTreeElements_perm]]. destruct Hr as [H1 H2]. split; [now apply Himp|].
  eapply Forall_impl; [|exact H2]. intros e. now apply every_level_impl.
Qed.

(** ** Rendering: theorems *)

Lemma renderTreeElements_exact cn context collate fuel els s :
  consistent_sort collate s -> forest_height els < fuel ->
  renderTreeElements cn context collate fuel els s
  = Some (map (render_element cn context) (sortTreeElements collate els s)).
Proof.
  intros Hs. revert els. induction fuel as [|fuel IH]; intros els Hf; [lia|].
  cbn [renderTreeElements]. apply map_opt_all. intros e He.
  destruct (sortTreeElements_levels collate s els Hs) as [_ Hlev].
  rewrite Forall_forall in Hlev. specialize (Hlev e He).
  apply in_forest_height in He. rewrite sortTreeElements_height in He.
  destruct e as [i n t se [c|]]; cbn [children render_element]; case_goal; try reflexivity.
  inv Hlev. cbn in He. rewrite IH by (unfold forest_height; lia). cbn [option_map].
  rewrite (sortTreeElements_id collate s c) by now split. reflexivity.
Qed.

(** C40: Rendering terminates with fuel above the depth of the tree, and although it sorts each
    subtree again at every level, it renders exactly the once-sorted tree. *)
Theorem renderTreeElements_spec cn context collate fuel els s :
  consistent_sort collate s -> forest_height els < fuel ->
  renderTreeElements cn context collate fuel els s
  = Some (map (render_element cn context) (sortTreeElements collate els s)).
Proof. apply renderTreeElements_exact. Qed.

(** ** The state: theorems *)

Definition expanded (st : tree_state) : list jsstring := default_of [] (expandedItems st).

Lemma includes_In l x : includes l x = true <-> In x l.
Proof.
  unfold includes. rewrite existsb_exists. split; [|intros H; exists x; split; [exact H|apply jseqb_refl]].
  intros (y & Hy & E). apply jseqb_eq in E. now subst.
Qed.

Lemma merge_In cur next x :
  In x (mergeExpandedItems cur next) <-> In x (default_of [] cur) \/ In x next.
Proof. unfold mergeExpandedItems. now rewrite set_of_list_In, in_app_iff. Qed.

(** [reveals sid e p]: [sid] is found in [e], under no element with that identifier, and [p] is the
    path from [e] to it, the element itself included when it can be selected. *)
Inductive reveals (sid : jsstring) : TreeViewElement -> list jsstring -> Prop :=
| rv_here n t s c : reveals sid (Element sid n t s c) (if default_of true s then [sid] else [])
| rv_below i n t s c child p :
    i <> sid -> In child c -> reveals sid child p -> reveals sid (Element i n t s (Some c)) (i :: p).

Lemma findParent_fold sid cs path ex x :
  Forall (fun e => forall path ex, In x (default_of [] (findParent sid e path ex)) <->
                   In x (default_of [] ex) \/ exists p, reveals sid e p /\ In x (path ++ p)) cs ->
  In x (default_of [] (fold_left (fun ex child => findParent sid child path ex) cs ex)) <->
  In x (default_of [] ex) \/ exists c p, In c cs /\ reveals sid c p /\ In x (path ++ p).
Proof.
  intros H. revert ex. induction H as [|c cs Hc _ IH]; intros ex; cbn.
  - split; [auto|]. now intros [|(c & p & [] & _)].
  - rewrite IH, Hc. split.
    + intros [[|(p & Hp)]|(c' & p & H1 & H2)]; eauto 8.
    + intros [|(c' & p & [->|H1] & H2)]; eauto 8.
Qed.

Lemma reveals_here sid n t s c p :
  reveals sid (Element sid n t s c) p <-> p = if default_of true s then [sid] else [].
Proof. split; [intros H; inv H; congruence|intros ->; constructor]. Qed.

Lemma findParent_here sid n t s c path ex :
  findParent sid (Element sid n t s c) path ex
  = Some (mergeExpandedItems ex (path ++ if default_of true s then [sid] else [])).
Proof.
  cbn. rewrite jseqb_refl. destruct (default_of true s); [reflexivity|].
  rewrite removelast_last, app_nil_r.
  now rewrite (proj2 (includes_In _ _)) by (apply in_app_iff; cbn; auto).
Qed.

Lemma findParent_In sid e : forall x path ex,
  In x (default_of [] (findParent sid e path ex)) <->
  In x (default_of [] ex) \/ exists p, reveals sid e p /\ In x (path ++ p).
Proof.
  induction e as [i n t s c IH] using tree_ind; intros x path ex.
  destruct (js_eq_dec i sid) as [->|Hne].
  - rewrite findParent_here. cbn [default_of]. rewrite merge_In. split.
    + intros [|H]; [auto|]. right. eexists. split; [now apply reveals_here|exact H].
    + intros [|(p & Hp & H)]; [auto|]. apply reveals_here in Hp. subst. auto.
  - cbn [findParent]. rewrite (proj2 (jseqb_neq i sid) Hne).
    destruct c as [cs|].
    + cbn in IH. rewrite findParent_fold by (eapply Forall_impl; [|exact IH]; auto).
      split; (intros [|H]; [auto|right]).
      * destruct H as (c & p & H1 & H2 & H3). exists (i :: p). split; [econstructor; eauto|].
        now rewrite <- app_assoc in H3.
      * destruct H as (p & Hp & H). inv Hp; [congruence|]. match type of H with In _ (_ ++ i :: ?q) => change (i :: q) with ([i] ++ q) in H end.
        rewrite app_assoc in H. eauto.
    + split; [auto|]. intros [|(p & Hp & _)]; [auto|]. inv Hp. congruence.
Qed.

(** C12: Mounting with an initial selection adds to the expanded items exactly the paths from the
    roots to the selected element, ancestors included, and nothing else. *)
Theorem tree_mount_reveals els sid init x :
  sid <> [] ->
  In x (expanded (tree_mount (Some els) (Some sid) init)) <->
  In x (default_of [] init) \/ exists e p, In e els /\ reveals sid e p /\ In x p.
Proof.
  intros Hs. destruct sid as [|u sid]; [congruence|]. unfold expanded. cbn.
  apply findParent_fold. apply Forall_forall. intros e _. apply findParent_In.
Qed.

Lemma expand_toggle_In prev i x :
  In x (expand_toggle prev i) <->
  (x <> i /\ In x (default_of [] prev)) \/ (x = i /\ ~ In i (default_of [] prev)).
Proof.
  unfold expand_toggle.
  destruct (match prev with Some l => includes l i | None => false end) eqn:E.
  - destruct prev as [l|]; [|discriminate]. apply includes_In in E. cbn.
    rewrite filter_In, negb_true_iff, jseqb_neq. intuition congruence.
  - assert (Hn : ~ In i (default_of [] prev)).
    { destruct prev as [l|]; cbn; [|tauto]. rewrite <- includes_In. congruence. }
    rewrite in_app_iff. cbn. destruct (js_eq_dec x i); [subst|]; intuition congruence.
Qed.

(** A click on an enabled folder selects it and flips its own expansion and no other, so two
    clicks restore what is expanded; a disabled folder ignores the click. *)
Theorem folder_click_spec st v :
  tree_step st (ev_folder v false) = st /\
  let st1 := tree_step st (ev_folder v true) in
  let st2 := tree_step st1 (ev_folder v true) in
  selectedId st1 = Some v /\ (In v (expanded st1) <-> ~ In v (expanded st)) /\
  (forall x, x <> v -> (In x (expanded st1) <-> In x (expanded st))) /\
  (forall x, In x (expanded st2) <-> In x (expanded st)).
Proof.
  split; [reflexivity|]. intros st1 st2.
  assert (H : forall s x, In x (expanded (tree_step s (ev_folder v true))) <->
                (x <> v /\ In x (expanded s)) \/ (x = v /\ ~ In v (expanded s)))
    by (intros; apply expand_toggle_In).
  assert (D := in_dec js_eq_dec v (expanded st)).
  refine (conj eq_refl (conj _ (conj _ _))); unfold st2, st1.
  - rewrite H. tauto.
  - intros x Hx. rewrite H. tauto.
  - intros x. rewrite !H. destruct (js_eq_dec x v); [subst|]; tauto.
Qed.

(** An element [expandTree] pushes: it and all its ancestors can be selected and have children. *)
Inductive expandable : TreeViewElement -> jsstring -> Prop :=
| xp_here e : selectable e = true -> kids e <> [] -> expandable e (id e)
| xp_below e child x : selectable e = true -> In child (kids e) -> expandable child x -> expandable e x.

Lemma expandTree_In e x : In x (expandTree e) <-> expandable e x.
Proof.
  induction e as [i n t s c IH] using tree_ind. cbn [expandTree].
  destruct c as [[|c cs]|]; cbn in IH;
    try (split; [intros []|intros H; inv H; cbn in *; solve [congruence|contradiction]]).
  destruct (default_of true s) eqn:Es.
  - cbn [In]. rewrite in_flat_map. split.
    + intros [<-|(ch & Hch & Hx)]; [apply xp_here; cbn; [exact Es|discriminate]|].
      apply (xp_below _ ch); [exact Es|exact Hch|]. rewrite Forall_forall in IH. now apply IH.
    + intros H. inv H; [now left|]. right. exists child. split; [assumption|].
      rewrite Forall_forall in IH. now apply IH.
  - split; [intros []|]. intros H; inv H; unfold selectable in *; cbn in *; congruence.
Qed.

(** Expanding everything yields, without repetition, exactly the elements that have children
    and can be selected along with all their ancestors; the collapse button closes everything when
    something is open and expands everything otherwise. *)
Theorem collapse_click_spec els st :
  (forall x, In x (expendAllTree els) <-> exists e, In e els /\ expandable e x) /\
  NoDup (expendAllTree els) /\
  expandedItems (tree_step st (ev_collapse els))
  = Some (match expanded st with [] => expendAllTree els | _ => [] end) /\
  selectedId (tree_step st (ev_collapse els)) = selectedId st.
Proof.
  repeat split.
  - unfold expendAllTree. rewrite set_of_list_In, in_flat_map.
    intros (e & He & Hx). exists e. now rewrite <- expandTree_In.
  - unfold expendAllTree. rewrite set_of_list_In, in_flat_map.
    intros (e & He & Hx). exists e. now rewrite expandTree_In.
  - apply set_of_list_NoDup.
  - cbn. unfold collapse_click, expanded. now destruct (expandedItems st) as [[|? ?]|].
  - cbn. unfold collapse_click. now destruct (expandedItems st) as [[|? ?]|].
Qed.

Inductive tree_reach (els : option (list TreeViewElement)) (sel : option jsstring)
  (init : option (list jsstring)) : tree_state -> Prop :=
| tr_mount : tree_reach els sel init (tree_mount els sel init)
| tr_step st e : tree_reach els sel init st -> tree_reach els sel init (tree_step st e).

Lemma findParent_NoDup sid e : forall path ex,
  NoDup (default_of [] ex) -> NoDup (default_of [] (findParent sid e path ex)).
Proof.
  induction e as [i n t s c IH] using tree_ind; intros path ex H.
  destruct (js_eq_dec i sid) as [->|Hne]; [rewrite findParent_here; apply set_of_list_NoDup|].
  cbn [findParent]. rewrite (proj2 (jseqb_neq i sid) Hne). destruct c as [cs|]; [|exact H].
  cbn in IH. revert ex H. induction IH as [|c cs' Hc _ IHcs]; intros ex H; cbn; auto.
Qed.

Lemma tree_step_NoDup st e : NoDup (expanded st) -> NoDup (expanded (tree_step st e)).
Proof.
  destruct st as [sel ex]. intros H. destruct e as [v []|v []|els|els]; try exact H; unfold expanded in *; cbn in *.
  - unfold expand_toggle. destruct (match ex with Some l => includes l v | None => false end) eqn:E;
      [now apply NoDup_filter|].
    apply NoDup_app; [exact H|repeat constructor; cbn; tauto|]. intros x Hx [<-|[]].
    destruct ex; [|exact Hx]. cbn in Hx. apply includes_In in Hx. congruence.
  - unfold collapse_click. destruct ex as [[|? ?]|]; cbn; solve [apply set_of_list_NoDup | constructor].
  - apply set_of_list_NoDup.
Qed.

(** Whatever the user clicks, no folder is listed twice among the expanded items. *)
Theorem expanded_NoDup els sel init st :
  NoDup (default_of [] init) -> tree_reach els sel init st -> NoDup (expanded st).
Proof.
  intros Hi. induction 1 as [|st e _ IH]; [|now apply tree_step_NoDup].
  unfold tree_mount. destruct sel as [[|u sid]|]; try exact Hi.
  unfold expandSpecificTargetedElements. destruct els as [l|]; [|exact Hi]. unfold expanded. cbn.
  revert init Hi. induction l as [|e l IH]; intros init Hi; cbn; [exact Hi|].
  apply IH. now apply findParent_NoDup.
Qed.

(** ** The repository tree *)

Definition leaf (i n : string) : TreeViewElement := Element (js i) (js n) (Some t_file) None None.
Definition folder (i n : string) (c : list TreeViewElement) : TreeViewElement :=
  Element (js i) (js n) (Some t_folder) None (Some c).

Definition repo_elements : list TreeViewElement :=
  [folder "api" "api/" [leaf "api-types" "CRD types and validation"];
   folder "cmd" "cmd/"
     [leaf "cmd-management" "management controller"; leaf "cmd-webhook" "host webhook";
      leaf "cmd-installer" "kubecell-installer"];
   folder "internal" "internal/"
     [leaf "internal-controllers" "controllers and rendering"; leaf "internal-admission" "admission";
      leaf "internal-platform" "platform constants"];
   folder "charts" "charts/" [leaf "charts-management" "kubecell-management"; leaf "charts-host" "kubecell-host"];
   folder "config" "config/" [leaf "config-kubebuilder" "CRDs, RBAC, webhook, manager"];
   folder "third-party" "third-party/" [leaf "third-party-ocm" "pinned upstream versions (OCM)"];
   folder "hack" "hack/" [leaf "hack-image" "image and release helpers"];
   folder "test" "test/" [leaf "test-envtest" "envtest, chart contracts, e2e"];
   folder "website" "website/" [leaf "website-site" "this site and documentation"];
   leaf "design" "technical-design.md"]%string.

Definition repo_initialExpandedItems : list jsstring := [js "api"; js "cmd"; js "internal"; js "charts"].

Definition RepoTree (cn : list jsstring -> jsstring) (collate : jsstring -> jsstring -> Z) (st : tree_state)
  : option vnode :=
  option_map
    (fun tree =>
       VEl "div" [("className"%string, js "relative h-[26rem] overflow-hidden rounded-2xl border border-white/10 bg-[#070b14] p-4")]
         [tree])
    (Tree cn collate st (Some (js "[&_button]:text-slate-300 [&_button:hover]:bg-white/5")) (Some repo_elements) None
       None None None None None []).

(** A collation by code units, which is consistent. *)
Fixpoint jscmp (a b : jsstring) : Z :=
  match a, b with
  | [], [] => 0
  | [], _ :: _ => -1
  | _ :: _, [] => 1
  | x :: a', y :: b' => if (x <? y)%N then -1 else if (y <? x)%N then 1 else jscmp a' b'
  end%Z.

Ltac jscmp_step :=
  cbn [jscmp];
  repeat match goal with |- context [(?a <? ?b)%N] => destruct (N.ltb_spec a b) end;
  try lia.

Lemma jscmp_consistent : Consistent jscmp.
Proof.
  split.
  - intros x. induction x as [|u x IH]; intros [|v y]; jscmp_step; auto.
  - intros x. induction x as [|u x IH]; intros [|v y] [|w z]; jscmp_step; eauto.
Qed.

(** ** The controls of a rendered tree *)

(** The folders and the files a tree shows: a file shows none of its children. *)
Fixpoint shown (want_folders : bool) (e : TreeViewElement) : list jsstring :=
  match e with
  | Element i _ _ _ c =>
      (if Bool.eqb (isFolderElement e) want_folders then [i] else []) ++
      (if isFolderElement e then match c with Some cs => flat_map (shown want_folders) cs | None => [] end
       else [])
  end.

(** The targets of the click handlers of the folders, or of the files. *)
Definition targets (want_folders : bool) : vnode -> list jsstring :=
  if want_folders then collect "AccordionPrimitive.Trigger" "onClick.folder" else collect "button" "onClick.file".

Section Controls.
Context (cn : list jsstring -> jsstring) (context : TreeContextProps).
Context (no_open : c_openIcon context = None) (no_close : c_closeIcon context = None).

Lemma targets_Folder w n i s c :
  targets w (keyed i (Folder cn context None n i s None c)) = (if w then [i] else []) ++ flat_map (targets w) c.
Proof using no_open no_close.
  unfold Folder, targets. rewrite no_open, no_close.
  destruct w, (default_of true s), (is_expanded context i), n, (c_indicator context);
    cbn; rewrite ?app_nil_r; reflexivity.
Qed.

Lemma targets_File w n i s :
  targets w (keyed i (File cn context i None s None None [VEl "span" [] [VText n]])) = if w then [] else [i].
Proof. destruct w, s as [[]|]; reflexivity. Qed.

Lemma targets_element w e : targets w (render_element cn context e) = shown w e.
Proof using no_open no_close.
  induction e as [i n t s c IH] using tree_ind. cbn [render_element shown].
  destruct (isFolderElement (Element i n t s c)) eqn:Ef;
    [rewrite targets_Folder|rewrite targets_File; now destruct w].
  f_equal; [now destruct w|]. destruct c as [cs|]; [|reflexivity]. cbn in IH.
  rewrite flat_map_concat_map, map_map, flat_map_concat_map. f_equal. now apply map_ext_Forall.
Qed.
End Controls.

Lemma sort_element_shown collate s w e : Permutation (shown w (sort_element collate s e)) (shown w e).
Proof.
  induction e as [i n t se [c|] IH] using tree_ind; [|reflexivity]. cbn [sort_element shown].
  change (isFolderElement (Element i n t se (Some _))) with (isFolderElement (Element i n t se (Some c))).
  apply Permutation_app_head. case_goal; [|reflexivity].
  apply sort_level_flat. now apply Forall_forall.
Qed.

(** The rendered tree has exactly one control for every element it shows: the targets of the
    folder triggers are the folders, and those of the file buttons the files. *)
Theorem Tree_controls cn context collate fuel els s w :
  consistent_sort collate s -> forest_height els < fuel ->
  c_openIcon context = None -> c_closeIcon context = None ->
  exists vs, renderTreeElements cn context collate fuel els s = Some vs /\
             Permutation (flat_map (targets w) vs) (flat_map (shown w) els).
Proof.
  intros Hs Hf Ho Hc. eexists. split; [now apply renderTreeElements_exact|].
  rewrite flat_map_concat_map, map_map, (map_ext _ (shown w)), <- flat_map_concat_map
    by (intros; now apply targets_element).
  apply sort_level_flat. intros. apply sort_element_shown.
Qed.

(** ** Witnesses *)

Lemma sortTreeElements_sorted_witness :
  Consistent jscmp /\
  (let r := sortTreeElements jscmp repo_elements sort_default in
   every_forest_level
     (fun l => StronglySorted (le_by (defaultTreeComparator jscmp)) l /\ folders_first l) r
   /\ sortTreeElements jscmp r sort_default = r
   /\ forall s, Permutation (flat_map all_ids (sortTreeElements jscmp repo_elements s)) (flat_map all_ids repo_elements)).
Proof. split; [exact jscmp_consistent|]. exact (sortTreeElements_sorted jscmp repo_elements jscmp_consistent). Defined.

Lemma renderTreeElements_spec_witness :
  let context := {| c_state := TS None (Some repo_initialExpandedItems); c_indicator := true; c_openIcon := None;
                    c_closeIcon := None; c_direction := dir_ltr |} in
  forest_height repo_elements = 2 /\
  renderTreeElements (join [32%N]) context jscmp 3 repo_elements sort_default
  = Some (map (render_element (join [32%N]) context) (sortTreeElements jscmp repo_elements sort_default)).
Proof.
  split; [reflexivity|].
  exact (renderTreeElements_spec (join [32%N]) _ jscmp 3 repo_elements sort_default
           (default_consistent jscmp jscmp_consistent) (le_n 3)).
Defined.

Lemma tree_mount_reveals_witness :
  In (js "cmd") (expanded (tree_mount (Some repo_elements) (Some (js "cmd-webhook")) None)) <->
  In (js "cmd") (default_of [] None) \/
  exists e p, In e repo_elements /\ reveals (js "cmd-webhook") e p /\ In (js "cmd") p.
Proof.
  exact (tree_mount_reveals repo_elements (js "cmd-webhook") None (js "cmd")
           ltac:(intros H; discriminate H)).
Defined.

Lemma expanded_NoDup_witness :
  NoDup (expanded (tree_step (tree_mount (Some repo_elements) None (Some repo_initialExpandedItems))
                     (ev_folder (js "hack") true))).
Proof.
  apply (expanded_NoDup (Some repo_elements) None (Some repo_initialExpandedItems)).
  - apply (NoDup_by_set js_eq_dec). reflexivity.
  - apply tr_step, tr_mount.
Defined.


Lemma Tree_controls_witness :
  let context := {| c_state := TS None None; c_indicator := true; c_openIcon := None;
                    c_closeIcon := None; c_direction := dir_ltr |} in
  exists vs, renderTreeElements (join [32%N]) context jscmp 3 repo_elements sort_default = Some vs /\
             Permutation (flat_map (targets true) vs) (flat_map (shown true) repo_elements).
Proof.
  exact (Tree_controls (join [32%N]) {| c_state := TS None None; c_indicator := true; c_openIcon := None;
                    c_closeIcon := None; c_direction := dir_ltr |} jscmp 3 repo_elements sort_default true
           (default_consistent jscmp jscmp_consistent) (le_n 3) eq_refl eq_refl).
Defined.

(** The repository tree: distinct identifiers, and the items it expands at first are folders that
    can be expanded. *)
Example repo_elements_ok :
  NoDup (flat_map all_ids repo_elements) /\
  Forall (fun x => In x (expendAllTree repo_elements)) repo_initialExpandedItems.
Proof.
  split; [now apply (NoDup_by_set js_eq_dec)|]. repeat constructor; apply includes_In; reflexivity.
Qed.
