(* ===== verification/JsNum.v ===== *)
(** * JavaScript numbers

    A number is an IEEE 754 binary64 value, computed with the Standard Library's [SpecFloat]
    (53 bits of precision, exponent bound 1024, round to nearest even); it is a datatype and uses no
    primitive floats.  [lit n d] is a decimal literal: the quotient of two exactly represented
    integers, correctly rounded. *)

From Stdlib Require Import List ZArith Lia Bool SpecFloat.
From S2P Require Import Prelude.
Import ListNotations.
Local Open Scope Z_scope.

Definition num := spec_float.

Definition nadd : num -> num -> num := SFadd 53 1024.
Definition nsub : num -> num -> num := SFsub 53 1024.
Definition nmul : num -> num -> num := SFmul 53 1024.
Definition ndiv : num -> num -> num := SFdiv 53 1024.
Definition nsqrt : num -> num := SFsqrt 53 1024.
Definition nneg : num -> num := SFopp.
Definition nabs : num -> num := SFabs.

(** The number of an integer; exact up to 2^53. *)
Definition nof (z : Z) : num := binary_normalize 53 1024 z 0 false.
Definition lit (n d : Z) : num := ndiv (nof n) (nof d).

Definition is_nan (x : num) : bool := match x with S754_nan => true | _ => false end.
Definition is_finite (x : num) : bool := match x with S754_zero _ | S754_finite _ _ _ => true | _ => false end.

(** [<], [<=], [===] on numbers: false as soon as one side is NaN. *)
Definition nlt : num -> num -> bool := SFltb.
Definition nle : num -> num -> bool := SFleb.
Definition neq : num -> num -> bool := SFeqb.

(** [Boolean(x)]: zero and NaN are falsy. *)
Definition truthy (x : num) : bool := match x with S754_nan | S754_zero _ => false | _ => true end.

(** [Math.max] and [Math.min] of two numbers: NaN is contagious and [-0] is below [+0]. *)
Definition Math_max (x y : num) : num :=
  match SFcompare x y with
  | None => S754_nan
  | Some Lt => y
  | Some Gt => x
  | Some Eq => match x with S754_zero true => y | _ => x end
  end.

Definition Math_min (x y : num) : num :=
  match SFcompare x y with
  | None => S754_nan
  | Some Lt => x
  | Some Gt => y
  | Some Eq => match y with S754_zero true => y | _ => x end
  end.

(** The integer part towards minus infinity of a finite number, as an integer. *)
Definition floorZ (x : num) : Z :=
  match x with
  | S754_finite s m e =>
      let v := if s then Zneg m else Zpos m in
      if (0 <=? e) then v * 2 ^ e else v / 2 ^ (- e)
  | _ => 0
  end.

(** [Math.floor]; a value that is already an integer, a zero, an infinity or NaN is itself. *)
Definition Math_floor (x : num) : num :=
  match x with
  | S754_finite s m e => if (0 <=? e) then x else nof (floorZ x)
  | _ => x
  end.

(** [Math.round(x)] is [floor(x + 0.5)] computed exactly; the result is negative zero below zero. *)
Definition Math_round (x : num) : num :=
  match x with
  | S754_finite s m e =>
      if (0 <=? e) then x
      else
        let v := if s then Zneg m else Zpos m in
        let r := (2 * v + 2 ^ (- e)) / (2 * 2 ^ (- e)) in
        if r =? 0 then S754_zero s else nof r
  | _ => x
  end.

(** [Math.ceil]. *)
Definition Math_ceil (x : num) : num := nneg (Math_floor (nneg x)).

(** [Math.trunc], as an integer, of a finite number. *)
Definition truncZ (x : num) : Z :=
  match x with
  | S754_finite true _ _ => - floorZ (nneg x)
  | _ => floorZ x
  end.

(** [Math.PI]. *)
Definition Math_PI : num := lit 3141592653589793 (10 ^ 15).

(** [x % y]: the exact remainder of the truncated quotient, with the sign of [x]. *)
Definition nrem (x y : num) : num :=
  match x, y with
  | S754_nan, _ | _, S754_nan | S754_infinity _, _ | _, S754_zero _ => S754_nan
  | S754_zero _, _ | _, S754_infinity _ => x
  | S754_finite s m e, S754_finite _ m' e' =>
      let g := Z.min e e' in
      let r := (Zpos m * 2 ^ (e - g)) mod (Zpos m' * 2 ^ (e' - g)) in
      binary_normalize 53 1024 (if s then - r else r) g s
  end.

(** [Object.is] on numbers: one NaN, two zeros. *)
Definition num_dec (x y : num) : {x = y} + {x <> y}.
Proof. decide equality; first [apply Bool.bool_dec | apply Pos.eq_dec | apply Z.eq_dec]. Defined.

(** [Math.fround]: the nearest binary32 value, which is also a binary64 value. *)
Definition fround (x : num) : num :=
  match x with
  | S754_finite s m e =>
      match binary_round 24 128 s m e with
      | S754_finite s' m' e' => binary_round 53 1024 s' m' e'
      | y => y
      end
  | _ => x
  end.

Example lit_tenth : lit 1 10 = S754_finite false 7205759403792794 (-56).
Proof. vm_compute. reflexivity. Qed.

Example floor_ex :
  (Math_floor (lit 29 10), Math_floor (lit (-1) 2), Math_ceil (lit 5 2), Math_round (lit 5 2), Math_round (lit (-5) 2))
  = (nof 2, nof (-1), nof 3, nof 3, nof (-2)).
Proof. vm_compute. reflexivity. Qed.

Example nrem_ex :
  (map (fun z => nrem (nof z) (nof 2)) [-3; -2; 0; 5], nrem (lit 15 10) (nof 1), nrem (nof 5) (nof 0))
  = ([nof (-1); S754_zero true; nof 0; nof 1], lit 1 2, S754_nan).
Proof. vm_compute. reflexivity. Qed.

(** ** Order *)

Lemma compare_swap x y : SFcompare y x = option_map CompOpp (SFcompare x y).
Proof.
  destruct x as [[]|[]| |[] m e], y as [[]|[]| |[] m' e']; try reflexivity; cbn;
    rewrite (Z.compare_antisym e e'); destruct (e ?= e') eqn:E; cbn; try reflexivity;
    change (Pos.compare_cont Eq m' m) with (m' ?= m)%positive;
    change (Pos.compare_cont Eq m m') with (m ?= m')%positive; f_equal;
    rewrite (Pos.compare_antisym m m'); now rewrite ?CompOpp_involutive.
Qed.

Lemma compare_none x y : SFcompare x y = None <-> is_nan x = true \/ is_nan y = true.
Proof.
  destruct x as [[]|[]| |[] m e], y as [[]|[]| |[] m' e']; cbn; intuition discriminate.
Qed.

Lemma compare_refl x : is_nan x = false -> SFcompare x x = Some Eq.
Proof.
  destruct x as [[]|[]| |[] m e]; cbn; intros H; try reflexivity; try discriminate;
    rewrite Z.compare_refl; change (Pos.compare_cont Eq m m) with (m ?= m)%positive;
    now rewrite Pos.compare_refl.
Qed.

Lemma nle_spec x y : nle x y = true <-> SFcompare x y = Some Lt \/ SFcompare x y = Some Eq.
Proof. unfold nle, SFleb. destruct (SFcompare x y) as [[]|]; intuition discriminate. Qed.

Lemma nlt_spec x y : nlt x y = true <-> SFcompare x y = Some Lt.
Proof. unfold nlt, SFltb. destruct (SFcompare x y) as [[]|]; intuition discriminate. Qed.

Lemma nle_refl x : is_nan x = false -> nle x x = true.
Proof. intros H. apply nle_spec. right. now apply compare_refl. Qed.

Lemma nle_total x y : is_nan x = false -> is_nan y = false -> nle x y = true \/ nle y x = true.
Proof.
  intros Hx Hy. rewrite !nle_spec, (compare_swap x y).
  destruct (SFcompare x y) as [[]|] eqn:E; cbn; auto. apply compare_none in E. intuition congruence.
Qed.

Lemma nlt_le x y : nlt x y = true -> nle x y = true.
Proof. rewrite nlt_spec, nle_spec. auto. Qed.

Lemma nlt_not_le x y : nlt x y = true -> nle y x = false.
Proof. rewrite nlt_spec. unfold nle, SFleb. rewrite (compare_swap x y). now intros ->. Qed.

Lemma not_nle_lt x y : is_nan x = false -> is_nan y = false -> nle x y = false -> nlt y x = true.
Proof.
  intros Hx Hy. rewrite nlt_spec, (compare_swap x y). unfold nle, SFleb.
  destruct (SFcompare x y) as [[]|] eqn:E; cbn; try discriminate; [reflexivity|].
  apply compare_none in E. intuition congruence.
Qed.

Lemma nle_no_nan x y : nle x y = true -> is_nan x = false /\ is_nan y = false.
Proof.
  rewrite nle_spec. intros H. destruct (is_nan x) eqn:Ex, (is_nan y) eqn:Ey; auto; exfalso;
    assert (SFcompare x y = None) by (apply compare_none; auto); destruct H; congruence.
Qed.

(** Each number that is not NaN has a key, ordered lexicographically as the numbers are. *)
Definition nkey (x : num) : Z * Z * Z :=
  match x with
  | S754_infinity true => (-2, 0, 0)
  | S754_finite true m e => (-1, - e, Zneg m)
  | S754_zero _ | S754_nan => (0, 0, 0)
  | S754_finite false m e => (1, e, Zpos m)
  | S754_infinity false => (2, 0, 0)
  end.

Definition lex_le (a b : Z * Z * Z) : Prop :=
  let '(a1, a2, a3) := a in let '(b1, b2, b3) := b in
  a1 < b1 \/ (a1 = b1 /\ (a2 < b2 \/ (a2 = b2 /\ a3 <= b3))).

Lemma nle_key x y : is_nan x = false -> is_nan y = false -> (nle x y = true <-> lex_le (nkey x) (nkey y)).
Proof.
  intros Hx Hy. rewrite nle_spec.
  destruct x as [[]|[]| |[] m e], y as [[]|[]| |[] m' e']; try discriminate; cbn;
    try (split; [intros [|]; try discriminate; lia|intros; auto; lia]);
    destruct (Z.compare_spec e e'); cbn;
    try (split; [intros [|]; try discriminate; lia|intros; auto; lia]);
    change (Pos.compare_cont Eq m m') with (m ?= m')%positive;
    destruct (Pos.compare_spec m m'); cbn;
    (split; [intros [|]; try discriminate; lia|intros; auto; lia]).
Qed.

Lemma nle_trans x y z : nle x y = true -> nle y z = true -> nle x z = true.
Proof.
  intros H1 H2. destruct (nle_no_nan _ _ H1), (nle_no_nan _ _ H2).
  rewrite nle_key in * by assumption.
  unfold lex_le in *. destruct (nkey x) as [[? ?] ?], (nkey y) as [[? ?] ?], (nkey z) as [[? ?] ?]. lia.
Qed.

Lemma nlt_le_trans x y z : nlt x y = true -> nle y z = true -> nlt x z = true.
Proof.
  intros H1 H2. assert (H3 := nlt_le _ _ H1). destruct (nle_no_nan _ _ H3), (nle_no_nan _ _ H2).
  apply not_nle_lt; auto. destruct (nle z x) eqn:E; [|reflexivity].
  apply nlt_not_le in H1. rewrite (nle_trans y z x) in H1 by assumption. discriminate.
Qed.

(** ** Minimum, maximum and clamping *)

Lemma Math_max_ge x y :
  is_nan x = false -> is_nan y = false -> nle x (Math_max x y) = true /\ nle y (Math_max x y) = true.
Proof.
  intros Hx Hy. unfold Math_max.
  assert (S := compare_swap x y).
  destruct (SFcompare x y) as [[]|] eqn:E; cbn in S.
  - destruct x as [[]|?| |? ? ?]; split; try (now apply nle_refl); apply nle_spec; auto.
  - split; [apply nle_spec; auto|now apply nle_refl].
  - split; [now apply nle_refl|apply nle_spec; auto].
  - apply compare_none in E. intuition congruence.
Qed.

Lemma Math_min_le x y :
  is_nan x = false -> is_nan y = false -> nle (Math_min x y) x = true /\ nle (Math_min x y) y = true.
Proof.
  intros Hx Hy. unfold Math_min.
  assert (S := compare_swap x y).
  destruct (SFcompare x y) as [[]|] eqn:E; cbn in S.
  - destruct y as [[]|?| |? ? ?]; split; try (now apply nle_refl); apply nle_spec; auto.
  - split; [now apply nle_refl|apply nle_spec; auto].
  - split; [apply nle_spec; auto|now apply nle_refl].
  - apply compare_none in E. intuition congruence.
Qed.

Lemma Math_max_either x y : is_nan x = false -> is_nan y = false -> Math_max x y = x \/ Math_max x y = y.
Proof.
  intros Hx Hy. unfold Math_max. destruct (SFcompare x y) as [[]|] eqn:E; auto.
  - destruct x as [[]|?| |? ? ?]; auto.
  - apply compare_none in E. intuition congruence.
Qed.

Lemma Math_min_either x y : is_nan x = false -> is_nan y = false -> Math_min x y = x \/ Math_min x y = y.
Proof.
  intros Hx Hy. unfold Math_min. destruct (SFcompare x y) as [[]|] eqn:E; auto.
  - destruct y as [[]|?| |? ? ?]; auto.
  - apply compare_none in E. intuition congruence.
Qed.

Lemma Math_max_nan x y : is_nan x = false -> is_nan y = false -> is_nan (Math_max x y) = false.
Proof. intros Hx Hy. destruct (Math_max_either x y Hx Hy) as [-> | ->]; assumption. Qed.

(** The minimum of a larger value with a bound is still above what both are above. *)
Lemma Math_min_glb z x y : nle z x = true -> nle z y = true -> nle z (Math_min x y) = true.
Proof.
  intros Hx Hy. destruct (nle_no_nan _ _ Hx), (nle_no_nan _ _ Hy).
  destruct (Math_min_either x y) as [-> | ->]; auto.
Qed.

Lemma clamp_bounds x lo hi :
  is_nan x = false -> nle lo hi = true ->
  nle lo (Math_min (Math_max x lo) hi) = true /\ nle (Math_min (Math_max x lo) hi) hi = true.
Proof.
  intros Hx Hlh. destruct (nle_no_nan _ _ Hlh) as [Hl Hh]. split.
  - apply Math_min_glb; [now apply Math_max_ge|exact Hlh].
  - apply Math_min_le; [now apply Math_max_nan|exact Hh].
Qed.

(** Inside the bounds a value is unchanged, up to the sign of a zero. *)
Lemma clamp_inside x lo hi :
  nlt lo x = true -> nlt x hi = true -> Math_min (Math_max x lo) hi = x.
Proof.
  intros H1 H2. rewrite nlt_spec in *. unfold Math_max. rewrite (compare_swap lo x), H1. cbn.
  unfold Math_min. now rewrite H2.
Qed.

#[export] Hint Resolve nle_refl nlt_le : kubecell.
