(* ===== verification/NumText.v ===== *)
(** * Numbers as text

    [Number.prototype.toString] (ECMA-262, Number::toString for radix 10) and
    [Number.prototype.toFixed], computed exactly on rationals, and [parseInt] in base 16. *)

From Stdlib Require Import String List NArith ZArith Lia Bool SpecFloat.
From S2P Require Import Prelude JsString JsNum.
Import ListNotations.
Local Open Scope list_scope.
Local Open Scope Z_scope.

(** The decimal digits of a non-negative integer, least significant first. *)
Fixpoint zdigits_rev (fuel : nat) (z : Z) : jsstring :=
  match fuel with
  | O => []
  | S f => Z.to_N (48 + z mod 10) :: (if z <? 10 then [] else zdigits_rev f (z / 10))
  end.

Definition zdigits (z : Z) : jsstring := rev (zdigits_rev (S (Z.to_nat (Z.log2 z))) z).

Definition z_to_js (z : Z) : jsstring := if z <? 0 then 45%N :: zdigits (- z) else zdigits z.

(** A positive finite number as a fraction. *)
Definition fraction (m : positive) (e : Z) : Z * Z :=
  if 0 <=? e then (Zpos m * 2 ^ e, 1) else (Zpos m, 2 ^ (- e)).

(** The number nearest to a fraction of positive integers. *)
Definition of_ratio (n d : Z) : num :=
  let '(q, e, l) := SFdiv_core_binary 53 1024 n 0 d 0 in binary_round_aux 53 1024 false q e l.

Definition scale (s q : Z) : num := if 0 <=? q then of_ratio (s * 10 ^ q) 1 else of_ratio s (10 ^ (- q)).

(** The least [p] with [n / d < 10 ^ p], searched upwards. *)
Fixpoint magnitude (fuel : nat) (n d p : Z) : Z :=
  match fuel with
  | O => p
  | S f => if (if 0 <=? p then n <? d * 10 ^ p else n * 10 ^ (- p) <? d) then p else magnitude f n d (p + 1)
  end.

(** The integer nearest to [n / d / 10 ^ q]. *)
Definition nearest (n d q : Z) : Z :=
  let '(n', d') := if 0 <=? q then (n, d * 10 ^ q) else (n * 10 ^ (- q), d) in (2 * n' + d') / (2 * d').

(** The shortest digits that denote the number [x], given its magnitude. *)
Fixpoint shortest (fuel : nat) (x : num) (n d p k : Z) : Z * Z :=
  let s := nearest n d (p - k) in
  match fuel with
  | O => (s, k)
  | S f => if neq (scale s (p - k)) x then (s, k) else shortest f x n d p (k + 1)
  end.

Definition zeros (n : Z) : jsstring := repeat 48%N (Z.to_nat n).

Definition positive_to_js (x : num) (m : positive) (e : Z) : jsstring :=
  let '(n, d) := fraction m e in
  let p := magnitude 8 n d (((e + Z.log2 (Zpos m)) * 30103) / 100000 - 1) in
  let '(s, k) := shortest 16 x n d p 1 in
  let '(s, k, p) := if s =? 10 ^ k then (1, 1, p + 1) else (s, k, p) in
  let ds := zdigits s in
  if (k <=? p) && (p <=? 21) then ds ++ zeros (p - k)
  else if (0 <? p) && (p <=? 21) then slice 0 (Z.to_nat p) ds ++ js "." ++ slice_from (Z.to_nat p) ds
  else if (-6 <? p) && (p <=? 0) then js "0." ++ zeros (- p) ++ ds
  else
    let ex := js "e" ++ (if p - 1 <? 0 then js "-" else js "+") ++ zdigits (Z.abs (p - 1)) in
    if k =? 1 then ds ++ ex else slice 0 1 ds ++ js "." ++ slice_from 1 ds ++ ex.

(** [String(x)]. *)
Definition num_to_js (x : num) : jsstring :=
  match x with
  | S754_nan => js "NaN"
  | S754_zero _ => js "0"
  | S754_infinity s => (if s then js "-" else []) ++ js "Infinity"
  | S754_finite s m e => (if s then js "-" else []) ++ positive_to_js (SFabs x) m e
  end.

(** [x.toFixed(f)] for a number below 10^21. *)
Definition toFixed (x : num) (f : Z) : jsstring :=
  match x with
  | S754_nan => js "NaN"
  | S754_infinity _ => num_to_js x
  | _ =>
      let '(s, n, d) := match x with
                        | S754_finite s m e => let '(n, d) := fraction m e in (s, n, d)
                        | _ => (false, 0, 1)
                        end in
      if 10 ^ 21 * d <=? n then num_to_js x
      else
        let v := zdigits ((2 * n * 10 ^ f + d) / (2 * d)) in
        let v := if Z.of_nat (length v) <=? f then zeros (f + 1 - Z.of_nat (length v)) ++ v else v in
        let k := (length v - Z.to_nat f)%nat in
        (if s then js "-" else []) ++ (if f =? 0 then v else slice 0 k v ++ js "." ++ slice_from k v)
  end.

Example num_to_js_ex :
  map num_to_js [lit 1 10; nof 200; lit (-5) 2; nadd (lit 1 10) (lit 2 10); lit 1 3; nof (10 ^ 21); lit 1 1000000;
                 lit 1 10000000; lit 92 100; nof 0; ndiv (nof 1) (nof 0); nof 1600]
  = [js "0.1"; js "200"; js "-2.5"; js "0.30000000000000004"; js "0.3333333333333333"; js "1e+21"; js "0.000001";
     js "1e-7"; js "0.92"; js "0"; js "Infinity"; js "1600"].
Proof. vm_compute. reflexivity. Qed.

Example toFixed_ex :
  [toFixed (nof 15) 1; toFixed (lit (-1) 2) 1; toFixed (lit 92 100) 2; toFixed (lit 7 10) 1; toFixed (nof 1) 1; toFixed (lit 5 1000) 2]
  = [js "15.0"; js "-0.5"; js "0.92"; js "0.7"; js "1.0"; js "0.01"].
Proof. vm_compute. reflexivity. Qed.

(** ** Reading hexadecimal numbers *)

(** [hex.replace(sharp, '')]: the first number sign is removed. *)
Fixpoint remove_sharp (s : jsstring) : jsstring :=
  match s with [] => [] | c :: s' => if (c =? 35)%N then s' else c :: remove_sharp s' end.

Definition hex_of (c : N) : option Z :=
  if in_range c (48, 57)%N then Some (Z.of_N c - 48)%Z
  else if in_range c (97, 102)%N then Some (Z.of_N c - 87)%Z
  else if in_range c (65, 70)%N then Some (Z.of_N c - 55)%Z
  else None.

Fixpoint hex_digits (s : jsstring) : list Z :=
  match s with
  | [] => []
  | c :: s' => match hex_of c with Some d => d :: hex_digits s' | None => [] end
  end.

Definition hex_number (ds : list Z) : Z := fold_left (fun acc d => acc * 16 + d)%Z ds 0%Z.

(** The integer a mathematical integer is rounded to as a number; exact up to 2^53. *)
Definition round_int (z : Z) : Z := if (Z.abs z <=? 2 ^ 53)%Z then z else truncZ (nof z).

(** [parseInt(s, 16)]: white space, a sign, an optional prefix, then digits; [None] is NaN. *)
Definition parseInt16 (s : jsstring) : option Z :=
  let s := trimStart s in
  let '(neg, s) := match s with
                   | c :: s' => if (c =? 45)%N then (true, s') else if (c =? 43)%N then (false, s') else (false, s)
                   | [] => (false, s)
                   end in
  let s := match s with
           | z :: x :: s' => if (z =? 48)%N && ((x =? 120)%N || (x =? 88)%N) then s' else s
           | _ => s
           end in
  match hex_digits s with
  | [] => None
  | ds => Some (if neg then - round_int (hex_number ds) else round_int (hex_number ds))%Z
  end.
