(* ===== verification/Decor.v ===== *)
(** * Decorative components ([website/components/magicui])

    Components without state, each a function from its props to an element:
    - [GlareHover]: [glare-hover.tsx], with the reading of hexadecimal colours;
    - [ProgressiveBlur]: [progressive-blur.tsx], layers of increasing blur;
    - [OrbitingCircles]: [orbiting-circles.tsx]; [Marquee]: [marquee.tsx];
    - [TextReveal]: [text-reveal.tsx], words that appear while the page scrolls;
    - [BlurFade]: [blur-fade.tsx]; [BorderBeam]: [border-beam.tsx]; [ShineBorder]: [shine-border.tsx];
    - [AuroraText], [GradientText], [ShinyText]: the texts with a moving gradient.

    A prop with a default value is an option; an exception is the absence of a result. *)

From Stdlib Require Import String List Arith NArith ZArith Lia Bool SpecFloat.
From S2P Require Import Prelude JsString Regex JsNum NumText Dom.
Import ListNotations.
Local Open Scope list_scope.

Definition sv (name : string) (v : jsstring) : string * jsstring := (name, v).

Definition style_opt (name : string) (v : option jsstring) : list (string * jsstring) :=
  match v with Some s => [(name, s)] | None => [] end.

(** Later attributes override earlier ones, as when an object is spread into another. *)
Definition spread (base over : list (string * jsstring)) : list (string * jsstring) :=
  filter (fun a => negb (existsb (fun b => String.eqb (fst a) (fst b)) over)) base ++ over.

Definition is_style (a : string * jsstring) : bool := String.prefix "style." (fst a).

(** [{...props}] after other attributes: a [style] among the rest replaces the whole style. *)
Definition over (base rest : list (string * jsstring)) : list (string * jsstring) :=
  spread (if existsb is_style rest then filter (fun a => negb (is_style a)) base else base) rest.

Module GlareHover.

Record GlareHoverProps := {
  gh_background : option jsstring; gh_children : list vnode; gh_color : option jsstring; gh_opacity : option num; gh_angle : option num;
  gh_size : option num; gh_duration : option num; gh_playOnce : bool; gh_className : option jsstring;
  gh_style : list (string * jsstring); gh_width : option jsstring; gh_height : option jsstring; gh_rest : list (string * jsstring) }.

Definition hex_class : cclass := Cls false [(48, 57); (65, 70); (97, 102)]%N.
Definition hex_re (n : nat) : regex := RSeq RBol (RSeq (rtimes n (RChr hex_class)) REol).

(** [Number.parseInt(h, 16)], printed. *)
Definition parse (h : jsstring) : jsstring := match parseInt16 h with Some z => z_to_js z | None => js "NaN" end.

Definition rgba (r g b : jsstring) (opacity : num) : jsstring :=
  js "rgba(" ++ r ++ js "," ++ g ++ js "," ++ b ++ js "," ++ num_to_js opacity ++ js ")".

(** [hex[i] + hex[i]]. *)
Definition doubled (i : nat) (hex : jsstring) : jsstring := let c := slice i (i + 1) hex in c ++ c.

Definition parseHEX (color : jsstring) (opacity : num) : jsstring :=
  let hex := remove_sharp color in
  if test (hex_re 6) hex then rgba (parse (slice 0 2 hex)) (parse (slice 2 4 hex)) (parse (slice 4 6 hex)) opacity
  else if test (hex_re 3) hex then rgba (parse (doubled 0 hex)) (parse (doubled 1 hex)) (parse (doubled 2 hex)) opacity
  else color.

Definition GlareHover (cn : list jsstring -> jsstring) (p : GlareHoverProps) : vnode :=
  let rgba := parseHEX (default_of (js "#ffffff") (gh_color p)) (default_of (lit 1 2) (gh_opacity p)) in
  let cssVars :=
    spread (spread (spread
      [sv "style.--gh-angle" (num_to_js (default_of (nof (-45)) (gh_angle p)) ++ js "deg");
       sv "style.--gh-duration" (num_to_js (default_of (nof 650) (gh_duration p)) ++ js "ms");
       sv "style.--gh-size" (num_to_js (default_of (nof 250) (gh_size p)) ++ js "%");
       sv "style.--gh-rgba" rgba; sv "style.background" (default_of (js "#000") (gh_background p))]
      (gh_style p)) (style_opt "style.width" (gh_width p))) (style_opt "style.height" (gh_height p)) in
  VEl "div"
    (gh_rest p ++
     [("className"%string,
       cn ([js "relative grid size-fit cursor-pointer place-items-center overflow-hidden bg-transparent";
            js "before:pointer-events-none before:absolute before:inset-0 before:z-10 before:bg-no-repeat before:content-['']";
            js "before:[background-image:linear-gradient(var(--gh-angle),transparent_60%,var(--gh-rgba)_70%,transparent,transparent_100%)]";
            js "before:[background-size:var(--gh-size)_var(--gh-size),100%_100%]";
            js "before:[background-position:-100%_-100%,0_0]"]
           ++ cls_if (negb (gh_playOnce p))
                (js "before:transition-[background-position] before:duration-[var(--gh-duration)] before:ease-in-out")
           ++ cls_if (gh_playOnce p)
                (js "before:transition-none hover:before:transition-[background-position] hover:before:duration-[var(--gh-duration)]")
           ++ [js "hover:before:[background-position:100%_100%,0_0]"] ++ cls_opt (gh_className p)))]
     ++ cssVars)
    (gh_children p).

Example parseHEX_ex :
  map (fun c => parseHEX (js c) (lit 1 2)) ["#a78bfa"; "#fff"; "#FFFFFF"; "#12345"; "red"]%string
  = [js "rgba(167,139,250,0.5)"; js "rgba(255,255,255,0.5)"; js "rgba(255,255,255,0.5)"; js "#12345"; js "red"].
Proof. vm_compute. reflexivity. Qed.

(** ** Types *)

Definition is_hex (c : N) : bool := cls_in c hex_class.

Lemma m_times {R} n : forall b s c (k : mstate -> option R),
  m (RSeq (rtimes n (RChr hex_class)) REol) (MS b s c) k
  = if (length s =? n) && forallb is_hex s then k (MS (rev s ++ b) [] c) else None.
Proof.
  induction n as [|n IH]; intros b s c k; cbn [rtimes m after before caps].
  - destruct s; reflexivity.
  - destruct s as [|x s]; [reflexivity|]. cbn [length Nat.eqb forallb]. fold (is_hex x).
    destruct (is_hex x); cbn [andb]; [|now rewrite andb_false_r]. specialize (IH (x :: b) s c k). cbn [m] in IH. rewrite IH.
    cbn [rev]. now rewrite <- app_assoc.
Qed.

Lemma search_bol r c b a : search (RSeq RBol r) (c :: b) a = None.
Proof. revert c b. induction a as [|x a IH]; intros c b; cbn; [reflexivity|apply IH]. Qed.

Lemma test_hex n s : test (hex_re n) s = (length s =? n) && forallb is_hex s.
Proof.
  unfold test, exec, hex_re. cbn [Nat.leb firstn rev skipn].
  assert (E : m (RSeq RBol (RSeq (rtimes n (RChr hex_class)) REol)) (MS [] s []) Some
              = if (length s =? n) && forallb is_hex s then Some (MS (rev s ++ []) [] []) else None).
  { rewrite <- m_times. reflexivity. }
  destruct (_ && _); [now rewrite (search_first _ _ _ _ E)|].
  destruct s as [|x s]; cbn [search]; rewrite E; [reflexivity|]. now rewrite search_bol.
Qed.

Lemma hex_digit c : is_hex c = true -> exists d, hex_of c = Some d /\ (0 <= d < 16)%Z /\ is_ws c = false /\
  (c =? 45)%N = false /\ (c =? 43)%N = false /\ (c =? 120)%N = false /\ (c =? 88)%N = false.
Proof.
  intros H. assert (Hc : In c (js "0123456789ABCDEFabcdef")).
  { unfold is_hex, cls_in, hex_class in H. cbn [cls_neg cls_ranges existsb xorb] in H. unfold in_range in H. cbn [fst snd] in H.
    repeat rewrite orb_true_iff in H. repeat rewrite andb_true_iff in H. repeat rewrite N.leb_le in H. cbn. lia. }
  revert c Hc H. apply (Forall_forall (fun c => _ -> _)).
  repeat (constructor; [intros _; eexists; vm_compute; repeat split; discriminate|]). constructor.
Qed.

Lemma parse_pair a b : is_hex a = true -> is_hex b = true -> exists z, parseInt16 [a; b] = Some z /\ (0 <= z < 256)%Z.
Proof.
  intros Ha Hb. destruct (hex_digit a Ha) as (x & Hx & Bx & W & M1 & P1 & _). destruct (hex_digit b Hb) as (y & Hy & By & _ & _ & _ & X & X').
  exists (16 * x + y)%Z. split; [|lia]. unfold parseInt16, trimStart. cbn [drop_while]. rewrite W, M1, P1, X, X'. cbn [orb]. rewrite andb_false_r.
  cbn [hex_digits]. rewrite Hx, Hy. unfold hex_number, round_int. cbn [fold_left].
  replace ((0 * 16 + x) * 16 + y)%Z with (16 * x + y)%Z by lia. replace (Z.abs (16 * x + y) <=? 2 ^ 53)%Z with true by lia. reflexivity.
Qed.

(** A value of the type [rgba(number,number,number,number)] with the components of a colour. *)
Definition is_RGBA (opacity : num) (s : jsstring) : Prop :=
  exists r g b, (0 <= r < 256 /\ 0 <= g < 256 /\ 0 <= b < 256)%Z /\ s = rgba (z_to_js r) (z_to_js g) (z_to_js b) opacity.

Lemma rgba_pairs r1 r2 g1 g2 b1 b2 opacity :
  forallb is_hex [r1; r2; g1; g2; b1; b2] = true -> is_RGBA opacity (rgba (parse [r1; r2]) (parse [g1; g2]) (parse [b1; b2]) opacity).
Proof.
  cbn [forallb]. rewrite !andb_true_iff. intros (H1 & H2 & H3 & H4 & H5 & H6 & _). unfold parse.
  destruct (parse_pair r1 r2 H1 H2) as (r & -> & Hr), (parse_pair g1 g2 H3 H4) as (g & -> & Hg), (parse_pair b1 b2 H5 H6) as (b & -> & Hb).
  exists r, g, b. auto.
Qed.

End GlareHover.

Module ProgressiveBlur.

Inductive blur_position := Top | Bottom | Both.

Record ProgressiveBlurProps := {
  pb_className : option jsstring; pb_height : option jsstring; pb_position : option blur_position; pb_blurLevels : option (list num) }.

Definition default_levels : list num := map nof [1; 2; 4; 8; 16; 32; 64]%Z.

Definition blurLevels (p : ProgressiveBlurProps) : list num := default_of (lit 1 2 :: default_levels) (pb_blurLevels p).

(** [blurLevels[i]] in a template. *)
Definition level_text (levels : list num) (i : nat) : jsstring :=
  match nth_error levels i with Some v => num_to_js v | None => js "undefined" end.

Definition both_mask : jsstring := js "linear-gradient(rgba(0,0,0,0) 0%, rgba(0,0,0,1) 5%, rgba(0,0,0,1) 95%, rgba(0,0,0,0) 100%)".

Definition first_mask (position : blur_position) : jsstring :=
  match position with
  | Bottom => js "linear-gradient(to bottom, rgba(0,0,0,0) 0%, rgba(0,0,0,1) 12.5%, rgba(0,0,0,1) 25%, rgba(0,0,0,0) 37.5%)"
  | Top => js "linear-gradient(to top, rgba(0,0,0,0) 0%, rgba(0,0,0,1) 12.5%, rgba(0,0,0,1) 25%, rgba(0,0,0,0) 37.5%)"
  | Both => both_mask
  end.

Definition middle_mask (position : blur_position) (index : nat) : jsstring :=
  let blurIndex := index + 1 in
  let step := lit 125 10 in
  let startPercent := nmul (nof (Z.of_nat blurIndex)) step in
  let midPercent := nmul (nof (Z.of_nat (blurIndex + 1))) step in
  let endPercent := nmul (nof (Z.of_nat (blurIndex + 2))) step in
  let stops := js "rgba(0,0,0,0) " ++ num_to_js startPercent ++ js "%, rgba(0,0,0,1) " ++ num_to_js midPercent
               ++ js "%, rgba(0,0,0,1) " ++ num_to_js endPercent ++ js "%, rgba(0,0,0,0) " ++ num_to_js (nadd endPercent step) ++ js "%)" in
  match position with
  | Bottom => js "linear-gradient(to bottom, " ++ stops
  | Top => js "linear-gradient(to top, " ++ stops
  | Both => both_mask
  end.

Definition last_mask (position : blur_position) : jsstring :=
  match position with
  | Bottom => js "linear-gradient(to bottom, rgba(0,0,0,0) 87.5%, rgba(0,0,0,1) 100%)"
  | Top => js "linear-gradient(to top, rgba(0,0,0,0) 87.5%, rgba(0,0,0,1) 100%)"
  | Both => both_mask
  end.

Definition layer (levels : list num) (i zIndex : nat) (mask : jsstring) : vnode :=
  VEl "div"
    [sv "className" (js "absolute inset-0"); sv "style.zIndex" (nat_to_js zIndex);
     sv "style.backdropFilter" (js "blur(" ++ level_text levels i ++ js "px)");
     sv "style.WebkitBackdropFilter" (js "blur(" ++ level_text levels i ++ js "px)");
     sv "style.maskImage" mask; sv "style.WebkitMaskImage" mask] [].

(** [None] when [Array(blurLevels.length - 2)] throws. *)
Definition ProgressiveBlur (cn : list jsstring -> jsstring) (p : ProgressiveBlurProps) : option vnode :=
  let levels := blurLevels p in
  let position := default_of Bottom (pb_position p) in
  if length levels <? 2 then None
  else
    let divElements := seq 0 (length levels - 2) in
    Some (VEl "div"
      [sv "className" (cn ([js "gradient-blur pointer-events-none absolute inset-x-0 z-10"] ++ cls_opt (pb_className p)
                           ++ [match position with Top => js "top-0" | Bottom => js "bottom-0" | Both => js "inset-y-0" end]));
       sv "style.height" (match position with Both => js "100%" | _ => default_of (js "30%") (pb_height p) end)]
      ([layer levels 0 1 (first_mask position)]
       ++ map (fun index => layer levels (index + 1) (index + 2) (middle_mask position index)) divElements
       ++ [layer levels (length levels - 1) (length levels) (last_mask position)])).

(** The mask of layer [i] of [n]. *)
Definition mask_of (position : blur_position) (n i : nat) : jsstring :=
  if i =? 0 then first_mask position else if S i =? n then last_mask position else middle_mask position (i - 1).

Lemma layers_in_order levels position k :
  [layer levels 0 1 (first_mask position)]
  ++ map (fun index => layer levels (index + 1) (index + 2) (middle_mask position index)) (seq 0 k)
  ++ [layer levels (S k) (S (S k)) (last_mask position)]
  = map (fun i => layer levels i (S i) (mask_of position (S (S k)) i)) (seq 0 (S (S k))).
Proof.
  cbn [app]. replace (seq 0 (S (S k))) with (0 :: seq 1 k ++ [S k]) by (cbn [seq]; f_equal; rewrite <- seq_S; reflexivity).
  cbn [map]. f_equal. rewrite map_app. f_equal.
  - rewrite <- seq_shift, map_map. apply map_ext_in. intros i Hi. apply in_seq in Hi. unfold mask_of.
    replace (i + 1) with (S i) by lia. replace (i + 2) with (S (S i)) by lia. cbn [Nat.eqb]. rewrite (proj2 (Nat.eqb_neq i k)) by lia.
    now rewrite Nat.sub_succ, Nat.sub_0_r.
  - cbn [map]. unfold mask_of. cbn [Nat.eqb]. now rewrite Nat.eqb_refl.
Qed.

Lemma nth_levels levels :
  map (fun i => js "blur(" ++ level_text levels i ++ js "px)") (seq 0 (length levels)) = map (fun l => js "blur(" ++ num_to_js l ++ js "px)") levels.
Proof.
  unfold level_text. induction levels as [|l levels IH]; [reflexivity|]. cbn [length seq map nth_error]. f_equal.
  rewrite <- seq_shift, map_map. exact IH.
Qed.

Lemma flat_map_single {A B} (f : A -> list B) (g : A -> B) l : (forall x, f x = [g x]) -> flat_map f l = map g l.
Proof. intros H. induction l as [|x l IH]; [reflexivity|]. cbn. now rewrite H, IH. Qed.

(** A progressive blur fails exactly with fewer than two levels, when the length of its array of middle
    layers is negative; otherwise it has one layer per level, in order, layer number [i] with the blur
    of level [i] and above all the layers before it. *)
Theorem progressive_blur_layers cn p :
  match ProgressiveBlur cn p with
  | None => length (blurLevels p) < 2
  | Some v =>
      2 <= length (blurLevels p) /\
      collect "div" "style.zIndex" v = map (fun i => nat_to_js (S i)) (seq 0 (length (blurLevels p))) /\
      collect "div" "style.backdropFilter" v = map (fun l => js "blur(" ++ num_to_js l ++ js "px)") (blurLevels p)
  end.
Proof.
  unfold ProgressiveBlur. destruct (Nat.ltb_spec (length (blurLevels p)) 2) as [H|H]; [exact H|]. split; [exact H|].
  destruct (length (blurLevels p)) as [|[|k]] eqn:E; try lia. replace (S (S k) - 2) with k by lia. replace (S (S k) - 1) with (S k) by lia.
  rewrite (layers_in_order _ _ k). cbn [collect String.eqb Ascii.eqb Bool.eqb attr sv app].
  rewrite !flat_map_concat_map, !map_map, <- !flat_map_concat_map. split; [now apply flat_map_single|].
  rewrite <- nth_levels, E. now apply flat_map_single.
Qed.
End ProgressiveBlur.

Module OrbitingCircles.

Record OrbitingCirclesProps := {
  oc_className : option jsstring; oc_children : list vnode; oc_reverse : bool; oc_duration : option num; oc_radius : option num;
  oc_path : option bool; oc_iconSize : option num; oc_speed : option num; oc_rest : list (string * jsstring) }.

Definition calculatedDuration (p : OrbitingCirclesProps) : num :=
  ndiv (default_of (nof 20) (oc_duration p)) (default_of (nof 1) (oc_speed p)).

Definition orbit_angle (count index : nat) : num := nmul (ndiv (nof 360) (nof (Z.of_nat count))) (nof (Z.of_nat index)).

Definition orbit_item (cn : list jsstring -> jsstring) (p : OrbitingCirclesProps) (index : nat) (child : vnode) : vnode :=
  VEl "div"
    (over
       [sv "style.--duration" (num_to_js (calculatedDuration p)); sv "style.--radius" (num_to_js (default_of (nof 160) (oc_radius p)));
        sv "style.--angle" (num_to_js (orbit_angle (length (oc_children p)) index));
        sv "style.--icon-size" (num_to_js (default_of (nof 30) (oc_iconSize p)) ++ js "px");
        sv "className"
          (cn ([js "animate-orbit absolute flex size-(--icon-size) transform-gpu items-center justify-center rounded-full"]
               ++ cls_if (oc_reverse p) (js "[animation-direction:reverse]") ++ cls_opt (oc_className p)))]
       (oc_rest p))
    [child].

Definition orbit_path (p : OrbitingCirclesProps) : vnode :=
  VEl "svg"
    [sv "xmlns" (js "http://www.w3.org/2000/svg"); sv "version" (js "1.1");
     sv "className" (js "pointer-events-none absolute inset-0 size-full")]
    [VEl "circle"
       [sv "className" (js "stroke-black/10 stroke-1 dark:stroke-white/10"); sv "cx" (js "50%"); sv "cy" (js "50%");
        sv "r" (num_to_js (default_of (nof 160) (oc_radius p))); sv "fill" (js "none")] []].

Definition OrbitingCircles (cn : list jsstring -> jsstring) (p : OrbitingCirclesProps) : list vnode :=
  when (default_of true (oc_path p)) (orbit_path p) ++ mapi_from (orbit_item cn p) 0 (oc_children p).

(** Four circles are a quarter turn apart. *)
Example orbit_quarters : map (fun i => num_to_js (orbit_angle 4 i)) [0; 1; 2; 3] = [js "0"; js "90"; js "180"; js "270"].
Proof. vm_compute. reflexivity. Qed.
End OrbitingCircles.

Module Marquee.

Record MarqueeProps := {
  mq_className : option jsstring; mq_reverse : bool; mq_pauseOnHover : bool; mq_children : list vnode; mq_vertical : bool;
  mq_repeat : option nat; mq_rest : list (string * jsstring) }.

Definition Marquee (cn : list jsstring -> jsstring) (p : MarqueeProps) : vnode :=
  VEl "div"
    (spread (mq_rest p)
       [sv "className"
          (cn ([js "group flex gap-(--gap) overflow-hidden p-2 [--duration:40s] [--gap:1rem]"]
               ++ cls_if (negb (mq_vertical p)) (js "flex-row") ++ cls_if (mq_vertical p) (js "flex-col") ++ cls_opt (mq_className p)))])
    (map (fun i =>
            VEl "div"
              [sv "key" (nat_to_js i);
               sv "className"
                 (cn ([js "flex shrink-0 justify-around gap-(--gap)"]
                      ++ cls_if (negb (mq_vertical p)) (js "animate-marquee flex-row")
                      ++ cls_if (mq_vertical p) (js "animate-marquee-vertical flex-col")
                      ++ cls_if (mq_pauseOnHover p) (js "group-hover:[animation-play-state:paused]")
                      ++ cls_if (mq_reverse p) (js "[animation-direction:reverse]")))]
              (mq_children p))
         (seq 0 (default_of 4 (mq_repeat p)))).

(** The content is there as often as asked for. *)
Lemma marquee_text cn p :
  textContent (Marquee cn p) = concat (repeat (flat_map textContent (mq_children p)) (default_of 4 (mq_repeat p))).
Proof.
  unfold Marquee. cbn [textContent]. generalize (default_of 4 (mq_repeat p)) as n. intros n. generalize 0. induction n as [|n IH]; intros i; [reflexivity|].
  cbn [seq map flat_map repeat concat textContent]. now rewrite IH.
Qed.
End Marquee.

Module TextReveal.

Definition Word (range : num * num) (word : jsstring) (key : nat) : vnode :=
  VEl "span" [sv "key" (nat_to_js key); sv "className" (js "xl:lg-3 relative mx-1 lg:mx-1.5")]
    [VEl "span" [sv "className" (js "absolute opacity-30")] [VText word];
     VEl "motion.span"
       [sv "style.opacity" (js "useTransform(scrollYProgress,[" ++ num_to_js (fst range) ++ js "," ++ num_to_js (snd range) ++ js "],[0,1])");
        sv "className" (js "text-black dark:text-white")]
       [VText word]].

Definition word_range (n i : nat) : num * num :=
  let start := ndiv (nof (Z.of_nat i)) (nof (Z.of_nat n)) in (start, nadd start (ndiv (nof 1) (nof (Z.of_nat n)))).

Definition TextReveal (cn : list jsstring -> jsstring) (children : jsstring) (className : option jsstring) : vnode :=
  let words := split1 32 children in
  VEl "div" [sv "className" (cn (js "relative z-0 h-[200vh]" :: cls_opt className))]
    [VEl "div" [sv "className" (js "sticky top-0 mx-auto flex h-[50%] max-w-4xl items-center bg-transparent px-4 py-20")]
       [VEl "span"
          [sv "className" (js "flex flex-wrap p-5 text-2xl font-bold text-black/20 md:p-8 md:text-3xl lg:p-10 lg:text-4xl xl:text-5xl dark:text-white/20")]
          (mapi_from (fun i word => Word (word_range (length words) i) word i) 0 words)]].

(** The words revealed, in order. *)
Fixpoint revealed (v : vnode) : list jsstring :=
  match v with
  | VText _ => []
  | VEl tag _ kids => (if String.eqb tag "motion.span" then [flat_map textContent kids] else []) ++ flat_map revealed kids
  end.

(** No word is lost: joined by spaces they are the text. *)
Lemma reveal_words cn text className : join [32%N] (revealed (TextReveal cn text className)) = text.
Proof.
  assert (H : forall n l i, flat_map revealed (mapi_from (fun i word => Word (word_range n i) word i) i l) = l).
  { intros n. induction l as [|w l IH]; intros i; [reflexivity|]. cbn [mapi_from flat_map]. rewrite IH. cbn. now rewrite app_nil_r. }
  unfold TextReveal. cbn [revealed flat_map String.eqb Ascii.eqb Bool.eqb app]. rewrite !app_nil_r, H. apply join_split1.
Qed.
End TextReveal.

Module BlurFade.

Inductive direction := Up | Down | Left | Right.

(** A variant of the motion library: its offset on one axis, and a filter. *)
Record variant_state := { v_axis : string; v_offset : num; v_opacity : option num; v_filter : option jsstring }.

(** [variant]: the two [y] offsets given by the caller. *)
Record BlurFadeProps := {
  bf_children : list vnode; bf_className : option jsstring; bf_variant : option (num * num); bf_duration : option num; bf_delay : option num;
  bf_offset : option num; bf_direction : option direction; bf_inView : bool; bf_blur : option jsstring; bf_rest : list (string * jsstring) }.

Definition axis (d : direction) : string := match d with Left | Right => "x" | _ => "y" end.

Definition combinedVariants (p : BlurFadeProps) : variant_state * variant_state :=
  match bf_variant p with
  | Some (hidden, visible) =>
      ({| v_axis := "y"; v_offset := hidden; v_opacity := None; v_filter := None |},
       {| v_axis := "y"; v_offset := visible; v_opacity := None; v_filter := None |})
  | None =>
      let d := default_of Down (bf_direction p) in
      let offset := default_of (nof 6) (bf_offset p) in
      ({| v_axis := axis d; v_offset := match d with Right | Down => nneg offset | _ => offset end; v_opacity := Some (nof 0);
          v_filter := Some (js "blur(" ++ default_of (js "6px") (bf_blur p) ++ js ")") |},
       {| v_axis := axis d; v_offset := nof 0; v_opacity := Some (nof 1); v_filter := Some (js "blur(0px)") |})
  end.

Definition shouldTransitionFilter (p : BlurFadeProps) : bool :=
  match v_filter (fst (combinedVariants p)), v_filter (snd (combinedVariants p)) with
  | Some h, Some v => negb (jseqb h v)
  | _, _ => false
  end.

Definition variant_attrs (name : string) (v : variant_state) : list (string * jsstring) :=
  [((name ++ "." ++ v_axis v)%string, num_to_js (v_offset v))]
  ++ style_opt (name ++ ".opacity") (option_map num_to_js (v_opacity v)) ++ style_opt (name ++ ".filter") (v_filter v).

Definition BlurFade (inViewResult : bool) (p : BlurFadeProps) : vnode :=
  let isInView := negb (bf_inView p) || inViewResult in
  let duration := default_of (lit 4 10) (bf_duration p) in
  VEl "AnimatePresence" []
    [VEl "motion.div"
       (over
          ([sv "initial" (js "hidden"); sv "animate" (if isInView then js "visible" else js "hidden"); sv "exit" (js "hidden")]
           ++ variant_attrs "variants.hidden" (fst (combinedVariants p)) ++ variant_attrs "variants.visible" (snd (combinedVariants p))
           ++ [sv "transition.delay" (num_to_js (nadd (lit 4 100) (default_of (nof 0) (bf_delay p))));
               sv "transition.duration" (num_to_js duration); sv "transition.ease" (js "easeOut")]
           ++ (if shouldTransitionFilter p then [sv "transition.filter.duration" (num_to_js duration)] else [])
           ++ style_opt "className" (bf_className p))
          (bf_rest p))
       (bf_children p)].

(** The filter is animated unless the caller gives the variants or asks for no blur. *)
Lemma filter_transition p :
  shouldTransitionFilter p = true <-> bf_variant p = None /\ default_of (js "6px") (bf_blur p) <> js "0px".
Proof.
  unfold shouldTransitionFilter, combinedVariants. destruct (bf_variant p) as [[h v]|]; cbn [fst snd v_filter]; [split; [discriminate|now intros []]|].
  generalize (default_of (js "6px") (bf_blur p)) as b. intros b. rewrite negb_true_iff, jseqb_neq.
  change (js "blur(0px)") with (js "blur(" ++ js "0px" ++ js ")"). split.
  - intros H. split; [reflexivity|]. intros ->. now apply H.
  - intros [_ H] E. apply app_inv_head, app_inv_tail in E. contradiction.
Qed.
End BlurFade.

Module BorderBeam.

Record BorderBeamProps := {
  bb_className : option jsstring; bb_size : option num; bb_delay : option num; bb_duration : option num; bb_colorFrom : option jsstring;
  bb_colorTo : option jsstring; bb_transition : list (string * jsstring); bb_style : list (string * jsstring); bb_reverse : bool;
  bb_initialOffset : option num; bb_borderWidth : option num }.

(** The two ends of the way along the border. *)
Definition offsetDistance (reverse : bool) (initialOffset : num) : jsstring * jsstring :=
  if reverse then (num_to_js (nsub (nof 100) initialOffset) ++ js "%", num_to_js (nneg initialOffset) ++ js "%")
  else (num_to_js initialOffset ++ js "%", num_to_js (nadd (nof 100) initialOffset) ++ js "%").

Definition BorderBeam (cn : list jsstring -> jsstring) (p : BorderBeamProps) : vnode :=
  let size := default_of (nof 50) (bb_size p) in
  let initialOffset := default_of (nof 0) (bb_initialOffset p) in
  let way := offsetDistance (bb_reverse p) initialOffset in
  VEl "div"
    [sv "className" (js "pointer-events-none absolute inset-0 rounded-[inherit] border-(length:--border-beam-width) border-transparent mask-[linear-gradient(transparent,transparent),linear-gradient(#000,#000)] mask-intersect [mask-clip:padding-box,border-box]");
     sv "style.--border-beam-width" (num_to_js (default_of (nof 1) (bb_borderWidth p)) ++ js "px")]
    [VEl "motion.div"
       ([sv "className" (cn ([js "absolute aspect-square"; js "bg-linear-to-l from-(--color-from) via-(--color-to) to-transparent"]
                             ++ cls_opt (bb_className p)))]
        ++ spread [sv "style.width" (num_to_js size); sv "style.offsetPath" (js "rect(0 auto auto 0 round " ++ num_to_js size ++ js "px)");
                   sv "style.--color-from" (default_of (js "#ffaa40") (bb_colorFrom p));
                   sv "style.--color-to" (default_of (js "#9c40ff") (bb_colorTo p))] (bb_style p)
        ++ [sv "initial.offsetDistance" (num_to_js initialOffset ++ js "%");
            sv "animate.offsetDistance" (fst way ++ js "," ++ snd way)]
        ++ spread [sv "transition.repeat" (js "Infinity"); sv "transition.ease" (js "linear");
                   sv "transition.duration" (num_to_js (default_of (nof 6) (bb_duration p)));
                   sv "transition.delay" (num_to_js (nneg (default_of (nof 0) (bb_delay p))))] (bb_transition p))
       []].

(** From the corner the beam goes once around the border. *)
Example beam_way : (offsetDistance false (nof 0), offsetDistance true (nof 0)) = ((js "0%", js "100%"), (js "100%", js "0%")).
Proof. vm_compute. reflexivity. Qed.
End BorderBeam.

Module ShineBorder.

(** [string | string[]]. *)
Inductive shine := Color (c : jsstring) | Colors (l : list jsstring).

Record ShineBorderProps := {
  sb_borderWidth : option num; sb_duration : option num; sb_shineColor : option shine; sb_className : option jsstring;
  sb_style : list (string * jsstring); sb_rest : list (string * jsstring) }.

Definition color_list (s : shine) : jsstring := match s with Color c => c | Colors l => join (js ",") l end.

Definition ShineBorder (cn : list jsstring -> jsstring) (p : ShineBorderProps) : vnode :=
  let mask := js "linear-gradient(#fff 0 0) content-box, linear-gradient(#fff 0 0)" in
  VEl "div"
    (over
       (spread
          [sv "style.--border-width" (num_to_js (default_of (nof 1) (sb_borderWidth p)) ++ js "px");
           sv "style.--duration" (num_to_js (default_of (nof 14) (sb_duration p)) ++ js "s");
           sv "style.backgroundImage" (js "radial-gradient(transparent,transparent, "
             ++ color_list (default_of (Color (js "#000000")) (sb_shineColor p)) ++ js ",transparent,transparent)");
           sv "style.backgroundSize" (js "300% 300%"); sv "style.mask" mask; sv "style.WebkitMask" mask;
           sv "style.WebkitMaskComposite" (js "xor"); sv "style.maskComposite" (js "exclude"); sv "style.padding" (js "var(--border-width)")]
          (sb_style p)
        ++ [sv "className" (cn (js "motion-safe:animate-shine pointer-events-none absolute inset-0 size-full rounded-[inherit] will-change-[background-position]"
                                :: cls_opt (sb_className p)))])
       (sb_rest p))
    [].
End ShineBorder.

Module Texts.

Definition AuroraText (children : list vnode) (className : option jsstring) (colors : option (list jsstring)) (speed : option num) : vnode :=
  let colors := default_of [js "#FF0080"; js "#7928CA"; js "#0070F3"; js "#38bdf8"] colors in
  VEl "span" [sv "className" (js "relative inline-block " ++ default_of [] className)]
    [VEl "span" [sv "className" (js "sr-only")] children;
     VEl "span"
       [sv "className" (js "animate-aurora relative bg-size-[200%_auto] bg-clip-text text-transparent");
        sv "style.backgroundImage" (js "linear-gradient(135deg, " ++ join (js ", ") colors ++ js ", "
                                    ++ match colors with c :: _ => c | [] => js "undefined" end ++ js ")");
        sv "style.WebkitBackgroundClip" (js "text"); sv "style.WebkitTextFillColor" (js "transparent");
        sv "style.animationDuration" (num_to_js (ndiv (nof 10) (default_of (nof 1) speed)) ++ js "s");
        sv "aria-hidden" (js "true")]
       children].

Definition AnimatedGradientText (cn : list jsstring -> jsstring) (children : list vnode) (className : option jsstring)
    (speed : option num) (colorFrom colorTo : option jsstring) (rest : list (string * jsstring)) : vnode :=
  VEl "span"
    (over
       [sv "style.--bg-size" (num_to_js (nmul (default_of (nof 1) speed) (nof 300)) ++ js "%");
        sv "style.--color-from" (default_of (js "#ffaa40") colorFrom); sv "style.--color-to" (default_of (js "#9c40ff") colorTo);
        sv "className" (cn (js "animate-gradient inline bg-linear-to-r from-(--color-from) via-(--color-to) to-(--color-from) bg-size-[var(--bg-size)_100%] bg-clip-text text-transparent"
                            :: cls_opt className))]
       rest)
    children.

Definition AnimatedShinyText (cn : list jsstring -> jsstring) (children : list vnode) (className : option jsstring)
    (shimmerWidth : option num) (rest : list (string * jsstring)) : vnode :=
  VEl "span"
    (over
       [sv "style.--shiny-width" (num_to_js (default_of (nof 100) shimmerWidth) ++ js "px");
        sv "className" (cn ([js "mx-auto max-w-md text-neutral-600/70 dark:text-neutral-400/70";
          js "animate-shiny-text bg-size-[var(--shiny-width)_100%] bg-clip-text bg-position-[0_0] bg-no-repeat [transition:background-position_1s_cubic-bezier(.6,.6,0,1)_infinite]";
          js "bg-linear-to-r from-transparent via-black/80 via-50% to-transparent dark:via-white/80"] ++ cls_opt className))]
       rest)
    children.
End Texts.
