(* ===== verification/Ui.v ===== *)
(** * Interface primitives ([website/components/ui])

    The styled wrappers around HTML elements and around the primitives of the Radix packages.  A
    primitive of a package is an element named after it, [Slot] among them; [cn] is the class-name
    combinator and [cva] is the function of the package class-variance-authority, both parameters.  A
    component takes the class name of its caller, the remaining props as attributes, and its children;
    a [ref] is not an attribute.  Components exported under another name without a change are the
    abbreviations of the group they belong to. *)

From Stdlib Require Import String List Arith NArith ZArith Lia Bool.
From S2P Require Import Prelude JsString JsNum NumText Dom Decor.
Import ListNotations.
Local Open Scope list_scope.

Abbreviation attributes := (list (string * jsstring)) (only parsing).

(** What [cva] is configured with: the base classes, the classes of every value of every variant, and the default values. *)
Record cva_config := {
  cva_base : jsstring; cva_variants : list (string * list (string * jsstring)); cva_defaultVariants : list (string * string) }.

(** The props given to the function [cva] returns: the chosen values and the class name. *)
Record cva_props := { cva_chosen : list (string * option string); cva_className : option jsstring }.

Inductive button_variant := bv_default | bv_destructive | bv_outline | bv_secondary | bv_ghost | bv_link.
Inductive button_size := bs_default | bs_sm | bs_lg | bs_icon.
Inductive badge_variant := gv_default | gv_secondary | gv_destructive | gv_outline.
Inductive alert_variant := av_default | av_destructive.
Inductive sheet_side := side_top | side_bottom | side_left | side_right.
Inductive orientation := o_horizontal | o_vertical.

Definition button_variant_name (v : button_variant) : string :=
  match v with
  | bv_default => "default" | bv_destructive => "destructive" | bv_outline => "outline" | bv_secondary => "secondary"
  | bv_ghost => "ghost" | bv_link => "link"
  end.
Definition button_size_name (s : button_size) : string :=
  match s with bs_default => "default" | bs_sm => "sm" | bs_lg => "lg" | bs_icon => "icon" end.
Definition badge_variant_name (v : badge_variant) : string :=
  match v with gv_default => "default" | gv_secondary => "secondary" | gv_destructive => "destructive" | gv_outline => "outline" end.
Definition alert_variant_name (v : alert_variant) : string := match v with av_default => "default" | av_destructive => "destructive" end.
Definition sheet_side_name (s : sheet_side) : string :=
  match s with side_top => "top" | side_bottom => "bottom" | side_left => "left" | side_right => "right" end.
Definition orientation_name (o : orientation) : jsstring := match o with o_horizontal => js "horizontal" | o_vertical => js "vertical" end.

(** [<tag {...fixed} className={cn(...classes, className)} {...props}>children</tag>]. *)
Definition styled_with (cn : list jsstring -> jsstring) (fixed : attributes) (tag : string) (classes : list jsstring)
    (className : option jsstring) (props : attributes) (children : list vnode) : vnode :=
  VEl tag (over (fixed ++ [sv "className" (cn (classes ++ cls_opt className))]) props) children.

Definition classed (tag : string) (cls : jsstring) (children : list vnode) : vnode := VEl tag [sv "className" cls] children.

Section Primitives.
Context (cn : list jsstring -> jsstring) (cva : cva_config -> cva_props -> jsstring).

Definition styled := styled_with cn [].

(** ** Buttons and badges *)

Definition buttonVariants_config : cva_config :=
  {| cva_base := js "inline-flex items-center justify-center gap-2 whitespace-nowrap rounded-md text-sm font-medium transition-colors focus-visible:outline-none focus-visible:ring-1 focus-visible:ring-ring disabled:pointer-events-none disabled:opacity-50 [&_svg]:pointer-events-none [&_svg]:size-4 [&_svg]:shrink-0";
     cva_variants :=
       [("variant"%string,
         [("default"%string, js "bg-primary text-primary-foreground shadow hover:bg-primary/90");
          ("destructive"%string, js "bg-destructive text-destructive-foreground shadow-sm hover:bg-destructive/90");
          ("outline"%string, js "border border-input bg-background shadow-sm hover:bg-accent hover:text-accent-foreground");
          ("secondary"%string, js "bg-secondary text-secondary-foreground shadow-sm hover:bg-secondary/80");
          ("ghost"%string, js "hover:bg-accent hover:text-accent-foreground");
          ("link"%string, js "text-primary underline-offset-4 hover:underline")]);
        ("size"%string,
         [("default"%string, js "h-9 px-4 py-2"); ("sm"%string, js "h-8 rounded-md px-3 text-xs"); ("lg"%string, js "h-10 rounded-md px-8"); ("icon"%string, js "h-9 w-9")])];
     cva_defaultVariants := [("variant", "default"); ("size", "default")]%string |}.

Definition buttonVariants (variant : option button_variant) (size : option button_size) (className : option jsstring) : jsstring :=
  cva buttonVariants_config
    {| cva_chosen := [("variant"%string, option_map button_variant_name variant); ("size"%string, option_map button_size_name size)];
       cva_className := className |}.

Definition Button (variant : option button_variant) (size : option button_size) (asChild : option bool) (className : option jsstring)
    (props : attributes) (children : list vnode) : vnode :=
  VEl (if default_of false asChild then "Slot" else "button")
    (over [sv "className" (cn (cls_opt (Some (buttonVariants variant size className))))] props) children.

Definition badgeVariants_config : cva_config :=
  {| cva_base := js "inline-flex items-center rounded-md border px-2.5 py-0.5 text-xs font-semibold transition-colors focus:outline-none focus:ring-2 focus:ring-ring focus:ring-offset-2";
     cva_variants :=
       [("variant"%string,
         [("default"%string, js "border-transparent bg-primary text-primary-foreground shadow hover:bg-primary/80");
          ("secondary"%string, js "border-transparent bg-secondary text-secondary-foreground hover:bg-secondary/80");
          ("destructive"%string, js "border-transparent bg-destructive text-destructive-foreground shadow hover:bg-destructive/80");
          ("outline"%string, js "text-foreground")])];
     cva_defaultVariants := [("variant", "default")]%string |}.

Definition badgeVariants (variant : option badge_variant) : jsstring :=
  cva badgeVariants_config {| cva_chosen := [("variant"%string, option_map badge_variant_name variant)]; cva_className := None |}.

Definition Badge (variant : option badge_variant) (className : option jsstring) (props : attributes) (children : list vnode) : vnode :=
  styled "div" (cls_opt (Some (badgeVariants variant))) className props children.

(** ** Alerts *)

Definition alertVariants_config : cva_config :=
  {| cva_base := js "relative w-full rounded-lg border px-4 py-3 text-sm [&>svg+div]:translate-y-[-3px] [&>svg]:absolute [&>svg]:left-4 [&>svg]:top-4 [&>svg]:text-foreground [&>svg~*]:pl-7";
     cva_variants :=
       [("variant"%string,
         [("default"%string, js "bg-background text-foreground");
          ("destructive"%string, js "border-destructive/50 text-destructive dark:border-destructive [&>svg]:text-destructive")])];
     cva_defaultVariants := [("variant", "default")]%string |}.

Definition alertVariants (variant : option alert_variant) : jsstring :=
  cva alertVariants_config {| cva_chosen := [("variant"%string, option_map alert_variant_name variant)]; cva_className := None |}.

Definition Alert (variant : option alert_variant) (className : option jsstring) (props : attributes) (children : list vnode) : vnode :=
  styled_with cn [sv "role" (js "alert")] "div" (cls_opt (Some (alertVariants variant))) className props children.

Definition AlertTitle := styled "h5" [js "mb-1 font-medium leading-none tracking-tight"].
Definition AlertDescription := styled "div" [js "text-sm [&_p]:leading-relaxed"].

(** ** Cards *)

Definition Card := styled "div" [js "rounded-xl border bg-card text-card-foreground shadow"].
Definition CardHeader := styled "div" [js "flex flex-col space-y-1.5 p-6"].
Definition CardTitle := styled "div" [js "font-semibold leading-none tracking-tight"].
Definition CardDescription := styled "div" [js "text-sm text-muted-foreground"].
Definition CardContent := styled "div" [js "p-6 pt-0"].
Definition CardFooter := styled "div" [js "flex items-center p-6 pt-0"].

(** ** Tabs *)

Definition Tabs (props : attributes) (children : list vnode) : vnode := VEl "TabsPrimitive.Root" props children.
Definition TabsList := styled "TabsPrimitive.List" [js "inline-flex h-9 items-center justify-center rounded-lg bg-muted p-1 text-muted-foreground"].
Definition TabsTrigger :=
  styled "TabsPrimitive.Trigger"
    [js "inline-flex items-center justify-center whitespace-nowrap rounded-md px-3 py-1 text-sm font-medium ring-offset-background transition-all focus-visible:outline-none focus-visible:ring-2 focus-visible:ring-ring focus-visible:ring-offset-2 disabled:pointer-events-none disabled:opacity-50 data-[state=active]:bg-background data-[state=active]:text-foreground data-[state=active]:shadow"].
Definition TabsContent :=
  styled "TabsPrimitive.Content"
    [js "mt-2 ring-offset-background focus-visible:outline-none focus-visible:ring-2 focus-visible:ring-ring focus-visible:ring-offset-2"].

(** ** Accordions *)

Definition Accordion (props : attributes) (children : list vnode) : vnode := VEl "AccordionPrimitive.Root" props children.
Definition AccordionItem := styled "AccordionPrimitive.Item" [js "border-b"].

Definition AccordionTrigger (className : option jsstring) (props : attributes) (children : list vnode) : vnode :=
  classed "AccordionPrimitive.Header" (js "flex")
    [styled "AccordionPrimitive.Trigger"
       [js "flex flex-1 items-center justify-between py-4 text-sm font-medium transition-all hover:underline text-left [&[data-state=open]>svg]:rotate-180"]
       className props
       (children ++ [classed "ChevronDown" (js "h-4 w-4 shrink-0 text-muted-foreground transition-transform duration-200") []])].

Definition AccordionContent (className : option jsstring) (props : attributes) (children : list vnode) : vnode :=
  VEl "AccordionPrimitive.Content"
    (over [sv "className" (js "overflow-hidden text-sm data-[state=closed]:animate-accordion-up data-[state=open]:animate-accordion-down")] props)
    [classed "div" (cn (js "pb-4 pt-0" :: cls_opt className)) children].

(** ** Dialogs *)

Definition Dialog (props : attributes) (children : list vnode) : vnode := VEl "DialogPrimitive.Root" props children.
Definition DialogTrigger (props : attributes) (children : list vnode) : vnode := VEl "DialogPrimitive.Trigger" props children.
Definition DialogPortal (props : attributes) (children : list vnode) : vnode := VEl "DialogPrimitive.Portal" props children.
Definition DialogClose (props : attributes) (children : list vnode) : vnode := VEl "DialogPrimitive.Close" props children.

Definition DialogOverlay :=
  styled "DialogPrimitive.Overlay"
    [js "fixed inset-0 z-50 bg-black/80  data-[state=open]:animate-in data-[state=closed]:animate-out data-[state=closed]:fade-out-0 data-[state=open]:fade-in-0"].

Definition close_label : list vnode := [classed "X" (js "h-4 w-4") []; classed "span" (js "sr-only") [VText (js "Close")]].

Definition DialogContent (className : option jsstring) (props : attributes) (children : list vnode) : vnode :=
  DialogPortal []
    [DialogOverlay None [] [];
     styled "DialogPrimitive.Content"
       [js "fixed left-[50%] top-[50%] z-50 grid w-full max-w-lg translate-x-[-50%] translate-y-[-50%] gap-4 border bg-background p-6 shadow-lg duration-200 data-[state=open]:animate-in data-[state=closed]:animate-out data-[state=closed]:fade-out-0 data-[state=open]:fade-in-0 data-[state=closed]:zoom-out-95 data-[state=open]:zoom-in-95 data-[state=closed]:slide-out-to-left-1/2 data-[state=closed]:slide-out-to-top-[48%] data-[state=open]:slide-in-from-left-1/2 data-[state=open]:slide-in-from-top-[48%] sm:rounded-lg"]
       className props
       (children
        ++ [classed "DialogPrimitive.Close"
              (js "absolute right-4 top-4 rounded-sm opacity-70 ring-offset-background transition-opacity hover:opacity-100 focus:outline-none focus:ring-2 focus:ring-ring focus:ring-offset-2 disabled:pointer-events-none data-[state=open]:bg-accent data-[state=open]:text-muted-foreground")
              close_label])].

Definition DialogHeader := styled "div" [js "flex flex-col space-y-1.5 text-center sm:text-left"].
Definition DialogFooter := styled "div" [js "flex flex-col-reverse sm:flex-row sm:justify-end sm:space-x-2"].
Definition DialogTitle := styled "DialogPrimitive.Title" [js "text-lg font-semibold leading-none tracking-tight"].
Definition DialogDescription := styled "DialogPrimitive.Description" [js "text-sm text-muted-foreground"].

(** ** Sheets *)

Definition Sheet (props : attributes) (children : list vnode) : vnode := VEl "SheetPrimitive.Root" props children.
Definition SheetTrigger (props : attributes) (children : list vnode) : vnode := VEl "SheetPrimitive.Trigger" props children.
Definition SheetClose (props : attributes) (children : list vnode) : vnode := VEl "SheetPrimitive.Close" props children.
Definition SheetPortal (props : attributes) (children : list vnode) : vnode := VEl "SheetPrimitive.Portal" props children.

Definition SheetOverlay :=
  styled "SheetPrimitive.Overlay"
    [js "fixed inset-0 z-50 bg-black/80  data-[state=open]:animate-in data-[state=closed]:animate-out data-[state=closed]:fade-out-0 data-[state=open]:fade-in-0"].

Definition sheetVariants_config : cva_config :=
  {| cva_base := js "fixed z-50 gap-4 bg-background p-6 shadow-lg transition ease-in-out data-[state=closed]:duration-300 data-[state=open]:duration-500 data-[state=open]:animate-in data-[state=closed]:animate-out";
     cva_variants :=
       [("side"%string,
         [("top"%string, js "inset-x-0 top-0 border-b data-[state=closed]:slide-out-to-top data-[state=open]:slide-in-from-top");
          ("bottom"%string, js "inset-x-0 bottom-0 border-t data-[state=closed]:slide-out-to-bottom data-[state=open]:slide-in-from-bottom");
          ("left"%string, js "inset-y-0 left-0 h-full w-3/4 border-r data-[state=closed]:slide-out-to-left data-[state=open]:slide-in-from-left sm:max-w-sm");
          ("right"%string, js "inset-y-0 right-0 h-full w-3/4 border-l data-[state=closed]:slide-out-to-right data-[state=open]:slide-in-from-right sm:max-w-sm")])];
     cva_defaultVariants := [("side", "right")]%string |}.

Definition sheetVariants (side : option sheet_side) : jsstring :=
  cva sheetVariants_config {| cva_chosen := [("side"%string, option_map sheet_side_name side)]; cva_className := None |}.

Definition SheetContent (side : option sheet_side) (className : option jsstring) (props : attributes) (children : list vnode) : vnode :=
  SheetPortal []
    [SheetOverlay None [] [];
     styled "SheetPrimitive.Content" (cls_opt (Some (sheetVariants (Some (default_of side_right side))))) className props
       (classed "SheetPrimitive.Close"
          (js "absolute right-4 top-4 rounded-sm opacity-70 ring-offset-background transition-opacity hover:opacity-100 focus:outline-none focus:ring-2 focus:ring-ring focus:ring-offset-2 disabled:pointer-events-none data-[state=open]:bg-secondary")
          close_label :: children)].

Definition SheetHeader := styled "div" [js "flex flex-col space-y-2 text-center sm:text-left"].
Definition SheetFooter := styled "div" [js "flex flex-col-reverse sm:flex-row sm:justify-end sm:space-x-2"].
Definition SheetTitle := styled "SheetPrimitive.Title" [js "text-lg font-semibold text-foreground"].
Definition SheetDescription := styled "SheetPrimitive.Description" [js "text-sm text-muted-foreground"].

(** ** Drop-down menus *)

Definition DropdownMenu (props : attributes) (children : list vnode) : vnode := VEl "DropdownMenuPrimitive.Root" props children.
Definition DropdownMenuTrigger (props : attributes) (children : list vnode) : vnode := VEl "DropdownMenuPrimitive.Trigger" props children.
Definition DropdownMenuGroup (props : attributes) (children : list vnode) : vnode := VEl "DropdownMenuPrimitive.Group" props children.
Definition DropdownMenuPortal (props : attributes) (children : list vnode) : vnode := VEl "DropdownMenuPrimitive.Portal" props children.
Definition DropdownMenuSub (props : attributes) (children : list vnode) : vnode := VEl "DropdownMenuPrimitive.Sub" props children.
Definition DropdownMenuRadioGroup (props : attributes) (children : list vnode) : vnode := VEl "DropdownMenuPrimitive.RadioGroup" props children.

Definition inset_class (inset : option bool) : list jsstring := cls_if (default_of false inset) (js "pl-8").

Definition DropdownMenuSubTrigger (inset : option bool) (className : option jsstring) (props : attributes) (children : list vnode) : vnode :=
  styled "DropdownMenuPrimitive.SubTrigger"
    ([js "flex cursor-default select-none items-center gap-2 rounded-sm px-2 py-1.5 text-sm outline-none focus:bg-accent data-[state=open]:bg-accent [&_svg]:pointer-events-none [&_svg]:size-4 [&_svg]:shrink-0"]
     ++ inset_class inset)
    className props (children ++ [classed "ChevronRight" (js "ml-auto") []]).

Definition DropdownMenuSubContent :=
  styled "DropdownMenuPrimitive.SubContent"
    [js "z-50 min-w-[8rem] overflow-hidden rounded-md border bg-popover p-1 text-popover-foreground shadow-lg data-[state=open]:animate-in data-[state=closed]:animate-out data-[state=closed]:fade-out-0 data-[state=open]:fade-in-0 data-[state=closed]:zoom-out-95 data-[state=open]:zoom-in-95 data-[side=bottom]:slide-in-from-top-2 data-[side=left]:slide-in-from-right-2 data-[side=right]:slide-in-from-left-2 data-[side=top]:slide-in-from-bottom-2 origin-[--radix-dropdown-menu-content-transform-origin]"].

Definition DropdownMenuContent (sideOffset : option num) (className : option jsstring) (props : attributes) (children : list vnode) : vnode :=
  DropdownMenuPortal []
    [styled_with cn [sv "sideOffset" (num_to_js (default_of (nof 4) sideOffset))] "DropdownMenuPrimitive.Content"
       [js "z-50 max-h-[var(--radix-dropdown-menu-content-available-height)] min-w-[8rem] overflow-y-auto overflow-x-hidden rounded-md border bg-popover p-1 text-popover-foreground shadow-md";
        js "data-[state=open]:animate-in data-[state=closed]:animate-out data-[state=closed]:fade-out-0 data-[state=open]:fade-in-0 data-[state=closed]:zoom-out-95 data-[state=open]:zoom-in-95 data-[side=bottom]:slide-in-from-top-2 data-[side=left]:slide-in-from-right-2 data-[side=right]:slide-in-from-left-2 data-[side=top]:slide-in-from-bottom-2 origin-[--radix-dropdown-menu-content-transform-origin]"]
       className props children].

Definition DropdownMenuItem (inset : option bool) (className : option jsstring) (props : attributes) (children : list vnode) : vnode :=
  styled "DropdownMenuPrimitive.Item"
    ([js "relative flex cursor-default select-none items-center gap-2 rounded-sm px-2 py-1.5 text-sm outline-none transition-colors focus:bg-accent focus:text-accent-foreground data-[disabled]:pointer-events-none data-[disabled]:opacity-50 [&>svg]:size-4 [&>svg]:shrink-0"]
     ++ inset_class inset)
    className props children.

Definition item_indicator (mark : vnode) : vnode :=
  classed "span" (js "absolute left-2 flex h-3.5 w-3.5 items-center justify-center") [VEl "DropdownMenuPrimitive.ItemIndicator" [] [mark]].

(** [checked] is boolean or the string indeterminate, and absent when it is not given. *)
Definition DropdownMenuCheckboxItem (checked : option jsstring) (className : option jsstring) (props : attributes) (children : list vnode) : vnode :=
  VEl "DropdownMenuPrimitive.CheckboxItem"
    (over
       (sv "className" (cn (js "relative flex cursor-default select-none items-center rounded-sm py-1.5 pl-8 pr-2 text-sm outline-none transition-colors focus:bg-accent focus:text-accent-foreground data-[disabled]:pointer-events-none data-[disabled]:opacity-50" :: cls_opt className))
        :: style_opt "checked" checked) props)
    (item_indicator (classed "Check" (js "h-4 w-4") []) :: children).

Definition DropdownMenuRadioItem (className : option jsstring) (props : attributes) (children : list vnode) : vnode :=
  styled "DropdownMenuPrimitive.RadioItem"
    [js "relative flex cursor-default select-none items-center rounded-sm py-1.5 pl-8 pr-2 text-sm outline-none transition-colors focus:bg-accent focus:text-accent-foreground data-[disabled]:pointer-events-none data-[disabled]:opacity-50"]
    className props (item_indicator (classed "Circle" (js "h-2 w-2 fill-current") []) :: children).

Definition DropdownMenuLabel (inset : option bool) (className : option jsstring) (props : attributes) (children : list vnode) : vnode :=
  styled "DropdownMenuPrimitive.Label" ([js "px-2 py-1.5 text-sm font-semibold"] ++ inset_class inset) className props children.

Definition DropdownMenuSeparator := styled "DropdownMenuPrimitive.Separator" [js "-mx-1 my-1 h-px bg-muted"].
Definition DropdownMenuShortcut := styled "span" [js "ml-auto text-xs tracking-widest opacity-60"].

(** ** Tables *)

Definition Table (className : option jsstring) (props : attributes) (children : list vnode) : vnode :=
  classed "div" (js "relative w-full overflow-auto") [styled "table" [js "w-full caption-bottom text-sm"] className props children].
Definition TableHeader := styled "thead" [js "[&_tr]:border-b"].
Definition TableBody := styled "tbody" [js "[&_tr:last-child]:border-0"].
Definition TableFooter := styled "tfoot" [js "border-t bg-muted/50 font-medium [&>tr]:last:border-b-0"].
Definition TableRow := styled "tr" [js "border-b transition-colors hover:bg-muted/50 data-[state=selected]:bg-muted"].
Definition TableHead :=
  styled "th" [js "h-10 px-2 text-left align-middle font-medium text-muted-foreground [&:has([role=checkbox])]:pr-0 [&>[role=checkbox]]:translate-y-[2px]"].
Definition TableCell := styled "td" [js "p-2 align-middle [&:has([role=checkbox])]:pr-0 [&>[role=checkbox]]:translate-y-[2px]"].
Definition TableCaption := styled "caption" [js "mt-4 text-sm text-muted-foreground"].

(** ** Breadcrumbs *)

Definition Breadcrumb (props : attributes) (children : list vnode) : vnode := VEl "nav" (over [sv "aria-label" (js "breadcrumb")] props) children.
Definition BreadcrumbList := styled "ol" [js "flex flex-wrap items-center gap-1.5 break-words text-sm text-muted-foreground sm:gap-2.5"].
Definition BreadcrumbItem := styled "li" [js "inline-flex items-center gap-1.5"].
Definition BreadcrumbLink (asChild : option bool) := styled (if default_of false asChild then "Slot" else "a") [js "transition-colors hover:text-foreground"].
Definition BreadcrumbPage :=
  styled_with cn [sv "role" (js "link"); sv "aria-disabled" (js "true"); sv "aria-current" (js "page")] "span" [js "font-normal text-foreground"].

(** [children ?? <ChevronRight />]. *)
Definition BreadcrumbSeparator (className : option jsstring) (props : attributes) (children : option (list vnode)) : vnode :=
  styled_with cn [sv "role" (js "presentation"); sv "aria-hidden" (js "true")] "li" [js "[&>svg]:w-3.5 [&>svg]:h-3.5"] className props
    (default_of [VEl "ChevronRight" [] []] children).

Definition BreadcrumbEllipsis (className : option jsstring) (props : attributes) : vnode :=
  styled_with cn [sv "role" (js "presentation"); sv "aria-hidden" (js "true")] "span" [js "flex h-9 w-9 items-center justify-center"] className props
    [classed "MoreHorizontal" (js "h-4 w-4") []; classed "span" (js "sr-only") [VText (js "More")]].

(** ** Smaller elements *)

Definition Avatar := styled "AvatarPrimitive.Root" [js "relative flex h-10 w-10 shrink-0 overflow-hidden rounded-full"].
Definition AvatarImage := styled "AvatarPrimitive.Image" [js "aspect-square h-full w-full"].
Definition AvatarFallback := styled "AvatarPrimitive.Fallback" [js "flex h-full w-full items-center justify-center rounded-full bg-muted"].

Definition ScrollBar (orient : option orientation) (className : option jsstring) (props : attributes) : vnode :=
  let o := default_of o_vertical orient in
  styled_with cn [sv "orientation" (orientation_name o)] "ScrollAreaPrimitive.ScrollAreaScrollbar"
    ([js "flex touch-none select-none transition-colors"]
     ++ cls_if (match o with o_vertical => true | o_horizontal => false end) (js "h-full w-2.5 border-l border-l-transparent p-[1px]")
     ++ cls_if (match o with o_horizontal => true | o_vertical => false end) (js "h-2.5 flex-col border-t border-t-transparent p-[1px]"))
    className props [classed "ScrollAreaPrimitive.ScrollAreaThumb" (js "relative flex-1 rounded-full bg-border") []].

Definition ScrollArea (className : option jsstring) (props : attributes) (children : list vnode) : vnode :=
  styled "ScrollAreaPrimitive.Root" [js "relative overflow-hidden"] className props
    [classed "ScrollAreaPrimitive.Viewport" (js "h-full w-full rounded-[inherit]") children; ScrollBar None None [];
     VEl "ScrollAreaPrimitive.Corner" [] []].

Definition TooltipProvider (props : attributes) (children : list vnode) : vnode := VEl "TooltipPrimitive.Provider" props children.
Definition Tooltip (props : attributes) (children : list vnode) : vnode := VEl "TooltipPrimitive.Root" props children.
Definition TooltipTrigger (props : attributes) (children : list vnode) : vnode := VEl "TooltipPrimitive.Trigger" props children.
Definition TooltipContent (sideOffset : option num) (className : option jsstring) (props : attributes) (children : list vnode) : vnode :=
  VEl "TooltipPrimitive.Portal" []
    [styled_with cn [sv "sideOffset" (num_to_js (default_of (nof 4) sideOffset))] "TooltipPrimitive.Content"
       [js "z-50 overflow-hidden rounded-md bg-primary px-3 py-1.5 text-xs text-primary-foreground animate-in fade-in-0 zoom-in-95 data-[state=closed]:animate-out data-[state=closed]:fade-out-0 data-[state=closed]:zoom-out-95 data-[side=bottom]:slide-in-from-top-2 data-[side=left]:slide-in-from-right-2 data-[side=right]:slide-in-from-left-2 data-[side=top]:slide-in-from-bottom-2 origin-[--radix-tooltip-content-transform-origin]"]
       className props children].

Definition Separator (orient : option orientation) (decorative : option bool) (className : option jsstring) (props : attributes) (children : list vnode) : vnode :=
  let o := default_of o_horizontal orient in
  styled_with cn [sv "decorative" (if default_of true decorative then js "true" else js "false"); sv "orientation" (orientation_name o)]
    "SeparatorPrimitive.Root"
    [js "shrink-0 bg-border"; match o with o_horizontal => js "h-[1px] w-full" | o_vertical => js "h-full w-[1px]" end] className props children.

Definition Switch (className : option jsstring) (props : attributes) : vnode :=
  styled "SwitchPrimitives.Root"
    [js "peer inline-flex h-5 w-9 shrink-0 cursor-pointer items-center rounded-full border-2 border-transparent shadow-sm transition-colors focus-visible:outline-none focus-visible:ring-2 focus-visible:ring-ring focus-visible:ring-offset-2 focus-visible:ring-offset-background disabled:cursor-not-allowed disabled:opacity-50 data-[state=checked]:bg-primary data-[state=unchecked]:bg-input"]
    className props
    [classed "SwitchPrimitives.Thumb"
       (cn [js "pointer-events-none block h-4 w-4 rounded-full bg-background shadow-lg ring-0 transition-transform data-[state=checked]:translate-x-4 data-[state=unchecked]:translate-x-0"]) []].

(** [value || 0]: absent, null, NaN and both zeros count as zero. *)
Definition progress_value (value : option num) : num := match value with Some v => if truthy v then v else nof 0 | None => nof 0 end.

Definition Progress (value : option num) (className : option jsstring) (props : attributes) : vnode :=
  styled "ProgressPrimitive.Root" [js "relative h-2 w-full overflow-hidden rounded-full bg-primary/20"] className props
    [VEl "ProgressPrimitive.Indicator"
       [sv "className" (js "h-full w-full flex-1 bg-primary transition-all");
        sv "style.transform" (js "translateX(-" ++ num_to_js (nsub (nof 100) (progress_value value)) ++ js "%)")] []].

Definition Kbd :=
  styled_with cn [sv "data-slot" (js "kbd")] "kbd"
    [js "bg-muted text-muted-foreground pointer-events-none inline-flex h-5 w-fit min-w-5 select-none items-center justify-center gap-1 rounded-sm px-1 font-sans text-xs font-medium";
     js "[&_svg:not([class*='size-'])]:size-3";
     js "[[data-slot=tooltip-content]_&]:bg-background/20 [[data-slot=tooltip-content]_&]:text-background dark:[[data-slot=tooltip-content]_&]:bg-background/10"].
Definition KbdGroup := styled_with cn [sv "data-slot" (js "kbd-group")] "kbd" [js "inline-flex items-center gap-1"].

Definition labelVariants : jsstring :=
  cva {| cva_base := js "text-sm font-medium leading-none peer-disabled:cursor-not-allowed peer-disabled:opacity-70";
         cva_variants := []; cva_defaultVariants := [] |} {| cva_chosen := []; cva_className := None |}.
Definition Label := styled "LabelPrimitive.Root" (cls_opt (Some labelVariants)).

Definition Textarea :=
  styled "textarea"
    [js "flex min-h-[60px] w-full rounded-md border border-input bg-transparent px-3 py-2 text-base shadow-sm placeholder:text-muted-foreground focus-visible:outline-none focus-visible:ring-1 focus-visible:ring-ring disabled:cursor-not-allowed disabled:opacity-50 md:text-sm"].

Definition Input (type : option jsstring) :=
  styled_with cn (style_opt "type" type) "input"
    [js "flex h-9 w-full rounded-md border border-input bg-transparent px-3 py-1 text-base shadow-sm transition-colors file:border-0 file:bg-transparent file:text-sm file:font-medium file:text-foreground placeholder:text-muted-foreground focus-visible:outline-none focus-visible:ring-1 focus-visible:ring-ring disabled:cursor-not-allowed disabled:opacity-50 md:text-sm"].

Definition Skeleton := styled "div" [js "animate-pulse rounded-md bg-primary/10"].

Definition Collapsible (props : attributes) (children : list vnode) : vnode := VEl "CollapsiblePrimitive.Root" props children.
Definition CollapsibleTrigger (props : attributes) (children : list vnode) : vnode := VEl "CollapsiblePrimitive.CollapsibleTrigger" props children.
Definition CollapsibleContent (props : attributes) (children : list vnode) : vnode := VEl "CollapsiblePrimitive.CollapsibleContent" props children.
End Primitives.
