(* ===== verification/State.v ===== *)
(** * Stateful handlers

    A handler of a component reads and writes the variables its closure captures: a computation in
    the state monad [M W], where [W] holds those variables and the part of the browser they act on.
    Invariants are proved with the triples [hoare P m Q]. *)

From Stdlib Require Import List Bool.
From S2P Require Import Prelude.
Import ListNotations.

Definition M (W A : Type) : Type := W -> A * W.

Section Monad.
Context {W : Type}.

Definition ret {A} (a : A) : M W A := fun w => (a, w).
Definition bind {A B} (m : M W A) (f : A -> M W B) : M W B := fun w => let '(a, w') := m w in f a w'.
Definition get {A} (f : W -> A) : M W A := fun w => (f w, w).
Definition modify (f : W -> W) : M W unit := fun w => (tt, f w).
Definition exec_m {A} (m : M W A) (w : W) : W := snd (m w).
Definition run_m {A} (m : M W A) (w : W) : A := fst (m w).

(** [when_m b m] is [if (b) { m }]. *)
Definition when_m (b : bool) (m : M W unit) : M W unit := if b then m else ret tt.

Definition hoare {A} (P : W -> Prop) (m : M W A) (Q : A -> W -> Prop) : Prop :=
  forall w, P w -> Q (run_m m w) (exec_m m w).

Lemma hoare_ret {A} (a : A) (Q : A -> W -> Prop) : hoare (Q a) (ret a) Q.
Proof. intros w H. exact H. Qed.

Lemma hoare_bind {A B} (P : W -> Prop) (m : M W A) (f : A -> M W B) (R : A -> W -> Prop) Q :
  hoare P m R -> (forall a, hoare (R a) (f a) Q) -> hoare P (bind m f) Q.
Proof.
  intros Hm Hf w Hw. unfold run_m, exec_m, bind. specialize (Hm w Hw). unfold run_m, exec_m in Hm.
  destruct (m w) as [a w']. exact (Hf a w' Hm).
Qed.

Lemma hoare_modify (f : W -> W) (Q : unit -> W -> Prop) : hoare (fun w => Q tt (f w)) (modify f) Q.
Proof. intros w H. exact H. Qed.

Lemma hoare_get {A} (f : W -> A) (Q : A -> W -> Prop) : hoare (fun w => Q (f w) w) (get f) Q.
Proof. intros w H. exact H. Qed.

Lemma hoare_conseq {A} (P P' : W -> Prop) (m : M W A) (Q Q' : A -> W -> Prop) :
  hoare P' m Q' -> (forall w, P w -> P' w) -> (forall a w, Q' a w -> Q a w) -> hoare P m Q.
Proof. intros H HP HQ w Hw. apply HQ, H, HP, Hw. Qed.

Lemma exec_bind {A B} (m : M W A) (f : A -> M W B) w :
  exec_m (bind m f) w = exec_m (f (run_m m w)) (exec_m m w).
Proof. unfold exec_m, run_m, bind. now destruct (m w). Qed.

Lemma run_bind {A B} (m : M W A) (f : A -> M W B) w :
  run_m (bind m f) w = run_m (f (run_m m w)) (exec_m m w).
Proof. unfold exec_m, run_m, bind. now destruct (m w). Qed.

Lemma exec_get {A B} (f : W -> A) (k : A -> M W B) w : exec_m (bind (get f) k) w = exec_m (k (f w)) w.
Proof. reflexivity. Qed.

Lemma exec_modify {B} (f : W -> W) (k : unit -> M W B) w : exec_m (bind (modify f) k) w = exec_m (k tt) (f w).
Proof. reflexivity. Qed.

Lemma exec_modify_end (f : W -> W) w : exec_m (modify f) w = f w.
Proof. reflexivity. Qed.

Lemma exec_ret {A} (a : A) w : exec_m (ret a) w = w.
Proof. reflexivity. Qed.
End Monad.

Declare Scope state_scope.
Delimit Scope state_scope with state.
Notation "x <- m ;; f" := (bind m (fun x => f)) (at level 100, m at next level, right associativity) : state_scope.
Notation "m ;;; f" := (bind m (fun _ => f)) (at level 100, right associativity) : state_scope.

(** Reads and writes at the head of a computation. *)
Ltac run_steps := repeat first [rewrite exec_get | rewrite exec_modify | rewrite exec_modify_end | rewrite exec_ret].
