(* ===== verification/RetroGrid.v ===== *)
(** * The retro grid ([website/components/magicui/retro-grid.tsx])

    [RetroGrid] draws an animated grid with WebGL and falls back to CSS when it cannot.  Its effect
    owns a pipeline (a program and a buffer of the graphics context), at most one pending animation
    frame, and a family of listeners.  The file models the effect as a state machine over the
    browser's notifications; what the browser answers to a call during one notification is the
    record [env], so that every sequence of failures is covered.  The shader sources are data of the
    graphics driver and are not interpreted. *)

From Stdlib Require Import String List Arith NArith ZArith Lia Bool.
From S2P Require Import Prelude JsString JsNum NumText Dom State.
Import ListNotations.
Local Open Scope list_scope.
Local Open Scope state_scope.

(** ** Constants *)

Definition ANIMATION_DURATION_SECONDS : Z := 15.
Definition MAX_ANGLE : num := nof 89.
Definition MIN_ANGLE : num := nof 1.
Definition MAX_DEVICE_PIXEL_RATIO : num := nof 2.
Definition PERSPECTIVE_PX : Z := 200.

Definition clamp (value min max : num) : num := Math_min (Math_max value min) max.

(** ** The graphics context *)

(** The objects created and not deleted yet, by handle. *)
Record gpu_objects := Gpu { g_next : nat; g_shaders : list nat; g_programs : list nat; g_buffers : list nat }.

(** The context of a canvas: [getContext] answers the same object every time. *)
Inductive webgl := WebGL.

Inductive shader_answer := no_shader | compile_error | compiled.
Inductive program_answer := no_program | link_error | linked.

Record ProgramInfo := {
  attributeLocation : Z; program : nat;
  u_angle : nat; u_cellSize : nat; u_containerSize : nat; u_devicePixelRatio : nat;
  u_lineColor : nat; u_time : nat; u_viewportSize : nat }.

(** What the browser answers while one notification is handled. *)
Record env := {
  e_refs : bool;                      (* the canvas and the container are mounted *)
  e_webgl : bool;                     (* [canvas.getContext] of webgl is not null *)
  e_derivatives : bool;               (* [getExtension] is not null *)
  e_vertex : shader_answer; e_fragment : shader_answer; e_program : program_answer;
  e_attribLocation : Z;
  e_angle : option nat; e_cellSize : option nat; e_containerSize : option nat;
  e_devicePixelRatioLoc : option nat; e_lineColor : option nat; e_time : option nat;
  e_viewportSize : option nat;        (* [getUniformLocation] *)
  e_buffer : bool;                    (* [createBuffer] is not null *)
  e_clientWidth : Z; e_clientHeight : Z; e_innerWidth : Z; e_innerHeight : Z;
  e_devicePixelRatio : num; e_now : num;
  e_reducedMotion : bool; e_root_dark : bool; e_root_light : bool; e_colorScheme_dark : bool;
  e_context2d : bool;                 (* [canvas.getContext] of 2d is not null *)
  e_pixel : jsstring -> Z * Z * Z * Z (* the pixel painted with a computed colour *) }.

(** The arguments of the calls of one [draw]. *)
Record draw_call := Draw {
  d_program : nat; d_buffer : nat; d_attribute : Z; d_angle : num; d_cellSize : num;
  d_containerSize : Z * Z; d_devicePixelRatio : num; d_lineColor : list num; d_time : num;
  d_viewportSize : Z * Z }.

Record canvas_size := Canvas { c_width : num; c_height : num; c_styleWidth : jsstring; c_styleHeight : jsstring;
  c_viewport : num * num }.

(** The variables of the effect and of the component, and the browser state they act on. *)
Record world := World {
  animationFrameId : option nat;
  currentWidth : Z;
  currentHeight : Z;
  currentDevicePixelRatio : num;
  gl : option webgl;
  isVisible : bool;
  isContextLost : bool;
  lineColor : list num;
  positionBuffer : option nat;
  programInfo : option ProgramInfo;
  isWebGlReady : bool;
  angleRef : num;
  cellSizeRef : num;
  darkLineColorRef : jsstring;
  lightLineColorRef : jsstring;
  syncSceneRef : bool;
  listening : bool;
  colorResolveContext : option bool;
  gpu : gpu_objects;
  canvas : canvas_size;
  pending : list nat;
  next_frame : nat;
  draws : list draw_call }.

(** Assignments. *)
Definition set_animationFrameId (v : option nat) (w : world) : world :=
  World v (currentWidth w) (currentHeight w) (currentDevicePixelRatio w) (gl w) (isVisible w)
      (isContextLost w) (lineColor w) (positionBuffer w) (programInfo w) (isWebGlReady w) (angleRef w)
      (cellSizeRef w) (darkLineColorRef w) (lightLineColorRef w) (syncSceneRef w) (listening w)
      (colorResolveContext w) (gpu w) (canvas w) (pending w) (next_frame w) (draws w).
Definition set_currentWidth (v : Z) (w : world) : world :=
  World (animationFrameId w) v (currentHeight w) (currentDevicePixelRatio w) (gl w) (isVisible w)
      (isContextLost w) (lineColor w) (positionBuffer w) (programInfo w) (isWebGlReady w) (angleRef w)
      (cellSizeRef w) (darkLineColorRef w) (lightLineColorRef w) (syncSceneRef w) (listening w)
      (colorResolveContext w) (gpu w) (canvas w) (pending w) (next_frame w) (draws w).
Definition set_currentHeight (v : Z) (w : world) : world :=
  World (animationFrameId w) (currentWidth w) v (currentDevicePixelRatio w) (gl w) (isVisible w)
      (isContextLost w) (lineColor w) (positionBuffer w) (programInfo w) (isWebGlReady w) (angleRef w)
      (cellSizeRef w) (darkLineColorRef w) (lightLineColorRef w) (syncSceneRef w) (listening w)
      (colorResolveContext w) (gpu w) (canvas w) (pending w) (next_frame w) (draws w).
Definition set_currentDevicePixelRatio (v : num) (w : world) : world :=
  World (animationFrameId w) (currentWidth w) (currentHeight w) v (gl w) (isVisible w) (isContextLost w)
      (lineColor w) (positionBuffer w) (programInfo w) (isWebGlReady w) (angleRef w) (cellSizeRef w)
      (darkLineColorRef w) (lightLineColorRef w) (syncSceneRef w) (listening w) (colorResolveContext w)
      (gpu w) (canvas w) (pending w) (next_frame w) (draws w).
Definition set_gl (v : option webgl) (w : world) : world :=
  World (animationFrameId w) (currentWidth w) (currentHeight w) (currentDevicePixelRatio w) v (isVisible w)
      (isContextLost w) (lineColor w) (positionBuffer w) (programInfo w) (isWebGlReady w) (angleRef w)
      (cellSizeRef w) (darkLineColorRef w) (lightLineColorRef w) (syncSceneRef w) (listening w)
      (colorResolveContext w) (gpu w) (canvas w) (pending w) (next_frame w) (draws w).
Definition set_isVisible (v : bool) (w : world) : world :=
  World (animationFrameId w) (currentWidth w) (currentHeight w) (currentDevicePixelRatio w) (gl w) v
      (isContextLost w) (lineColor w) (positionBuffer w) (programInfo w) (isWebGlReady w) (angleRef w)
      (cellSizeRef w) (darkLineColorRef w) (lightLineColorRef w) (syncSceneRef w) (listening w)
      (colorResolveContext w) (gpu w) (canvas w) (pending w) (next_frame w) (draws w).
Definition set_isContextLost (v : bool) (w : world) : world :=
  World (animationFrameId w) (currentWidth w) (currentHeight w) (currentDevicePixelRatio w) (gl w)
      (isVisible w) v (lineColor w) (positionBuffer w) (programInfo w) (isWebGlReady w) (angleRef w)
      (cellSizeRef w) (darkLineColorRef w) (lightLineColorRef w) (syncSceneRef w) (listening w)
      (colorResolveContext w) (gpu w) (canvas w) (pending w) (next_frame w) (draws w).
Definition set_lineColor (v : list num) (w : world) : world :=
  World (animationFrameId w) (currentWidth w) (currentHeight w) (currentDevicePixelRatio w) (gl w)
      (isVisible w) (isContextLost w) v (positionBuffer w) (programInfo w) (isWebGlReady w) (angleRef w)
      (cellSizeRef w) (darkLineColorRef w) (lightLineColorRef w) (syncSceneRef w) (listening w)
      (colorResolveContext w) (gpu w) (canvas w) (pending w) (next_frame w) (draws w).
Definition set_positionBuffer (v : option nat) (w : world) : world :=
  World (animationFrameId w) (currentWidth w) (currentHeight w) (currentDevicePixelRatio w) (gl w)
      (isVisible w) (isContextLost w) (lineColor w) v (programInfo w) (isWebGlReady w) (angleRef w)
      (cellSizeRef w) (darkLineColorRef w) (lightLineColorRef w) (syncSceneRef w) (listening w)
      (colorResolveContext w) (gpu w) (canvas w) (pending w) (next_frame w) (draws w).
Definition set_programInfo (v : option ProgramInfo) (w : world) : world :=
  World (animationFrameId w) (currentWidth w) (currentHeight w) (currentDevicePixelRatio w) (gl w)
      (isVisible w) (isContextLost w) (lineColor w) (positionBuffer w) v (isWebGlReady w) (angleRef w)
      (cellSizeRef w) (darkLineColorRef w) (lightLineColorRef w) (syncSceneRef w) (listening w)
      (colorResolveContext w) (gpu w) (canvas w) (pending w) (next_frame w) (draws w).
Definition set_isWebGlReady (v : bool) (w : world) : world :=
  World (animationFrameId w) (currentWidth w) (currentHeight w) (currentDevicePixelRatio w) (gl w)
      (isVisible w) (isContextLost w) (lineColor w) (positionBuffer w) (programInfo w) v (angleRef w)
      (cellSizeRef w) (darkLineColorRef w) (lightLineColorRef w) (syncSceneRef w) (listening w)
      (colorResolveContext w) (gpu w) (canvas w) (pending w) (next_frame w) (draws w).
Definition set_angleRef (v : num) (w : world) : world :=
  World (animationFrameId w) (currentWidth w) (currentHeight w) (currentDevicePixelRatio w) (gl w)
      (isVisible w) (isContextLost w) (lineColor w) (positionBuffer w) (programInfo w) (isWebGlReady w) v
      (cellSizeRef w) (darkLineColorRef w) (lightLineColorRef w) (syncSceneRef w) (listening w)
      (colorResolveContext w) (gpu w) (canvas w) (pending w) (next_frame w) (draws w).
Definition set_cellSizeRef (v : num) (w : world) : world :=
  World (animationFrameId w) (currentWidth w) (currentHeight w) (currentDevicePixelRatio w) (gl w)
      (isVisible w) (isContextLost w) (lineColor w) (positionBuffer w) (programInfo w) (isWebGlReady w)
      (angleRef w) v (darkLineColorRef w) (lightLineColorRef w) (syncSceneRef w) (listening w)
      (colorResolveContext w) (gpu w) (canvas w) (pending w) (next_frame w) (draws w).
Definition set_darkLineColorRef (v : jsstring) (w : world) : world :=
  World (animationFrameId w) (currentWidth w) (currentHeight w) (currentDevicePixelRatio w) (gl w)
      (isVisible w) (isContextLost w) (lineColor w) (positionBuffer w) (programInfo w) (isWebGlReady w)
      (angleRef w) (cellSizeRef w) v (lightLineColorRef w) (syncSceneRef w) (listening w)
      (colorResolveContext w) (gpu w) (canvas w) (pending w) (next_frame w) (draws w).
Definition set_lightLineColorRef (v : jsstring) (w : world) : world :=
  World (animationFrameId w) (currentWidth w) (currentHeight w) (currentDevicePixelRatio w) (gl w)
      (isVisible w) (isContextLost w) (lineColor w) (positionBuffer w) (programInfo w) (isWebGlReady w)
      (angleRef w) (cellSizeRef w) (darkLineColorRef w) v (syncSceneRef w) (listening w)
      (colorResolveContext w) (gpu w) (canvas w) (pending w) (next_frame w) (draws w).
Definition set_syncSceneRef (v : bool) (w : world) : world :=
  World (animationFrameId w) (currentWidth w) (currentHeight w) (currentDevicePixelRatio w) (gl w)
      (isVisible w) (isContextLost w) (lineColor w) (positionBuffer w) (programInfo w) (isWebGlReady w)
      (angleRef w) (cellSizeRef w) (darkLineColorRef w) (lightLineColorRef w) v (listening w)
      (colorResolveContext w) (gpu w) (canvas w) (pending w) (next_frame w) (draws w).
Definition set_listening (v : bool) (w : world) : world :=
  World (animationFrameId w) (currentWidth w) (currentHeight w) (currentDevicePixelRatio w) (gl w)
      (isVisible w) (isContextLost w) (lineColor w) (positionBuffer w) (programInfo w) (isWebGlReady w)
      (angleRef w) (cellSizeRef w) (darkLineColorRef w) (lightLineColorRef w) (syncSceneRef w) v
      (colorResolveContext w) (gpu w) (canvas w) (pending w) (next_frame w) (draws w).
Definition set_colorResolveContext (v : option bool) (w : world) : world :=
  World (animationFrameId w) (currentWidth w) (currentHeight w) (currentDevicePixelRatio w) (gl w)
      (isVisible w) (isContextLost w) (lineColor w) (positionBuffer w) (programInfo w) (isWebGlReady w)
      (angleRef w) (cellSizeRef w) (darkLineColorRef w) (lightLineColorRef w) (syncSceneRef w)
      (listening w) v (gpu w) (canvas w) (pending w) (next_frame w) (draws w).
Definition set_gpu (v : gpu_objects) (w : world) : world :=
  World (animationFrameId w) (currentWidth w) (currentHeight w) (currentDevicePixelRatio w) (gl w)
      (isVisible w) (isContextLost w) (lineColor w) (positionBuffer w) (programInfo w) (isWebGlReady w)
      (angleRef w) (cellSizeRef w) (darkLineColorRef w) (lightLineColorRef w) (syncSceneRef w) (listening w)
      (colorResolveContext w) v (canvas w) (pending w) (next_frame w) (draws w).
Definition set_canvas (v : canvas_size) (w : world) : world :=
  World (animationFrameId w) (currentWidth w) (currentHeight w) (currentDevicePixelRatio w) (gl w)
      (isVisible w) (isContextLost w) (lineColor w) (positionBuffer w) (programInfo w) (isWebGlReady w)
      (angleRef w) (cellSizeRef w) (darkLineColorRef w) (lightLineColorRef w) (syncSceneRef w) (listening w)
      (colorResolveContext w) (gpu w) v (pending w) (next_frame w) (draws w).
Definition set_pending (v : list nat) (w : world) : world :=
  World (animationFrameId w) (currentWidth w) (currentHeight w) (currentDevicePixelRatio w) (gl w)
      (isVisible w) (isContextLost w) (lineColor w) (positionBuffer w) (programInfo w) (isWebGlReady w)
      (angleRef w) (cellSizeRef w) (darkLineColorRef w) (lightLineColorRef w) (syncSceneRef w) (listening w)
      (colorResolveContext w) (gpu w) (canvas w) v (next_frame w) (draws w).
Definition set_next_frame (v : nat) (w : world) : world :=
  World (animationFrameId w) (currentWidth w) (currentHeight w) (currentDevicePixelRatio w) (gl w)
      (isVisible w) (isContextLost w) (lineColor w) (positionBuffer w) (programInfo w) (isWebGlReady w)
      (angleRef w) (cellSizeRef w) (darkLineColorRef w) (lightLineColorRef w) (syncSceneRef w) (listening w)
      (colorResolveContext w) (gpu w) (canvas w) (pending w) v (draws w).
Definition set_draws (v : list draw_call) (w : world) : world :=
  World (animationFrameId w) (currentWidth w) (currentHeight w) (currentDevicePixelRatio w) (gl w)
      (isVisible w) (isContextLost w) (lineColor w) (positionBuffer w) (programInfo w) (isWebGlReady w)
      (angleRef w) (cellSizeRef w) (darkLineColorRef w) (lightLineColorRef w) (syncSceneRef w) (listening w)
      (colorResolveContext w) (gpu w) (canvas w) (pending w) (next_frame w) v.

(** ** Graphics objects *)

(** Removal of a handle. *)
Definition del (i : nat) (l : list nat) : list nat := filter (fun j => negb (j =? i)) l.

Definition gpu_fresh : M gpu_objects nat :=
  i <- get g_next ;; modify (fun g => Gpu (S i) (g_shaders g) (g_programs g) (g_buffers g)) ;;; ret i.

Definition add_shader (i : nat) : M gpu_objects unit :=
  modify (fun g => Gpu (g_next g) (i :: g_shaders g) (g_programs g) (g_buffers g)).
Definition add_program (i : nat) : M gpu_objects unit :=
  modify (fun g => Gpu (g_next g) (g_shaders g) (i :: g_programs g) (g_buffers g)).
Definition add_buffer (i : nat) : M gpu_objects unit :=
  modify (fun g => Gpu (g_next g) (g_shaders g) (g_programs g) (i :: g_buffers g)).

Definition deleteShader (i : nat) : M gpu_objects unit :=
  modify (fun g => Gpu (g_next g) (del i (g_shaders g)) (g_programs g) (g_buffers g)).
Definition deleteProgram (i : nat) : M gpu_objects unit :=
  modify (fun g => Gpu (g_next g) (g_shaders g) (del i (g_programs g)) (g_buffers g)).
Definition deleteBuffer (i : nat) : M gpu_objects unit :=
  modify (fun g => Gpu (g_next g) (g_shaders g) (g_programs g) (del i (g_buffers g))).

Definition createShader (answer : shader_answer) : M gpu_objects (option nat) :=
  match answer with
  | no_shader => ret None
  | compiled => shader <- gpu_fresh ;; add_shader shader ;;; ret (Some shader)
  | compile_error => shader <- gpu_fresh ;; add_shader shader ;;; deleteShader shader ;;; ret None
  end.

Definition createProgram (e : env) : M gpu_objects (option nat) :=
  vertexShader <- createShader (e_vertex e) ;;
  fragmentShader <- createShader (e_fragment e) ;;
  match vertexShader, fragmentShader with
  | Some vs, Some fs =>
      match e_program e with
      | no_program => deleteShader vs ;;; deleteShader fs ;;; ret None
      | answer =>
          p <- gpu_fresh ;; add_program p ;;;
          deleteShader vs ;;; deleteShader fs ;;;
          match answer with
          | linked => ret (Some p)
          | _ => deleteProgram p ;;; ret None
          end
      end
  | _, _ => ret None
  end.

Definition createBuffer (e : env) : M gpu_objects (option nat) :=
  if negb (e_buffer e) then ret None else b <- gpu_fresh ;; add_buffer b ;;; ret (Some b).

(** A call on the graphics context. *)
Definition on_gl {A} (m : M gpu_objects A) : M world A :=
  fun w => let '(a, g) := m (gpu w) in (a, set_gpu g w).

Definition getProgramInfo (e : env) (p : nat) : option ProgramInfo :=
  if (e_attribLocation e <? 0)%Z then None
  else
    match e_angle e, e_cellSize e, e_containerSize e, e_devicePixelRatioLoc e, e_lineColor e, e_time e,
          e_viewportSize e with
    | Some angle, Some cellSize, Some containerSize, Some devicePixelRatio, Some lineColor, Some time,
      Some viewportSize =>
        Some {| attributeLocation := e_attribLocation e; program := p;
                u_angle := angle; u_cellSize := cellSize; u_containerSize := containerSize;
                u_devicePixelRatio := devicePixelRatio; u_lineColor := lineColor; u_time := time;
                u_viewportSize := viewportSize |}
    | _, _, _, _, _, _, _ => None
    end.

(** ** Colours *)

Definition isDarkMode (e : env) : bool :=
  if e_root_dark e then true else if e_root_light e then false else e_colorScheme_dark e.

(** The answer of the first call is kept for the lifetime of the page. *)
Definition getColorResolveContext (e : env) : M world bool :=
  c <- get colorResolveContext ;;
  match c with
  | Some b => ret b
  | None => modify (set_colorResolveContext (Some (e_context2d e))) ;;; ret (e_context2d e)
  end.

Definition resolveLineColor (e : env) (color : jsstring) : M world (list num) :=
  context <- getColorResolveContext e ;;
  if negb context then ret [lit 1 2; lit 1 2; lit 1 2; nof 1]
  else
    let '(r, g, b, a) := e_pixel e color in
    ret (map (fun p => fround (ndiv (nof p) (nof 255))) [r; g; b; a]).

(** ** The effect *)

Definition getContext (e : env) : option webgl :=
  if negb (e_webgl e) || negb (e_derivatives e) then None else Some WebGL.

Definition releasePipeline (shouldDeleteResources : bool) : M world unit :=
  g <- get gl ;; buf <- get positionBuffer ;; info <- get programInfo ;;
  when_m (shouldDeleteResources && match g with Some _ => true | None => false end)
    (match buf with Some b => on_gl (deleteBuffer b) | None => ret tt end ;;;
     match info with Some i => on_gl (deleteProgram (program i)) | None => ret tt end) ;;;
  modify (set_positionBuffer None) ;;;
  modify (set_programInfo None) ;;;
  when_m shouldDeleteResources (modify (set_gl None)).

Definition initializePipeline (e : env) : M world bool :=
  match getContext e with
  | None => releasePipeline false ;;; ret false
  | Some nextGl =>
      modify (set_gl (Some nextGl)) ;;;
      releasePipeline true ;;;
      modify (set_gl (Some nextGl)) ;;;
      program <- on_gl (createProgram e) ;;
      match program with
      | None => ret false
      | Some p =>
          match getProgramInfo e p with
          | None => on_gl (deleteProgram p) ;;; ret false
          | Some nextProgramInfo =>
              nextPositionBuffer <- on_gl (createBuffer e) ;;
              match nextPositionBuffer with
              | None => on_gl (deleteProgram p) ;;; ret false
              | Some buffer =>
                  modify (set_positionBuffer (Some buffer)) ;;;
                  modify (set_programInfo (Some nextProgramInfo)) ;;;
                  ret true
              end
          end
      end
  end.

Definition updateLineColor (e : env) : M world unit :=
  dark <- get darkLineColorRef ;; light <- get lightLineColorRef ;;
  color <- resolveLineColor e (if isDarkMode e then dark else light) ;;
  modify (set_lineColor color).

(** [window.devicePixelRatio || 1], at most the maximum. *)
Definition device_pixel_ratio (e : env) : num :=
  Math_min (if truthy (e_devicePixelRatio e) then e_devicePixelRatio e else nof 1) MAX_DEVICE_PIXEL_RATIO.

Definition px (z : Z) : jsstring := nat_to_js (Z.to_nat z) ++ js "px".

Definition resizeCanvas (e : env) : M world unit :=
  modify (set_currentWidth (e_clientWidth e)) ;;;
  modify (set_currentHeight (e_clientHeight e)) ;;;
  g <- get gl ;;
  if (e_clientWidth e =? 0)%Z || (e_clientHeight e =? 0)%Z || match g with None => true | Some _ => false end
  then ret tt
  else
    modify (set_currentDevicePixelRatio (device_pixel_ratio e)) ;;;
    let width := Math_floor (nmul (nof (e_clientWidth e)) (device_pixel_ratio e)) in
    let height := Math_floor (nmul (nof (e_clientHeight e)) (device_pixel_ratio e)) in
    modify (set_canvas
      {| c_width := width; c_height := height;
         c_styleWidth := px (e_clientWidth e); c_styleHeight := px (e_clientHeight e);
         c_viewport := (width, height) |}).

Definition draw (e : env) (timestamp : num) : M world unit :=
  w <- get (fun w => w) ;;
  match gl w, positionBuffer w, programInfo w with
  | Some _, Some buffer, Some info =>
      if (currentWidth w =? 0)%Z || (currentHeight w =? 0)%Z || isContextLost w then ret tt
      else
        modify (set_draws (draws w ++
          [{| d_program := program info; d_buffer := buffer; d_attribute := attributeLocation info;
              d_angle := clamp (angleRef w) MIN_ANGLE MAX_ANGLE;
              d_cellSize := Math_max (cellSizeRef w) (nof 1);
              d_containerSize := (currentWidth w, currentHeight w);
              d_devicePixelRatio := currentDevicePixelRatio w;
              d_lineColor := lineColor w;
              d_time := if e_reducedMotion e then nof 0 else ndiv timestamp (nof 1000);
              d_viewportSize := (e_innerWidth e, e_innerHeight e) |}]))
  | _, _, _ => ret tt
  end.

(** [requestAnimationFrame(frame)] and [cancelAnimationFrame]. *)
Definition requestAnimationFrame : M world nat :=
  i <- get next_frame ;; p <- get pending ;;
  modify (set_next_frame (S i)) ;;; modify (set_pending (p ++ [i])) ;;; ret i.

Definition cancelAnimationFrame (i : nat) : M world unit :=
  p <- get pending ;; modify (set_pending (del i p)).

Definition stopAnimation : M world unit :=
  id <- get animationFrameId ;;
  match id with
  | Some i => cancelAnimationFrame i ;;; modify (set_animationFrameId None)
  | None => ret tt
  end.

Definition frame (e : env) (timestamp : num) : M world unit :=
  draw e timestamp ;;;
  visible <- get isVisible ;;
  if negb (e_reducedMotion e) && visible
  then i <- requestAnimationFrame ;; modify (set_animationFrameId (Some i))
  else modify (set_animationFrameId None).

Definition has_pipeline (w : world) : bool :=
  match gl w, positionBuffer w, programInfo w with Some _, Some _, Some _ => true | _, _, _ => false end.

(** The rest of [syncScene] once the pipeline is there. *)
Definition syncScene_ready (e : env) : M world unit :=
  resizeCanvas e ;;;
  w <- get (fun w => w) ;;
  if (currentWidth w =? 0)%Z || (currentHeight w =? 0)%Z then stopAnimation
  else
    updateLineColor e ;;;
    draw e (e_now e) ;;;
    modify (set_isWebGlReady true) ;;;
    visible <- get isVisible ;;
    if e_reducedMotion e || negb visible then stopAnimation
    else
      id <- get animationFrameId ;;
      match id with
      | None => i <- requestAnimationFrame ;; modify (set_animationFrameId (Some i))
      | Some _ => ret tt
      end.

Definition syncScene (e : env) : M world unit :=
  lost <- get isContextLost ;;
  if lost then stopAnimation ;;; modify (set_isWebGlReady false)
  else
    there <- get has_pipeline ;;
    if there then syncScene_ready e
    else
      ok <- initializePipeline e ;;
      if negb ok then stopAnimation ;;; modify (set_isWebGlReady false)
      else syncScene_ready e.

Definition handleIntersection (e : env) (entry : option bool) : M world unit :=
  modify (set_isVisible (default_of false entry)) ;;;
  if default_of false entry then syncScene e else stopAnimation.

(** The browser frees the objects of a lost context. *)
Definition loseObjects : M world unit :=
  on_gl (modify (fun g => Gpu (g_next g) [] [] [])).

Definition handleContextLost : M world unit :=
  loseObjects ;;;
  modify (set_isContextLost true) ;;;
  stopAnimation ;;;
  releasePipeline false ;;;
  modify (set_isWebGlReady false).

Definition handleContextRestored (e : env) : M world unit :=
  modify (set_isContextLost false) ;;; syncScene e.

(** The effect that keeps the refs up to date. *)
Definition update_props (e : env) (angle cellSize : num) (dark light : jsstring) : M world unit :=
  modify (set_angleRef angle) ;;;
  modify (set_cellSizeRef cellSize) ;;;
  modify (set_darkLineColorRef dark) ;;;
  modify (set_lightLineColorRef light) ;;;
  sync <- get syncSceneRef ;;
  if sync then syncScene e else ret tt.

(** The state when the effect starts, from the props and the page-wide colour context. *)
Definition scene_init (angle cellSize : num) (dark light : jsstring) (colorContext : option bool) : world :=
  {| animationFrameId := None; currentWidth := 0; currentHeight := 0; currentDevicePixelRatio := nof 1;
     gl := None; isVisible := true; isContextLost := false; lineColor := []; positionBuffer := None;
     programInfo := None; isWebGlReady := false; angleRef := angle; cellSizeRef := cellSize;
     darkLineColorRef := dark; lightLineColorRef := light; syncSceneRef := false; listening := false;
     colorResolveContext := colorContext; gpu := Gpu 0 [] [] []; canvas := Canvas (nof 300) (nof 150) [] [] (nof 300, nof 150);
     pending := []; next_frame := 1; draws := [] |}.

Definition mount (e : env) : M world unit :=
  if negb (e_refs e) then ret tt
  else
    light <- get lightLineColorRef ;;
    color <- resolveLineColor e light ;;
    modify (set_lineColor color) ;;;
    modify (set_syncSceneRef true) ;;;
    modify (set_listening true) ;;;
    syncScene e.

Definition unmount : M world unit :=
  stopAnimation ;;;
  modify (set_listening false) ;;;
  modify (set_syncSceneRef false) ;;;
  lost <- get isContextLost ;;
  releasePipeline (negb lost).

(** ** The notifications *)

Inductive source := resizeObserver | windowResize | themeObserver | motionChange | colorSchemeChange.

Inductive event :=
| ev_sync (s : source)
| ev_intersection (entry : option bool)
| ev_contextLost
| ev_contextRestored
| ev_frame (timestamp : num)
| ev_props (angle cellSize : num) (dark light : jsstring)
| ev_unmount.

(** A notification reaches the component only while it listens; a frame runs when one is pending. *)
Definition handle (e : env) (ev : event) : M world unit :=
  match ev with
  | ev_frame t =>
      p <- get pending ;;
      match p with
      | [] => ret tt
      | _ :: rest => modify (set_pending rest) ;;; frame e t
      end
  | ev_props a c d l => update_props e a c d l
  | _ =>
      on <- get listening ;;
      when_m on
        match ev with
        | ev_sync _ => syncScene e
        | ev_intersection entry => handleIntersection e entry
        | ev_contextLost => handleContextLost
        | ev_contextRestored => handleContextRestored e
        | _ => unmount
        end
  end.

Inductive reachable : world -> Prop :=
| rg_mount e angle cellSize dark light colorContext :
    reachable (exec_m (mount e) (scene_init angle cellSize dark light colorContext))
| rg_step e ev w : reachable w -> reachable (exec_m (handle e ev) w).

(** ** The view *)

Definition FALLBACK_ANIMATION_NAME : jsstring := js "retro-grid-fallback-scroll".

Definition FALLBACK_STYLES : jsstring :=
  jsq "
@keyframes " ++ FALLBACK_ANIMATION_NAME ++ jsq " {
  from {
    transform: translateY(-50%);
  }

  to {
    transform: translateY(0);
  }
}

@media (prefers-reduced-motion: reduce) {
  [data-retro-grid-scroll=`true`] {
    animation: none !important;
    transform: translateY(-50%) !important;
  }
}
".

Definition createFallbackGridStyle (cellSize : num) (lineColor : jsstring) : list (string * jsstring) :=
  [("style.animation"%string, FALLBACK_ANIMATION_NAME ++ js " " ++ z_to_js ANIMATION_DURATION_SECONDS ++ js "s linear infinite");
   ("style.backgroundImage"%string,
     js "linear-gradient(to right, " ++ lineColor ++ js " 1px, transparent 0), linear-gradient(to bottom, "
     ++ lineColor ++ js " 1px, transparent 0)");
   ("style.backgroundRepeat"%string, js "repeat");
   ("style.backgroundSize"%string, num_to_js cellSize ++ js "px " ++ num_to_js cellSize ++ js "px");
   ("style.transform"%string, js "translateY(-50%)")].

Record RetroGridProps := {
  p_className : option jsstring; p_angle : option num; p_cellSize : option num; p_opacity : option num;
  p_lightLineColor : option jsstring; p_darkLineColor : option jsstring;
  p_style : list (string * jsstring); p_rest : list (string * jsstring) }.

Definition RetroGrid (cn : list jsstring -> jsstring) (ready : bool) (props : RetroGridProps) : vnode :=
  let angle := default_of (nof 65) (p_angle props) in
  let cellSize := default_of (nof 60) (p_cellSize props) in
  let opacity := default_of (lit 1 2) (p_opacity props) in
  let lightLineColor := default_of (js "gray") (p_lightLineColor props) in
  let darkLineColor := default_of (js "gray") (p_darkLineColor props) in
  let gridStyles := p_style props ++ [("style.opacity"%string, num_to_js opacity)] in
  let normalizedAngle := clamp angle MIN_ANGLE MAX_ANGLE in
  let normalizedCellSize := Math_max cellSize (nof 1) in
  VEl "div"
    (("className"%string,
       cn (js "pointer-events-none absolute size-full overflow-hidden" :: cls_opt (p_className props)))
     :: gridStyles ++ p_rest props)
    ([VEl "style" [] [VText FALLBACK_STYLES]]
     ++ (if negb ready
         then [VEl "div" [("className"%string, js "absolute inset-0");
                          ("style.perspective"%string, z_to_js PERSPECTIVE_PX ++ js "px")]
                 [VEl "div" [("className"%string, js "absolute inset-0");
                             ("style.transform"%string, js "rotateX(" ++ num_to_js normalizedAngle ++ js "deg)")]
                    [VEl "div"
                       ([("data-retro-grid-scroll"%string, js "true");
                         ("className"%string, js "absolute inset-[0%_0px] ml-[-200%] h-[300vh] w-[600vw] origin-[100%_0_0] dark:hidden")]
                        ++ createFallbackGridStyle normalizedCellSize lightLineColor) [];
                     VEl "div"
                       ([("data-retro-grid-scroll"%string, js "true");
                         ("className"%string, js "absolute inset-[0%_0px] ml-[-200%] hidden h-[300vh] w-[600vw] origin-[100%_0_0] dark:block")]
                        ++ createFallbackGridStyle normalizedCellSize darkLineColor) []]]]
         else [])
     ++ [VEl "canvas"
           [("className"%string, cn [js "absolute inset-0 size-full"; if ready then js "opacity-100" else js "opacity-0"])] [];
         VEl "div" [("className"%string, js "absolute inset-0 bg-linear-to-t from-white to-transparent to-90% dark:from-black")] []]).

(** ** The invariant *)

Definition ready (w : world) : Prop := programInfo w <> None.

(** The live objects are exactly those the effect holds. *)
Definition pipe (w : world) : Prop :=
  match programInfo w, positionBuffer w with
  | Some p, Some b =>
      gl w = Some WebGL /\ g_programs (gpu w) = [program p] /\ g_buffers (gpu w) = [b] /\ isContextLost w = false
  | None, None => g_programs (gpu w) = [] /\ g_buffers (gpu w) = []
  | _, _ => False
  end.

(** The pending frames are exactly the one the effect holds. *)
Definition frames (w : world) : Prop :=
  pending w = match animationFrameId w with Some i => [i] | None => [] end.

(** A frame is pending only when it will draw. *)
Definition active (w : world) : Prop :=
  animationFrameId w <> None ->
  isVisible w = true /\ ready w /\ currentWidth w <> 0%Z /\ currentHeight w <> 0%Z.

(** While the component is mounted the canvas is shown only when there is something to draw it with. *)
Definition shown (w : world) : Prop :=
  listening w = syncSceneRef w /\ (syncSceneRef w = true -> isWebGlReady w = true -> ready w).

Definition Inv (w : world) : Prop := pipe w /\ frames w /\ active w /\ shown w.

Definition idle (w : world) : Prop := animationFrameId w = None /\ pending w = [].

Ltac run := unfold exec_m, run_m, bind, get, modify, ret, when_m in *; cbn in *.

Lemma del_eq i l : del i (i :: l) = del i l.
Proof. unfold del. cbn. now rewrite Nat.eqb_refl. Qed.

Lemma del_ne i j l : i <> j -> del i (j :: l) = j :: del i l.
Proof. intros H. unfold del. cbn. now rewrite (proj2 (Nat.eqb_neq j i)) by congruence. Qed.

Lemma del_fresh i l : (forall j, In j l -> j < i) -> del i l = l.
Proof.
  intros H. unfold del. rewrite (filter_ext_in _ (fun _ => true)); [apply filter_true|].
  intros j Hj. specialize (H j Hj). apply negb_true_iff, Nat.eqb_neq. lia.
Qed.

#[local] Arguments del : simpl never.

Lemma stopAnimation_spec w :
  frames w ->
  let w' := exec_m stopAnimation w in
  idle w' /\ w' = set_animationFrameId None (set_pending [] w).
Proof.
  unfold frames, idle, stopAnimation, cancelAnimationFrame. intros H. destruct w. run.
  destruct animationFrameId0; cbn; rewrite H; [rewrite del_eq|]; auto.
Qed.

(** Handles are allocated in increasing order. *)
Definition below (n : nat) (l : list nat) : Prop := Forall (fun i => i < n) l.
Definition gpu_wf (g : gpu_objects) : Prop := below (g_next g) (g_shaders g) /\ below (g_next g) (g_programs g).

Lemma below_S n l : below n l -> below (S n) l.
Proof. apply Forall_impl. lia. Qed.

Lemma del_below i l : below i l -> del i l = l.
Proof. unfold below. rewrite Forall_forall. apply del_fresh. Qed.

(** The shader that survives a [createProgram] whose other shader failed. *)
Definition leaked (e : env) (next : nat) : list nat :=
  match e_vertex e, e_fragment e with
  | compiled, compiled => []
  | compiled, _ => [next]
  | no_shader, compiled => [next]
  | compile_error, compiled => [S next]
  | _, _ => []
  end.

Lemma createShader_spec a g :
  gpu_wf g ->
  createShader a g
  = (match a with compiled => Some (g_next g) | _ => None end,
     Gpu (match a with no_shader => g_next g | _ => S (g_next g) end)
         (match a with compiled => [g_next g] | _ => [] end ++ g_shaders g) (g_programs g) (g_buffers g)).
Proof.
  intros [Hs _]. destruct g as [n sh pr bu], a; run; try reflexivity.
  unfold deleteShader. run. now rewrite del_eq, del_below.
Qed.

Lemma createShader_wf a g : gpu_wf g -> gpu_wf (snd (createShader a g)).
Proof.
  intros H. rewrite createShader_spec by exact H. destruct H as [Hs Hp], a; split; cbn;
    auto using below_S; apply Forall_cons; auto; now apply below_S.
Qed.

(** [createProgram] adds the program it returns, if any, and the leaked shader. *)
Lemma createProgram_spec e g :
  gpu_wf g ->
  let p := run_m (createProgram e) g in
  exists n, g_next g <= n /\
    exec_m (createProgram e) g
    = Gpu n (leaked e (g_next g) ++ g_shaders g)
        (match p with Some i => [i] | None => [] end ++ g_programs g) (g_buffers g)
    /\ gpu_wf (exec_m (createProgram e) g).
Proof.
  intros H. assert (H1 := createShader_wf (e_vertex e) g H).
  assert (H2 := createShader_wf (e_fragment e) _ H1).
  unfold createProgram, exec_m, run_m, bind, leaked. rewrite (createShader_spec (e_vertex e)) in * by exact H.
  cbn [snd] in *. rewrite (createShader_spec (e_fragment e)) in * by exact H1. cbn [snd fst] in *.
  destruct H as [Hs Hp]. destruct g as [n sh pr bu]. cbn in Hs, Hp. assert (Hs' := below_S _ _ Hs). assert (Hp' := below_S _ _ Hp).
  destruct (e_vertex e), (e_fragment e); cbn in *;
    try (eexists; split; [|split; [reflexivity|exact H2]]; lia).
  destruct (e_program e); run; rewrite ?del_ne, ?del_eq, ?(del_below n), ?(del_below (S n)), ?(del_below (S (S n)))
      by (auto using below_S; lia);
    (eexists; split; [|split; [reflexivity|]]; [lia|]); split; cbn; auto using below_S.
  apply Forall_cons; auto. now do 2 apply below_S.
Qed.

Definition WInv (w : world) : Prop := Inv w /\ gpu_wf (gpu w).

(** Building the pipeline, from a state without one: on success the effect holds the only program
    and the only buffer, on failure there is none; nothing else changes. *)
Lemma initializePipeline_spec e w :
  pipe w -> ~ ready w -> gpu_wf (gpu w) -> isContextLost w = false ->
  let w' := exec_m (initializePipeline e) w in
  w' = set_programInfo (programInfo w') (set_positionBuffer (positionBuffer w') (set_gl (gl w') (set_gpu (gpu w') w)))
  /\ pipe w' /\ gpu_wf (gpu w') /\ (run_m (initializePipeline e) w = true <-> ready w').
Proof.
  unfold pipe, ready. intros Hp Hr Hwf Hl. destruct w as [? ? ? ? ? ? ? ? pb pi ? ? ? ? ? ? ? ? g ? ? ? ?].
  cbn in *. destruct pi; [exfalso; apply Hr; discriminate|]. destruct pb; [contradiction|]. destruct Hp as [Hp Hb].
  unfold initializePipeline. destruct (getContext e) as [[]|].
  2: { run. split; [reflexivity|]. intuition discriminate. }
  destruct (createProgram_spec e g Hwf) as (n & Hn & He & Hw). revert He Hw.
  unfold on_gl, createBuffer, gpu_fresh, add_buffer, deleteProgram. run.
  destruct (createProgram e g) as [[p|] g']; cbn; intros -> Hw; rewrite Hp, Hb in *; cbn in *.
  2: { split; [reflexivity|]. intuition discriminate. }
  assert (Hw' : gpu_wf (Gpu n (leaked e (g_next g) ++ g_shaders g) [] []))
    by (split; [apply Hw|constructor]).
  destruct (getProgramInfo e p) as [info|] eqn:Ei; cbn.
  2: { rewrite del_eq. split; [reflexivity|]. intuition discriminate. }
  destruct (e_buffer e); cbn.
  2: { rewrite del_eq. split; [reflexivity|]. intuition discriminate. }
  split; [reflexivity|].
  assert (program info = p) as ->.
  { unfold getProgramInfo in Ei. repeat (case_hyp Ei; try discriminate). now inv Ei. }
  repeat split; auto; try congruence; apply below_S, Hw.
Qed.

(** The handlers that only refresh what is drawn leave alone what the invariant reads. *)
Definition core (w : world) :=
  ((animationFrameId w, pending w, isVisible w), (gl w, positionBuffer w, programInfo w),
   (isContextLost w, isWebGlReady w, gpu w), (listening w, syncSceneRef w)).

Definition size (w : world) := (currentWidth w, currentHeight w).

Definition sane (w : world) : Prop := pipe w /\ frames w /\ shown w /\ gpu_wf (gpu w).

Lemma core_sane w w' : core w' = core w -> sane w -> sane w'.
Proof.
  unfold core, sane, pipe, frames, shown, ready. intros E. inversion E as [H].
  repeat match goal with H : _ = _ |- _ => rewrite H; clear H end. exact (fun H => H).
Qed.

Lemma core_ready w w' : core w' = core w -> ready w -> ready w'.
Proof. unfold core, ready. intros E. now inv E. Qed.

Lemma WInv_sane w : WInv w <-> sane w /\ active w.
Proof. unfold WInv, Inv, sane. tauto. Qed.

Lemma updateLineColor_core e w :
  core (exec_m (updateLineColor e) w) = core w /\ size (exec_m (updateLineColor e) w) = size w.
Proof.
  unfold updateLineColor, resolveLineColor, getColorResolveContext. run.
  destruct (colorResolveContext w) as [[]|], (e_context2d e); cbn; auto;
    destruct (e_pixel e _) as [[[? ?] ?] ?]; auto.
Qed.

Lemma draw_core e t w : core (exec_m (draw e t) w) = core w /\ size (exec_m (draw e t) w) = size w.
Proof. unfold draw. run. repeat (case_goal; auto). Qed.

Lemma resizeCanvas_core e w :
  core (exec_m (resizeCanvas e) w) = core w /\ size (exec_m (resizeCanvas e) w) = (e_clientWidth e, e_clientHeight e).
Proof. unfold resizeCanvas. run. repeat (case_goal; auto). Qed.

Lemma stop_inv w : sane w -> WInv (exec_m stopAnimation w).
Proof.
  intros (Hp & Hf & Hs & Hw). destruct (stopAnimation_spec w Hf) as [_ ->].
  refine (conj (conj Hp (conj eq_refl (conj _ Hs))) Hw). intros H. exfalso. now apply H.
Qed.

Lemma hide_inv w : WInv w -> WInv (set_isWebGlReady false w).
Proof.
  intros [(Hp & Hf & Ha & Hs) Hw]. refine (conj (conj Hp (conj Hf (conj Ha (conj (proj1 Hs) _)))) Hw).
  intros _ H. discriminate H.
Qed.

(** Requesting a frame when none is pending. *)
Lemma animate_inv w :
  sane w -> ready w -> isVisible w = true -> currentWidth w <> 0%Z -> currentHeight w <> 0%Z ->
  WInv (exec_m (id <- get animationFrameId ;;
                match id with
                | None => i <- requestAnimationFrame ;; modify (set_animationFrameId (Some i))
                | Some _ => ret tt
                end) w).
Proof.
  intros Hsane Hr Hv Hcw Hch. rewrite exec_get. destruct (animationFrameId w) eqn:Ei.
  - rewrite exec_ret. apply WInv_sane. split; [exact Hsane|now intros _].
  - destruct Hsane as (Hp & Hf & Hs & Hw). unfold frames in Hf. rewrite Ei in Hf.
    unfold requestAnimationFrame. rewrite exec_bind. run_steps.
    refine (conj (conj Hp (conj _ (conj _ Hs))) Hw); [|now intros _].
    unfold frames. cbn. now rewrite Hf.
Qed.

Lemma syncScene_ready_inv e w : sane w -> ready w -> WInv (exec_m (syncScene_ready e) w).
Proof.
  intros Hs Hr. unfold syncScene_ready. rewrite exec_bind.
  destruct (resizeCanvas_core e w) as [Hc _]. revert Hc. generalize (exec_m (resizeCanvas e) w) as w1. intros w1 Hc.
  apply (core_sane _ _ Hc) in Hs. apply (core_ready _ _ Hc) in Hr. clear w Hc. rewrite exec_get.
  destruct ((currentWidth w1 =? 0)%Z || (currentHeight w1 =? 0)%Z) eqn:Ez; [now apply stop_inv|]. bprop.
  rewrite exec_bind. destruct (updateLineColor_core e w1) as [Hc Hsz]. revert Hc Hsz.
  generalize (exec_m (updateLineColor e) w1) as w2. intros w2 Hc2 Hz2. rewrite exec_bind.
  destruct (draw_core e (e_now e) w2) as [Hc Hsz]. revert Hc Hsz.
  generalize (exec_m (draw e (e_now e)) w2) as w3. intros w3 Hc3 Hz3. rewrite Hc2 in Hc3. rewrite Hz2 in Hz3.
  apply (core_sane _ _ Hc3) in Hs. apply (core_ready _ _ Hc3) in Hr.
  assert (Hs4 : sane (set_isWebGlReady true w3)).
  { destruct Hs as (Hp & Hf & Hs & Hw). exact (conj Hp (conj Hf (conj (conj (proj1 Hs) (fun _ _ => Hr)) Hw))). }
  rewrite exec_modify, exec_get. inversion Hz3 as [[Hz4 Hz5]].
  destruct (e_reducedMotion e || negb (isVisible (set_isWebGlReady true w3))) eqn:Ev; [now apply stop_inv|]. bprop.
  apply animate_inv; auto; [change (currentWidth w3 <> 0%Z)|change (currentHeight w3 <> 0%Z)]; congruence.
Qed.

Lemma not_ready w : sane w -> has_pipeline w = false -> ~ ready w.
Proof.
  unfold sane, pipe, has_pipeline, ready. intros (Hp & _) Hh Hr.
  destruct (programInfo w); [|congruence]. destruct (positionBuffer w); [|contradiction].
  destruct Hp as (E & _). rewrite E in Hh. discriminate.
Qed.

Lemma has_pipeline_ready w : has_pipeline w = true -> ready w.
Proof. unfold has_pipeline, ready. now destruct (gl w), (positionBuffer w), (programInfo w). Qed.

Lemma not_ready_idle w : WInv w -> ~ ready w -> animationFrameId w = None.
Proof.
  intros [(_ & _ & Ha & _) _] Hn. destruct (animationFrameId w) eqn:Ei; [|reflexivity].
  exfalso. apply Hn, Ha. congruence.
Qed.

Lemma initializePipeline_inv e w :
  WInv w -> syncSceneRef w = true -> isContextLost w = false -> has_pipeline w = false ->
  let w' := exec_m (initializePipeline e) w in
  WInv w' /\ (run_m (initializePipeline e) w = true -> ready w').
Proof.
  intros H Hon Hl Hh w'. assert (Hs := proj1 (proj1 (WInv_sane w) H)). assert (Hn := not_ready w Hs Hh).
  assert (Hi := not_ready_idle w H Hn). destruct Hs as (Hp & Hf & [Hs1 Hs2] & Hw).
  destruct (initializePipeline_spec e w Hp Hn Hw Hl) as (E & Hp' & Hw' & Hok). fold w' in E, Hp', Hw', Hok.
  split; [|apply Hok].
  assert (Ei : animationFrameId w' = None) by (rewrite E; exact Hi).
  refine (conj (conj Hp' (conj _ (conj _ (conj _ _)))) Hw').
  - unfold frames. rewrite Ei, E. unfold frames in Hf. rewrite Hi in Hf. exact Hf.
  - unfold active. congruence.
  - rewrite E. exact Hs1.
  - rewrite E. intros _ Hsh. exfalso. exact (Hn (Hs2 Hon Hsh)).
Qed.

Lemma syncScene_inv e w : WInv w -> syncSceneRef w = true -> WInv (exec_m (syncScene e) w).
Proof.
  intros H Hon. assert (Hs := proj1 (proj1 (WInv_sane w) H)). unfold syncScene. rewrite exec_get.
  destruct (isContextLost w) eqn:El; [rewrite exec_bind; now apply hide_inv, stop_inv|].
  rewrite exec_get. destruct (has_pipeline w) eqn:Eh; [now apply syncScene_ready_inv, has_pipeline_ready|].
  rewrite exec_bind. destruct (initializePipeline_inv e w H Hon El Eh) as [Hi Hr].
  apply WInv_sane in Hi. destruct Hi as [Hi _].
  destruct (run_m (initializePipeline e) w); cbn [negb]; [auto using syncScene_ready_inv|].
  rewrite exec_bind. now apply hide_inv, stop_inv.
Qed.

(** Replaces the fields of [w1] by what they are known to be. *)
Ltac read w1 := repeat match goal with E : ?f w1 = _ |- context [?f w1] => rewrite E end.

Lemma frame_inv e t w :
  WInv w -> animationFrameId w <> None -> WInv (exec_m (frame e t) (set_pending [] w)).
Proof.
  intros [(Hp & Hf & Ha & Hs) Hw] Hn. destruct (Ha Hn) as (Hv & Hr & Hcw & Hch). unfold frame. rewrite exec_bind.
  destruct (draw_core e t (set_pending [] w)) as [Hc Hz]. revert Hc Hz.
  generalize (exec_m (draw e t) (set_pending [] w)) as w1. intros w1 Hc Hz. rewrite exec_get.
  unfold core, size in Hc, Hz. cbn in Hc, Hz. inversion Hc as [H]. inversion Hz as [H'].
  assert (Hp1 : pipe w1) by (unfold pipe; read w1; exact Hp).
  assert (Hs1 : shown w1) by (unfold shown, ready; read w1; exact Hs).
  assert (Hw1 : gpu_wf (gpu w1)) by (read w1; exact Hw).
  destruct (negb (e_reducedMotion e) && isVisible w1).
  - unfold requestAnimationFrame. rewrite exec_bind. run_steps.
    refine (conj (conj Hp1 (conj _ (conj _ Hs1))) Hw1).
    + unfold frames. cbn. now match goal with H : pending w1 = _ |- _ => rewrite H end.
    + intros _. unfold ready in *. cbn. repeat split; congruence.
  - run_steps. refine (conj (conj Hp1 (conj _ (conj _ Hs1))) Hw1); [assumption|].
    intros Hx. exfalso. now apply Hx.
Qed.

(** Releasing the pipeline on unmount: nothing is left alive. *)
Lemma release_spec w :
  pipe w ->
  let w' := exec_m (releasePipeline (negb (isContextLost w))) w in
  programInfo w' = None /\ positionBuffer w' = None /\ g_programs (gpu w') = [] /\ g_buffers (gpu w') = [] /\
  g_shaders (gpu w') = g_shaders (gpu w) /\ g_next (gpu w') = g_next (gpu w) /\
  animationFrameId w' = animationFrameId w /\ pending w' = pending w /\ listening w' = listening w /\
  syncSceneRef w' = syncSceneRef w.
Proof.
  unfold pipe, releasePipeline, on_gl, deleteBuffer, deleteProgram. run.
  destruct (programInfo w), (positionBuffer w); try contradiction.
  - intros (-> & Hp & Hb & ->). run. rewrite Hp, Hb, !del_eq. repeat split.
  - intros (Hp & Hb). destruct (isContextLost w), (gl w); run; repeat split; assumption.
Qed.

Lemma unmount_spec w :
  WInv w ->
  let w' := exec_m unmount w in
  pending w' = [] /\ animationFrameId w' = None /\ programInfo w' = None /\ positionBuffer w' = None /\
  g_programs (gpu w') = [] /\ g_buffers (gpu w') = [] /\ g_shaders (gpu w') = g_shaders (gpu w) /\
  g_next (gpu w') = g_next (gpu w) /\ listening w' = false /\ syncSceneRef w' = false.
Proof.
  intros [(Hp & Hf & Ha & Hs) Hw] w'. unfold w', unmount. rewrite exec_bind.
  destruct (stopAnimation_spec w Hf) as [_ ->]. run_steps.
  match goal with |- context [exec_m _ ?x] => destruct (release_spec x Hp) as (? & ? & ? & ? & H5 & H6 & H7 & H8 & H9 & H10) end.
  repeat split; assumption.
Qed.

Lemma lost_spec w :
  frames w ->
  let w' := exec_m handleContextLost w in
  pending w' = [] /\ animationFrameId w' = None /\ programInfo w' = None /\ positionBuffer w' = None /\
  gpu w' = Gpu (g_next (gpu w)) [] [] [] /\ isWebGlReady w' = false /\
  listening w' = listening w /\ syncSceneRef w' = syncSceneRef w.
Proof.
  intros Hf. unfold handleContextLost. rewrite exec_bind. set (w1 := exec_m loseObjects w).
  assert (Hf1 : frames (set_isContextLost true w1)) by exact Hf. rewrite exec_modify, exec_bind.
  destruct (stopAnimation_spec _ Hf1) as [_ ->]. unfold releasePipeline. run. repeat split.
Qed.

Lemma dead_inv w :
  pending w = [] -> animationFrameId w = None -> programInfo w = None -> positionBuffer w = None ->
  g_programs (gpu w) = [] -> g_buffers (gpu w) = [] -> below (g_next (gpu w)) (g_shaders (gpu w)) ->
  listening w = syncSceneRef w -> (syncSceneRef w = true -> isWebGlReady w = false) -> WInv w.
Proof.
  intros H1 H2 H3 H4 H5 H6 H7 H8 H9. unfold WInv, Inv, pipe, frames, active, shown, gpu_wf. rewrite H1, H2, H3, H4, H5, H6.
  repeat split; auto; try congruence; try constructor. intros Hon Hr. rewrite H9 in Hr; congruence.
Qed.

Lemma handle_inv e ev w : WInv w -> WInv (exec_m (handle e ev) w).
Proof.
  intros H. assert (H0 := H). destruct H0 as [(Hp & Hf & Ha & Hs) Hw]. assert (Hon := proj1 Hs).
  destruct ev; cbn [handle]; rewrite ?exec_get;
    try (destruct (listening w) eqn:El; cbn [when_m]; [symmetry in Hon|exact H]).
  - now apply syncScene_inv.
  - unfold handleIntersection. rewrite exec_modify.
    assert (Hsane : sane (set_isVisible (default_of false entry) w)) by exact (conj Hp (conj Hf (conj Hs Hw))).
    destruct entry as [[]|]; cbn [default_of] in *; try now apply stop_inv.
    apply syncScene_inv; [|exact Hon]. apply WInv_sane. split; [exact Hsane|].
    intros Hx. destruct (Ha Hx) as (_ & Hr). exact (conj eq_refl Hr).
  - destruct (lost_spec w Hf) as (H1 & H2 & H3 & H4 & H5 & H6 & H7 & H8).
    apply dead_inv; auto; rewrite ?H5; try constructor; congruence.
  - unfold handleContextRestored. rewrite exec_modify. apply syncScene_inv; [|exact Hon].
    refine (conj (conj _ (conj Hf (conj Ha Hs))) Hw). unfold pipe in *. cbn.
    destruct (programInfo w), (positionBuffer w); tauto.
  - destruct (pending w) as [|i rest] eqn:Ep; [exact H|]. rewrite exec_modify.
    unfold frames in Hf. rewrite Ep in Hf. destruct (animationFrameId w) eqn:Ei; [|discriminate]. inv Hf.
    apply frame_inv; [exact H|congruence].
  - unfold update_props. run_steps.
    match goal with |- context [exec_m _ ?x] => assert (Hx : WInv x) by exact H end.
    destruct (syncSceneRef _) eqn:E; [now apply syncScene_inv|exact Hx].
  - destruct (unmount_spec w H) as (H1 & H2 & H3 & H4 & H5 & H6 & H7 & H8 & H9 & H10).
    apply dead_inv; auto; try congruence. rewrite H7, H8. apply Hw.
Qed.

Lemma resolve_core e c w :
  core (exec_m (resolveLineColor e c) w) = core w /\ size (exec_m (resolveLineColor e c) w) = size w.
Proof.
  unfold resolveLineColor, getColorResolveContext. run.
  destruct (colorResolveContext w) as [[]|], (e_context2d e); cbn; auto;
    destruct (e_pixel e _) as [[[? ?] ?] ?]; auto.
Qed.

Lemma mount_inv e angle cellSize dark light cc :
  WInv (exec_m (mount e) (scene_init angle cellSize dark light cc)).
Proof.
  unfold mount. destruct (e_refs e); cbn [negb]; [|apply dead_inv; auto; try constructor; discriminate].
  rewrite exec_get, exec_bind.
  set (w0 := scene_init angle cellSize dark light cc).
  assert (H0 : pending w0 = [] /\ animationFrameId w0 = None /\ programInfo w0 = None /\ positionBuffer w0 = None /\
               gpu w0 = Gpu 0 [] [] [] /\ isWebGlReady w0 = false) by repeat split.
  clearbody w0. destruct H0 as (H1 & H2 & H3 & H4 & H5 & H6).
  destruct (resolve_core e (lightLineColorRef w0) w0) as [Hc _]. revert Hc.
  generalize (exec_m (resolveLineColor e (lightLineColorRef w0)) w0) as w1. intros w1 Hc. run_steps.
  unfold core in Hc. inversion Hc. apply syncScene_inv; [|reflexivity].
  apply dead_inv; cbn; try congruence; match goal with H : gpu w1 = _ |- _ => rewrite H, H5 end; constructor.
Qed.

Lemma reachable_inv w : reachable w -> WInv w.
Proof. induction 1 as [|e ev w _ IH]; [apply mount_inv|now apply handle_inv]. Qed.

(** ** Theorems *)



Lemma draw_spec e t w p b :
  gl w = Some WebGL -> programInfo w = Some p -> positionBuffer w = Some b ->
  currentWidth w <> 0%Z -> currentHeight w <> 0%Z -> isContextLost w = false ->
  exists d, exec_m (draw e t) w = set_draws (draws w ++ [d]) w /\ d_program d = program p /\ d_buffer d = b /\
    d_angle d = clamp (angleRef w) MIN_ANGLE MAX_ANGLE /\ d_cellSize d = Math_max (cellSizeRef w) (nof 1) /\
    d_time d = (if e_reducedMotion e then nof 0 else ndiv t (nof 1000)).
Proof.
  intros H1 H2 H3 H4 H5 H6. unfold draw. rewrite exec_get, H1, H2, H3, H6.
  rewrite (proj2 (Z.eqb_neq _ _) H4), (proj2 (Z.eqb_neq _ _) H5). cbn [orb]. rewrite exec_modify_end.
  eexists. repeat split.
Qed.

Lemma clamp_angle x :
  is_nan x = false -> nle MIN_ANGLE (clamp x MIN_ANGLE MAX_ANGLE) = true /\ nle (clamp x MIN_ANGLE MAX_ANGLE) MAX_ANGLE = true.
Proof. intros H. now apply clamp_bounds. Qed.

(** C13: Every animation frame draws exactly once, with a program and a buffer that are alive, an
    angle between 1 and 89 degrees and cells of at least one pixel; the animation goes on as long
    as motion is not reduced, and stops otherwise. *)
Theorem frame_draws_once e t w :
  reachable w -> pending w <> [] ->
  let w' := exec_m (handle e (ev_frame t)) w in
  exists d, draws w' = draws w ++ [d] /\
    In (d_program d) (g_programs (gpu w)) /\ In (d_buffer d) (g_buffers (gpu w)) /\
    (is_nan (angleRef w) = false -> nle (nof 1) (d_angle d) = true /\ nle (d_angle d) (nof 89) = true) /\
    (is_nan (cellSizeRef w) = false -> nle (nof 1) (d_cellSize d) = true) /\
    if e_reducedMotion e then pending w' = [] /\ d_time d = nof 0
    else exists i, pending w' = [i] /\ d_time d = ndiv t (nof 1000).
Proof.
  intros H Hn w'. assert (HI := reachable_inv w H). destruct HI as [(Hp & Hf & Ha & Hs) Hw]. unfold frames in Hf.
  destruct (animationFrameId w) as [i|] eqn:Ei; [|congruence]. destruct (Ha ltac:(congruence)) as (Hv & Hr & Hcw & Hch).
  unfold pipe, ready in *. destruct (programInfo w) as [p|] eqn:Epi; [|congruence].
  destruct (positionBuffer w) as [b|] eqn:Epb; [|contradiction]. destruct Hp as (Hg & Hpr & Hbu & Hl).
  destruct (draw_spec e t (set_pending [] w) p b Hg Epi Epb Hcw Hch Hl) as (d & Hd & D1 & D2 & D3 & D4 & D5).
  exists d. subst w'. cbn [handle]. rewrite exec_get, Hf, exec_modify. unfold frame.
  rewrite exec_bind, Hd, exec_get. cbn [isVisible set_draws set_pending]. rewrite Hv, Hpr, Hbu, D1, D2, D3, D4, D5.
  split; [now destruct (e_reducedMotion e)|]. split; [now left|]. split; [now left|].
  split; [apply clamp_angle|]. split; [intros Hc; now apply Math_max_ge|].
  destruct (e_reducedMotion e); cbn; [auto|eexists; split; reflexivity].
Qed.

Lemma resizeCanvas_draws e w : draws (exec_m (resizeCanvas e) w) = draws w.
Proof. unfold resizeCanvas. run. repeat (case_goal; auto). Qed.

Lemma updateLineColor_draws e w : draws (exec_m (updateLineColor e) w) = draws w.
Proof.
  unfold updateLineColor, resolveLineColor, getColorResolveContext. run.
  destruct (colorResolveContext w) as [[]|], (e_context2d e); cbn; auto;
    destruct (e_pixel e _) as [[[? ?] ?] ?]; auto.
Qed.

Lemma core_fields w w' :
  core w' = core w ->
  isVisible w' = isVisible w /\ isContextLost w' = isContextLost w /\ programInfo w' = programInfo w /\
  positionBuffer w' = positionBuffer w /\ gl w' = gl w /\ pending w' = pending w /\
  animationFrameId w' = animationFrameId w.
Proof. unfold core. intros E. now inv E. Qed.

(** The last step of [syncScene]. *)
Lemma animate_pending w :
  frames w ->
  let w' := exec_m (id <- get animationFrameId ;;
                    match id with
                    | None => i <- requestAnimationFrame ;; modify (set_animationFrameId (Some i))
                    | Some _ => ret tt
                    end) w in
  pending w' <> [] /\ programInfo w' = programInfo w /\ draws w' = draws w /\ isWebGlReady w' = isWebGlReady w.
Proof.
  unfold frames. intros Hf. rewrite exec_get. destruct (animationFrameId w) eqn:E; cbn; rewrite Hf; repeat split; discriminate.
Qed.

Lemma syncScene_ready_shows e w :
  sane w -> ready w -> isContextLost w = false -> (e_clientWidth e <> 0)%Z -> (e_clientHeight e <> 0)%Z ->
  let w' := exec_m (syncScene_ready e) w in
  isWebGlReady w' = true /\ programInfo w' <> None /\ (exists d, draws w' = draws w ++ [d]) /\
  (pending w' <> [] <-> isVisible w = true /\ e_reducedMotion e = false).
Proof.
  intros Hs Hr Hl Hcw Hch. unfold syncScene_ready. rewrite exec_bind.
  destruct (resizeCanvas_core e w) as [Hc Hz]. rewrite <- (resizeCanvas_draws e w). revert Hc Hz.
  generalize (exec_m (resizeCanvas e) w) as w1. intros w1 Hc Hz. destruct (core_fields _ _ Hc) as (<- & Hl1 & _).
  apply (core_sane _ _ Hc) in Hs. apply (core_ready _ _ Hc) in Hr. rewrite Hl in Hl1. clear w Hc Hl.
  unfold size in Hz. injection Hz as Hz1 Hz2. rewrite exec_get, Hz1, Hz2.
  rewrite (proj2 (Z.eqb_neq _ _) Hcw), (proj2 (Z.eqb_neq _ _) Hch). cbn [orb]. rewrite exec_bind.
  destruct (updateLineColor_core e w1) as [Hc Hz]. rewrite <- (updateLineColor_draws e w1). revert Hc Hz.
  generalize (exec_m (updateLineColor e) w1) as w2. intros w2 Hc Hz. destruct (core_fields _ _ Hc) as (<- & Hl2 & _).
  apply (core_sane _ _ Hc) in Hs. apply (core_ready _ _ Hc) in Hr. rewrite Hl1 in Hl2.
  unfold size in Hz. injection Hz as Hz3 Hz4. rewrite Hz1 in Hz3. rewrite Hz2 in Hz4. clear w1 Hc Hl1 Hz1 Hz2.
  unfold ready in Hr. destruct (programInfo w2) as [p|] eqn:Ep; [|congruence]. destruct Hs as (Hp & Hf & _). unfold pipe in Hp.
  rewrite Ep in Hp. destruct (positionBuffer w2) as [b|] eqn:Eb; [|contradiction]. destruct Hp as (Hg & _).
  rewrite exec_bind. destruct (draw_spec e (e_now e) w2 p b Hg Ep Eb) as (d & -> & _); try congruence.
  rewrite exec_modify, exec_get. cbn [isVisible set_isWebGlReady set_draws].
  match goal with |- context [exec_m _ ?x] => assert (Hf3 : frames x) by exact Hf; assert (Hp3 : programInfo x <> None) by (cbn; congruence) end.
  destruct (e_reducedMotion e || negb (isVisible w2)) eqn:Ev.
  - destruct (stopAnimation_spec _ Hf3) as [_ ->]. cbn. rewrite Ep. repeat split; try congruence; [eexists; reflexivity|].
    intros [Hv Hm]. rewrite Hv, Hm in Ev. discriminate.
  - destruct (animate_pending _ Hf3) as (Hq & -> & -> & ->). cbn. bprop. repeat split; auto. eexists. reflexivity.
Qed.

Lemma initializePipeline_result e w :
  WInv w -> isContextLost w = false -> has_pipeline w = false ->
  let w' := exec_m (initializePipeline e) w in
  draws w' = draws w /\ isVisible w' = isVisible w /\ isContextLost w' = false /\
  (run_m (initializePipeline e) w = false -> programInfo w' = None).
Proof.
  intros H Hl Hh w'. assert (Hs := proj1 (proj1 (WInv_sane w) H)). assert (Hn := not_ready w Hs Hh).
  destruct Hs as (Hp & Hf & _ & Hw).
  destruct (initializePipeline_spec e w Hp Hn Hw Hl) as (E & _ & _ & Hok). fold w' in E, Hok.
  split; [rewrite E; reflexivity|]. split; [rewrite E; reflexivity|]. split; [rewrite E; exact Hl|].
  unfold ready in Hok. destruct (programInfo w'); [|reflexivity]. intros Hf'. rewrite (proj2 Hok) in Hf'; discriminate.
Qed.

(** A resize, theme, motion or colour notification in a mounted component whose context is not
    lost either finds or builds a pipeline and, if the container has a size, draws, shows the canvas
    and animates it exactly when it is visible and motion is not reduced; or it cannot build one and
    shows the fallback. *)
Theorem sync_shows e s w :
  reachable w -> listening w = true -> isContextLost w = false ->
  (e_clientWidth e <> 0)%Z -> (e_clientHeight e <> 0)%Z ->
  let w' := exec_m (handle e (ev_sync s)) w in
  if isWebGlReady w'
  then programInfo w' <> None /\ (exists d, draws w' = draws w ++ [d]) /\
       (pending w' <> [] <-> isVisible w = true /\ e_reducedMotion e = false)
  else programInfo w' = None /\ draws w' = draws w /\ pending w' = [].
Proof.
  intros H Hon Hl Hcw Hch. assert (HI := reachable_inv w H).
  assert (Hs := proj1 (proj1 (WInv_sane w) HI)).
  assert (Hon' : syncSceneRef w = true) by (destruct Hs as (_ & _ & [E _] & _); congruence).
  cbn [handle]. rewrite exec_get, Hon. cbn [when_m]. unfold syncScene. rewrite exec_get, Hl, exec_get.
  destruct (has_pipeline w) eqn:Eh.
  - destruct (syncScene_ready_shows e w Hs (has_pipeline_ready w Eh) Hl Hcw Hch) as (-> & H2 & H3 & H4). auto.
  - rewrite exec_bind. destruct (initializePipeline_inv e w HI Hon' Hl Eh) as [Hi Hr].
    destruct (initializePipeline_result e w HI Hl Eh) as (Hd & Hv & Hl' & Hfail).
    apply WInv_sane in Hi. destruct Hi as [Hi _]. rewrite <- Hd, <- Hv.
    destruct (run_m (initializePipeline e) w); cbn [negb].
    + destruct (syncScene_ready_shows e _ Hi (Hr eq_refl) Hl' Hcw Hch) as (-> & H2 & H3 & H4). auto.
    + rewrite exec_bind. destruct (stopAnimation_spec _ (proj1 (proj2 Hi))) as [_ ->]. cbn. auto.
Qed.

(** [createProgram] deletes both shaders on every path except one: when exactly one of the two
    shaders is available, that one is never deleted. *)
Theorem createProgram_shaders e g :
  gpu_wf g ->
  g_shaders (exec_m (createProgram e) g)
  = match e_vertex e, e_fragment e with
    | compiled, compiled => []
    | compiled, _ => [g_next g]
    | no_shader, compiled => [g_next g]
    | compile_error, compiled => [S (g_next g)]
    | _, _ => []
    end ++ g_shaders g.
Proof. intros H. destruct (createProgram_spec e g H) as (n & _ & -> & _). reflexivity. Qed.

(** Exactly one of the fallback and the canvas is visible: the two fallback grids are rendered
    exactly while the canvas is transparent, and in a mounted component the canvas is opaque only
    when a live program can draw it. *)
Theorem fallback_or_canvas w props :
  reachable w -> syncSceneRef w = true ->
  attr "data-retro-grid-scroll" (p_style props) = None -> attr "data-retro-grid-scroll" (p_rest props) = None ->
  let v := RetroGrid (join [32%N]) (isWebGlReady w) props in
  collect "div" "data-retro-grid-scroll" v = (if isWebGlReady w then [] else [js "true"; js "true"]) /\
  collect "canvas" "className" v
  = [if isWebGlReady w then js "absolute inset-0 size-full opacity-100" else js "absolute inset-0 size-full opacity-0"] /\
  (isWebGlReady w = true -> exists p, g_programs (gpu w) = [p]).
Proof.
  intros H Hon Hst Hre v. destruct (reachable_inv w H) as [(Hp & _ & _ & [_ Hs]) _]. subst v.
  unfold pipe, ready in *. destruct (isWebGlReady w); unfold RetroGrid; cbn; rewrite !attr_app, Hst; cbn; rewrite Hre; cbn;
    repeat split; try discriminate.
  intros _. specialize (Hs Hon eq_refl). destruct (programInfo w); [|congruence].
  destruct (positionBuffer w); [|contradiction]. destruct Hp as (_ & E & _). eauto.
Qed.

(** ** Witnesses *)

(** A browser where everything works. *)
Definition good_env : env :=
  {| e_refs := true; e_webgl := true; e_derivatives := true; e_vertex := compiled; e_fragment := compiled;
     e_program := linked; e_attribLocation := 0; e_angle := Some 1; e_cellSize := Some 2; e_containerSize := Some 3;
     e_devicePixelRatioLoc := Some 4; e_lineColor := Some 5; e_time := Some 6; e_viewportSize := Some 7;
     e_buffer := true; e_clientWidth := 800; e_clientHeight := 600; e_innerWidth := 800; e_innerHeight := 600;
     e_devicePixelRatio := nof 2; e_now := nof 1000; e_reducedMotion := false; e_root_dark := true;
     e_root_light := false; e_colorScheme_dark := false; e_context2d := true;
     e_pixel := fun _ => (128, 128, 128, 255)%Z |}.

Definition mounted : world := exec_m (mount good_env) (scene_init (nof 65) (nof 60) (js "gray") (js "gray") None).

Lemma mounted_reachable : reachable mounted.
Proof. apply rg_mount. Qed.



Lemma frame_draws_once_witness :
  exists d, draws (exec_m (handle good_env (ev_frame (nof 2000))) mounted) = draws mounted ++ [d].
Proof.
  destruct (frame_draws_once good_env (nof 2000) mounted mounted_reachable ltac:(vm_compute; discriminate))
    as (d & Hd & _). exact (ex_intro _ d Hd).
Defined.

Lemma sync_shows_witness :
  isWebGlReady (exec_m (handle good_env (ev_sync windowResize)) mounted) = true /\
  exists d, draws (exec_m (handle good_env (ev_sync windowResize)) mounted) = draws mounted ++ [d].
Proof.
  assert (E : isWebGlReady (exec_m (handle good_env (ev_sync windowResize)) mounted) = true) by (vm_compute; reflexivity).
  split; [exact E|]. assert (T := sync_shows good_env windowResize mounted mounted_reachable
    ltac:(vm_compute; reflexivity) ltac:(vm_compute; reflexivity) ltac:(discriminate) ltac:(discriminate)).
  cbv zeta in T. rewrite E in T. exact (proj1 (proj2 T)).
Defined.

Lemma createProgram_shaders_witness :
  g_shaders (exec_m (createProgram good_env) (Gpu 5 [1] [] [])) = [1].
Proof. rewrite createProgram_shaders; [reflexivity|]. repeat constructor. Defined.

Lemma fallback_or_canvas_witness :
  collect "canvas" "className"
    (RetroGrid (join [32%N]) (isWebGlReady mounted)
       {| p_className := None; p_angle := None; p_cellSize := None; p_opacity := None; p_lightLineColor := None;
          p_darkLineColor := None; p_style := []; p_rest := [] |})
  = [js "absolute inset-0 size-full opacity-100"].
Proof.
  destruct (fallback_or_canvas mounted
       {| p_className := None; p_angle := None; p_cellSize := None; p_opacity := None; p_lightLineColor := None;
          p_darkLineColor := None; p_style := []; p_rest := [] |} mounted_reachable
     ltac:(vm_compute; reflexivity) eq_refl eq_refl) as (_ & E & _).
  rewrite E. vm_compute. reflexivity.
Defined.
