(* ===== verification/Json.v ===== *)
(** * JSON

    [JSON.stringify] for the values the site serialises (strings, integers, booleans, null, arrays
    and objects with non-numeric keys in insertion order), with the indentation argument, following
    ECMA-262 SerializeJSONProperty and QuoteJSONString.  [parse] is a parser for the same grammar,
    the reference the round trip is stated against. *)

From Stdlib Require Import String List Arith NArith ZArith Lia Bool.
From S2P Require Import Prelude JsString JsNum NumText.
Import ListNotations.
Local Open Scope list_scope.

#[warnings="-register-all"]
Inductive json : Type :=
| JNull
| JBool (b : bool)
| JInt (n : N)
| JStr (s : jsstring)
| JArr (l : list json)
| JObj (l : list (jsstring * json)).

(** Induction with the hypothesis for every element and member. *)
Section JsonInd.
Context (P : json -> Prop) (Hn : P JNull) (Hb : forall b, P (JBool b)) (Hi : forall n, P (JInt n))
  (Hs : forall s, P (JStr s)) (Ha : forall l, Forall P l -> P (JArr l))
  (Ho : forall l, Forall (fun kv => P (snd kv)) l -> P (JObj l)).

Fixpoint json_ind' (v : json) : P v :=
  match v with
  | JNull => Hn
  | JBool b => Hb b
  | JInt n => Hi n
  | JStr s => Hs s
  | JArr l => Ha l ((fix go (l : list json) : Forall P l :=
                       match l with [] => Forall_nil _ | x :: l' => Forall_cons x (json_ind' x) (go l') end) l)
  | JObj l => Ho l ((fix go (l : list (jsstring * json)) : Forall (fun kv => P (snd kv)) l :=
                       match l with [] => Forall_nil _ | kv :: l' => Forall_cons kv (json_ind' (snd kv)) (go l') end) l)
  end.
End JsonInd.

(** ** Serialisation *)

Definition hex_digit (n : N) : N := if (n <? 10)%N then (48 + n)%N else (87 + n)%N.

Definition unicode_escape (u : N) : jsstring :=
  [92; 117; hex_digit (u / 4096); hex_digit ((u / 256) mod 16); hex_digit ((u / 16) mod 16); hex_digit (u mod 16)]%N.

(** One code point of a string: control characters, quotes, backslashes and lone surrogates are
    escaped. *)
Definition quote_point (c : jsstring) : jsstring :=
  match c with
  | [u] =>
      if (u =? 8)%N then [92; 98]%N else if (u =? 9)%N then [92; 116]%N
      else if (u =? 10)%N then [92; 110]%N else if (u =? 12)%N then [92; 102]%N
      else if (u =? 13)%N then [92; 114]%N else if (u =? 34)%N then [92; 34]%N
      else if (u =? 92)%N then [92; 92]%N
      else if (u <? 32)%N || is_high u || is_low u then unicode_escape u
      else [u]
  | _ => c
  end.

Definition quote (s : jsstring) : jsstring := [34%N] ++ flat_map quote_point (code_points s) ++ [34%N].

Section Stringify.
Context (gap : jsstring).

Definition newline (indent : jsstring) : jsstring := match gap with [] => [] | _ => 10%N :: indent end.
Definition colon : jsstring := match gap with [] => [58%N] | _ => [58%N; 32%N] end.

Definition bracket (o c : N) (indent : jsstring) (parts : list jsstring) : jsstring :=
  match parts with
  | [] => [o; c]
  | _ => [o] ++ newline (indent ++ gap) ++ join (44%N :: newline (indent ++ gap)) parts ++ newline indent ++ [c]
  end.

Fixpoint serialize (indent : jsstring) (v : json) : jsstring :=
  match v with
  | JNull => js "null"
  | JBool true => js "true"
  | JBool false => js "false"
  | JInt n => zdigits (Z.of_N n)
  | JStr s => quote s
  | JArr l => bracket 91 93 indent (map (serialize (indent ++ gap)) l)
  | JObj l => bracket 123 125 indent
                (map (fun kv => let '(k, x) := kv in quote k ++ colon ++ serialize (indent ++ gap) x) l)
  end.
End Stringify.

(** [JSON.stringify(v, null, n)] with [gap] the [n] spaces, and [JSON.stringify(v)]. *)
Definition stringify (gap : jsstring) (v : json) : jsstring := serialize gap [] v.

Example stringify_ex :
  stringify (js "  ") (JObj [(js "a", JStr (jsq "x`y")); (js "b", JArr [JInt 12; JNull]); (js "c", JArr [])])
  = jsq "{
  `a`: `x\`y`,
  `b`: [
    12,
    null
  ],
  `c`: []
}".
Proof. vm_compute. reflexivity. Qed.

(** ** Parsing *)

Definition is_json_ws (c : N) : bool := (c =? 32)%N || (c =? 9)%N || (c =? 10)%N || (c =? 13)%N.
Definition skip : jsstring -> jsstring := drop_while is_json_ws.
Definition is_digit (c : N) : bool := (48 <=? c)%N && (c <=? 57)%N.

Definition hex_value (c : N) : N := if (c <? 58)%N then (c - 48)%N else (c - 87)%N.

(** The content of a string literal up to its closing quote. *)
Fixpoint parse_chars (s : jsstring) : option (jsstring * jsstring) :=
  match s with
  | [] => None
  | c :: s1 =>
      if (c =? 34)%N then Some ([], s1)
      else if (c =? 92)%N then
        match s1 with
        | e :: s2 =>
            if (e =? 117)%N then
              match s2 with
              | a :: b :: c' :: d :: s3 =>
                  option_map
                    (fun p => ((hex_value a * 4096 + hex_value b * 256 + hex_value c' * 16 + hex_value d)%N :: fst p, snd p))
                    (parse_chars s3)
              | _ => None
              end
            else
              let u := (if (e =? 98) then 8 else if (e =? 116) then 9 else if (e =? 110) then 10
                        else if (e =? 102) then 12 else if (e =? 114) then 13 else e)%N in
              option_map (fun p => (u :: fst p, snd p)) (parse_chars s2)
        | [] => None
        end
      else option_map (fun p => (c :: fst p, snd p)) (parse_chars s1)
  end.

Definition parse_int (s : jsstring) : N := fold_left (fun acc d => (acc * 10 + (d - 48))%N) s 0%N.

Fixpoint parse_value (fuel : nat) (s : jsstring) : option (json * jsstring) :=
  match fuel with
  | O => None
  | S f =>
      match skip s with
      | c :: r =>
          if (c =? 34)%N then option_map (fun p => (JStr (fst p), snd p)) (parse_chars r)
          else if (c =? 91)%N then
            match skip r with
            | c1 :: r' => if (c1 =? 93)%N then Some (JArr [], r')
                          else option_map (fun p => (JArr (fst p), snd p)) (parse_elements f r)
            | [] => None
            end
          else if (c =? 123)%N then
            match skip r with
            | c1 :: r' => if (c1 =? 125)%N then Some (JObj [], r')
                          else option_map (fun p => (JObj (fst p), snd p)) (parse_members f r)
            | [] => None
            end
          else if is_digit c then Some (JInt (parse_int (take_while is_digit (c :: r))), drop_while is_digit (c :: r))
          else if startsWith (c :: r) (js "null") then Some (JNull, slice_from 4 (c :: r))
          else if startsWith (c :: r) (js "true") then Some (JBool true, slice_from 4 (c :: r))
          else if startsWith (c :: r) (js "false") then Some (JBool false, slice_from 5 (c :: r))
          else None
      | [] => None
      end
  end
with parse_elements (fuel : nat) (s : jsstring) : option (list json * jsstring) :=
  match fuel with
  | O => None
  | S f =>
      match parse_value f s with
      | Some (v, r) =>
          match skip r with
          | c :: r' => if (c =? 44)%N then option_map (fun p => (v :: fst p, snd p)) (parse_elements f r')
                       else if (c =? 93)%N then Some ([v], r') else None
          | [] => None
          end
      | None => None
      end
  end
with parse_members (fuel : nat) (s : jsstring) : option (list (jsstring * json) * jsstring) :=
  match fuel with
  | O => None
  | S f =>
      match skip s with
      | q :: r0 =>
          if (q =? 34)%N then
            match parse_chars r0 with
            | Some (k, r1) =>
                match skip r1 with
                | c1 :: r2 =>
                    if (c1 =? 58)%N then
                      match parse_value f r2 with
                      | Some (v, r3) =>
                          match skip r3 with
                          | c :: r' => if (c =? 44)%N then option_map (fun p => ((k, v) :: fst p, snd p)) (parse_members f r')
                                       else if (c =? 125)%N then Some ([(k, v)], r') else None
                          | [] => None
                          end
                      | None => None
                      end
                    else None
                | [] => None
                end
            | None => None
            end
          else None
      | [] => None
      end
  end.

(** Enough fuel for a value. *)
Fixpoint weight (v : json) : nat :=
  match v with
  | JArr l => S (list_sum (map (fun x => S (weight x)) l))
  | JObj l => S (list_sum (map (fun kv => S (weight (snd kv))) l))
  | _ => 1
  end.

(** ** Round trip *)

Definition all_ws (s : jsstring) : Prop := forallb is_json_ws s = true.

Lemma skip_ws ws t : all_ws ws -> skip (ws ++ t) = skip t.
Proof.
  unfold all_ws, skip. induction ws as [|c ws IH]; cbn; [reflexivity|]. intros H. bprop.
  now rewrite H, IH.
Qed.

Lemma skip_hd c t : is_json_ws c = false -> skip (c :: t) = c :: t.
Proof. unfold skip. cbn. now intros ->. Qed.

Lemma hex_round n : (n < 16)%N -> hex_value (hex_digit n) = n.
Proof. intros H. unfold hex_value, hex_digit. repeat case_goal; bprop; lia. Qed.

Lemma parse_unicode u t :
  (u < 65536)%N -> parse_chars (unicode_escape u ++ t) = option_map (fun p => (u :: fst p, snd p)) (parse_chars t).
Proof.
  intros H. unfold unicode_escape. cbn [app parse_chars N.eqb Pos.eqb].
  rewrite !hex_round by (zify; Z.to_euclidean_division_equations; lia).
  replace (_ + _)%N with u; [reflexivity|]. zify. Z.to_euclidean_division_equations. lia.
Qed.

Lemma parse_plain u t :
  u <> 34%N -> u <> 92%N -> parse_chars (u :: t) = option_map (fun p => (u :: fst p, snd p)) (parse_chars t).
Proof. intros H1 H2. cbn. now rewrite (proj2 (N.eqb_neq _ _) H1), (proj2 (N.eqb_neq _ _) H2). Qed.

Lemma parse_point u t :
  parse_chars (quote_point [u] ++ t) = option_map (fun p => (u :: fst p, snd p)) (parse_chars t).
Proof.
  unfold quote_point. repeat (match goal with |- context [if ?b then _ else _] => destruct b eqn:?E end);
    bprop; subst; try reflexivity; [|apply parse_plain; assumption].
  apply parse_unicode. unfold is_high, is_low in *.
  repeat match goal with H : _ || _ = true |- _ => apply orb_true_iff in H; destruct H end; bprop;
    repeat match goal with H : (_ <? _)%N = true |- _ => apply N.ltb_lt in H end; lia.
Qed.

Lemma parse_quoted s rest :
  parse_chars (flat_map quote_point (code_points s) ++ 34%N :: rest) = Some (s, rest).
Proof.
  induction s as [|u|c d s IH1 IH2] using list_ind2; [reflexivity|cbn [code_points flat_map]; now rewrite <- app_assoc, parse_point|].
  cbn [code_points]. destruct (is_high c && is_low d) eqn:E; cbn [flat_map]; rewrite <- app_assoc.
  - unfold is_high, is_low in E. bprop. cbn [quote_point app]. rewrite !parse_plain by lia. now rewrite IH1.
  - rewrite parse_point. cbn [code_points flat_map] in IH2. now rewrite IH2.
Qed.

Lemma zdigits_rev_value fuel z :
  (0 <= z < 10 ^ Z.of_nat fuel)%Z ->
  fold_right (fun d acc => (acc * 10 + (d - 48))%N) 0%N (zdigits_rev fuel z) = Z.to_N z /\
  forallb is_digit (zdigits_rev fuel z) = true.
Proof.
  revert z. induction fuel as [|f IH]; intros z Hz; [cbn in *; split; [lia|reflexivity]|].
  rewrite Nat2Z.inj_succ, Z.pow_succ_r in Hz by lia.
  assert (Hd : is_digit (Z.to_N (48 + z mod 10)) = true).
  { unfold is_digit. apply andb_true_iff. rewrite !N.leb_le. pose proof (Z.mod_pos_bound z 10). lia. }
  cbn [zdigits_rev fold_right forallb]. rewrite Hd. destruct (Z.ltb_spec z 10).
  - cbn [fold_right forallb andb]. rewrite Z.mod_small by lia. split; [lia|reflexivity].
  - destruct (IH (z / 10)%Z) as [-> ->]; [split; [apply Z.div_pos|apply Z.div_lt_upper_bound]; lia|].
    split; [|reflexivity]. pose proof (Z.div_mod z 10 ltac:(lia)). pose proof (Z.mod_pos_bound z 10 ltac:(lia)).
    pose proof (Z.div_pos z 10 ltac:(lia) ltac:(lia)). lia.
Qed.

Lemma zdigits_value z :
  (0 <= z)%Z ->
  parse_int (zdigits z) = Z.to_N z /\ forallb is_digit (zdigits z) = true /\ exists c t, zdigits z = c :: t.
Proof.
  intros Hz. destruct (zdigits_rev_value (S (Z.to_nat (Z.log2 z))) z) as [H1 H2].
  { split; [exact Hz|]. destruct (Z.eq_dec z 0) as [->|]; [cbn; lia|].
    pose proof (Z.log2_spec z ltac:(lia)). pose proof (Z.log2_nonneg z).
    rewrite Nat2Z.inj_succ, Z2Nat.id by assumption.
    eapply Z.lt_le_trans; [apply H|]. apply Z.pow_le_mono_l. lia. }
  unfold zdigits, parse_int. split; [now rewrite <- fold_left_rev_right, rev_involutive|].
  split; [now rewrite forallb_rev|].
  destruct (rev (zdigits_rev _ z)) as [|c t] eqn:E; [|eauto]. apply (f_equal (@rev N)) in E.
  rewrite rev_involutive in E. discriminate.
Qed.

(** What may follow a value: not a digit. *)
Definition num_end (rest : jsstring) : Prop := match rest with c :: _ => is_digit c = false | [] => True end.

Lemma take_digits ds rest :
  forallb is_digit ds = true -> num_end rest ->
  take_while is_digit (ds ++ rest) = ds /\ drop_while is_digit (ds ++ rest) = rest.
Proof.
  intros H Hr. induction ds as [|d ds IH]; cbn in *.
  - destruct rest as [|c rest]; cbn in *; [auto|]. now rewrite Hr.
  - bprop. rewrite H. now destruct (IH H0) as [-> ->].
Qed.

Lemma digit_not_ws c : is_digit c = true -> is_json_ws c = false.
Proof.
  unfold is_digit, is_json_ws. intros H. bprop. rewrite !orb_false_iff, !N.eqb_neq. lia.
Qed.

Section RoundTrip.
Context (gap : jsstring) (Hgap : all_ws gap).

Lemma all_ws_app a b : all_ws a -> all_ws b -> all_ws (a ++ b).
Proof. unfold all_ws. rewrite forallb_app. now intros -> ->. Qed.

Lemma newline_ws indent : all_ws indent -> all_ws (newline gap indent).
Proof. unfold newline. intros H. destruct gap; [reflexivity|exact H]. Qed.

(** A value parses back whatever white space precedes it and whatever follows it. *)
Definition round (v : json) : Prop :=
  forall fuel ws indent rest,
    weight v <= fuel -> all_ws ws -> all_ws indent -> num_end rest ->
    parse_value fuel (ws ++ serialize gap indent v ++ rest) = Some (v, rest).

Lemma tail_num_end nl c rest : all_ws nl -> is_digit c = false -> num_end (nl ++ c :: rest).
Proof.
  unfold all_ws. destruct nl as [|n nl]; cbn; [auto|]. intros H _. bprop.
  destruct (is_digit n) eqn:E; [|reflexivity]. apply digit_not_ws in E. congruence.
Qed.

Lemma round_elements l : forall fuel ws indent nl rest,
  Forall round l -> l <> [] -> list_sum (map (fun x => S (weight x)) l) <= fuel ->
  all_ws ws -> all_ws indent -> all_ws nl ->
  parse_elements fuel
    (ws ++ join (44%N :: newline gap indent) (map (serialize gap indent) l) ++ nl ++ 93%N :: rest)
  = Some (l, rest).
Proof using Hgap.
  induction l as [|v l IH]; intros fuel ws indent nl rest Hl Hn Hf Hws Hi Hnl; [congruence|]. inv Hl.
  destruct fuel as [|f]; [cbn in Hf; lia|]. cbn [map list_sum] in Hf. cbn [parse_elements].
  assert (Hnl' := newline_ws indent Hi).
  destruct l as [|v' l].
  - cbn [map join]. rewrite H1; auto; [|cbn in Hf; lia|now apply tail_num_end].
    now rewrite skip_ws.
  - change (map (serialize gap indent) (v :: v' :: l))
      with (serialize gap indent v :: map (serialize gap indent) (v' :: l)).
    rewrite join_cons by discriminate. rewrite <- !app_assoc.
    rewrite H1; auto; [|cbn in *; lia|reflexivity].
    cbn [app]. rewrite skip_hd by reflexivity. cbn [N.eqb Pos.eqb].
    rewrite IH; auto; [discriminate|cbn in *; lia].
Qed.

Lemma round_members l : forall fuel ws indent nl rest,
  Forall (fun kv => round (snd kv)) l -> l <> [] ->
  list_sum (map (fun kv : jsstring * json => S (weight (snd kv))) l) <= fuel ->
  all_ws ws -> all_ws indent -> all_ws nl ->
  parse_members fuel
    (ws ++ join (44%N :: newline gap indent)
             (map (fun kv : jsstring * json => let '(k, x) := kv in quote k ++ colon gap ++ serialize gap indent x) l)
     ++ nl ++ 125%N :: rest)
  = Some (l, rest).
Proof using Hgap.
  induction l as [|[k v] l IH]; intros fuel ws indent nl rest Hl Hn Hf Hws Hi Hnl; [congruence|]. inv Hl. cbn in H1.
  destruct fuel as [|f]; [cbn in Hf; lia|]. cbn [map list_sum snd] in Hf. cbn [parse_members].
  assert (Hnl' := newline_ws indent Hi). rewrite skip_ws by exact Hws.
  assert (Hcol : exists sp, all_ws sp /\ forall t, skip (colon gap ++ t) = 58%N :: sp ++ t)
    by (unfold colon; destruct gap; [exists []|exists [32%N]]; now split).
  destruct Hcol as (sp & Hsp & Hcol).
  destruct l as [|kv' l].
  - cbn [map join]. unfold quote. rewrite <- !app_assoc. cbn [app]. rewrite skip_hd by reflexivity. cbn [N.eqb Pos.eqb].
    rewrite parse_quoted, Hcol. cbn [N.eqb Pos.eqb].
    rewrite H1; auto; [|cbn in Hf; lia|now apply tail_num_end]. now rewrite skip_ws.
  - rewrite (map_cons _ (k, v)), join_cons by discriminate. cbv beta iota. unfold quote at 1. rewrite <- !app_assoc. cbn [app].
    rewrite skip_hd by reflexivity. cbn [N.eqb Pos.eqb].
    rewrite parse_quoted, Hcol. cbn [N.eqb Pos.eqb].
    rewrite H1; auto; [|cbn in *; lia|reflexivity].
    cbn [app]. rewrite skip_hd by reflexivity. cbn [N.eqb Pos.eqb].
    rewrite IH; auto; [discriminate|cbn in *; lia].
Qed.

Lemma serialize_hd indent v :
  exists c t, serialize gap indent v = c :: t /\ is_json_ws c = false /\ c <> 93%N /\ c <> 125%N.
Proof.
  destruct v as [|[]|n|s|l|l]; cbn [serialize]; try (eexists _, _; split; [reflexivity|repeat split; discriminate]).
  - destruct (zdigits_value (Z.of_N n) ltac:(lia)) as (_ & Hd & c & t & E). rewrite E in *. exists c, t.
    cbn in Hd. bprop. split; [reflexivity|]. split; [now apply digit_not_ws|]. unfold is_digit in *. bprop. split; lia.
  - unfold bracket. destruct (map _ l); eexists _, _; (split; [reflexivity|repeat split; discriminate]).
  - unfold bracket. destruct (map _ l); eexists _, _; (split; [reflexivity|repeat split; discriminate]).
Qed.

(** The first part of a bracketed list is not the closing bracket. *)
Lemma join_hd sep ps t :
  (forall p, In p ps -> exists c r, p = c :: r /\ is_json_ws c = false /\ c <> 93%N /\ c <> 125%N) -> ps <> [] ->
  exists c r, join sep ps ++ t = c :: r /\ is_json_ws c = false /\ c <> 93%N /\ c <> 125%N.
Proof.
  destruct ps as [|p ps]; intros H Hn; [congruence|]. destruct (H p (or_introl eq_refl)) as (c & r & -> & Hc).
  destruct ps as [|p' ps]; [exists c, (r ++ t); now split|].
  rewrite join_cons by discriminate. eexists c, _. split; [reflexivity|exact Hc].
Qed.

Lemma round_all v : round v.
Proof using Hgap.
  induction v as [| | | |l IH|l IH] using json_ind'; intros fuel ws indent rest Hf Hws Hi Hr;
    (destruct fuel as [|f]; [cbn in Hf; lia|]); cbn [parse_value serialize]; rewrite skip_ws by exact Hws.
  - now destruct rest.
  - now destruct b, rest.
  - destruct (zdigits_value (Z.of_N n) ltac:(lia)) as (Hv & Hd & c & t & E).
    destruct (take_digits _ rest Hd Hr) as [Ht Hdr]. rewrite E in *. cbn [forallb] in Hd. bprop.
    change ((c :: t) ++ rest) with (c :: t ++ rest) in *. rewrite skip_hd by now apply digit_not_ws.
    rewrite Ht, Hdr, Hv, H. unfold is_digit in H. bprop.
    repeat match goal with |- context [(c =? ?k)%N] => rewrite (proj2 (N.eqb_neq c k)) by lia end.
    do 3 f_equal. lia.
  - unfold quote. rewrite <- !app_assoc. cbn [app]. rewrite skip_hd by reflexivity. cbn [N.eqb Pos.eqb].
    now rewrite parse_quoted.
  - unfold bracket. destruct l as [|x l]; [reflexivity|].
    set (ps := map (serialize gap (indent ++ gap)) (x :: l)). destruct ps as [|p ps'] eqn:Eps; [discriminate|].
    rewrite <- Eps. rewrite <- !app_assoc. cbn [app]. rewrite skip_hd by reflexivity. cbn [N.eqb Pos.eqb].
    rewrite skip_ws by auto using newline_ws, all_ws_app.
    destruct (join_hd (44%N :: newline gap (indent ++ gap)) ps (newline gap indent ++ 93%N :: rest))
      as (c & r & E & Hc1 & Hc2 & _); [|congruence|].
    { intros q Hq. apply in_map_iff in Hq. destruct Hq as (y & <- & _). apply serialize_hd. }
    cbn [app] in E. rewrite E, skip_hd by exact Hc1. rewrite (proj2 (N.eqb_neq _ _) Hc2), <- E. subst ps.
    rewrite (round_elements (x :: l)); auto using newline_ws, all_ws_app; [discriminate|cbn in *; lia].
  - unfold bracket. destruct l as [|x l]; [reflexivity|].
    set (f0 := fun kv : jsstring * json => let '(k, y) := kv in quote k ++ colon gap ++ serialize gap (indent ++ gap) y).
    set (ps := map f0 (x :: l)). destruct ps as [|p ps'] eqn:Eps; [discriminate|].
    rewrite <- Eps. rewrite <- !app_assoc. cbn [app]. rewrite skip_hd by reflexivity. cbn [N.eqb Pos.eqb].
    rewrite skip_ws by auto using newline_ws, all_ws_app.
    destruct (join_hd (44%N :: newline gap (indent ++ gap)) ps (newline gap indent ++ 125%N :: rest))
      as (c & r & E & Hc1 & _ & Hc2); [|congruence|].
    { intros q Hq. apply in_map_iff in Hq. destruct Hq as ([k y] & <- & _). eexists _, _. split; [reflexivity|repeat split; discriminate]. }
    cbn [app] in E. rewrite E, skip_hd by exact Hc1. rewrite (proj2 (N.eqb_neq _ _) Hc2), <- E. subst ps f0.
    rewrite (round_members (x :: l)); auto using newline_ws, all_ws_app; [discriminate|cbn in *; lia].
Qed.
End RoundTrip.

(** What is serialised parses back to itself, whatever the indentation. *)
Lemma parse_stringify gap v : all_ws gap -> parse_value (weight v) (stringify gap v) = Some (v, []).
Proof.
  intros H. assert (R := round_all gap H v (weight v) [] [] [] (le_n _) eq_refl eq_refl I).
  now rewrite app_nil_r in R.
Qed.

(** Every character of the output is structural, part of a literal or number, or comes from a string. *)
Fixpoint strings (v : json) : list jsstring :=
  match v with
  | JStr s => [s]
  | JArr l => flat_map strings l
  | JObj l => flat_map (fun kv => fst kv :: strings (snd kv)) l
  | _ => []
  end.

Section NoAngle.
Context (gap : jsstring) (Hgap : ~ In 60%N gap).

Lemma hex_digit_lt n : hex_digit n <> 60%N.
Proof. unfold hex_digit. destruct (n <? 10)%N eqn:E; bprop; lia. Qed.

Lemma quote_point_lt c : In 60%N (quote_point c) -> In 60%N c.
Proof.
  destruct c as [|u [|? ?]]; cbn [quote_point]; auto.
  repeat (match goal with |- context [if ?b then _ else _] => destruct b eqn:?E end);
    try (cbn; intuition discriminate); auto.
  unfold unicode_escape. intros H.
  repeat (destruct H as [H|H]; [try discriminate; now apply hex_digit_lt in H|]). destruct H.
Qed.

Lemma quote_lt s : In 60%N (quote s) -> In 60%N s.
Proof.
  unfold quote. rewrite !in_app_iff, in_flat_map. intros [[H|[]]|[(c & Hc & H)|[H|[]]]]; try discriminate.
  apply quote_point_lt in H. rewrite <- (code_points_concat s). apply in_concat. eauto.
Qed.

Lemma join_In x sep ps : In x (join sep ps) -> In x sep \/ exists p, In p ps /\ In x p.
Proof.
  induction ps as [|p ps IH]; [intros []|]. destruct ps as [|p' ps]; [cbn; eauto|].
  rewrite join_cons by discriminate. rewrite !in_app_iff. intros [H|[H|H]]; [right; exists p; cbn; auto|auto|].
  destruct (IH H) as [|(q & Hq & Hx)]; [auto|]. right. exists q. cbn in *. auto.
Qed.

Lemma newline_lt indent : In 60%N (newline gap indent) -> In 60%N indent.
Proof. unfold newline. destruct gap; [intros []|]. intros [H|H]; [discriminate|exact H]. Qed.

Lemma bracket_lt o c indent ps :
  o <> 60%N -> c <> 60%N -> ~ In 60%N indent ->
  In 60%N (bracket gap o c indent ps) -> exists p, In p ps /\ In 60%N p.
Proof using Hgap.
  intros Ho Hc Hi. assert (Hi' : ~ In 60%N (indent ++ gap)) by (rewrite in_app_iff; tauto).
  unfold bracket. destruct ps as [|p ps]; [cbn; intuition congruence|].
  rewrite !in_app_iff. intros [H|[H|[H|[H|H]]]].
  - cbn in H. intuition congruence.
  - now apply newline_lt in H.
  - apply join_In in H. destruct H as [[H|H]|H]; [discriminate|now apply newline_lt in H|exact H].
  - now apply newline_lt in H.
  - cbn in H. intuition congruence.
Qed.

Lemma serialize_lt v : forall indent,
  ~ In 60%N indent -> In 60%N (serialize gap indent v) -> exists s, In s (strings v) /\ In 60%N s.
Proof using Hgap.
  induction v as [|[]|n|s|l IH|l IH] using json_ind'; intros indent Hi; cbn [serialize strings];
    try (cbn; intuition discriminate); assert (Hi' : ~ In 60%N (indent ++ gap)) by (rewrite in_app_iff; tauto).
  - intros H. destruct (zdigits_value (Z.of_N n) ltac:(lia)) as (_ & Hd & _). rewrite forallb_forall in Hd.
    apply Hd in H. discriminate.
  - intros H. exists s. split; [now left|now apply quote_lt].
  - intros H. apply bracket_lt in H; try easy. destruct H as (p & Hp & H). apply in_map_iff in Hp.
    destruct Hp as (x & <- & Hx). rewrite Forall_forall in IH. destruct (IH x Hx _ Hi' H) as (s & Hs & Hl).
    exists s. split; [apply in_flat_map; eauto|exact Hl].
  - intros H. apply bracket_lt in H; try easy. destruct H as (p & Hp & H). apply in_map_iff in Hp.
    destruct Hp as ([k x] & <- & Hx). rewrite !in_app_iff in H. destruct H as [H|[H|H]].
    + exists k. split; [apply in_flat_map; exists (k, x); cbn; auto|now apply quote_lt].
    + unfold colon in H. destruct gap; cbn in H; intuition discriminate.
    + rewrite Forall_forall in IH. destruct (IH (k, x) Hx _ Hi' H) as (s & Hs & Hl).
      exists s. split; [apply in_flat_map; exists (k, x); cbn; auto|exact Hl].
Qed.
End NoAngle.

#[export] Hint Resolve parse_stringify : kubecell.
