(* ===== verification/Site.v ===== *)
(** * Site data, navigation and generated files

    The content of [website/lib] ([docs-nav.ts], [site.ts], [content.ts], [faq.ts], [metadata.ts]),
    the previous/next computation of the documentation, the structured data of the FAQ page, and the
    files [scripts/generate-seo.ts] writes.  [new URL(path, base).toString()], the clock and the file
    paths belong to the platform and are parameters. *)

From Stdlib Require Import String List Arith NArith ZArith Lia Bool.
From S2P Require Import Prelude JsString JsNum NumText Dom Sorting Json.
Import ListNotations.
Local Open Scope list_scope.

(** ** Documentation navigation *)

Record DocLink := { d_title : jsstring; d_href : jsstring; d_description : option jsstring }.
Record DocNavGroup := { g_label : jsstring; g_items : list DocLink }.

Definition docsNav : list DocNavGroup :=
  [{| g_label := js "Introduction";
      g_items :=
        [{| d_title := js "Overview"; d_href := js "/docs/";
            d_description := Some (js "What KubeCell is, who it is for, and how the pieces fit together.") |};
         {| d_title := js "Core concepts"; d_href := js "/docs/concepts/";
            d_description := Some (js "The four KubeCell resources, quota tiers, and how a cluster maps to a host.") |}] |};
   {| g_label := js "Getting started";
      g_items :=
        [{| d_title := js "Installation"; d_href := js "/docs/installation/";
            d_description := Some (js "Install the management cluster, connect a host, and prepare it for tenants.") |};
         {| d_title := js "First VirtualCluster"; d_href := js "/docs/first-virtualcluster/";
            d_description := Some (js "Preflight a request, create your first cluster, and get the kubeconfig.") |};
         {| d_title := js "Host onboarding"; d_href := js "/docs/host-onboarding/";
            d_description := Some (js "The four-command flow that adds a physical host to KubeCell.") |}] |};
   {| g_label := js "Guides";
      g_items :=
        [{| d_title := js "Day-2 operations"; d_href := js "/docs/operations/";
            d_description := Some (js "Inventory checks, credentials, quota changes, ingress, upgrades, deletion.") |};
         {| d_title := js "API reference"; d_href := js "/docs/api-reference/";
            d_description := Some (js "Every CRD field, immutability rule, and status condition.") |};
         {| d_title := js "Security & isolation"; d_href := js "/docs/security/";
            d_description := Some (js "Namespace, quota, policy, and admission controls per child cluster.") |};
         {| d_title := js "Troubleshooting"; d_href := js "/docs/troubleshooting/";
            d_description := Some (js "Symptom-first diagnostics across Cell, Work, child API, and storage.") |};
         {| d_title := js "FAQ"; d_href := js "/docs/faq/";
            d_description := Some (js "Short answers about scope, limits, and design trade-offs.") |}] |}].

Definition docsFlat : list DocLink := flat_map g_items docsNav.

(** [l.findIndex(p)]; [None] is -1. *)
Fixpoint findIndex {A} (p : A -> bool) (l : list A) : option nat :=
  match l with
  | [] => None
  | x :: l' => if p x then Some 0 else option_map S (findIndex p l')
  end.

Record DocNeighbors := { previous : option DocLink; next : option DocLink }.

(** [docNeighbors] over a list of pages; the site's own is over [docsFlat]. *)
Definition neighbors (docs : list DocLink) (pathname : jsstring) : DocNeighbors :=
  match findIndex (fun item => jseqb (d_href item) pathname) docs with
  | Some index =>
      {| previous := if 0 <? index then nth_error docs (index - 1) else None;
         next := if index <? length docs - 1 then nth_error docs (index + 1) else None |}
  | None => {| previous := None; next := None |}
  end.

Definition docNeighbors (pathname : jsstring) : DocNeighbors := neighbors docsFlat pathname.

(** ** Site configuration *)

Definition site_name : jsstring := js "KubeCell".
Definition site_title : jsstring := js "KubeCell — A Kubernetes cluster for every developer on shared bare metal".
Definition site_shortDescription : jsstring :=
  js "Give every developer their own isolated Kubernetes cluster on shared hardware — real kubectl, hard quotas, ready in minutes.".
Definition site_description : jsstring :=
  js "KubeCell gives every developer their own isolated Kubernetes cluster on the servers you already run. Standard kubectl, hard CPU/memory/GPU quotas, persistent storage, and a kubeconfig in minutes.".
Definition site_keywords : list jsstring :=
  [js "KubeCell"; js "Kubernetes operator"; js "virtual cluster"; js "K3s"; js "K3k"; js "multi-tenancy"; js "bare metal Kubernetes";
   js "resource quota isolation"; js "virtual node"; js "TopoLVM"; js "OCM"; js "accelerator sharing"; js "Ascend 910B";
   js "GPU sharing Kubernetes"; js "platform engineering"; js "developer sandbox"].
Definition site_github : jsstring := js "https://github.com/taosher/KubeCell".
Definition site_githubIssues : jsstring := js "https://github.com/taosher/KubeCell/issues".
Definition site_docs_design : jsstring := js "https://github.com/taosher/KubeCell/blob/main/technical-design.md".
Definition site_docs_onboarding : jsstring := js "https://github.com/taosher/KubeCell/blob/main/docs/operations/host-onboarding.md".
Definition site_docs_ciPlan : jsstring := js "https://github.com/taosher/KubeCell/blob/main/docs/testing/ci-plan.md".

Record NavLink := { n_title : jsstring; n_href : jsstring }.

Definition primaryNav : list NavLink :=
  [{| n_title := js "Quickstart"; n_href := js "/quickstart/" |};
   {| n_title := js "Use cases"; n_href := js "/use-cases/" |};
   {| n_title := js "Architecture"; n_href := js "/architecture/" |};
   {| n_title := js "Docs"; n_href := js "/docs/" |}].

(** ** Page metadata *)

Inductive page_type := website | article.

Record OpenGraph := { og_type : page_type; og_title : jsstring; og_description : jsstring; og_url : jsstring; og_siteName : jsstring }.
Record Twitter := { tw_card : jsstring; tw_title : jsstring; tw_description : jsstring }.
Record Metadata := {
  m_title : jsstring; m_description : jsstring; m_keywords : option (list jsstring); m_canonical : jsstring;
  m_openGraph : OpenGraph; m_twitter : Twitter }.

Definition buildMetadata (title description path : jsstring) (keywords : option (list jsstring)) (type : option page_type)
  : Metadata :=
  {| m_title := title; m_description := description; m_keywords := keywords; m_canonical := path;
     m_openGraph := {| og_type := default_of website type; og_title := title; og_description := description;
                       og_url := path; og_siteName := js "KubeCell" |};
     m_twitter := {| tw_card := js "summary_large_image"; tw_title := title; tw_description := description |} |}.

(** ** Content *)

Record StackEntry := { s_component : jsstring; s_version : jsstring; s_note : jsstring }.
Record IsolationControl := { i_title : jsstring; i_description : jsstring }.
Record FaqItem := { question : jsstring; answer : jsstring }.

Definition pinnedStack : list StackEntry :=
  [{| s_component := js "Management cluster"; s_version := js "Single-node K3s";
      s_note := js "Holds your manifests and reports state; runs no tenant workloads." |};
   {| s_component := js "Host Kubernetes"; s_version := js "K3s v1.36.3+k3s1";
      s_note := js "Validated on ARM64 bare metal." |};
   {| s_component := js "K3k"; s_version := js "v1.2.0";
      s_note := js "Creates and manages the per-developer control planes on each host." |};
   {| s_component := js "Cluster Kubernetes"; s_version := js "v1.34.2+k3s1";
      s_note := js "The version your developers see and target with kubectl." |};
   {| s_component := js "OCM Hub"; s_version := js "v1.3.1";
      s_note := js "The audited channel between the management cluster and hosts." |};
   {| s_component := js "Storage"; s_version := js "TopoLVM on hosts";
      s_note := js "Persistent volumes for clusters, backed by local disks on the host." |}].

Definition isolationControls : list IsolationControl :=
  [{| i_title := js "A dedicated namespace per cluster";
      i_description := js "Your workloads run in their own namespace on the host, with quotas, defaults, and network rules attached to it." |};
   {| i_title := js "Hard CPU, memory, and GPU limits";
      i_description := js "Quotas come from the tier you pick and are enforced by Kubernetes itself, not by convention or a dashboard." |};
   {| i_title := js "Private by default";
      i_description := js "Clusters cannot reach each other's services unless you explicitly allow it." |};
   {| i_title := js "Unsafe workloads are blocked";
      i_description := js "Privileged containers and hostPath volumes are rejected before they reach a host, with a hint about what to use instead." |};
   {| i_title := js "Nothing changes behind your back";
      i_description := js "Every host-side change is a declarative manifest applied through one management plane, so you can see and review what happened." |};
   {| i_title := js "Whole GPUs, never shared";
      i_description := js "Accelerators are allocated as whole cards: your cluster gets the card, or it does not. No oversubscription between tenants." |}].

Definition faqItems : list FaqItem :=
  [{| question := js "What exactly do I get when I create a cluster?";
      answer := js "A real Kubernetes cluster with its own API server, control plane, and persistent data volume — not a namespace with extra labels. You receive an admin kubeconfig, and normal kubectl, Helm, and CI tools work exactly as they do on any other cluster." |};
   {| question := js "Do I need GPUs or accelerators to use KubeCell?";
      answer := js "No. Accelerators are optional. A host that only offers CPU and memory works fine; you simply publish a quota tier without device requests. The same quota, storage, and isolation model applies either way." |};
   {| question := js "Can one developer's workloads starve another's?";
      answer := js "No. Each cluster has a hard quota for CPU, memory, and accelerators, enforced by Kubernetes on the host. Requests and limits are both capped, so one busy cluster cannot consume another's share." |};
   {| question := js "Why does my cluster show only one node?";
      answer := js "The node is how your cluster sees its quota; the physical machines belong to the host and are managed for you. Need more capacity? Move the cluster to a larger quota tier rather than adding nodes." |};
   {| question := js "What happens when I delete a cluster?";
      answer := js "KubeCell removes the cluster, its credentials, and everything it created on the host. Persistent volumes follow the storage reclaim policy you configured: under Retain they are kept for recovery, so data is never deleted silently." |};
   {| question := js "Can two clusters share one GPU?";
      answer := js "No. Accelerators are allocated as whole cards: a cluster either owns a card or it does not. That keeps performance predictable and makes capacity accounting honest for everyone." |};
   {| question := js "Do I need to change my manifests or tooling?";
      answer := js "No. Workloads inside a cluster are ordinary Pods, Services, Ingresses, and PVCs. There is no sidecar to install and no custom client: your existing kubectl, Helm charts, and CI pipelines work unchanged." |};
   {| question := js "How do I expose an app to the internet?";
      answer := js "Create a normal Ingress in your cluster and choose a name. KubeCell publishes it on the host's shared ingress at a predictable hostname, and TLS is handled at the host level. Ask your platform team for the domain suffix they configured." |};
   {| question := js "How long does it take for a cluster to be ready?";
      answer := js "The first cluster on a host usually takes 10 to 20 minutes because the container images have to be pulled onto the machine. Later clusters start much faster since the layers are already cached." |};
   {| question := js "Is KubeCell production ready?";
      answer := js "Not yet. KubeCell is under active development and the APIs are still v1alpha1. Use it for development, evaluation, and lab environments while the remaining hardening work completes." |}].

(** ** Structured data and generated files *)

Definition JsonLd (data : json) : vnode :=
  VEl "script" [("type"%string, js "application/ld+json"); ("dangerouslySetInnerHTML"%string, stringify [] data)] [].

Inductive changefreq := weekly | monthly.
Record Route := { r_path : jsstring; r_priority : num; r_changeFrequency : changefreq }.

Definition staticRoutes : list Route :=
  [{| r_path := js "/"; r_priority := nof 1; r_changeFrequency := weekly |};
   {| r_path := js "/quickstart/"; r_priority := lit 9 10; r_changeFrequency := monthly |};
   {| r_path := js "/use-cases/"; r_priority := lit 8 10; r_changeFrequency := monthly |};
   {| r_path := js "/architecture/"; r_priority := lit 8 10; r_changeFrequency := monthly |}].

(** [docsFlat.map((doc, index) => ...)]. *)
Definition doc_route (index : nat) (doc : DocLink) : Route :=
  {| r_path := d_href doc; r_priority := if index =? 0 then lit 9 10 else lit 7 10; r_changeFrequency := monthly |}.

Definition docRoutes : list Route := map (fun p => doc_route (fst p) (snd p)) (combine (seq 0 (length docsFlat)) docsFlat).

Definition routes : list Route := staticRoutes ++ docRoutes.

Definition freq_name (f : changefreq) : jsstring := match f with weekly => js "weekly" | monthly => js "monthly" end.

Section Platform.
(** [new URL(path, base).toString()], the environment variable, and [new Date().toISOString()]. *)
Context (new_URL : jsstring -> jsstring -> jsstring) (NEXT_PUBLIC_SITE_URL : option jsstring) (now_iso : jsstring).

Definition site_url : jsstring := default_of (js "https://kubecell.pages.dev") NEXT_PUBLIC_SITE_URL.

Definition absoluteUrl (path : option jsstring) : jsstring := new_URL (default_of (js "/") path) site_url.

Definition lastmod : jsstring := slice 0 10 now_iso.

Definition route_lines (route : Route) : list jsstring :=
  [js "  <url>";
   js "    <loc>" ++ new_URL (r_path route) site_url ++ js "</loc>";
   js "    <lastmod>" ++ lastmod ++ js "</lastmod>";
   js "    <changefreq>" ++ freq_name (r_changeFrequency route) ++ js "</changefreq>";
   js "    <priority>" ++ toFixed (r_priority route) 1 ++ js "</priority>";
   js "  </url>"].

Definition sitemap : jsstring :=
  join [10%N]
    ([jsq "<?xml version=`1.0` encoding=`UTF-8`?>";
      jsq "<urlset xmlns=`http://www.sitemaps.org/schemas/sitemap/0.9`>"]
     ++ map (fun route => join [10%N] (route_lines route)) routes
     ++ [js "</urlset>"; []]).

Definition robots : jsstring :=
  join [10%N]
    [js "# https://www.robotstxt.org/robotstxt.html"; js "User-agent: *"; js "Allow: /"; [];
     js "Sitemap: " ++ new_URL (js "/sitemap.xml") site_url; js "Host: " ++ site_url; []].

Definition manifest : json :=
  JObj [(js "name", JStr site_title); (js "short_name", JStr site_name); (js "description", JStr site_shortDescription);
        (js "start_url", JStr (js "/")); (js "display", JStr (js "standalone"));
        (js "background_color", JStr (js "#04060d")); (js "theme_color", JStr (js "#04060d"));
        (js "icons",
          JArr [JObj [(js "src", JStr (js "/kubecell-logo.svg")); (js "sizes", JStr (js "any"));
                      (js "type", JStr (js "image/svg+xml")); (js "purpose", JStr (js "any"))];
                JObj [(js "src", JStr (js "/apple-icon.png")); (js "sizes", JStr (js "180x180"));
                      (js "type", JStr (js "image/png"))]])].

Definition outputs : list (jsstring * jsstring) :=
  [(js "app/sitemap.xml", sitemap); (js "app/robots.txt", robots);
   (js "app/manifest.webmanifest", stringify (js "  ") manifest ++ [10%N])].

(** The script: the files written, in order, and the lines logged. *)
Definition generate (path_join : jsstring -> jsstring -> jsstring) (root : jsstring)
  : list (jsstring * jsstring) * list jsstring :=
  (map (fun o => (path_join root (fst o), snd o)) outputs,
   map (fun o => js "[seo] wrote " ++ fst o) outputs
   ++ [js "[seo] " ++ nat_to_js (length routes) ++ js " sitemap entries for " ++ site_url]).

(** The structured data of the FAQ page. *)
Definition faqLd : json :=
  JObj [(js "@context", JStr (js "https://schema.org")); (js "@type", JStr (js "FAQPage"));
        (js "mainEntity",
          JArr (map (fun item =>
                       JObj [(js "@type", JStr (js "Question")); (js "name", JStr (question item));
                             (js "acceptedAnswer",
                               JObj [(js "@type", JStr (js "Answer")); (js "text", JStr (answer item))])])
                  faqItems));
        (js "url", JStr (absoluteUrl (Some (js "/docs/faq/"))))].
End Platform.

(** ** Neighbours *)

Lemma findIndex_href docs i d :
  NoDup (map d_href docs) -> nth_error docs i = Some d ->
  findIndex (fun item => jseqb (d_href item) (d_href d)) docs = Some i.
Proof.
  revert i. induction docs as [|x l IH]; intros i Hn Hi; [destruct i; discriminate|].
  cbn [map] in Hn. inversion Hn as [|? ? Hx Hl]; subst. destruct i as [|i]; cbn in *.
  - inv Hi. now rewrite jseqb_refl.
  - rewrite (proj2 (jseqb_neq _ _)); [now rewrite (IH i Hl Hi)|].
    intros E. apply Hx. rewrite E. apply in_map, nth_error_In with i, Hi.
Qed.

Lemma findIndex_none docs p :
  ~ In p (map d_href docs) -> findIndex (fun item => jseqb (d_href item) p) docs = None.
Proof.
  induction docs as [|x l IH]; cbn; [reflexivity|]. intros H.
  rewrite (proj2 (jseqb_neq _ _)) by tauto. now rewrite IH by tauto.
Qed.

Lemma neighbors_at docs i d :
  NoDup (map d_href docs) -> nth_error docs i = Some d ->
  neighbors docs (d_href d)
  = {| previous := match i with O => None | S j => nth_error docs j end; next := nth_error docs (S i) |}.
Proof.
  intros Hn Hi. unfold neighbors. rewrite (findIndex_href docs i d Hn Hi).
  assert (Hl : i < length docs) by (apply nth_error_Some; congruence). f_equal.
  - destruct i as [|i]; [reflexivity|]. cbn [Nat.ltb Nat.leb]. now rewrite Nat.sub_succ, Nat.sub_0_r.
  - rewrite Nat.add_1_r. destruct (Nat.ltb_spec i (length docs - 1)); [reflexivity|].
    symmetry. apply nth_error_None. lia.
Qed.

Lemma neighbors_inverse docs d e :
  NoDup (map d_href docs) -> In d docs -> In e docs ->
  (next (neighbors docs (d_href d)) = Some e <-> previous (neighbors docs (d_href e)) = Some d).
Proof.
  intros Hn Hd He. apply In_nth_error in Hd, He. destruct Hd as [i Hi], He as [j Hj].
  rewrite (neighbors_at docs i d Hn Hi), (neighbors_at docs j e Hn Hj). cbn [next previous].
  assert (Hinj : forall a b x, nth_error docs a = Some x -> nth_error docs b = Some x -> a = b).
  { intros a b x Ha Hb. apply (NoDup_nth_error docs); [now apply NoDup_map_inv in Hn| |congruence].
    apply nth_error_Some. congruence. }
  split.
  - intros E. rewrite (Hinj j (S i) e Hj E). exact Hi.
  - destruct j as [|j]; [discriminate|]. intros E. rewrite (Hinj i j d Hi E). exact Hj.
Qed.

Lemma docsFlat_NoDup : NoDup (map d_href docsFlat).
Proof. apply (NoDup_by_set (list_eq_dec N.eq_dec)). vm_compute. reflexivity. Qed.


(** The pages reached by following the next link. *)
Fixpoint follow (fuel : nat) (p : jsstring) : list DocLink :=
  match fuel with
  | O => []
  | S f => match next (docNeighbors p) with Some d => d :: follow f (d_href d) | None => [] end
  end.

(** Following the next links from the first page visits every page once, in order, and stops,
    however long one follows. *)
Theorem follow_visits_all n :
  length docsFlat <= n -> match docsFlat with
                          | [] => True
                          | first :: rest => follow n (d_href first) = rest
                          end.
Proof.
  assert (H : forall n i d, nth_error docsFlat i = Some d -> length docsFlat <= n + S i ->
                follow n (d_href d) = skipn (S i) docsFlat).
  { clear n. intros n. induction n as [|n IH]; intros i d Hi Hl.
    - now rewrite skipn_all2 by lia.
    - cbn [follow]. unfold docNeighbors. rewrite (neighbors_at docsFlat i d docsFlat_NoDup Hi). cbn [next].
      destruct (nth_error docsFlat (S i)) as [e|] eqn:E.
      + rewrite (IH (S i) e E) by lia. symmetry. now apply skipn_nth_cons.
      + symmetry. apply skipn_all2. now apply nth_error_None in E. }
  intros Hl. destruct docsFlat as [|first rest] eqn:E; [exact I|].
  now rewrite (H n 0 first eq_refl) by (cbn in *; lia).
Qed.

(** ** The sitemap *)

Lemma split1_line l : ~ In 10%N l -> split1 10 l = [l].
Proof.
  induction l as [|c l IH]; cbn; [reflexivity|]. intros H.
  destruct (c =? 10)%N eqn:E; [apply N.eqb_eq in E; exfalso; auto|]. now rewrite IH by auto.
Qed.

Lemma split1_cons l t : ~ In 10%N l -> split1 10 (l ++ 10%N :: t) = l :: split1 10 t.
Proof.
  induction l as [|c l IH]; cbn; [reflexivity|]. intros H.
  destruct (c =? 10)%N eqn:E; [apply N.eqb_eq in E; exfalso; auto|]. now rewrite IH by auto.
Qed.

Lemma split1_join ls : ls <> [] -> Forall (fun l => ~ In 10%N l) ls -> split1 10 (join [10%N] ls) = ls.
Proof.
  intros Hn H. induction H as [|l ls Hl Hls IH]; [congruence|]. destruct ls as [|l' ls]; [now apply split1_line|].
  rewrite join_cons by discriminate. cbn [app]. rewrite split1_cons by exact Hl. now rewrite IH by discriminate.
Qed.

(** Joining joined blocks is joining the lines. *)
Lemma join_app sep a b : a <> [] -> b <> [] -> join sep (a ++ b) = join sep a ++ sep ++ join sep b.
Proof.
  induction a as [|x a IH]; intros Ha Hb; [congruence|]. destruct a as [|y a].
  - cbn [app]. now rewrite join_cons.
  - change ((x :: y :: a) ++ b) with (x :: (y :: a) ++ b). rewrite !join_cons by (try destruct a; discriminate).
    rewrite IH by (assumption || discriminate). now rewrite <- !app_assoc.
Qed.

Lemma join_blocks sep bs : Forall (fun b => b <> []) bs -> join sep (map (join sep) bs) = join sep (concat bs).
Proof.
  induction 1 as [|b bs Hb Hbs IH]; [reflexivity|]. destruct bs as [|b' bs]; [cbn; now rewrite app_nil_r|].
  cbn [map concat]. rewrite join_cons by discriminate. cbn [map concat] in IH. rewrite IH.
  inv Hbs. symmetry. apply join_app; [exact Hb|]. destruct b'; [congruence|discriminate].
Qed.

Section SitemapSpec.
Context (new_URL : jsstring -> jsstring -> jsstring) (url : option jsstring) (now_iso : jsstring).
(** The URL serialiser and the ISO clock produce no line break. *)
Context (url_line : forall p b, ~ In 10%N (new_URL p b)) (iso_line : ~ In 10%N now_iso).

Lemma no_break_app a b : ~ In 10%N a -> ~ In 10%N b -> ~ In 10%N (a ++ b).
Proof. rewrite in_app_iff. tauto. Qed.

Lemma slice_In {A} (a b : nat) (l : list A) x : In x (slice a b l) -> In x l.
Proof.
  unfold slice. intros H. rewrite <- (firstn_skipn a l). apply in_app_iff. right.
  rewrite <- (firstn_skipn (b - a) (skipn a l)). apply in_app_iff. now left.
Qed.

Lemma priorities_ok : Forall (fun r => In (toFixed (r_priority r) 1) [js "1.0"; js "0.9"; js "0.8"; js "0.7"]) routes.
Proof.
  assert (H : forallb (fun r => existsb (jseqb (toFixed (r_priority r) 1)) [js "1.0"; js "0.9"; js "0.8"; js "0.7"]) routes = true)
    by (vm_compute; reflexivity).
  rewrite forallb_forall in H. apply Forall_forall. intros r Hr. specialize (H r Hr). apply existsb_exists in H.
  destruct H as (x & Hx & E). apply jseqb_eq in E. now rewrite E.
Qed.

Definition no_break (s : jsstring) : bool := negb (existsb (N.eqb 10) s).

Lemma no_break_spec s : no_break s = true -> ~ In 10%N s.
Proof.
  unfold no_break. intros H Hin. apply negb_true_iff in H. assert (existsb (N.eqb 10) s = true); [|congruence].
  apply existsb_exists. exists 10%N. now split.
Qed.

Lemma route_lines_unbroken r : In r routes -> Forall (fun l => ~ In 10%N l) (route_lines new_URL url now_iso r).
Proof using url_line iso_line.
  intros Hr. assert (Hp := priorities_ok). rewrite Forall_forall in Hp. specialize (Hp r Hr).
  repeat constructor; repeat apply no_break_app; try (apply no_break_spec; reflexivity).
  - apply url_line.
  - intros H. now apply slice_In in H.
  - destruct (r_changeFrequency r); apply no_break_spec; reflexivity.
  - revert Hp. generalize (toFixed (r_priority r) 1). intros s Hs.
    repeat (destruct Hs as [<-|Hs]; [apply no_break_spec; reflexivity|]). destruct Hs.
Qed.

(** The lines of the sitemap, in order. *)
Lemma sitemap_lines :
  split1 10 (sitemap new_URL url now_iso)
  = [jsq "<?xml version=`1.0` encoding=`UTF-8`?>"; jsq "<urlset xmlns=`http://www.sitemaps.org/schemas/sitemap/0.9`>"]
    ++ flat_map (route_lines new_URL url now_iso) routes ++ [js "</urlset>"; []].
Proof using url_line iso_line.
  set (blocks := [[jsq "<?xml version=`1.0` encoding=`UTF-8`?>"];
                  [jsq "<urlset xmlns=`http://www.sitemaps.org/schemas/sitemap/0.9`>"]]
                 ++ map (route_lines new_URL url now_iso) routes ++ [[js "</urlset>"]; [[]]]).
  assert (E : sitemap new_URL url now_iso = join [10%N] (map (join [10%N]) blocks))
    by (unfold sitemap, blocks; rewrite !map_app, map_map; reflexivity).
  assert (Ec : concat blocks = [jsq "<?xml version=`1.0` encoding=`UTF-8`?>"; jsq "<urlset xmlns=`http://www.sitemaps.org/schemas/sitemap/0.9`>"]
    ++ flat_map (route_lines new_URL url now_iso) routes ++ [js "</urlset>"; []])
    by (unfold blocks; rewrite !concat_app, <- flat_map_concat_map; reflexivity).
  rewrite E, join_blocks, Ec.
  - apply split1_join; [discriminate|]. apply Forall_app. split.
    + repeat constructor; apply no_break_spec; reflexivity.
    + apply Forall_app. split; [|repeat constructor; apply no_break_spec; reflexivity].
      apply Forall_flat_map, Forall_forall. intros r Hr. now apply route_lines_unbroken.
  - unfold blocks. apply Forall_app. split; [repeat constructor; discriminate|].
    apply Forall_app. split; [|repeat constructor; discriminate]. apply Forall_map, Forall_forall. discriminate.
Qed.

Definition is_loc (l : jsstring) : bool := startsWith l (js "    <loc>").

Lemma route_locs rs :
  filter is_loc (flat_map (route_lines new_URL url now_iso) rs)
  = map (fun r => js "    <loc>" ++ new_URL (r_path r) (site_url url) ++ js "</loc>") rs.
Proof.
  induction rs as [|r rs IH]; [reflexivity|]. cbn [flat_map map]. rewrite filter_app, IH.
  change (map ?f rs) with ([] ++ map f rs) at 1. unfold route_lines. cbn [filter].
  replace (is_loc (js "    <loc>" ++ _)) with true by (symmetry; apply startsWith_spec; eexists; reflexivity).
  reflexivity.
Qed.
End SitemapSpec.

(** C17: The sitemap has exactly one location for every route, in the order of the routes and each
    on its own line; the routes are the static pages and every documentation page, without
    duplicates, and every entry of the primary navigation is one of them. *)
Theorem sitemap_complete new_URL url now_iso :
  (forall p b, ~ In 10%N (new_URL p b)) -> ~ In 10%N now_iso ->
  filter is_loc (split1 10 (sitemap new_URL url now_iso))
  = map (fun p => js "    <loc>" ++ new_URL p (site_url url) ++ js "</loc>") (map r_path routes) /\
  map r_path routes = [js "/"; js "/quickstart/"; js "/use-cases/"; js "/architecture/"] ++ map d_href docsFlat /\
  NoDup (map r_path routes) /\ incl (map n_href primaryNav) (map r_path routes).
Proof.
  intros Hu Hi. rewrite sitemap_lines by assumption. rewrite !filter_app, route_locs, map_map.
  split; [etransitivity; [|apply app_nil_r]; reflexivity|]. split; [reflexivity|]. split.
  - apply (NoDup_by_set (list_eq_dec N.eq_dec)). vm_compute. reflexivity.
  - intros x Hx. destruct (in_dec (list_eq_dec N.eq_dec) x (map r_path routes)) as [|Hn]; [assumption|]. exfalso.
    cbn in Hx. repeat (destruct Hx as [<-|Hx]; [apply Hn; vm_compute; tauto|]). destruct Hx.
Qed.



(** The FAQ data meet that condition, provided the page's URL does. *)
Lemma faqLd_strings new_URL url :
  strings (faqLd new_URL url)
  = removelast (strings (faqLd (fun _ _ => []) None)) ++ [absoluteUrl new_URL url (Some (js "/docs/faq/"))].
Proof. reflexivity. Qed.

Lemma faqLd_no_angle new_URL url :
  ~ In 60%N (absoluteUrl new_URL url (Some (js "/docs/faq/"))) ->
  forall s, In s (strings (faqLd new_URL url)) -> ~ In 60%N s.
Proof.
  intros Hu s. rewrite faqLd_strings, in_app_iff. intros [Hs|[<-|[]]]; [|exact Hu]. intros Hx.
  assert (Hok : forallb (fun s => negb (existsb (N.eqb 60) s)) (removelast (strings (faqLd (fun _ _ => []) None))) = true)
    by (vm_compute; reflexivity).
  rewrite forallb_forall in Hok. specialize (Hok s Hs). apply negb_true_iff in Hok.
  assert (existsb (N.eqb 60) s = true) by (apply existsb_exists; exists 60%N; now split). congruence.
Qed.

(** ** Witnesses *)

(** A base URL that ends without a slash, followed by the path. *)
Definition append_URL (p b : jsstring) : jsstring := filter (fun c => negb (c =? 10)%N) (b ++ p).

Lemma append_URL_line p b : ~ In 10%N (append_URL p b).
Proof. unfold append_URL. rewrite filter_In. now intros [_ H]. Qed.

Lemma follow_visits_all_witness : follow 12 (js "/docs/") = tl docsFlat.
Proof. exact (follow_visits_all 12 ltac:(vm_compute; lia)). Defined.

Lemma sitemap_complete_witness :
  length (filter is_loc (split1 10 (sitemap append_URL None (js "2026-01-02T03:04:05.678Z")))) = 14.
Proof.
  destruct (sitemap_complete append_URL None (js "2026-01-02T03:04:05.678Z") append_URL_line
              ltac:(apply no_break_spec; reflexivity)) as [E _].
  rewrite E. vm_compute. reflexivity.
Defined.

