(* ===== verification/SiteViews.v ===== *)
(** * Page furniture ([website/components])

    The header, the footer, the documentation sidebar, mobile menu and pager, the callouts and section
    headings, the FAQ preview and the FAQ page.  [usePathname()] is the argument [pathname]; [cn] is
    the class-name combinator of [lib/utils.ts], over two third-party packages, and [cva] the variant function
    of the interface primitives ([Ui.v]); both are parameters. *)

From Stdlib Require Import String List Arith NArith ZArith Lia Bool.
From S2P Require Import Prelude JsString Regex CodeBlock Dom Sorting Json Decor Ui Site.
Import ListNotations.
Local Open Scope list_scope.
Local Open Scope regex_scope.

(** An element with a class name, and one with more attributes. *)
Definition el (tag : string) (cls : jsstring) (kids : list vnode) : vnode := VEl tag [("className"%string, cls)] kids.
Definition link (href cls : jsstring) (kids : list vnode) : vnode :=
  VEl "Link" [("href"%string, href); ("className"%string, cls)] kids.
Definition external (href cls : jsstring) (kids : list vnode) : vnode :=
  VEl "a" [("href"%string, href); ("target"%string, js "_blank"); ("rel"%string, js "noreferrer"); ("className"%string, cls)] kids.

(** ** Header *)

Definition trailing_slash_re : regex := rch 47 · REol.

Definition isActive (pathname href : jsstring) : bool :=
  if jseqb href (js "/") then jseqb pathname (js "/")
  else if jseqb href (js "/docs/") then startsWith pathname (js "/docs")
  else startsWith pathname (replace_first trailing_slash_re href).

(** The mobile menu: [onOpenChange] reports the wanted state, a link closes it. *)
Inductive menu_event := openChange (b : bool) | linkClick.
Definition menu_step (open : bool) (e : menu_event) : bool :=
  match e with openChange b => b | linkClick => false end.

Section Views.
Context (cn : list jsstring -> jsstring) (cva : cva_config -> cva_props -> jsstring).

Definition Logo (className : option jsstring) (withWordmark : option bool) : vnode :=
  el "span" (cn (js "inline-flex items-center gap-2.5" :: cls_opt className))
    ([VEl "img" [("src", js "/kubecell-logo.svg"); ("alt", js "KubeCell logo"); ("width", js "36"); ("height", js "39");
                 ("className", js "h-9 w-auto")]%string []]
     ++ when (default_of true withWordmark)
          (el "span" (js "text-[17px] font-semibold tracking-tight text-foreground")
             [VText (js "Kube"); el "span" (js "text-sky-400") [VText (js "Cell")]])).

Definition SiteHeader (pathname : jsstring) (open : bool) : vnode :=
  el "header" (js "sticky top-0 z-50 w-full border-b border-white/5 bg-background/70 backdrop-blur-xl")
    [el "div" (js "container-page flex h-16 items-center justify-between gap-4")
       [VEl "Link" [("href", js "/"); ("className", js "shrink-0"); ("aria-label", js "KubeCell home")]%string [Logo None None];
        VEl "nav" [("className", js "hidden items-center gap-1 md:flex"); ("aria-label", js "Primary")]%string
          (map (fun item =>
                  keyed (n_href item) (link (n_href item)
                    (cn (js "rounded-md px-3 py-2 text-sm text-muted-foreground transition-colors hover:bg-white/5 hover:text-foreground"
                         :: cls_if (isActive pathname (n_href item)) (js "text-foreground")))
                    [VText (n_title item)])) primaryNav);
        el "div" (js "flex items-center gap-2")
          [Button cn cva (Some bv_ghost) (Some bs_sm) (Some true) (Some (js "hidden sm:inline-flex")) []
             [VEl "a" [("href"%string, site_github); ("target"%string, js "_blank"); ("rel"%string, js "noreferrer")]
                [el "Github" (js "h-4 w-4") []; el "span" (js "ml-1.5") [VText (js "GitHub")]]];
           Button cn cva None (Some bs_sm) (Some true) (Some (js "hidden sm:inline-flex")) []
             [VEl "Link" [("href"%string, js "/quickstart/")] [VText (js "Get started")]];
           Sheet [("open"%string, if open then js "true" else js "false")]
             [SheetTrigger [sv "asChild" (js "true")]
                [Button cn cva (Some bv_ghost) (Some bs_icon) None (Some (js "md:hidden")) [sv "aria-label" (js "Open menu")]
                   [el "Menu" (js "h-5 w-5") []]];
              SheetContent cn cva (Some side_right) (Some (js "w-80 border-white/10 bg-[#070c17]")) []
                [SheetHeader cn None [] [SheetTitle cn (Some (js "text-left")) [] [Logo None None]];
                 VEl "nav" [("className", js "mt-6 flex flex-col gap-1"); ("aria-label", js "Mobile")]%string
                   (map (fun item =>
                           keyed (n_href item) (link (n_href item)
                             (cn (js "rounded-lg px-3 py-2.5 text-sm text-muted-foreground transition-colors hover:bg-white/5 hover:text-foreground"
                                  :: cls_if (isActive pathname (n_href item)) (js "bg-white/5 text-foreground")))
                             [VText (n_title item)])) primaryNav
                    ++ [external site_github
                          (js "mt-2 flex items-center gap-2 rounded-lg px-3 py-2.5 text-sm text-muted-foreground transition-colors hover:bg-white/5 hover:text-foreground")
                          [el "Github" (js "h-4 w-4") []; VText (js "GitHub")]]);
                 el "div" (js "mt-6")
                   [Button cn cva None None (Some true) (Some (js "w-full")) [] [VEl "Link" [("href"%string, js "/quickstart/")] [VText (js "Get started")]]]]]]]].

(** ** Footer *)

Definition projectLinks : list NavLink :=
  [{| n_title := js "GitHub repository"; n_href := site_github |};
   {| n_title := js "Technical design"; n_href := site_docs_design |};
   {| n_title := js "Host onboarding guide"; n_href := site_docs_onboarding |};
   {| n_title := js "CI plan"; n_href := site_docs_ciPlan |};
   {| n_title := js "Issues"; n_href := site_githubIssues |}].

Definition footer_link (href title : jsstring) : vnode :=
  VEl "li" [] [link href (js "text-muted-foreground transition-colors hover:text-foreground") [VText title]].

Definition SiteFooter (year : nat) : vnode :=
  el "footer" (js "border-t border-white/5 bg-[#04060d]")
    [el "div" (js "container-page py-14")
       [el "div" (js "grid gap-10 lg:grid-cols-[1.4fr_1fr_1fr_1fr]")
          [el "div" (js "max-w-sm")
             [Logo None None;
              el "p" (js "mt-4 text-sm leading-6 text-muted-foreground")
                [VText (js "Give every developer their own isolated Kubernetes cluster on the hardware you already own — with hard CPU, memory, and GPU quotas, persistent storage, and standard kubectl.")];
              el "p" (js "mt-4 text-xs leading-5 text-amber-300/80")
                [VText (js "KubeCell is in active development and not yet stable. Do not use it for production workloads.")]];
           VEl "div" []
             [el "h3" (js "text-sm font-semibold text-foreground") [VText (js "Product")];
              el "ul" (js "mt-4 space-y-2.5 text-sm")
                (map (fun item => keyed (n_href item) (footer_link (n_href item) (n_title item))) primaryNav
                 ++ [footer_link (js "/docs/faq/") (js "FAQ")])];
           VEl "div" []
             [el "h3" (js "text-sm font-semibold text-foreground") [VText (js "Documentation")];
              el "ul" (js "mt-4 space-y-2.5 text-sm")
                (map (fun item => keyed (d_href item) (footer_link (d_href item) (d_title item))) (slice 0 6 docsFlat))];
           VEl "div" []
             [el "h3" (js "text-sm font-semibold text-foreground") [VText (js "Project")];
              el "ul" (js "mt-4 space-y-2.5 text-sm")
                (map (fun item =>
                        VEl "li" [sv "key" (n_href item)]
                          [external (n_href item)
                             (js "inline-flex items-center gap-1.5 text-muted-foreground transition-colors hover:text-foreground")
                             [VText (n_title item); el "Github" (js "h-3.5 w-3.5 opacity-60") []]]) projectLinks)]];
        el "div" (js "mt-12 flex flex-col gap-3 border-t border-white/5 pt-6 text-xs text-muted-foreground sm:flex-row sm:items-center sm:justify-between")
          [VEl "p" [] [VText (js "© "); VText (nat_to_js year); VText (js " KubeCell contributors. Built in the open on GitHub.")];
           el "p" (js "font-mono") [VText (js "Open source · pre-release · built on Kubernetes")]]]].

(** ** Documentation *)

Definition pager_class : jsstring :=
  js "group rounded-xl border border-white/10 bg-white/[0.02] p-4 transition-colors hover:border-sky-400/30".

Definition DocsPager (pathname : jsstring) : option vnode :=
  let n := docNeighbors pathname in
  match previous n, next n with
  | None, None => None
  | prev, nxt =>
      Some
        (el "div" (js "mt-16 grid gap-4 border-t border-white/5 pt-8 sm:grid-cols-2")
           (match prev with
            | Some p =>
                link (d_href p) pager_class
                  [el "span" (js "inline-flex items-center gap-1.5 text-xs text-muted-foreground")
                     [el "ArrowLeft" (js "h-3.5 w-3.5 transition-transform group-hover:-translate-x-0.5") []; VText (js "Previous")];
                   el "p" (js "mt-1.5 text-sm font-medium text-foreground") [VText (d_title p)]]
            | None => VEl "div" [] []
            end
            :: when_some nxt (fun d =>
                 link (d_href d) (js "group rounded-xl border border-white/10 bg-white/[0.02] p-4 text-right transition-colors hover:border-sky-400/30 sm:col-start-2")
                   [el "span" (js "inline-flex items-center gap-1.5 text-xs text-muted-foreground")
                      [VText (js "Next"); el "ArrowRight" (js "h-3.5 w-3.5 transition-transform group-hover:translate-x-0.5") []];
                    el "p" (js "mt-1.5 text-sm font-medium text-foreground") [VText (d_title d)]])))
  end.

Definition sidebar_item (pathname : jsstring) (item : DocLink) : vnode :=
  let active := jseqb pathname (d_href item) in
  VEl "li" [sv "key" (d_href item)]
    [link (d_href item)
       (cn [js "-ml-px block border-l border-transparent py-1.5 pl-4 text-sm transition-colors";
            if active then js "border-sky-400 font-medium text-foreground"
            else js "text-muted-foreground hover:border-white/20 hover:text-foreground"])
       [VText (d_title item)]].

Definition DocsSidebar (pathname : jsstring) : vnode :=
  VEl "nav" [("aria-label", js "Documentation"); ("className", js "space-y-8")]%string
    (map (fun group =>
            VEl "div" [sv "key" (g_label group)]
              [el "p" (js "mb-3 font-mono text-[11px] font-medium uppercase tracking-[0.18em] text-muted-foreground") [VText (g_label group)];
               el "ul" (js "space-y-1 border-l border-white/10") (map (sidebar_item pathname) (g_items group))]) docsNav).

Definition DocsMobileNav (pathname : jsstring) : vnode :=
  let current := find (fun item => jseqb (d_href item) pathname) (flat_map g_items docsNav) in
  el "details" (js "group rounded-xl border border-white/10 bg-white/[0.02] lg:hidden")
    [el "summary" (js "flex cursor-pointer items-center justify-between px-4 py-3 text-sm font-medium text-foreground")
       [VEl "span" []
          (VText (js "Docs menu")
           :: when_some current (fun d => el "span" (js "text-muted-foreground") [VText (js " · "); VText (d_title d)]));
        el "span" (js "text-muted-foreground transition-transform group-open:rotate-45") [VText (js "+")]];
     el "div" (js "border-t border-white/5 px-4 py-4")
       (map (fun group =>
               VEl "div" [sv "key" (g_label group); sv "className" (js "mb-4 last:mb-0")]
                 [el "p" (js "mb-2 font-mono text-[10px] uppercase tracking-[0.18em] text-muted-foreground") [VText (g_label group)];
                  el "ul" (js "space-y-1")
                    (map (fun item =>
                            VEl "li" [sv "key" (d_href item)]
                              [link (d_href item)
                                 (cn [js "block rounded-md px-2 py-1.5 text-sm";
                                      if jseqb pathname (d_href item) then js "bg-white/5 font-medium text-foreground"
                                      else js "text-muted-foreground"])
                                 [VText (d_title item)]]) (g_items group))]) docsNav)].

Inductive callout_variant := v_info | v_warning | v_tip.
Record callout_style := { st_wrapper : jsstring; st_icon : jsstring; st_Icon : string }.

Definition styles (v : callout_variant) : callout_style :=
  match v with
  | v_info => {| st_wrapper := js "border-sky-400/20 bg-sky-500/[0.06]"; st_icon := js "text-sky-300"; st_Icon := "Info" |}
  | v_warning => {| st_wrapper := js "border-amber-400/20 bg-amber-500/[0.06]"; st_icon := js "text-amber-300"; st_Icon := "AlertTriangle" |}
  | v_tip => {| st_wrapper := js "border-emerald-400/20 bg-emerald-500/[0.06]"; st_icon := js "text-emerald-300"; st_Icon := "Lightbulb" |}
  end.

Definition Callout (variant : option callout_variant) (title : option jsstring) (children : list vnode)
  (className : option jsstring) : vnode :=
  let style := styles (default_of v_info variant) in
  el "div" (cn ([js "my-6 flex gap-3 rounded-xl border p-4"; st_wrapper style] ++ cls_opt className))
    [el (st_Icon style) (cn [js "mt-0.5 h-4 w-4 shrink-0"; st_icon style]) [];
     el "div" (js "text-sm leading-6 text-foreground/85")
       (match title with
        | Some ((_ :: _) as t) => [el "p" (js "mb-1 font-semibold text-foreground") [VText t]]
        | _ => []
        end ++ children)].

Definition Prose (children : list vnode) (className : option jsstring) : vnode :=
  el "div" (cn (js "prose-kubecell" :: cls_opt className)) children.

(** ** Sections *)

Definition PageSection (id : option jsstring) (className : option jsstring) (children : list vnode) : vnode :=
  VEl "section"
    (match id with Some i => [("id"%string, i)] | None => [] end
     ++ [("className"%string, cn (js "relative py-20 sm:py-24" :: cls_opt className))])
    [el "div" (js "container-page") children].

Inductive heading_align := a_center | a_left.

Definition SectionHeading (eyebrow : option jsstring) (title : list vnode) (description : option (list vnode))
  (align : option heading_align) (className : option jsstring) : vnode :=
  el "div"
    (cn ([js "max-w-3xl";
          match default_of a_center align with a_center => js "mx-auto text-center" | a_left => js "text-left" end]
         ++ cls_opt className))
    (match eyebrow with
     | Some ((_ :: _) as e) =>
         [el "p" (js "mb-3 font-mono text-xs font-medium uppercase tracking-[0.2em] text-sky-400") [VText e]]
     | _ => []
     end
     ++ [el "h2" (js "text-balance text-3xl font-semibold tracking-tight text-foreground sm:text-4xl") title]
     ++ when_some description
          (el "p" (js "mt-4 text-pretty text-base leading-7 text-muted-foreground sm:text-lg"))).

Definition PageHero (eyebrow : jsstring) (title description : list vnode) (children : option (list vnode)) : vnode :=
  el "div" (js "relative overflow-hidden border-b border-white/5")
    [el "div" (js "pointer-events-none absolute inset-0 bg-grid-faint opacity-60") [];
     el "div" (js "pointer-events-none absolute -top-40 left-1/2 h-80 w-[46rem] -translate-x-1/2 rounded-full bg-sky-500/10 blur-3xl") [];
     el "div" (js "container-page relative py-20 sm:py-24")
       ([el "p" (js "mb-3 font-mono text-xs font-medium uppercase tracking-[0.2em] text-sky-400") [VText eyebrow];
         el "h1" (js "max-w-3xl text-balance text-4xl font-semibold tracking-tight text-foreground sm:text-5xl") title;
         el "div" (js "mt-5 max-w-2xl text-pretty text-base leading-7 text-muted-foreground sm:text-lg") description]
        ++ when_some children (el "div" (js "mt-8 flex flex-wrap items-center gap-3")))].

(** ** FAQ *)

Definition faq_item (value : jsstring) (item : FaqItem) : vnode :=
  AccordionItem cn None [sv "value" value]
    [AccordionTrigger cn (Some (js "text-left text-[15px] font-medium hover:text-sky-300")) [] [VText (question item)];
     AccordionContent cn (Some (js "text-sm leading-6 text-muted-foreground")) [] [VText (answer item)]].

Definition FaqPreview : vnode :=
  el "section" (js "relative py-20 sm:py-24")
    [el "div" (js "container-page")
       [el "div" (js "grid gap-10 lg:grid-cols-[0.9fr_1.1fr] lg:gap-16")
          [SectionHeading (Some (js "FAQ")) [VText (js "Questions engineers ask first")]
             (Some [VText (js "Design trade-offs worth knowing before you install anything.")]) (Some a_left) None;
           VEl "div" []
             [Accordion [("type", js "single"); ("collapsible", js "true"); ("className", js "w-full")]%string
                (map (fun item => keyed (question item) (faq_item (question item) item)) (slice 0 5 faqItems));
              el "p" (js "mt-6 text-sm text-muted-foreground")
                [VText (js "More questions answered in the"); VText (js " ");
                 link (js "/docs/faq/") (js "font-medium text-sky-400 hover:text-sky-300") [VText (js "full FAQ")];
                 VText (js ".")]]]]].

Definition FaqPage (ld : json) : list vnode :=
  [JsonLd ld;
   Prose
     [el "p" (js "font-mono text-xs uppercase tracking-[0.2em] text-sky-400") [VText (js "Guides")];
      el "h1" (js "mt-3 text-3xl font-semibold tracking-tight text-foreground sm:text-4xl") [VText (js "Frequently asked questions")];
      el "p" (js "mt-5 text-base leading-7 text-muted-foreground")
        [VText (js "Short answers to the questions that come up in every design review.")];
      el "div" (js "not-prose mt-8")
        [Accordion [("type", js "single"); ("collapsible", js "true"); ("className", js "w-full")]%string
           (map (fun p => keyed (question (snd p)) (faq_item (js "item-" ++ nat_to_js (fst p)) (snd p))) (combine (seq 0 (length faqItems)) faqItems))];
      el "p" (js "mt-10")
        [VText (js "Still stuck? The ");
         VEl "Link" [("href"%string, js "/docs/troubleshooting/")] [VText (js "troubleshooting guide")];
         VText (js " covers symptom-first diagnosis, and the"); VText (js " ");
         VEl "a" [("href"%string, js "https://github.com/taosher/KubeCell/blob/main/technical-design.md")] [VText (js "technical design")];
         VText (js " "); VText (js "is the authoritative answer for anything not listed here.")]] None].
End Views.

(** ** Links *)

Definition hrefs (vs : list vnode) : list jsstring := flat_map (collect "Link" "href") vs.

(** Membership by evaluation. *)
Definition in_routes (l : list jsstring) : bool :=
  forallb (fun x => existsb (jseqb x) (map r_path routes)) l.

Lemma in_routes_incl l : in_routes l = true -> incl l (map r_path routes).
Proof.
  unfold in_routes. rewrite forallb_forall. intros H x Hx. specialize (H x Hx). apply existsb_exists in H.
  destruct H as (y & Hy & E). apply jseqb_eq in E. now subst.
Qed.

Lemma doc_route_path d : In d docsFlat -> In (d_href d) (map r_path routes).
Proof.
  intros H. apply (in_routes_incl (map d_href docsFlat)); [vm_compute; reflexivity|]. now apply in_map.
Qed.

Lemma docNeighbors_In p d :
  previous (docNeighbors p) = Some d \/ next (docNeighbors p) = Some d -> In d docsFlat.
Proof.
  unfold docNeighbors, neighbors. destruct (findIndex _ docsFlat) as [i|]; cbn [previous next]; [|intuition discriminate].
  intros [H|H]; case_hyp H; try discriminate; now apply nth_error_In in H.
Qed.

Lemma pager_links pathname v : DocsPager pathname = Some v -> incl (collect "Link" "href" v) (map r_path routes).
Proof.
  unfold DocsPager. intros H.
  assert (Hd : forall d, previous (docNeighbors pathname) = Some d \/ next (docNeighbors pathname) = Some d ->
                 In (d_href d) (map r_path routes))
    by (intros d Hd; now apply doc_route_path, docNeighbors_In with pathname).
  destruct (previous (docNeighbors pathname)) as [p|], (next (docNeighbors pathname)) as [n|];
    inv H; intros x Hx; cbn in Hx; intuition (subst; auto).
Qed.

(** Every internal link of the page furniture leads to a page of the sitemap, on every path and
    in every state of the menu. *)
Theorem internal_links_resolve cn cva pathname open year ld :
  incl (hrefs ([SiteHeader cn cva pathname open; SiteFooter cn year; DocsSidebar cn pathname;
                DocsMobileNav cn pathname; FaqPreview cn] ++ FaqPage cn ld
               ++ match DocsPager pathname with Some v => [v] | None => [] end))
       (map r_path routes).
Proof.
  unfold hrefs. rewrite !flat_map_app. apply incl_app; [|apply incl_app].
  - apply in_routes_incl. unfold DocsMobileNav.
    destruct (find (fun item => jseqb (d_href item) pathname) (flat_map g_items docsNav)); vm_compute; reflexivity.
  - apply in_routes_incl. vm_compute. reflexivity.
  - destruct (DocsPager pathname) as [v|] eqn:E; [|intros x []]. cbn [flat_map]. rewrite app_nil_r.
    now apply pager_links with pathname.
Qed.

(** ** Highlighting the current page *)

Lemma jseqb_sym a b : jseqb a b = jseqb b a.
Proof.
  destruct (jseqb b a) eqn:E; [apply jseqb_eq in E; now rewrite E, jseqb_refl|].
  apply jseqb_neq in E. apply jseqb_neq. congruence.
Qed.

Lemma filter_unique docs p :
  NoDup (map d_href docs) ->
  length (filter (fun d => jseqb p (d_href d)) docs) = if existsb (jseqb p) (map d_href docs) then 1 else 0.
Proof.
  induction docs as [|d docs IH]; [reflexivity|]. cbn [map]. intros Hn. inversion Hn as [|? ? Hx Hl]; subst.
  cbn [filter existsb]. destruct (jseqb p (d_href d)) eqn:E; cbn [orb length]; rewrite IH by exact Hl; [|reflexivity].
  apply jseqb_eq in E. subst p.
  destruct (existsb (jseqb (d_href d)) (map d_href docs)) eqn:Ex; [|reflexivity]. exfalso. apply Hx.
  apply existsb_exists in Ex. destruct Ex as (y & Hy & Ey). apply jseqb_eq in Ey. now subst.
Qed.

Definition active_class : jsstring :=
  js "-ml-px block border-l border-transparent py-1.5 pl-4 text-sm transition-colors border-sky-400 font-medium text-foreground".

Lemma sidebar_classes pathname ds :
  length (filter (jseqb active_class) (flat_map (fun d => collect "Link" "className" (sidebar_item (join [32%N]) pathname d)) ds))
  = length (filter (fun d => jseqb pathname (d_href d)) ds).
Proof.
  induction ds as [|d ds IH]; [reflexivity|]. cbn [flat_map filter]. rewrite filter_app, length_app, IH.
  unfold sidebar_item. destruct (jseqb pathname (d_href d)); reflexivity.
Qed.

Lemma sidebar_items pathname cls :
  flat_map (collect "Link" cls) (match DocsSidebar (join [32%N]) pathname with VEl _ _ kids => kids | _ => [] end)
  = flat_map (fun d => collect "Link" cls (sidebar_item (join [32%N]) pathname d)) docsFlat.
Proof.
  unfold DocsSidebar, docsFlat. induction docsNav as [|g gs IH]; [reflexivity|].
  cbn [map flat_map]. rewrite flat_map_app, <- IH. f_equal. cbn [collect flat_map el String.eqb Ascii.eqb Bool.eqb app].
  rewrite !app_nil_r. induction (g_items g) as [|d ds IHd]; [reflexivity|]. cbn [map flat_map]. now rewrite IHd.
Qed.

Lemma sidebar_highlight pathname :
  length (filter (jseqb active_class) (collect "Link" "className" (DocsSidebar (join [32%N]) pathname)))
  = if existsb (jseqb pathname) (map d_href docsFlat) then 1 else 0.
Proof.
  assert (E : collect "Link" "className" (DocsSidebar (join [32%N]) pathname)
              = flat_map (fun d => collect "Link" "className" (sidebar_item (join [32%N]) pathname d)) docsFlat)
    by (rewrite <- sidebar_items; reflexivity).
  rewrite E, sidebar_classes. apply filter_unique, docsFlat_NoDup.
Qed.

Lemma header_active p :
  In p (map r_path routes) ->
  map n_href (filter (fun item => isActive p (n_href item)) primaryNav)
  = if jseqb p (js "/") then [] else if startsWith p (js "/docs/") then [js "/docs/"] else [p].
Proof.
  intros H. revert p H. apply Forall_forall. repeat (apply Forall_cons; [vm_compute; reflexivity|]). constructor.
Qed.

(** The FAQ page renders every question with its answer, in order, and each entry has its own
    accordion value. *)
Theorem FaqPage_complete cn ld :
  flat_map (fun v => match v with VEl _ _ kids => map textContent kids | VText _ => [] end)
    (match nth_error (FaqPage cn ld) 1 with
     | Some (VEl _ _ kids) => match nth_error kids 3 with Some (VEl _ _ [VEl _ _ items]) => items | _ => [] end
     | _ => []
     end)
  = flat_map (fun item => [question item; answer item]) faqItems /\
  NoDup (flat_map (collect "AccordionPrimitive.Item" "value") (FaqPage cn ld)).
Proof.
  split; [vm_compute; reflexivity|].
  apply (NoDup_by_set (list_eq_dec N.eq_dec)). vm_compute. reflexivity.
Qed.

(** The sidebar highlights exactly one entry on a documentation page and none elsewhere; and on
    every page of the site the header marks the primary entry the page belongs to and no other: none
    on the home page, the documentation entry on every documentation page, and the page's own entry
    elsewhere. *)
Theorem navigation_marks pathname :
  length (filter (jseqb active_class) (collect "Link" "className" (DocsSidebar (join [32%N]) pathname)))
  = (if existsb (jseqb pathname) (map d_href docsFlat) then 1 else 0) /\
  (In pathname (map r_path routes) ->
   map n_href (filter (fun item => isActive pathname (n_href item)) primaryNav)
   = if jseqb pathname (js "/") then [] else if startsWith pathname (js "/docs/") then [js "/docs/"] else [pathname]).
Proof. split; [apply sidebar_highlight|apply header_active]. Qed.

Lemma navigation_marks_witness :
  map n_href (filter (fun item => isActive (js "/docs/faq/") (n_href item)) primaryNav) = [js "/docs/"].
Proof.
  assert (H : In (js "/docs/faq/") (map r_path routes)) by (apply (in_routes_incl [js "/docs/faq/"]); [reflexivity|now left]).
  exact (proj2 (navigation_marks (js "/docs/faq/")) H).
Defined.
