(* ===== verification/TypingAnimation.v ===== *)
(** * The typing animation ([website/components/magicui/typing-animation.tsx])

    The component types words, pauses, deletes them and goes on to the next one.  Its state changes
    only in the callback of the timeout its effect sets ([tick]); a change of state makes the effect
    set the next timeout, and a callback that changes nothing ends the animation.  [Array.from]
    splits a word into code points. *)

From Stdlib Require Import String List Arith NArith ZArith Lia Bool.
From S2P Require Import Prelude JsString JsNum Dom.
Import ListNotations.
Local Open Scope list_scope.

Inductive typing_phase := typing | pause | deleting.

Record typing_state := TySt {
  displayedText : jsstring; currentWordIndex : nat; currentCharIndex : nat; phase : typing_phase }.

Inductive cursor_style := c_line | c_block | c_underscore.

Record TypingAnimationProps := {
  p_children : option jsstring; p_words : option (list jsstring); p_className : option jsstring;
  p_duration : option num; p_typeSpeed : option num; p_deleteSpeed : option num; p_delay : option num;
  p_pauseDelay : option num; p_loop : option bool; p_as : option string; p_startOnView : option bool;
  p_showCursor : option bool; p_blinkCursor : option bool; p_cursorStyle : option cursor_style;
  p_rest : list (string * jsstring) }.

(** [words ?? (children ? [children] : [])]. *)
Definition wordsToAnimate (props : TypingAnimationProps) : list jsstring :=
  match p_words props with
  | Some ws => ws
  | None => match p_children props with Some ((_ :: _) as c) => [c] | _ => [] end
  end.

Definition animationSourceKey (props : TypingAnimationProps) : jsstring :=
  match p_words props with
  | Some ws => join [0%N] ws
  | None => default_of [] (p_children props)
  end.

Definition typingSpeed (props : TypingAnimationProps) : num :=
  default_of (default_of (nof 100) (p_duration props)) (p_typeSpeed props).
Definition deletingSpeed (props : TypingAnimationProps) : num :=
  default_of (ndiv (typingSpeed props) (nof 2)) (p_deleteSpeed props).

(** The state the first effect sets when the source changes. *)
Definition reset : typing_state := TySt [] 0 0 typing.

(** The delay of the timeout, when the effect sets one. *)
Definition timeoutDelay (props : TypingAnimationProps) (isInView : bool) (st : typing_state) : option num :=
  let delay := default_of (nof 0) (p_delay props) in
  let shouldStart := if default_of true (p_startOnView props) then isInView else true in
  if shouldStart && (0 <? length (wordsToAnimate props)) then
    Some (if nlt (nof 0) delay && jseqb (displayedText st) [] then delay
          else match phase st with
               | typing => typingSpeed props
               | deleting => deletingSpeed props
               | pause => default_of (nof 1000) (p_pauseDelay props)
               end)
  else None.

Section Tick.
Context (words : list jsstring) (loop : bool).

Definition currentWord (st : typing_state) : jsstring := nth (currentWordIndex st) words [].
Definition graphemes (st : typing_state) : list jsstring := code_points (currentWord st).
Definition hasMultipleWords : bool := 1 <? length words.

(** The callback of the timeout. *)
Definition tick (st : typing_state) : typing_state :=
  match phase st with
  | typing =>
      if currentCharIndex st <? length (graphemes st) then
        TySt (concat (slice 0 (currentCharIndex st + 1) (graphemes st))) (currentWordIndex st)
             (currentCharIndex st + 1) typing
      else if hasMultipleWords || loop then
        let isLastWord := currentWordIndex st =? length words - 1 in
        if negb isLastWord || loop then TySt (displayedText st) (currentWordIndex st) (currentCharIndex st) pause
        else st
      else st
  | pause => TySt (displayedText st) (currentWordIndex st) (currentCharIndex st) deleting
  | deleting =>
      if 0 <? currentCharIndex st then
        TySt (concat (slice 0 (currentCharIndex st - 1) (graphemes st))) (currentWordIndex st)
             (currentCharIndex st - 1) deleting
      else TySt (displayedText st) ((currentWordIndex st + 1) mod length words) (currentCharIndex st) typing
  end.

Definition isComplete (st : typing_state) : bool :=
  negb loop && (currentWordIndex st =? length words - 1) && (length (graphemes st) <=? currentCharIndex st)
  && match phase st with deleting => false | _ => true end.

Definition shouldShowCursor (showCursor : bool) (st : typing_state) : bool :=
  showCursor && negb (isComplete st)
  && (hasMultipleWords || loop || (currentCharIndex st <? length (graphemes st))).
End Tick.

Definition getCursorChar (style : cursor_style) : jsstring :=
  match style with c_block => js "▌" | c_underscore => js "_" | c_line => js "|" end.

Definition TypingAnimation (cn : list jsstring -> jsstring) (props : TypingAnimationProps) (st : typing_state) : vnode :=
  let Component := default_of "span"%string (p_as props) in
  VEl ("motion." ++ Component)%string
    (("className"%string,
       cn (js "leading-20 tracking-[-0.02em]"
           :: cls_if (String.eqb Component "span") (js "inline-block") ++ cls_opt (p_className props)))
     :: p_rest props)
    (VText (displayedText st)
     :: when (shouldShowCursor (wordsToAnimate props) (default_of false (p_loop props))
                (default_of true (p_showCursor props)) st)
          (VEl "span"
             [("className"%string,
                cn (js "inline-block" :: cls_if (default_of true (p_blinkCursor props)) (js "animate-blink-cursor")))]
             [VText (getCursorChar (default_of c_line (p_cursorStyle props)))])).

(** ** The run of the animation *)

Definition run (words : list jsstring) (loop : bool) (n : nat) : typing_state := iterate n (tick words loop) reset.

(** The state that shows the first [k] code points of word [w]. *)
Definition at_word (words : list jsstring) (w k : nat) (p : typing_phase) : typing_state :=
  TySt (concat (firstn k (code_points (nth w words [])))) w k p.

Definition well_formed (words : list jsstring) (st : typing_state) : Prop :=
  currentWordIndex st < length words /\ currentCharIndex st <= length (graphemes words st) /\
  displayedText st = concat (firstn (currentCharIndex st) (graphemes words st)).

Section Run.
Context (words : list jsstring) (loop : bool) (nonempty : words <> []).

Lemma words_pos : 0 < length words.
Proof using nonempty. destruct words; [congruence|cbn; lia]. Qed.

Lemma tick_wf st : well_formed words st -> well_formed words (tick words loop st).
Proof using nonempty.
  intros (Hw & Hc & Hd). pose proof words_pos. unfold tick, well_formed, graphemes, currentWord in *.
  destruct st as [d w c p]. cbn [displayedText currentWordIndex currentCharIndex phase] in *. unfold slice. cbn [skipn].
  destruct p; cbn [displayedText currentWordIndex currentCharIndex phase]; auto.
  - destruct (Nat.ltb_spec c (length (code_points (nth w words [])))); cbn; [|repeat case_goal; cbn; auto].
    rewrite Nat.sub_0_r. repeat split; try lia.
  - destruct (Nat.ltb_spec 0 c); cbn; [rewrite Nat.sub_0_r; repeat split; lia|].
    assert (c = 0) as -> by lia. cbn in Hd. split; [apply Nat.mod_upper_bound; lia|]. split; [lia|exact Hd].
Qed.

Local Abbreviation len w := (length (code_points (nth w words []))) (only parsing).

Lemma type_step w k : k < len w -> tick words loop (at_word words w k typing) = at_word words w (S k) typing.
Proof.
  intros H. unfold tick, at_word, graphemes, currentWord, slice. cbn [phase currentCharIndex currentWordIndex].
  apply Nat.ltb_lt in H. rewrite H. cbn [skipn]. now rewrite Nat.sub_0_r, Nat.add_1_r.
Qed.

Lemma type_run w k : k <= len w -> iterate k (tick words loop) (at_word words w 0 typing) = at_word words w k typing.
Proof.
  induction k as [|k IH]; intros H; [reflexivity|]. cbn [iterate]. rewrite IH by lia. apply type_step. lia.
Qed.

Lemma delete_run w k : iterate k (tick words loop) (at_word words w k deleting) = at_word words w 0 deleting.
Proof.
  induction k as [|k IH]; [reflexivity|]. rewrite iterate_succ_r. etransitivity; [|exact IH]. f_equal.
  unfold tick, at_word, graphemes, currentWord, slice. cbn [phase currentCharIndex currentWordIndex].
  cbn [Nat.ltb Nat.leb skipn]. now rewrite Nat.sub_0_r, Nat.sub_succ, Nat.sub_0_r.
Qed.

(** One word typed, paused on and deleted, when another one is to follow. *)
Definition word_ticks (w : nat) : nat := S (len w + S (S (len w))).

Lemma word_run w :
  w < length words -> loop = true \/ w < length words - 1 ->
  iterate (word_ticks w) (tick words loop) (at_word words w 0 typing)
  = at_word words ((w + 1) mod length words) 0 typing.
Proof.
  intros Hw Hm. unfold word_ticks.
  change (S (len w + S (S (len w)))) with (1 + (len w + (1 + (1 + len w)))).
  rewrite !iterate_add. rewrite type_run by lia. cbn [iterate].
  assert (E1 : tick words loop (at_word words w (len w) typing) = at_word words w (len w) pause).
  { unfold tick, at_word, graphemes, currentWord, hasMultipleWords. cbn [phase currentCharIndex currentWordIndex].
    rewrite Nat.ltb_irrefl. destruct Hm as [->|Hm]; [rewrite !orb_true_r; reflexivity|].
    rewrite (proj2 (Nat.ltb_lt 1 (length words))) by lia. cbn [orb].
    now rewrite (proj2 (Nat.eqb_neq w (length words - 1))) by lia. }
  rewrite E1. change (tick words loop (at_word words w (len w) pause)) with (at_word words w (len w) deleting).
  rewrite delete_run. unfold tick, at_word. cbn. reflexivity.
Qed.

Lemma last_fixed w k :
  loop = false -> w = length words - 1 -> k = len w -> tick words loop (at_word words w k typing) = at_word words w k typing.
Proof.
  intros -> -> ->. unfold tick, at_word, graphemes, currentWord. cbn [phase currentCharIndex currentWordIndex].
  rewrite Nat.ltb_irrefl, Nat.eqb_refl. cbn. now destruct (hasMultipleWords words || false).
Qed.

(** The ticks needed to reach word [w]. *)
Fixpoint ticks_to (w : nat) : nat := match w with O => 0 | S v => word_ticks v + ticks_to v end.

Lemma reach_word w :
  w < length words -> iterate (ticks_to w) (tick words loop) (at_word words 0 0 typing) = at_word words w 0 typing.
Proof.
  induction w as [|w IH]; intros Hw; [reflexivity|]. cbn [ticks_to]. rewrite iterate_add, IH by lia.
  rewrite word_run by lia. now rewrite Nat.add_1_r, Nat.mod_small by lia.
Qed.
End Run.


(** Without looping the animation ends: after finitely many callbacks it shows the whole last
    word and no callback changes the state any more; it is then complete and the cursor is hidden. *)
Theorem typing_completes words :
  words <> [] ->
  exists n, forall m, n <= m ->
    let st := run words false m in
    displayedText st = last words [] /\ currentWordIndex st = length words - 1 /\
    tick words false st = st /\ isComplete words false st = true /\
    forall showCursor, shouldShowCursor words false showCursor st = false.
Proof.
  intros Hn. pose proof (words_pos words Hn). set (w := length words - 1).
  set (k := length (code_points (nth w words []))). exists (k + ticks_to words w).
  assert (E : run words false (k + ticks_to words w) = at_word words w k typing).
  { unfold run. rewrite iterate_add. change reset with (at_word words 0 0 typing).
    rewrite reach_word by (subst w; auto; lia). now apply type_run. }
  intros m Hm st. assert (Est : st = at_word words w k typing).
  { subst st. replace m with ((m - (k + ticks_to words w)) + (k + ticks_to words w)) by lia.
    unfold run in *. rewrite iterate_add, E. clear Hm. induction (m - (k + ticks_to words w)) as [|j IH]; [reflexivity|].
    cbn [iterate]. rewrite IH. now apply last_fixed. }
  assert (Hc : isComplete words false st = true).
  { rewrite Est. unfold isComplete, at_word, graphemes, currentWord. cbn [currentWordIndex currentCharIndex phase].
    fold w k. now rewrite Nat.eqb_refl, Nat.leb_refl. }
  repeat split; auto; try (rewrite Est; auto).
  - cbn. unfold k. rewrite firstn_all, code_points_concat. subst w. clear - Hn.
    destruct (exists_last Hn) as (l & x & ->). rewrite last_last, length_app, Nat.add_sub. cbn. apply nth_middle.
  - now apply last_fixed.
  - intros b. unfold shouldShowCursor. rewrite <- Est, Hc. now rewrite andb_false_r.
Qed.

(** With looping the animation is periodic: it returns to its initial state after a positive
    number of callbacks, having shown every word in full. *)
Theorem typing_loops words :
  words <> [] ->
  exists period, 0 < period /\ (forall n, run words true (n + period) = run words true n) /\
    forall w, w < length words -> exists n, n < period /\ displayedText (run words true n) = nth w words [].
Proof.
  intros Hn. pose proof (words_pos words Hn) as Hp. exists (ticks_to words (length words)).
  assert (Hlen : exists v, length words = S v) by (exists (length words - 1); lia). destruct Hlen as [v Hv].
  assert (E : run words true (ticks_to words (length words)) = reset).
  { unfold run. rewrite Hv. cbn [ticks_to]. rewrite iterate_add. change reset with (at_word words 0 0 typing) at 1.
    rewrite reach_word by (auto; lia). rewrite word_run by (auto; lia).
    now rewrite Nat.add_1_r, <- Hv, Nat.Div0.mod_same by lia. }
  split; [rewrite Hv; cbn; lia|]. split.
  - intros n. unfold run in *. now rewrite iterate_add, E.
  - intros w Hw. exists (length (code_points (nth w words [])) + ticks_to words w). split.
    + assert (Hm : forall a b, a <= b -> ticks_to words a <= ticks_to words b)
        by (intros a b; induction 1; cbn; lia).
      specialize (Hm (S w) (length words) ltac:(lia)). cbn in Hm. unfold word_ticks in Hm. lia.
    + unfold run. rewrite iterate_add. change reset with (at_word words 0 0 typing). rewrite reach_word by auto.
      rewrite type_run by lia. cbn. now rewrite firstn_all, code_points_concat.
Qed.

(** ** Witnesses *)

Definition demo_words : list jsstring := [js "kubectl"; js "😀 ok"].


Lemma typing_completes_witness :
  exists n, forall m, n <= m ->
    let st := run demo_words false m in
    displayedText st = last demo_words [] /\ currentWordIndex st = length demo_words - 1 /\
    tick demo_words false st = st /\ isComplete demo_words false st = true /\
    forall showCursor, shouldShowCursor demo_words false showCursor st = false.
Proof. exact (typing_completes demo_words ltac:(discriminate)). Defined.

Lemma typing_loops_witness :
  exists period, 0 < period /\ (forall n, run demo_words true (n + period) = run demo_words true n) /\
    forall w, w < length demo_words -> exists n, n < period /\ displayedText (run demo_words true n) = nth w demo_words [].
Proof. exact (typing_loops demo_words ltac:(discriminate)). Defined.
