(* ===== verification/Terminal.v ===== *)
(** * The animated terminal ([website/components/magicui/terminal.tsx])

    A terminal shows its items in order: an item starts when it is the active one, and completing it
    makes the next one active.  A typing item writes its text one code unit at a time from an
    interval timer; a span is animated by the motion library, which reports the end of an animation.
    The state of the terminal is the active index, whether it has come into view, and the state of
    every item; an event is a timer callback, an effect that runs, or a notification.  The model
    covers both modes: with [sequence] and without it, where every item starts on its own. *)

From Stdlib Require Import String List Arith NArith ZArith Lia Bool.
From S2P Require Import Prelude JsString JsNum NumText Dom.
Import ListNotations.
Local Open Scope list_scope.

(** ** State *)

Inductive item_kind := k_typing (children : jsstring) | k_span.

(** [started] is [hasStarted] for a span; [i] and [interval] are the variables of the typing effect. *)
Record item_state := Item { started : bool; displayedText : jsstring; i : nat; interval : bool }.

Record term_state := Term { activeIndex : nat; isInView : bool; item_states : list item_state }.

Definition item_init : item_state := Item false [] 0 false.

Record TerminalProps := { t_items : list item_kind; t_className : option jsstring;
                          t_sequence : option bool; t_startOnView : option bool }.

Definition sequence_on (props : TerminalProps) : bool := default_of true (t_sequence props).

Definition sequenceHasStarted (props : TerminalProps) (st : term_state) : bool :=
  if sequence_on props then negb (default_of true (t_startOnView props)) || isInView st else false.

Definition term_init (props : TerminalProps) : term_state := Term 0 false (map (fun _ => item_init) (t_items props)).

(** [setActiveIndex((current) => (index === current ? current + 1 : current))]. *)
Definition completeItem (index : nat) (st : term_state) : term_state :=
  Term (if index =? activeIndex st then activeIndex st + 1 else activeIndex st) (isInView st) (item_states st).

(** An array update in range; an index out of range names no item. *)
Fixpoint update (l : list item_state) (k : nat) (x : item_state) : list item_state :=
  match l, k with
  | [], _ => []
  | _ :: l', O => x :: l'
  | y :: l', S k' => y :: update l' k' x
  end.

Definition set_item (k : nat) (x : item_state) (st : term_state) : term_state :=
  Term (activeIndex st) (isInView st) (update (item_states st) k x).

(** ** Events *)

(** Starting a typing item runs the effect that creates its interval, with [i] at zero. *)
Definition start_item (kind : item_kind) (s : item_state) : item_state :=
  match kind with
  | k_typing _ => Item true (displayedText s) 0 true
  | k_span => Item true (displayedText s) (i s) (interval s)
  end.

(** The start effect of an item of a sequence. *)
Definition start_effect (props : TerminalProps) (k : nat) (st : term_state) : term_state :=
  match nth_error (t_items props) k, nth_error (item_states st) k with
  | Some kind, Some s =>
      if sequenceHasStarted props st && negb (started s) && (activeIndex st =? k)
      then set_item k (start_item kind s) st else st
  | _, _ => st
  end.

(** The start timeout of a typing item outside a sequence. *)
Definition start_timeout (props : TerminalProps) (startOnView inView : bool) (k : nat) (st : term_state) : term_state :=
  match nth_error (t_items props) k, nth_error (item_states st) k with
  | Some (k_typing c), Some s =>
      if negb (sequence_on props) && (negb startOnView || inView) && negb (started s)
      then set_item k (start_item (k_typing c) s) st else st
  | _, _ => st
  end.

(** The callback of the typing interval. *)
Definition typing_tick (props : TerminalProps) (k : nat) (st : term_state) : term_state :=
  match nth_error (t_items props) k, nth_error (item_states st) k with
  | Some (k_typing children), Some s =>
      if interval s then
        if i s <? length children
        then set_item k (Item (started s) (slice 0 (i s + 1) children) (i s + 1) true) st
        else
          let st' := set_item k (Item (started s) (displayedText s) (i s) false) st in
          if sequence_on props then completeItem k st' else st'
      else st
  | _, _ => st
  end.

(** [onAnimationComplete] of a span. *)
Definition animation_complete (props : TerminalProps) (k : nat) (st : term_state) : term_state :=
  match nth_error (t_items props) k with
  | Some k_span => if sequence_on props then completeItem k st else st
  | _ => st
  end.

Inductive term_event :=
| ev_view
| ev_start (k : nat)
| ev_start_timeout (startOnView inView : bool) (k : nat)
| ev_tick (k : nat)
| ev_animated (k : nat).

Definition term_step (props : TerminalProps) (st : term_state) (e : term_event) : term_state :=
  match e with
  | ev_view => Term (activeIndex st) true (item_states st)
  | ev_start k => start_effect props k st
  | ev_start_timeout s v k => start_timeout props s v k st
  | ev_tick k => typing_tick props k st
  | ev_animated k => animation_complete props k st
  end.

Definition term_run (props : TerminalProps) (es : list term_event) (st : term_state) : term_state :=
  fold_left (term_step props) es st.

(** ** Views *)

Section Views.
Context (cn : list jsstring -> jsstring).

(** [shouldAnimate] of a span. *)
Definition shouldAnimate (sequence : bool) (hasStarted startOnView inView : bool) : bool :=
  if sequence then hasStarted else if startOnView then inView else true.

Definition AnimatedSpan (sequence : bool) (s : item_state) (delay : option num) (startOnView : option bool)
  (inView : bool) (className : option jsstring) (rest : list (string * jsstring)) (children : list vnode) : vnode :=
  VEl "motion.div"
    ([("initial"%string, js "opacity:0,y:-5");
     ("animate"%string,
       if shouldAnimate sequence (started s) (default_of false startOnView) inView then js "opacity:1,y:0" else js "opacity:0,y:-5");
     ("transition.duration"%string, js "0.3");
     ("transition.delay"%string,
       num_to_js (if sequence then nof 0 else ndiv (default_of (nof 0) delay) (nof 1000)));
     ("className"%string, cn (js "grid text-sm font-normal tracking-tight" :: cls_opt className))] ++ rest)
    children.

Definition TypingAnimation (Component : option string) (s : item_state) (className : option jsstring)
  (rest : list (string * jsstring)) : vnode :=
  VEl ("motion." ++ default_of "span" Component)%string
    (("className"%string, cn (js "text-sm font-normal tracking-tight" :: cls_opt className)) :: rest)
    [VText (displayedText s)].

(** In a sequence every child is given its index. *)
Definition wrappedChildren (props : TerminalProps) (children : list vnode) : list vnode :=
  if negb (sequence_on props) then children
  else mapi_from (fun index child =>
         VEl "ItemIndexContext.Provider" [("key"%string, nat_to_js index); ("value"%string, nat_to_js index)] [child]) 0 children.

Definition Terminal (props : TerminalProps) (st : term_state) (children : list vnode) : vnode :=
  let content :=
    VEl "div"
      [("className"%string,
         cn (js "border-border bg-background z-0 h-full max-h-100 w-full max-w-lg rounded-xl border" :: cls_opt (t_className props)))]
      [VEl "div" [("className"%string, js "border-border flex flex-col gap-y-2 border-b p-4")]
         [VEl "div" [("className"%string, js "flex flex-row gap-x-2")]
            [VEl "div" [("className"%string, js "h-2 w-2 rounded-full bg-red-500")] [];
             VEl "div" [("className"%string, js "h-2 w-2 rounded-full bg-yellow-500")] [];
             VEl "div" [("className"%string, js "h-2 w-2 rounded-full bg-green-500")] []]];
       VEl "pre" [("className"%string, js "p-4")]
         [VEl "code" [("className"%string, js "grid gap-y-1 overflow-auto")] (wrappedChildren props children)]] in
  if negb (sequence_on props) then content else
  VEl "SequenceContext.Provider"
    [("value.activeIndex"%string, nat_to_js (activeIndex st));
     ("value.sequenceStarted"%string, if sequenceHasStarted props st then js "true" else js "false")]
    [content].
End Views.

(** ** Invariant *)

Lemma update_length l k x : length (update l k x) = length l.
Proof. revert k. induction l as [|y l IH]; intros [|k]; cbn; auto. Qed.

Lemma update_same l k x s : nth_error l k = Some s -> nth_error (update l k x) k = Some x.
Proof. revert k. induction l as [|y l IH]; intros [|k] H; cbn in *; solve [discriminate|reflexivity|auto]. Qed.

Lemma update_other l k j x : j <> k -> nth_error (update l k x) j = nth_error l j.
Proof.
  revert k j. induction l as [|y l IH]; intros [|k] [|j] H; cbn; auto; congruence.
Qed.

(** The typing items of a sequence: the text typed is a prefix; items before the active one are
    finished, those after it have not started. *)
Definition item_ok (active k : nat) (kind : item_kind) (s : item_state) : Prop :=
  (active < k -> started s = false) /\
  match kind with
  | k_typing c =>
      displayedText s = firstn (i s) c /\ i s <= length c /\
      (started s = false -> i s = 0 /\ interval s = false) /\
      (started s = true -> interval s = false -> displayedText s = c) /\
      (k < active -> displayedText s = c /\ interval s = false) /\
      (k = active -> started s = true -> interval s = true)
  | k_span => True
  end.

Definition term_ok (props : TerminalProps) (st : term_state) : Prop :=
  length (item_states st) = length (t_items props) /\ activeIndex st <= length (t_items props) /\
  forall k kind s, nth_error (t_items props) k = Some kind -> nth_error (item_states st) k = Some s ->
                   item_ok (activeIndex st) k kind s.

Lemma term_init_ok props : term_ok props (term_init props).
Proof.
  unfold term_ok, term_init. cbn. split; [apply length_map|]. split; [lia|].
  intros k kind s _ Hs. rewrite nth_error_map in Hs. destruct (nth_error (t_items props) k); inv Hs.
  split; [reflexivity|]. destruct kind; [|exact I]. cbn. repeat split; auto; try lia; discriminate.
Qed.

(** Changing one item. *)
Lemma set_item_ok props st k kind s x :
  term_ok props st -> nth_error (t_items props) k = Some kind -> nth_error (item_states st) k = Some s ->
  item_ok (activeIndex st) k kind x -> term_ok props (set_item k x st).
Proof.
  intros (Hl & Ha & Hi) Hk Hs Hx. unfold term_ok, set_item. cbn [activeIndex item_states isInView].
  rewrite update_length. split; [exact Hl|]. split; [exact Ha|]. intros j kd t Hj Ht.
  destruct (Nat.eq_dec j k) as [->|Hne].
  - rewrite (update_same _ _ _ _ Hs) in Ht. inv Ht. congruence.
  - rewrite update_other in Ht by exact Hne. eauto.
Qed.

Lemma update_id l k s : nth_error l k = Some s -> update l k s = l.
Proof. revert k. induction l as [|y l IH]; intros [|k] H; cbn in *; try discriminate; [congruence|]. now rewrite IH. Qed.

(** An item that needs no further event. *)
Definition finished (kind : item_kind) (x : item_state) : Prop :=
  match kind with
  | k_typing c => started x = true /\ displayedText x = c /\ i x = length c /\ interval x = false
  | k_span => True
  end.

(** The active item finishes. *)
Lemma advance_ok props st k kind s x :
  term_ok props st -> k = activeIndex st -> nth_error (t_items props) k = Some kind ->
  nth_error (item_states st) k = Some s -> finished kind x -> term_ok props (completeItem k (set_item k x st)).
Proof.
  intros (Hl & Ha & Hi) Ek Hk Hs Hx. unfold completeItem, set_item. cbn [activeIndex item_states isInView].
  rewrite Ek, Nat.eqb_refl, <- Ek.
  assert (Hlt : k < length (t_items props)) by (apply nth_error_Some; congruence).
  unfold term_ok. cbn [activeIndex item_states]. rewrite update_length. split; [exact Hl|]. split; [lia|].
  intros j kd t Hj Ht. destruct (Nat.eq_dec j k) as [->|Hne].
  - rewrite (update_same _ _ _ _ Hs) in Ht. inv Ht. rewrite Hj in Hk. inv Hk. split; [lia|].
    destruct kind as [c|]; [|exact I]. destruct Hx as (X1 & X2 & X3 & X4). rewrite X2, X3, X4, firstn_all.
    repeat split; auto; try congruence; lia.
  - rewrite update_other in Ht by exact Hne. destruct (Hi j kd t Hj Ht) as [H1 H2]. split; [intros; apply H1; lia|].
    destruct kd as [c|]; [|exact I]. destruct H2 as (D1 & D2 & D3 & D4 & D5 & D6).
    repeat split; auto; try (now apply D3); try (apply D5; lia). intros -> Hst. rewrite H1 in Hst by lia. discriminate.
Qed.

Lemma start_effect_ok props k st : term_ok props st -> term_ok props (start_effect props k st).
Proof.
  intros H. unfold start_effect. destruct (nth_error (t_items props) k) as [kind|] eqn:Ek; [|exact H].
  destruct (nth_error (item_states st) k) as [s|] eqn:Es; [|exact H].
  destruct (sequenceHasStarted props st && negb (started s) && (activeIndex st =? k)) eqn:Ec; [|exact H]. bprop.
  apply (set_item_ok props st k kind s); auto. destruct H as (_ & _ & Hi). specialize (Hi k kind s Ek Es).
  destruct Hi as [_ Hd]. split; [lia|]. destruct kind as [c|]; [|exact I]. cbn.
  destruct Hd as (D1 & D2 & D3 & _). destruct (D3 ltac:(assumption)) as [Hz _]. rewrite Hz in D1. repeat split; auto; try lia; discriminate.
Qed.

Lemma typing_tick_ok props k st :
  sequence_on props = true -> term_ok props st -> term_ok props (typing_tick props k st).
Proof.
  intros Hseq H. unfold typing_tick. destruct (nth_error (t_items props) k) as [[c|]|] eqn:Ek; try exact H.
  destruct (nth_error (item_states st) k) as [s|] eqn:Es; [|exact H].
  destruct (interval s) eqn:Ei; [|exact H]. assert (Hit := H). destruct Hit as (_ & _ & Hi).
  specialize (Hi k (k_typing c) s Ek Es). destruct Hi as [H1 (D1 & D2 & D3 & D4 & D5 & D6)].
  assert (Hst : started s = true) by (destruct (started s) eqn:E; [reflexivity|]; destruct (D3 eq_refl); congruence).
  assert (Hk : k = activeIndex st).
  { destruct (Nat.lt_trichotomy k (activeIndex st)) as [Hlt|[E|Hlt]]; [|exact E|].
    - destruct (D5 Hlt). congruence.
    - rewrite H1 in Hst by exact Hlt. discriminate. }
  destruct (Nat.ltb_spec (i s) (length c)) as [Hlt|Hge].
  - apply (set_item_ok props st k (k_typing c) s); auto. split; [lia|]. cbn. unfold slice. cbn [skipn].
    rewrite Nat.sub_0_r. repeat split; auto; try lia; try congruence; intros; congruence.
  - rewrite Hseq.
    apply (advance_ok props st k (k_typing c) s); auto. cbn. repeat split; auto; try lia.
    rewrite D1. apply firstn_all2. lia.
Qed.

Lemma animation_complete_ok props k st : term_ok props st -> term_ok props (animation_complete props k st).
Proof.
  intros H. unfold animation_complete. destruct (nth_error (t_items props) k) as [[c|]|] eqn:Ek; try exact H.
  destruct (sequence_on props); [|exact H]. destruct (Nat.eq_dec k (activeIndex st)) as [E|Hne].
  - destruct (nth_error (item_states st) k) as [s|] eqn:Es.
    + replace (completeItem k st) with (completeItem k (set_item k s st)); [now apply (advance_ok props st k k_span s)|].
      unfold set_item. rewrite (update_id _ _ _ Es). now destruct st.
    + exfalso. apply nth_error_None in Es. destruct H as (Hl & _). rewrite Hl in Es.
      assert (k < length (t_items props)) by (apply nth_error_Some; congruence). lia.
  - unfold completeItem. rewrite (proj2 (Nat.eqb_neq _ _) Hne). now destruct st.
Qed.

Lemma term_step_ok props st e : sequence_on props = true -> term_ok props st -> term_ok props (term_step props st e).
Proof.
  intros Hs H. destruct e; cbn [term_step].
  - exact H.
  - now apply start_effect_ok.
  - unfold start_timeout. rewrite Hs. destruct (nth_error (t_items props) k) as [[|]|]; try exact H.
    now destruct (nth_error (item_states st) k).
  - now apply typing_tick_ok.
  - now apply animation_complete_ok.
Qed.

Lemma term_run_ok props es st : sequence_on props = true -> term_ok props st -> term_ok props (term_run props es st).
Proof.
  intros Hs. unfold term_run. revert st. induction es as [|e es IH]; intros st H; cbn; [exact H|].
  apply IH. now apply term_step_ok.
Qed.


(** ** Progress *)

Lemma run_app props es es' st : term_run props (es ++ es') st = term_run props es' (term_run props es st).
Proof. apply fold_left_app. Qed.

(** A running typing item finishes after enough ticks. *)
Lemma ticks_finish props k c : forall n st s,
  sequence_on props = true -> term_ok props st -> activeIndex st = k ->
  nth_error (t_items props) k = Some (k_typing c) -> nth_error (item_states st) k = Some s ->
  interval s = true -> length c - i s = n ->
  activeIndex (term_run props (repeat (ev_tick k) (S n)) st) = S k /\
  isInView (term_run props (repeat (ev_tick k) (S n)) st) = isInView st.
Proof.
  induction n as [|n IH]; intros st s Hs H Ha Hk Hst Hi Hn.
  - cbn. unfold typing_tick. rewrite Hk, Hst, Hi. destruct (Nat.ltb_spec (i s) (length c)); [lia|].
    rewrite Hs. unfold completeItem, set_item. cbn. rewrite Ha, Nat.eqb_refl. split; [lia|reflexivity].
  - assert (E : term_step props st (ev_tick k) = set_item k (Item (started s) (slice 0 (i s + 1) c) (i s + 1) true) st).
    { cbn. unfold typing_tick. rewrite Hk, Hst, Hi. destruct (Nat.ltb_spec (i s) (length c)); [reflexivity|lia]. }
    change (repeat (ev_tick k) (S (S n))) with (ev_tick k :: repeat (ev_tick k) (S n)).
    change (term_run props (ev_tick k :: ?l) st) with (term_run props l (term_step props st (ev_tick k))).
    assert (H' := term_step_ok props st (ev_tick k) Hs H). rewrite E in *.
    destruct (IH _ _ Hs H' Ha Hk (update_same _ _ _ _ Hst) eq_refl) as [I1 I2]; [cbn; lia|]. now split.
Qed.

(** The active item of a terminal in view can be completed. *)
Lemma complete_active props st :
  sequence_on props = true -> term_ok props st -> isInView st = true -> activeIndex st < length (t_items props) ->
  exists es, activeIndex (term_run props es st) = S (activeIndex st) /\ isInView (term_run props es st) = true.
Proof.
  intros Hs H Hv Hlt. set (k := activeIndex st) in *. destruct (nth_error (t_items props) k) as [kind|] eqn:Ek.
  2: { apply nth_error_None in Ek. lia. }
  destruct kind as [c|].
  2: { exists [ev_animated k]. cbn. unfold animation_complete. rewrite Ek, Hs. unfold completeItem. cbn.
       subst k. rewrite Nat.eqb_refl. split; [lia|exact Hv]. }
  assert (H0 := H). destruct H0 as (Hl & _ & Hi). destruct (nth_error (item_states st) k) as [s|] eqn:Es.
  2: { apply nth_error_None in Es. lia. }
  destruct (Hi k (k_typing c) s Ek Es) as [_ (D1 & D2 & D3 & D4 & D5 & D6)].
  destruct (started s) eqn:Est.
  - exists (repeat (ev_tick k) (S (length c - i s))).
    destruct (ticks_finish props k c (length c - i s) st s Hs H eq_refl Ek Es (D6 eq_refl eq_refl) eq_refl) as [-> ->]. auto.
  - set (st1 := term_step props st (ev_start k)).
    assert (E1 : st1 = set_item k (start_item (k_typing c) s) st).
    { subst st1. cbn. unfold start_effect. rewrite Ek, Es, Est. unfold sequenceHasStarted. rewrite Hs, Hv, orb_true_r.
      subst k. now rewrite Nat.eqb_refl. }
    assert (H1 : term_ok props st1) by now apply term_step_ok.
    exists ([ev_start k] ++ repeat (ev_tick k) (S (length c))). rewrite run_app.
    change (term_run props [ev_start k] st) with st1.
    destruct (ticks_finish props k c (length c) st1 (start_item (k_typing c) s)) as [I1 I2]; auto.
    + now rewrite E1.
    + rewrite E1. exact (update_same _ _ _ _ Es).
    + cbn. lia.
    + split; [exact I1|]. rewrite I2, E1. exact Hv.
Qed.

Lemma can_complete props n : forall st,
  sequence_on props = true -> term_ok props st -> isInView st = true -> length (t_items props) - activeIndex st = n ->
  exists es, activeIndex (term_run props es st) = length (t_items props).
Proof.
  induction n as [|n IH]; intros st Hs H Hv Hn.
  - exists []. cbn. destruct H as (_ & Ha & _). lia.
  - destruct (complete_active props st Hs H Hv) as (es & H1 & H2); [lia|].
    destruct (IH (term_run props es st)) as (es' & H3); auto; [now apply term_run_ok|lia|].
    exists (es ++ es'). now rewrite run_app.
Qed.

(** A sequence never gets stuck: from every state it can reach, some further timer callbacks and
    notifications bring it to the end, where every text is shown in full. *)
Theorem terminal_completes props es :
  sequence_on props = true ->
  exists es', let st := term_run props (es ++ es') (term_init props) in
    activeIndex st = length (t_items props) /\
    forall k c s, nth_error (t_items props) k = Some (k_typing c) -> nth_error (item_states st) k = Some s ->
                  displayedText s = c.
Proof.
  intros Hs. assert (H := term_run_ok props es _ Hs (term_init_ok props)).
  destruct (can_complete props _ (term_step props (term_run props es (term_init props)) ev_view) Hs H eq_refl eq_refl)
    as (es' & He).
  exists (ev_view :: es'). rewrite run_app.
  change (term_run props (ev_view :: es') ?x) with (term_run props es' (term_step props x ev_view)).
  split; [exact He|]. intros k c s Hk Hst.
  assert (H' := term_run_ok props es' _ Hs (term_step_ok props _ ev_view Hs H)). destruct H' as (_ & _ & Hi).
  destruct (Hi k (k_typing c) s Hk Hst) as [_ (_ & _ & _ & _ & D5 & _)]. apply D5. rewrite He. apply nth_error_Some. congruence.
Qed.

(** ** Witnesses *)

Definition demo_terminal : TerminalProps :=
  {| t_items := [k_typing (js "kubectl apply"); k_span; k_typing (js "ok")]; t_className := None;
     t_sequence := None; t_startOnView := None |}.


Lemma terminal_completes_witness :
  exists es', let st := term_run demo_terminal ([ev_view; ev_start 0] ++ es') (term_init demo_terminal) in
    activeIndex st = length (t_items demo_terminal) /\
    forall k c s, nth_error (t_items demo_terminal) k = Some (k_typing c) -> nth_error (item_states st) k = Some s ->
                  displayedText s = c.
Proof. exact (terminal_completes demo_terminal [ev_view; ev_start 0] eq_refl). Defined.
