(* ===== verification/Particles.v ===== *)
(** * The particle canvas ([website/components/magicui/particles.tsx])

    A canvas of drifting circles.  The refs of the component and the browser state they act on are
    the record [world]; a handler is a computation over it.  [Math.random] is a parameter, the
    function [random] from the number of the call to its answer; what else the browser answers
    during a notification is the record [env].  [circles.current] is mutated while [forEach] visits
    it, which the loop of [animate] reproduces index by index. *)

From Stdlib Require Import String List Arith NArith ZArith Lia Bool SpecFloat.
From S2P Require Import Prelude JsString JsNum NumText Dom State.
Import ListNotations.
Local Open Scope list_scope.
Local Open Scope state_scope.

(** ** Colours *)

(** [ToInt32] of a number that is an integer or NaN. *)
Definition toInt32 (x : option Z) : Z :=
  match x with
  | None => 0
  | Some z => let m := z mod 2 ^ 32 in if (m <? 2 ^ 31)%Z then m else m - 2 ^ 32
  end%Z.

Definition hexToRgb (hex : jsstring) : list Z :=
  let hex := remove_sharp hex in
  let hex := if length hex =? 3 then flat_map (fun char => [char; char]) hex else hex in
  let hexInt := parseInt16 hex in
  let red := Z.land (Z.shiftr (toInt32 hexInt) 16) 255 in
  let green := Z.land (Z.shiftr (toInt32 hexInt) 8) 255 in
  let blue := Z.land (toInt32 hexInt) 255 in
  [red; green; blue].

Example hexToRgb_ex :
  (hexToRgb (js "#ffffff"), hexToRgb (js "#38bdf8"), hexToRgb (js "#0f8"), hexToRgb (js "red"))
  = ([255; 255; 255], [56; 189; 248], [0; 255; 136], [0; 0; 0])%Z.
Proof. vm_compute. reflexivity. Qed.

(** ** State *)

Record Circle := mkCircle {
  x : num; y : num; translateX : num; translateY : num; size : num; alpha : num; targetAlpha : num;
  dx : num; dy : num; magnetism : num }.

Record ParticlesProps := {
  p_className : jsstring; p_quantity : nat; p_staticity : num; p_ease : num; p_size : num;
  p_color : jsstring; p_vx : num; p_vy : num; p_rest : list (string * jsstring) }.

(** What is painted for one circle. *)
Record draw_op := Arc { a_translate : num * num; a_x : num; a_y : num; a_size : num; a_fillStyle : jsstring }.

(** What the browser answers while a notification is handled. *)
Record env := {
  e_canvas : bool; e_context : bool; e_offsetWidth : Z; e_offsetHeight : Z; e_dpr : num;
  e_left : num; e_top : num }.

(** The refs of the component, the pending frames and timers, and what is on the canvas. *)
Record world := World {
  circles : list Circle;
  mousePosition : num * num;
  mouse : num * num;
  canvasSize : num * num;
  context : bool;
  canvasDims : num * num;
  rafID : option nat;
  resizeTimeout : option nat;
  pending : list nat;
  timers : list nat;
  nextId : nat;
  listening : bool;
  draws : list draw_op;
  calls : nat }.

Definition set_circles (v : list Circle) (w : world) : world :=
  World v (mousePosition w) (mouse w) (canvasSize w) (context w) (canvasDims w) (rafID w) (resizeTimeout w)
      (pending w) (timers w) (nextId w) (listening w) (draws w) (calls w).
Definition set_mousePosition (v : num * num) (w : world) : world :=
  World (circles w) v (mouse w) (canvasSize w) (context w) (canvasDims w) (rafID w) (resizeTimeout w)
      (pending w) (timers w) (nextId w) (listening w) (draws w) (calls w).
Definition set_mouse (v : num * num) (w : world) : world :=
  World (circles w) (mousePosition w) v (canvasSize w) (context w) (canvasDims w) (rafID w)
      (resizeTimeout w) (pending w) (timers w) (nextId w) (listening w) (draws w) (calls w).
Definition set_canvasSize (v : num * num) (w : world) : world :=
  World (circles w) (mousePosition w) (mouse w) v (context w) (canvasDims w) (rafID w) (resizeTimeout w)
      (pending w) (timers w) (nextId w) (listening w) (draws w) (calls w).
Definition set_context (v : bool) (w : world) : world :=
  World (circles w) (mousePosition w) (mouse w) (canvasSize w) v (canvasDims w) (rafID w) (resizeTimeout w)
      (pending w) (timers w) (nextId w) (listening w) (draws w) (calls w).
Definition set_canvasDims (v : num * num) (w : world) : world :=
  World (circles w) (mousePosition w) (mouse w) (canvasSize w) (context w) v (rafID w) (resizeTimeout w)
      (pending w) (timers w) (nextId w) (listening w) (draws w) (calls w).
Definition set_rafID (v : option nat) (w : world) : world :=
  World (circles w) (mousePosition w) (mouse w) (canvasSize w) (context w) (canvasDims w) v
      (resizeTimeout w) (pending w) (timers w) (nextId w) (listening w) (draws w) (calls w).
Definition set_resizeTimeout (v : option nat) (w : world) : world :=
  World (circles w) (mousePosition w) (mouse w) (canvasSize w) (context w) (canvasDims w) (rafID w) v
      (pending w) (timers w) (nextId w) (listening w) (draws w) (calls w).
Definition set_pending (v : list nat) (w : world) : world :=
  World (circles w) (mousePosition w) (mouse w) (canvasSize w) (context w) (canvasDims w) (rafID w)
      (resizeTimeout w) v (timers w) (nextId w) (listening w) (draws w) (calls w).
Definition set_timers (v : list nat) (w : world) : world :=
  World (circles w) (mousePosition w) (mouse w) (canvasSize w) (context w) (canvasDims w) (rafID w)
      (resizeTimeout w) (pending w) v (nextId w) (listening w) (draws w) (calls w).
Definition set_nextId (v : nat) (w : world) : world :=
  World (circles w) (mousePosition w) (mouse w) (canvasSize w) (context w) (canvasDims w) (rafID w)
      (resizeTimeout w) (pending w) (timers w) v (listening w) (draws w) (calls w).
Definition set_listening (v : bool) (w : world) : world :=
  World (circles w) (mousePosition w) (mouse w) (canvasSize w) (context w) (canvasDims w) (rafID w)
      (resizeTimeout w) (pending w) (timers w) (nextId w) v (draws w) (calls w).
Definition set_draws (v : list draw_op) (w : world) : world :=
  World (circles w) (mousePosition w) (mouse w) (canvasSize w) (context w) (canvasDims w) (rafID w)
      (resizeTimeout w) (pending w) (timers w) (nextId w) (listening w) v (calls w).
Definition set_calls (v : nat) (w : world) : world :=
  World (circles w) (mousePosition w) (mouse w) (canvasSize w) (context w) (canvasDims w) (rafID w)
      (resizeTimeout w) (pending w) (timers w) (nextId w) (listening w) (draws w) v.

(** [parseFloat(v.toFixed(f))]. *)
Definition fixed (v : num) (f : Z) : num :=
  match v with
  | S754_finite s m e =>
      let '(n, d) := fraction m e in
      if (10 ^ 21 * d <=? n)%Z then v
      else
        let k := ((2 * n * 10 ^ f + d) / (2 * d))%Z in
        let r := if (k =? 0)%Z then S754_zero false else of_ratio k (10 ^ f) in
        if s then nneg r else r
  | S754_zero _ => S754_zero false
  | _ => v
  end.

Section Particles.
Context (random : nat -> num) (props : ParticlesProps).

Definition Math_random : M world num := k <- get calls ;; modify (set_calls (S k)) ;;; ret (random k).

Definition circleParams : M world Circle :=
  sz <- get canvasSize ;;
  r1 <- Math_random ;; r2 <- Math_random ;; r3 <- Math_random ;; r4 <- Math_random ;;
  r5 <- Math_random ;; r6 <- Math_random ;; r7 <- Math_random ;;
  ret {| x := Math_floor (nmul r1 (fst sz)); y := Math_floor (nmul r2 (snd sz));
         translateX := nof 0; translateY := nof 0;
         size := nadd (Math_floor (nmul r3 (nof 2))) (p_size props);
         alpha := nof 0;
         targetAlpha := fixed (nadd (nmul r4 (lit 6 10)) (lit 1 10)) 1;
         dx := nmul (nsub r5 (lit 1 2)) (lit 1 10); dy := nmul (nsub r6 (lit 1 2)) (lit 1 10);
         magnetism := nadd (lit 1 10) (nmul r7 (nof 4)) |}.

Definition rgb : list Z := hexToRgb (p_color props).

Definition drawCircle (circle : Circle) (update : bool) : M world unit :=
  ctx <- get context ;;
  when_m ctx
    (d <- get draws ;;
     modify (set_draws (d ++ [{| a_translate := (translateX circle, translateY circle);
                                 a_x := x circle; a_y := y circle; a_size := size circle;
                                 a_fillStyle := js "rgba(" ++ join (js ", ") (map z_to_js rgb) ++ js ", "
                                                ++ num_to_js (alpha circle) ++ js ")" |}])) ;;;
     when_m (negb update) (cs <- get circles ;; modify (set_circles (cs ++ [circle])))).

Definition clearContext : M world unit :=
  ctx <- get context ;; when_m ctx (modify (set_draws [])).

(** [for (let i = 0; i < n; i++) drawCircle(circleParams())]. *)
Fixpoint draw_many (n : nat) : M world unit :=
  match n with
  | O => ret tt
  | S m => circle <- circleParams ;; drawCircle circle false ;;; draw_many m
  end.

Definition resizeCanvas (e : env) : M world unit :=
  ctx <- get context ;;
  when_m (e_canvas e && ctx)
    (let w := nof (e_offsetWidth e) in
     let h := nof (e_offsetHeight e) in
     modify (set_canvasSize (w, h)) ;;;
     modify (set_canvasDims (nmul w (e_dpr e), nmul h (e_dpr e))) ;;;
     modify (set_draws []) ;;;
     modify (set_circles []) ;;;
     draw_many (p_quantity props)).

Definition drawParticles : M world unit := clearContext ;;; draw_many (p_quantity props).

Definition initCanvas (e : env) : M world unit := resizeCanvas e ;;; drawParticles.

Definition onMouseMove (e : env) : M world unit :=
  when_m (e_canvas e)
    (pos <- get mousePosition ;; sz <- get canvasSize ;;
     let '(w, h) := sz in
     let mx := nsub (nsub (fst pos) (e_left e)) (ndiv w (nof 2)) in
     let my := nsub (nsub (snd pos) (e_top e)) (ndiv h (nof 2)) in
     let inside := nlt mx (ndiv w (nof 2)) && nlt (ndiv (nneg w) (nof 2)) mx
                   && nlt my (ndiv h (nof 2)) && nlt (ndiv (nneg h) (nof 2)) my in
     when_m inside (modify (set_mouse (mx, my)))).

Definition remapValue (value start1 end1 start2 end2 : num) : num :=
  let remapped := nadd (ndiv (nmul (nsub value start1) (nsub end2 start2)) (nsub end1 start1)) start2 in
  if nlt (nof 0) remapped then remapped else nof 0.

(** The new values of a visited circle. *)
Definition move (sz mouse : num * num) (c : Circle) : Circle :=
  let edge0 := nsub (nadd (x c) (translateX c)) (size c) in
  let edge1 := nsub (nsub (nsub (fst sz) (x c)) (translateX c)) (size c) in
  let edge2 := nsub (nadd (y c) (translateY c)) (size c) in
  let edge3 := nsub (nsub (nsub (snd sz) (y c)) (translateY c)) (size c) in
  let closestEdge := Math_min (Math_min (Math_min edge0 edge1) edge2) edge3 in
  let remapClosestEdge := fixed (remapValue closestEdge (nof 0) (nof 20) (nof 0) (nof 1)) 2 in
  let alpha' := if nlt (nof 1) remapClosestEdge
                then let a := nadd (alpha c) (lit 2 100) in if nlt (targetAlpha c) a then targetAlpha c else a
                else nmul (targetAlpha c) remapClosestEdge in
  {| x := nadd (x c) (nadd (dx c) (p_vx props)); y := nadd (y c) (nadd (dy c) (p_vy props));
     translateX := nadd (translateX c)
       (ndiv (nsub (ndiv (fst mouse) (ndiv (p_staticity props) (magnetism c))) (translateX c)) (p_ease props));
     translateY := nadd (translateY c)
       (ndiv (nsub (ndiv (snd mouse) (ndiv (p_staticity props) (magnetism c))) (translateY c)) (p_ease props));
     size := size c; alpha := alpha'; targetAlpha := targetAlpha c; dx := dx c; dy := dy c; magnetism := magnetism c |}.

Definition out_of_canvas (sz : num * num) (c : Circle) : bool :=
  nlt (x c) (nneg (size c)) || nlt (nadd (fst sz) (size c)) (x c)
  || nlt (y c) (nneg (size c)) || nlt (nadd (snd sz) (size c)) (y c).

(** [l[i] = c] in range, and [l.splice(i, 1)]. *)
Definition put (i : nat) (c : Circle) (l : list Circle) : list Circle := firstn i l ++ c :: skipn (S i) l.
Definition splice (i : nat) (l : list Circle) : list Circle := firstn i l ++ skipn (S i) l.

(** The callback of [forEach] at index [i]. *)
Definition visit (i : nat) : M world unit :=
  cs <- get circles ;;
  match nth_error cs i with
  | None => ret tt
  | Some circle =>
      sz <- get canvasSize ;; mo <- get mouse ;;
      let circle := move sz mo circle in
      modify (set_circles (put i circle cs)) ;;;
      drawCircle circle true ;;;
      when_m (out_of_canvas sz circle)
        (cs <- get circles ;;
         modify (set_circles (splice i cs)) ;;;
         newCircle <- circleParams ;; drawCircle newCircle false)
  end.

(** [forEach] visits the indices below the length the array had at the start. *)
Fixpoint forEach (n i : nat) : M world unit :=
  match n with O => ret tt | S m => visit i ;;; forEach m (S i) end.

Definition requestAnimationFrame : M world nat :=
  k <- get nextId ;; p <- get pending ;;
  modify (set_nextId (S k)) ;;; modify (set_pending (p ++ [k])) ;;; ret k.

Definition animate : M world unit :=
  clearContext ;;;
  cs <- get circles ;;
  forEach (length cs) 0 ;;;
  k <- requestAnimationFrame ;; modify (set_rafID (Some k)).

(** ** Effects and listeners *)

Definition remove_id (k : nat) (l : list nat) : list nat := filter (fun j => negb (j =? k)) l.

Definition cancel (k : option nat) (m : list nat) : list nat := match k with Some j => remove_id j m | None => m end.

(** The effect of the colour, which also runs on mount. *)
Definition start (e : env) : M world unit :=
  when_m (e_canvas e) (modify (set_context (e_context e))) ;;;
  initCanvas e ;;; animate ;;; modify (set_listening true).

Definition cleanup : M world unit :=
  r <- get rafID ;; p <- get pending ;; modify (set_pending (cancel r p)) ;;;
  t <- get resizeTimeout ;; ts <- get timers ;; modify (set_timers (cancel t ts)) ;;;
  modify (set_listening false).

Definition handleResize : M world unit :=
  t <- get resizeTimeout ;; ts <- get timers ;; k <- get nextId ;;
  modify (set_timers (cancel t ts ++ [k])) ;;; modify (set_nextId (S k)) ;;; modify (set_resizeTimeout (Some k)).

Inductive event :=
| ev_refresh | ev_color | ev_resize | ev_timeout | ev_frame | ev_unmount
| ev_mouse (px py : num).

Definition handle (e : env) (ev : event) : M world unit :=
  match ev with
  | ev_refresh => initCanvas e
  | ev_color => cleanup ;;; start e
  | ev_resize => on <- get listening ;; when_m on handleResize
  | ev_timeout =>
      ts <- get timers ;;
      match ts with [] => ret tt | _ :: rest => modify (set_timers rest) ;;; initCanvas e end
  | ev_frame =>
      p <- get pending ;;
      match p with [] => ret tt | _ :: rest => modify (set_pending rest) ;;; animate end
  | ev_unmount => cleanup
  | ev_mouse px py => modify (set_mousePosition (px, py)) ;;; onMouseMove e
  end.

Definition init : world :=
  {| circles := []; mousePosition := (nof 0, nof 0); mouse := (nof 0, nof 0); canvasSize := (nof 0, nof 0);
     context := false; canvasDims := (nof 300, nof 150); rafID := None; resizeTimeout := None; pending := [];
     timers := []; nextId := 1; listening := false; draws := []; calls := 0 |}.

(** The three effects of the first render, in order. *)
Definition mount (e : env) : M world unit := start e ;;; onMouseMove e ;;; initCanvas e.

(** A mounted component keeps its canvas, and a canvas keeps its context. *)
Inductive reachable : world -> Prop :=
| pa_mount e : e_canvas e = true -> e_context e = true -> reachable (exec_m (mount e) init)
| pa_step e ev w : e_canvas e = true -> e_context e = true -> reachable w -> reachable (exec_m (handle e ev) w).

Definition Particles (cn : list jsstring -> jsstring) : vnode :=
  VEl "div"
    ([("className"%string, cn (js "pointer-events-none" :: match p_className props with [] => [] | c => [c] end));
      ("aria-hidden"%string, js "true")] ++ p_rest props)
    [VEl "canvas" [("className"%string, js "size-full")] []].
End Particles.

(** ** Colours: theorem *)

(** The lower-case hexadecimal digit of a value, and the two digits of a byte. *)
Definition hex_char (d : Z) : N := if (d <? 10)%Z then Z.to_N (48 + d) else Z.to_N (87 + d).
Definition hex_byte (v : Z) : jsstring := [hex_char (v / 16); hex_char (v mod 16)].

Lemma hex_char_ok d :
  (0 <= d < 16)%Z ->
  hex_of (hex_char d) = Some d /\ is_ws (hex_char d) = false /\ (hex_char d =? 45)%N = false /\
  (hex_char d =? 43)%N = false /\ (hex_char d =? 120)%N = false /\ (hex_char d =? 88)%N = false.
Proof.
  intros H. assert (Hc : In d (map Z.of_nat (seq 0 16))).
  { apply in_map_iff. exists (Z.to_nat d). split; [lia|]. apply in_seq. lia. }
  revert d Hc H. apply (Forall_forall (fun d => _ -> _)).
  repeat (constructor; [intros _; vm_compute; repeat split; reflexivity|]). constructor.
Qed.

Lemma hex_digits_chars ds :
  Forall (fun d => 0 <= d < 16)%Z ds -> hex_digits (map hex_char ds) = ds.
Proof.
  induction 1 as [|d ds Hd Hds IH]; cbn; [reflexivity|]. now rewrite (proj1 (hex_char_ok d Hd)), IH.
Qed.

(** A string of hexadecimal digits is read whole. *)
Lemma parseInt16_chars d ds :
  Forall (fun d => 0 <= d < 16)%Z (d :: ds) -> (Z.abs (hex_number (d :: ds)) <= 2 ^ 53)%Z ->
  parseInt16 (map hex_char (d :: ds)) = Some (hex_number (d :: ds)).
Proof.
  intros H Hb. assert (E := hex_digits_chars _ H). inv H. destruct (hex_char_ok d H2) as (_ & C2 & C3 & C4 & _).
  unfold parseInt16. cbn [map] in *. unfold trimStart. cbn [drop_while]. rewrite C2, C3, C4.
  assert (Epre : match map hex_char ds with
                 | [] => hex_char d :: map hex_char ds
                 | x :: s' => if (hex_char d =? 48)%N && ((x =? 120)%N || (x =? 88)%N) then s' else hex_char d :: map hex_char ds
                 end = hex_char d :: map hex_char ds).
  { destruct ds as [|d' ds]; [reflexivity|]. inv H3. cbn [map]. destruct (hex_char_ok d' H1) as (_ & _ & _ & _ & -> & ->).
    cbn [orb]. now rewrite andb_false_r. }
  cbn zeta. rewrite Epre, E. unfold round_int. now rewrite (proj2 (Z.leb_le _ _) Hb).
Qed.

Lemma land_255 z : Z.land z 255 = (z mod 256)%Z.
Proof. change 255%Z with (Z.ones 8). now rewrite Z.land_ones by lia. Qed.

(** Every colour component is a byte, whatever the string; a six-digit colour is read as its three
    bytes, and a three-digit colour as the same with every digit doubled. *)
Theorem hexToRgb_spec :
  (forall s, Forall (fun v => 0 <= v <= 255)%Z (hexToRgb s)) /\
  (forall r g b, (0 <= r < 256 -> 0 <= g < 256 -> 0 <= b < 256 ->
     hexToRgb (35%N :: hex_byte r ++ hex_byte g ++ hex_byte b) = [r; g; b])%Z) /\
  (forall r g b, (0 <= r < 16 -> 0 <= g < 16 -> 0 <= b < 16 ->
     hexToRgb (35%N :: [hex_char r; hex_char g; hex_char b]) = [17 * r; 17 * g; 17 * b])%Z).
Proof.
  assert (Hb : forall r g b, (0 <= r < 256 -> 0 <= g < 256 -> 0 <= b < 256 ->
     hexToRgb (35%N :: hex_byte r ++ hex_byte g ++ hex_byte b) = [r; g; b])%Z).
  { intros r g b Hr Hg Hb.
    assert (E : hex_byte r ++ hex_byte g ++ hex_byte b
                = map hex_char [r / 16; r mod 16; g / 16; g mod 16; b / 16; b mod 16]%Z) by reflexivity.
    unfold hexToRgb. cbn [remove_sharp N.eqb Pos.eqb]. rewrite E, length_map. cbn [length Nat.eqb].
    rewrite (parseInt16_chars (r / 16) [r mod 16; g / 16; g mod 16; b / 16; b mod 16])%Z.
    - assert (V : hex_number [r / 16; r mod 16; g / 16; g mod 16; b / 16; b mod 16]%Z = (r * 65536 + g * 256 + b)%Z)
        by (unfold hex_number; cbn [fold_left]; Z.to_euclidean_division_equations; lia).
      rewrite V. unfold toInt32. rewrite (Z.mod_small (r * 65536 + g * 256 + b)) by lia.
      rewrite (proj2 (Z.ltb_lt _ _)) by lia. rewrite !land_255, !Z.shiftr_div_pow2 by lia.
      repeat f_equal; change (2 ^ 16)%Z with 65536%Z; change (2 ^ 8)%Z with 256%Z; Z.to_euclidean_division_equations; lia.
    - repeat constructor; Z.to_euclidean_division_equations; lia.
    - unfold hex_number. cbn [fold_left]. Z.to_euclidean_division_equations. lia. }
  split; [|split; [exact Hb|]].
  - intros s. unfold hexToRgb. rewrite !land_255. repeat constructor;
      match goal with |- context [(?a mod 256)%Z] => pose proof (Z.mod_pos_bound a 256); lia end.
  - intros r g b Hr Hg Hb'. specialize (Hb (17 * r) (17 * g) (17 * b))%Z. unfold hex_byte in Hb.
    replace (17 * r / 16)%Z with r in Hb by (Z.to_euclidean_division_equations; lia).
    replace (17 * r mod 16)%Z with r in Hb by (Z.to_euclidean_division_equations; lia).
    replace (17 * g / 16)%Z with g in Hb by (Z.to_euclidean_division_equations; lia).
    replace (17 * g mod 16)%Z with g in Hb by (Z.to_euclidean_division_equations; lia).
    replace (17 * b / 16)%Z with b in Hb by (Z.to_euclidean_division_equations; lia).
    replace (17 * b mod 16)%Z with b in Hb by (Z.to_euclidean_division_equations; lia).
    rewrite <- Hb by lia. reflexivity.
Qed.

(** ** The number of circles *)

Section Count.
Context (random : nat -> num) (props : ParticlesProps).

(** What creating and drawing circles leaves alone. *)
Definition frame_part (w : world) := (context w, rafID w, pending w, resizeTimeout w, timers w, nextId w, listening w).

Ltac go := unfold exec_m, run_m, bind, get, modify, ret, when_m in *; cbn in *.

Lemma circleParams_spec w :
  circles (exec_m (circleParams random props) w) = circles w /\
  frame_part (exec_m (circleParams random props) w) = frame_part w.
Proof. split; reflexivity. Qed.

Lemma drawCircle_spec c u w :
  context w = true ->
  circles (exec_m (drawCircle props c u) w) = (if u then circles w else circles w ++ [c]) /\
  frame_part (exec_m (drawCircle props c u) w) = frame_part w.
Proof. intros H. unfold drawCircle. go. rewrite H. destruct u; split; reflexivity. Qed.

Lemma clearContext_spec w :
  circles (exec_m clearContext w) = circles w /\ frame_part (exec_m clearContext w) = frame_part w.
Proof. unfold clearContext. go. now destruct (context w). Qed.

Lemma frame_context w w' : frame_part w' = frame_part w -> context w = true -> context w' = true.
Proof. unfold frame_part. congruence. Qed.

Lemma new_circle_spec w :
  context w = true ->
  let w' := exec_m (c <- circleParams random props ;; drawCircle props c false) w in
  length (circles w') = S (length (circles w)) /\ frame_part w' = frame_part w.
Proof.
  intros H w'. unfold w'. clear w'. rewrite exec_bind. generalize (run_m (circleParams random props) w) as c.
  destruct (circleParams_spec w) as [Hc Hf]. revert Hc Hf. generalize (exec_m (circleParams random props) w) as w1.
  intros w1 Hc Hf c. destruct (drawCircle_spec c false w1 (frame_context _ _ Hf H)) as [E1 E2].
  rewrite E1, E2, Hc, length_app. cbn [length]. split; [lia|exact Hf].
Qed.

Lemma draw_many_spec n : forall w, context w = true ->
  length (circles (exec_m (draw_many random props n) w)) = length (circles w) + n /\
  frame_part (exec_m (draw_many random props n) w) = frame_part w.
Proof.
  induction n as [|n IH]; intros w H; cbn [draw_many]; [rewrite exec_ret; split; [lia|reflexivity]|].
  assert (E : exec_m (c <- circleParams random props ;; drawCircle props c false ;;; draw_many random props n) w
              = exec_m (draw_many random props n) (exec_m (c <- circleParams random props ;; drawCircle props c false) w))
    by now rewrite !exec_bind.
  rewrite E. destruct (new_circle_spec w H) as [E1 E2].
  destruct (IH _ (frame_context _ _ E2 H)) as [E3 E4]. rewrite E3, E4, E1, E2. split; [lia|reflexivity].
Qed.

Lemma initCanvas_spec e w :
  e_canvas e = true -> context w = true ->
  length (circles (exec_m (initCanvas random props e) w)) = 2 * p_quantity props /\
  frame_part (exec_m (initCanvas random props e) w) = frame_part w.
Proof.
  intros He H. unfold initCanvas, resizeCanvas, drawParticles. rewrite exec_bind, exec_get, He, H. cbn [andb when_m].
  run_steps. match goal with |- context [exec_m (draw_many random props ?n) ?x] =>
    destruct (draw_many_spec n x H) as [E1 E2]; set (w1 := exec_m (draw_many random props n) x) in * end.
  rewrite exec_bind. destruct (clearContext_spec w1) as [E3 E4].
  assert (H1 : context (exec_m clearContext w1) = true)
    by (apply (frame_context w1 _ E4), (frame_context _ w1 E2), H).
  destruct (draw_many_spec (p_quantity props) _ H1) as [E5 E6].
  rewrite E5, E6, E3, E1, E4. cbn [circles set_circles length]. split; [lia|exact E2].
Qed.

Lemma put_length i c l s : nth_error l i = Some s -> length (put i c l) = length l.
Proof.
  intros H. assert (Hl : i < length l) by (apply nth_error_Some; congruence). unfold put.
  rewrite length_app, length_firstn. cbn [length]. rewrite length_skipn. lia.
Qed.

Lemma splice_length i l : i < length l -> S (length (splice i l)) = length l.
Proof. intros H. unfold splice. rewrite length_app, length_firstn, length_skipn. lia. Qed.

(** Visiting a circle keeps their number: one that leaves is replaced. *)
Lemma visit_spec i w :
  context w = true ->
  length (circles (exec_m (visit random props i) w)) = length (circles w) /\
  frame_part (exec_m (visit random props i) w) = frame_part w.
Proof.
  intros H. unfold visit. rewrite exec_get. destruct (nth_error (circles w) i) as [c|] eqn:Ec; [|split; reflexivity].
  run_steps. rewrite exec_bind. set (c' := move props (canvasSize w) (mouse w) c).
  destruct (drawCircle_spec c' true (set_circles (put i c' (circles w)) w) H) as [E1 E2].
  set (w1 := exec_m (drawCircle props c' true) (set_circles (put i c' (circles w)) w)) in *.
  assert (L1 : length (circles w1) = length (circles w)) by (rewrite E1; exact (put_length i c' _ c Ec)).
  assert (Hi : i < length (circles w)) by (apply nth_error_Some; congruence).
  destruct (out_of_canvas (canvasSize w) c'); cbn [when_m]; [|rewrite exec_ret; split; [exact L1|exact E2]].
  run_steps. assert (H1 : context (set_circles (splice i (circles w1)) w1) = true)
    by exact (frame_context _ w1 E2 H).
  destruct (new_circle_spec _ H1) as [E3 E4]. rewrite E3, E4. cbn [circles set_circles].
  split; [rewrite <- L1; apply splice_length; lia|exact E2].
Qed.

Lemma forEach_spec n : forall i w, context w = true ->
  length (circles (exec_m (forEach random props n i) w)) = length (circles w) /\
  frame_part (exec_m (forEach random props n i) w) = frame_part w.
Proof.
  induction n as [|n IH]; intros i w H; [split; reflexivity|]. cbn [forEach]. rewrite exec_bind.
  destruct (visit_spec i w H) as [E1 E2]. destruct (IH (S i) _ (frame_context _ _ E2 H)) as [E3 E4].
  now rewrite E3, E4, E1, E2.
Qed.

Definition one_frame (w : world) : Prop := pending w = [] \/ exists k, rafID w = Some k /\ pending w = [k].

Lemma animate_spec w :
  context w = true -> pending w = [] ->
  let w' := exec_m (animate random props) w in
  length (circles w') = length (circles w) /\ one_frame w' /\ context w' = true /\ pending w' <> [].
Proof.
  intros H Hp. unfold animate. rewrite exec_bind. destruct (clearContext_spec w) as [E1 E2]. rewrite exec_get, exec_bind.
  assert (H1 := frame_context _ _ E2 H). destruct (forEach_spec (length (circles (exec_m clearContext w))) 0 _ H1) as [E3 E4].
  revert E3 E4. generalize (exec_m (forEach random props (length (circles (exec_m clearContext w))) 0) (exec_m clearContext w)) as w1.
  intros w1 E3 E4. rewrite E2 in E4. rewrite E1 in E3. unfold requestAnimationFrame. rewrite exec_bind. run_steps.
  assert (Hp1 : pending w1 = []) by (unfold frame_part in E4; congruence).
  unfold one_frame. cbn. rewrite Hp1. repeat split; [exact E3|right; eexists; split; reflexivity| |discriminate].
  exact (frame_context _ _ E4 H).
Qed.

Definition PInv (w : world) : Prop :=
  context w = true /\ length (circles w) = 2 * p_quantity props /\ one_frame w.

Lemma one_frame_part w w' : frame_part w' = frame_part w -> one_frame w -> one_frame w'.
Proof. unfold frame_part, one_frame. intros E. inv E. now repeat match goal with H : _ = _ |- _ => rewrite H; clear H end. Qed.

Lemma initCanvas_inv e w : e_canvas e = true -> context w = true -> one_frame w -> PInv (exec_m (initCanvas random props e) w).
Proof.
  intros He H Ho. destruct (initCanvas_spec e w He H) as [E1 E2].
  exact (conj (frame_context _ _ E2 H) (conj E1 (one_frame_part _ _ E2 Ho))).
Qed.

Lemma onMouseMove_inv e w : PInv w -> PInv (exec_m (onMouseMove e) w).
Proof.
  intros H. unfold onMouseMove. destruct (e_canvas e); cbn [when_m]; [|exact H]. run_steps.
  destruct (canvasSize w) as [a b]. match goal with |- context [when_m ?c _] => destruct c end; exact H.
Qed.

Lemma start_inv e w :
  e_canvas e = true -> e_context e = true -> pending w = [] -> PInv (exec_m (start random props e) w).
Proof.
  intros He Hc Hp. unfold start. rewrite He. cbn [when_m]. rewrite exec_modify, Hc, exec_bind.
  destruct (initCanvas_spec e (set_context true w) He eq_refl) as [E1 E2].
  revert E1 E2. generalize (exec_m (initCanvas random props e) (set_context true w)) as w1. intros w1 E1 E2.
  assert (H1 : context w1 = true) by exact (frame_context _ _ E2 eq_refl).
  assert (Hp1 : pending w1 = []) by (unfold frame_part in E2; cbn in E2; congruence).
  rewrite exec_bind. destruct (animate_spec w1 H1 Hp1) as (L & O & C & _). run_steps.
  exact (conj C (conj (eq_trans L E1) O)).
Qed.

Lemma cleanup_spec w :
  one_frame w -> pending (exec_m cleanup w) = [] /\ circles (exec_m cleanup w) = circles w /\ context (exec_m cleanup w) = context w.
Proof.
  intros H. unfold cleanup. run_steps. cbn. split; [|auto].
  destruct H as [->|(k & -> & ->)]; [now destruct (rafID w)|]. cbn. now rewrite Nat.eqb_refl.
Qed.

Lemma particles_handle_inv e ev w :
  e_canvas e = true -> e_context e = true -> PInv w -> PInv (exec_m (handle random props e ev) w).
Proof.
  intros He Hc H. assert (H0 := H). destruct H0 as (Hx & Hl & Ho). destruct ev; cbn [handle].
  - now apply initCanvas_inv.
  - rewrite exec_bind. apply start_inv; auto. now apply cleanup_spec.
  - rewrite exec_get. destruct (listening w); cbn [when_m]; [|exact H]. unfold handleResize. run_steps. exact H.
  - rewrite exec_get. destruct (timers w); [exact H|]. rewrite exec_modify. now apply initCanvas_inv.
  - rewrite exec_get. destruct (pending w) as [|k rest] eqn:Ep; [exact H|]. rewrite exec_modify.
    assert (rest = []) as -> by (destruct Ho as [Ho|(j & _ & Ho)]; congruence).
    destruct (animate_spec (set_pending [] w) Hx eq_refl) as (L & O & C & _). exact (conj C (conj (eq_trans L Hl) O)).
  - destruct (cleanup_spec w Ho) as (E1 & E2 & E3). unfold PInv, one_frame. rewrite E1, E2, E3. auto.
  - rewrite exec_modify. now apply onMouseMove_inv.
Qed.

Lemma particles_reachable_inv w : reachable random props w -> PInv w.
Proof.
  induction 1 as [e He Hc|e ev w He Hc _ IH]; [|now apply particles_handle_inv].
  unfold mount. rewrite exec_bind. assert (H := start_inv e init He Hc eq_refl). rewrite exec_bind.
  apply (onMouseMove_inv e) in H. destruct H as (Hx & _ & Ho). now apply initCanvas_inv.
Qed.
End Count.


Definition demo_props : ParticlesProps :=
  {| p_className := []; p_quantity := 3; p_staticity := nof 50; p_ease := nof 50; p_size := lit 4 10;
     p_color := js "#ffffff"; p_vx := nof 0; p_vy := nof 0; p_rest := [] |}.
Definition demo_env : env :=
  {| e_canvas := true; e_context := true; e_offsetWidth := 10; e_offsetHeight := 10; e_dpr := nof 1;
     e_left := nof 0; e_top := nof 0 |}.
Definition demo_random (_ : nat) : num := lit 1 2.

