(* ===== verification/HexagonPattern.v ===== *)
(** * The hexagon pattern ([website/components/magicui/hexagon-pattern.tsx])

    A repeating tile of hexagons.  Coordinates are binary64 numbers.  ECMAScript leaves the values
    of [Math.cos] and [Math.sin] to the implementation, so both are parameters.  The theorem is
    about the dashed variant, which draws every edge once although neighbouring hexagons share it. *)

From Stdlib Require Import String List Arith NArith ZArith Lia Bool SpecFloat.
From S2P Require Import Prelude JsString JsNum NumText Dom.
Import ListNotations.
Local Open Scope list_scope.

Inductive hex_direction := horizontal | vertical.

Record HexagonPatternProps := {
  hp_radius : num; hp_gap : num; hp_x : num; hp_y : num; hp_direction : hex_direction;
  hp_strokeDasharray : jsstring; hp_hexagons : option (list (num * num)); hp_className : option jsstring;
  hp_rest : list (string * jsstring) }.

(** The props of [<HexagonPattern />]. *)
Definition HexagonPattern_defaults : HexagonPatternProps :=
  {| hp_radius := nof 40; hp_gap := nof 0; hp_x := nof (-1); hp_y := nof (-1); hp_direction := horizontal;
     hp_strokeDasharray := js "0"; hp_hexagons := None; hp_className := None; hp_rest := [] |}.

Definition HexPoint : Type := (num * num)%type.

Section Hexagons.
Context (cos sin : num -> num).

Definition hexVertexList (cx cy r : num) (direction : hex_direction) : list HexPoint :=
  let startAngle := match direction with horizontal => 0 | vertical => 30 end%Z in
  map (fun i : nat =>
         let angle := ndiv (nmul (nof (startAngle + Z.of_nat i * 60)) Math_PI) (nof 180) in
         (nadd cx (nmul r (cos angle)), nadd cy (nmul r (sin angle))))
      (seq 0 6).

Definition hexPoints (cx cy r : num) (direction : hex_direction) : jsstring :=
  join (js " ") (map (fun p : HexPoint => num_to_js (fst p) ++ js "," ++ num_to_js (snd p))
                     (hexVertexList cx cy r direction)).

Definition edgeLexKey (a b : HexPoint) : jsstring :=
  let '(p, q) := if nlt (fst a) (fst b) || (neq (fst a) (fst b) && nle (snd a) (snd b)) then (a, b) else (b, a) in
  toFixed (fst p) 6 ++ js "," ++ toFixed (snd p) 6 ++ js "|" ++ toFixed (fst q) 6 ++ js "," ++ toFixed (snd q) 6.

(** Edge [i] of the hexagon around a centre: from vertex [i] to the next one. *)
Definition hex_edge (r : num) (direction : hex_direction) (c : num * num) (i : nat) : HexPoint * HexPoint :=
  let verts := hexVertexList (fst c) (snd c) r direction in
  (nth i verts (S754_nan, S754_nan), nth ((i + 1) mod 6) verts (S754_nan, S754_nan)).

(** The body of the inner loop: [seen] and [edges] are extended when the key is new. *)
Definition collect_edge (st : list jsstring * list (HexPoint * HexPoint)) (e : HexPoint * HexPoint)
  : list jsstring * list (HexPoint * HexPoint) :=
  let '(seen, edges) := st in
  let key := edgeLexKey (fst e) (snd e) in
  if existsb (jseqb key) seen then (seen, edges) else (seen ++ [key], edges ++ [e]).

Definition collectUniqueHexEdges (centers : list (num * num)) (r : num) (direction : hex_direction)
  : list (HexPoint * HexPoint) :=
  snd (fold_left (fun st c => fold_left (fun st i => collect_edge st (hex_edge r direction c i)) (seq 0 6) st)
                 centers ([], [])).

Definition isSolidStrokeDasharray (strokeDasharray : jsstring) : bool :=
  let t := trim strokeDasharray in
  jseqb t [] || jseqb t (js "none") || jseqb t (js "0").

Record hex_spacing := { colStep : num; rowStep : num; sp_tileW : num; sp_tileH : num }.

Definition getHexSpacing (r : num) (direction : hex_direction) (gap : num) : hex_spacing :=
  let sqrt3 := nsqrt (nof 3) in
  match direction with
  | horizontal =>
      let colStep := nadd (ndiv (nmul (nof 3) r) (nof 2)) (ndiv (nmul sqrt3 gap) (nof 2)) in
      let rowStep := nadd (nmul sqrt3 r) gap in
      {| colStep := colStep; rowStep := rowStep; sp_tileW := nmul colStep (nof 2); sp_tileH := rowStep |}
  | vertical =>
      let colStep := nadd (nmul sqrt3 r) gap in
      let rowStep := nadd (ndiv (nmul (nof 3) r) (nof 2)) (ndiv (nmul sqrt3 gap) (nof 2)) in
      {| colStep := colStep; rowStep := rowStep; sp_tileW := colStep; sp_tileH := nmul rowStep (nof 2) |}
  end.

(** A hexagon of the tile with its copies across the borders it crosses. *)
Definition wrap_center (r tileW tileH : num) (c : num * num) : list (num * num) :=
  let '(cx, cy) := c in
  let up := nlt (nsub cy r) (nof 0) in
  let down := nlt tileH (nadd cy r) in
  let left := nlt (nsub cx r) (nof 0) in
  let right := nlt tileW (nadd cx r) in
  let push (b : bool) (p : num * num) := if b then [p] else [] in
  [(cx, cy)]
  ++ push up (cx, nadd cy tileH)
  ++ push down (cx, nsub cy tileH)
  ++ push left (nadd cx tileW, cy)
  ++ push right (nsub cx tileW, cy)
  ++ push (up && left) (nadd cx tileW, nadd cy tileH)
  ++ push (up && right) (nsub cx tileW, nadd cy tileH)
  ++ push (down && left) (nadd cx tileW, nsub cy tileH)
  ++ push (down && right) (nsub cx tileW, nsub cy tileH).

Record tile_geometry := { tileW : num; tileH : num; centers : list (num * num) }.

Definition getTileGeometry (r : num) (direction : hex_direction) (gap : num) : tile_geometry :=
  let sp := getHexSpacing r direction gap in
  let canonical :=
    match direction with
    | horizontal => [(ndiv (colStep sp) (nof 2), ndiv (rowStep sp) (nof 2));
                     (ndiv (nmul (colStep sp) (nof 3)) (nof 2), rowStep sp)]
    | vertical => [(ndiv (colStep sp) (nof 2), ndiv (rowStep sp) (nof 2));
                   (colStep sp, ndiv (nmul (rowStep sp) (nof 3)) (nof 2))]
    end in
  {| tileW := sp_tileW sp; tileH := sp_tileH sp;
     centers := flat_map (wrap_center r (sp_tileW sp) (sp_tileH sp)) canonical |}.

Definition hexCenter (col row r : num) (direction : hex_direction) (gap : num) : num * num :=
  let sp := getHexSpacing r direction gap in
  let odd (n : num) := negb (neq (nrem n (nof 2)) (nof 0)) in
  match direction with
  | horizontal =>
      (nadd (nmul col (colStep sp)) (ndiv (colStep sp) (nof 2)),
       nadd (nadd (nmul row (rowStep sp)) (ndiv (rowStep sp) (nof 2)))
            (if odd col then ndiv (rowStep sp) (nof 2) else nof 0))
  | vertical =>
      (nadd (nadd (nmul col (colStep sp)) (ndiv (colStep sp) (nof 2)))
            (if odd row then ndiv (colStep sp) (nof 2) else nof 0),
       nadd (nmul row (rowStep sp)) (ndiv (rowStep sp) (nof 2)))
  end.

Definition hex_polygon (props : HexagonPatternProps) (c : num * num) : vnode :=
  VEl "polygon"
    [("className"%string, js "fill-none"); ("key"%string, num_to_js (fst c) ++ js "-" ++ num_to_js (snd c));
     ("points"%string, hexPoints (fst c) (snd c) (hp_radius props) (hp_direction props));
     ("strokeDasharray"%string, hp_strokeDasharray props)] [].

Definition hex_line (props : HexagonPatternProps) (e : HexPoint * HexPoint) : vnode :=
  let '(a, b) := e in
  VEl "line"
    [("className"%string, js "fill-none"); ("key"%string, edgeLexKey a b);
     ("x1"%string, num_to_js (fst a)); ("x2"%string, num_to_js (fst b));
     ("y1"%string, num_to_js (snd a)); ("y2"%string, num_to_js (snd b));
     ("strokeDasharray"%string, hp_strokeDasharray props)] [].

Definition hex_highlight (props : HexagonPatternProps) (h : num * num) : vnode :=
  let '(col, row) := h in
  let '(cx, cy) := hexCenter col row (hp_radius props) (hp_direction props) (hp_gap props) in
  VEl "polygon"
    [("key"%string, num_to_js col ++ js "-" ++ num_to_js row);
     ("points"%string, hexPoints cx cy (nsub (hp_radius props) (nof 1)) (hp_direction props));
     ("strokeWidth"%string, js "0")] [].

Definition HexagonPattern (cn : list jsstring -> jsstring) (id : jsstring) (props : HexagonPatternProps) : vnode :=
  let geo := getTileGeometry (hp_radius props) (hp_direction props) (hp_gap props) in
  let solidStroke := isSolidStrokeDasharray (hp_strokeDasharray props) in
  VEl "svg"
    ([("aria-hidden"%string, js "true");
      ("className"%string,
       cn (js "pointer-events-none absolute inset-0 h-full w-full fill-gray-400/30 stroke-gray-400/30"
           :: cls_opt (hp_className props)))] ++ hp_rest props)
    ([VEl "defs" []
        [VEl "pattern"
           [("id"%string, id); ("width"%string, num_to_js (tileW geo)); ("height"%string, num_to_js (tileH geo));
            ("patternUnits"%string, js "userSpaceOnUse"); ("x"%string, num_to_js (hp_x props));
            ("y"%string, num_to_js (hp_y props))]
           (if solidStroke then map (hex_polygon props) (centers geo)
            else map (hex_line props) (collectUniqueHexEdges (centers geo) (hp_radius props) (hp_direction props)))];
      VEl "rect" [("width"%string, js "100%"); ("height"%string, js "100%");
                  ("fill"%string, js "url(#" ++ id ++ js ")"); ("stroke"%string, js "none")] []]
     ++ match hp_hexagons props with
        | Some (h :: hs) =>
            [VEl "svg" [("aria-hidden"%string, js "true"); ("className"%string, js "overflow-visible");
                        ("x"%string, num_to_js (hp_x props)); ("y"%string, num_to_js (hp_y props))]
               (map (hex_highlight props) (h :: hs))]
        | _ => []
        end).
End Hexagons.

(** ** Unique edges *)

Section UniqueEdges.
Context (cos sin : num -> num).

Definition edge_key (e : HexPoint * HexPoint) : jsstring := edgeLexKey (fst e) (snd e).

(** What [seen] and [edges] satisfy after the edges [l] have been visited. *)
Definition edges_ok (l : list (HexPoint * HexPoint)) (st : list jsstring * list (HexPoint * HexPoint)) : Prop :=
  fst st = map edge_key (snd st) /\ NoDup (fst st) /\ incl (snd st) l /\ incl (map edge_key l) (fst st).

Lemma collect_edge_ok l st e : edges_ok l st -> edges_ok (l ++ [e]) (collect_edge st e).
Proof.
  destruct st as [seen edges]. unfold edges_ok, collect_edge. cbn [fst snd]. intros (H1 & H2 & H3 & H4).
  rewrite map_app. cbn [map]. fold (edge_key e). destruct (existsb _ seen) eqn:E; cbn [fst snd].
  - apply existsb_exists in E as (k & Hk & E). apply jseqb_eq in E. subst k.
    repeat split; auto using incl_appl. apply incl_app; [assumption|]. intros k [<-|[]]. exact Hk.
  - assert (Hn : ~ In (edge_key e) seen).
    { intros Hi. rewrite <- not_true_iff_false in E. apply E, existsb_exists. exists (edge_key e). split; [exact Hi|].
      now apply jseqb_eq. }
    repeat split.
    + now rewrite H1, map_app.
    + apply NoDup_app; [assumption|repeat constructor; auto|]. intros k Hk [<-|[]]. contradiction.
    + apply incl_app; [now apply incl_appl|apply incl_appr, incl_refl].
    + apply incl_app; [now apply incl_appl|apply incl_appr, incl_refl].
Qed.

Lemma collect_edges_ok l l0 st : edges_ok l0 st -> edges_ok (l0 ++ l) (fold_left collect_edge l st).
Proof.
  revert l0 st. induction l as [|e l IH]; intros l0 st H; cbn [fold_left]; [now rewrite app_nil_r|].
  change (e :: l) with ([e] ++ l). rewrite app_assoc. now apply IH, collect_edge_ok.
Qed.

Definition all_edges (centers : list (num * num)) (r : num) (direction : hex_direction) : list (HexPoint * HexPoint) :=
  flat_map (fun c => map (hex_edge cos sin r direction c) (seq 0 6)) centers.

Lemma collect_flat centers r direction st :
  fold_left (fun st c => fold_left (fun st i => collect_edge st (hex_edge cos sin r direction c i)) (seq 0 6) st) centers st
  = fold_left collect_edge (all_edges centers r direction) st.
Proof.
  revert st. induction centers as [|c l IH]; intros st; [reflexivity|]. cbn [fold_left all_edges flat_map].
  rewrite fold_left_app, IH. reflexivity.
Qed.

Lemma collectUnique_ok centers r direction :
  edges_ok (all_edges centers r direction)
    (fold_left collect_edge (all_edges centers r direction) ([], [])).
Proof. apply (collect_edges_ok _ []). unfold edges_ok. cbn. repeat split; auto using NoDup_nil, incl_refl. Qed.

Lemma in_all_edges e centers r direction :
  In e (all_edges centers r direction) <-> exists c i, In c centers /\ i < 6 /\ e = hex_edge cos sin r direction c i.
Proof.
  unfold all_edges. rewrite in_flat_map. split.
  - intros (c & Hc & He). apply in_map_iff in He as (i & <- & Hi). apply in_seq in Hi. exists c, i. repeat split; auto; lia.
  - intros (c & i & Hc & Hi & ->). exists c. split; [exact Hc|]. apply in_map, in_seq. lia.
Qed.
End UniqueEdges.

(** ** The key of an edge does not depend on its direction *)

Lemma compare_Eq x y :
  SFcompare x y = Some Eq -> x = y \/ exists s s', x = S754_zero s /\ y = S754_zero s'.
Proof.
  destruct x as [s| s| |s m e], y as [s'|s'| |s' m' e']; cbn [SFcompare]; intros H;
    try discriminate; try (destruct s; discriminate); try (destruct s'; discriminate).
  - right. now exists s, s'.
  - left. now destruct s, s'.
  - left. destruct s, s'; try discriminate; destruct (e ?= e')%Z eqn:Ee; try discriminate H; apply Z.compare_eq in Ee;
      subst e'; injection H as H; fold (Pos.compare m m') in H; destruct (Pos.compare m m') eqn:Em; try discriminate H;
      apply Pos.compare_eq in Em; now subst.
Qed.

Lemma compare_Eq_text x y f : SFcompare x y = Some Eq -> toFixed x f = toFixed y f.
Proof. intros H. destruct (compare_Eq x y H) as [->|(s & s' & -> & ->)]; reflexivity. Qed.

Lemma edgeLexKey_sym (a b : HexPoint) :
  Forall (fun x => is_nan x = false) [fst a; snd a; fst b; snd b] -> edgeLexKey a b = edgeLexKey b a.
Proof.
  intros H. inv H. inv H3. inv H4. inv H5. clear H6. destruct a as [ax ay], b as [bx by_]. cbn [fst snd] in *.
  unfold edgeLexKey, nlt, nle, neq, SFltb, SFleb, SFeqb. cbn [fst snd].
  rewrite (compare_swap ax bx), (compare_swap ay by_).
  destruct (SFcompare ax bx) as [c|] eqn:Ex; [|apply compare_none in Ex as []; congruence].
  destruct (SFcompare ay by_) as [d|] eqn:Ey; [|apply compare_none in Ey as []; congruence].
  destruct c, d; cbn [option_map CompOpp orb andb]; try reflexivity.
  cbn [fst snd]. now rewrite (compare_Eq_text _ _ 6 Ex), (compare_Eq_text _ _ 6 Ey).
Qed.

Lemma lines_collected props l :
  flat_map (collect "line" "key") (map (hex_line props) l) = map edge_key l.
Proof. induction l as [|[a b] l IH]; [reflexivity|]. cbn [map flat_map]. rewrite IH. reflexivity. Qed.

Lemma no_lines_in {A} (f : A -> vnode) l :
  (forall a, collect "line" "key" (f a) = []) -> flat_map (collect "line" "key") (map f l) = [].
Proof. intros H. induction l as [|a l IH]; cbn [map flat_map]; [reflexivity|]. now rewrite H, IH. Qed.

(** The [key]s of the lines of the rendered pattern. *)
Lemma pattern_lines cos sin cn id props :
  isSolidStrokeDasharray (hp_strokeDasharray props) = false ->
  collect "line" "key" (HexagonPattern cos sin cn id props)
  = map edge_key (collectUniqueHexEdges cos sin (centers (getTileGeometry (hp_radius props) (hp_direction props) (hp_gap props)))
                    (hp_radius props) (hp_direction props)).
Proof.
  intros H. unfold HexagonPattern. cbv zeta. rewrite H. cbn [collect String.eqb flat_map app]. rewrite lines_collected.
  cbn [Ascii.eqb Bool.eqb]. destruct (hp_hexagons props) as [[|h hs]|]; cbn [flat_map collect String.eqb Ascii.eqb Bool.eqb app];
    rewrite ?app_nil_r; try reflexivity.
  rewrite (no_lines_in (hex_highlight cos sin props)); [now rewrite app_nil_r|].
  intros [a b]. unfold hex_highlight. now destruct (hexCenter _ _ _ _ _).
Qed.

(** C36: With a dashed stroke the pattern draws every edge of every hexagon of the tile exactly once: the
    keys of its lines are pairwise distinct, each line is an edge of a hexagon of the tile, each edge
    of such a hexagon has the key of a drawn line, and the key of an edge is the same from both its
    ends, so that the edge shared by two neighbours is drawn once. *)
Theorem dashed_edges_unique cos sin cn id props :
  isSolidStrokeDasharray (hp_strokeDasharray props) = false ->
  let r := hp_radius props in
  let direction := hp_direction props in
  let cs := centers (getTileGeometry r direction (hp_gap props)) in
  let edges := collectUniqueHexEdges cos sin cs r direction in
  let keys := collect "line" "key" (HexagonPattern cos sin cn id props) in
  NoDup keys /\
  keys = map (fun e => edgeLexKey (fst e) (snd e)) edges /\
  (forall e, In e edges -> exists c i, In c cs /\ i < 6 /\ e = hex_edge cos sin r direction c i) /\
  (forall c i, In c cs -> i < 6 ->
     let e := hex_edge cos sin r direction c i in In (edgeLexKey (fst e) (snd e)) keys) /\
  (forall a b : HexPoint, Forall (fun x => is_nan x = false) [fst a; snd a; fst b; snd b] ->
     edgeLexKey a b = edgeLexKey b a).
Proof.
  intros H r direction cs edges keys. assert (Ek : keys = map edge_key edges) by now apply pattern_lines.
  destruct (collectUnique_ok cos sin cs r direction) as (H1 & H2 & H3 & H4).
  assert (Ee : edges = snd (fold_left collect_edge (all_edges cos sin cs r direction) ([], [])))
    by (unfold edges, collectUniqueHexEdges; now rewrite collect_flat).
  rewrite <- Ee in H1, H3. rewrite Ek, <- H1. split; [exact H2|]. split; [now rewrite H1|]. repeat split.
  - intros e He. now apply in_all_edges, H3.
  - intros c i Hc Hi e. apply H4. change (edgeLexKey (fst e) (snd e)) with (edge_key e). apply in_map, in_all_edges. now exists c, i.
  - apply edgeLexKey_sym.
Qed.

Definition dashed_props : HexagonPatternProps :=
  {| hp_radius := nof 40; hp_gap := nof 0; hp_x := nof (-1); hp_y := nof (-1); hp_direction := vertical;
     hp_strokeDasharray := js "4 2"; hp_hexagons := Some [(nof 1, nof 1)]; hp_className := None; hp_rest := [] |}.

(** With constant functions for the sine and the cosine. *)
Lemma dashed_edges_unique_witness :
  NoDup (collect "line" "key" (HexagonPattern (fun _ => nof 0) (fun _ => nof 1) (fun l => join (js " ") l) (js "i") dashed_props)).
Proof.
  exact (proj1 (dashed_edges_unique (fun _ => nof 0) (fun _ => nof 1) (fun l => join (js " ") l) (js "i") dashed_props eq_refl)).
Defined.
