(* ===== verification/Widgets.v ===== *)
(** * Small animated components ([website/components/magicui])

    - [AnimatedList]: [animated-list.tsx], children revealed one after the other by a timer;
    - [WordRotate]: [word-rotate.tsx], words shown in turn by an interval;
    - [InteractiveGrid]: [interactive-grid-pattern.tsx], a grid whose hovered cell is filled;
    - [AnimatedGrid]: [animated-grid-pattern.tsx], squares that move when their animation completes;
    - [CircularProgress]: [animated-circular-progress-bar.tsx].

    The state of a component is a record, its timers and notifications are events, and an effect is
    run again exactly when one of its dependencies has changed.  [Math.random] is a function from the
    number of the call to its answer.  The motion library only receives attributes. *)

From Stdlib Require Import String List Arith NArith ZArith Lia Bool SpecFloat.
From S2P Require Import Prelude JsString JsNum NumText Dom State.
Import ListNotations.
Local Open Scope list_scope.

Module AnimatedList.

(** A child as [React.Children.toArray] returns it, with its key. *)
Record child := { key : jsstring; node : vnode }.

(** [timeout] holds the length the pending timer was started with. *)
Record list_state := { index : nat; childrenArray : list child; timeout : option nat }.

(** The effect of [index] and the number of children. *)
Definition arm (index len : nat) : option nat := if S index <? len then Some len else None.

Definition list_mount (children : list child) : list_state :=
  {| index := 0; childrenArray := children; timeout := arm 0 (length children) |}.

(** The timer fires: the new index, then the effect that depends on it. *)
Definition list_timeout (s : list_state) : list_state :=
  match timeout s with
  | None => s
  | Some len =>
      let index' := (index s + 1) mod len in
      {| index := index'; childrenArray := childrenArray s; timeout := arm index' (length (childrenArray s)) |}
  end.

(** New children: the effect runs again when their number is another one. *)
Definition list_children (children : list child) (s : list_state) : list_state :=
  {| index := index s; childrenArray := children;
     timeout := if length children =? length (childrenArray s) then timeout s else arm (index s) (length children) |}.

Definition itemsToShow (s : list_state) : list child := rev (slice 0 (index s + 1) (childrenArray s)).

Inductive list_event := ev_timeout | ev_children (children : list child).

Definition list_step (s : list_state) (e : list_event) : list_state :=
  match e with ev_timeout => list_timeout s | ev_children children => list_children children s end.

Definition AnimatedListItem (c : child) : vnode :=
  VEl "motion.div"
    [("key"%string, key c);
     ("initial"%string, js "scale:0,opacity:0"); ("animate"%string, js "scale:1,opacity:1,originY:0");
     ("exit"%string, js "scale:0,opacity:0"); ("transition"%string, js "type:spring,stiffness:350,damping:40");
     ("layout"%string, js "true"); ("className"%string, js "mx-auto w-full")]
    [node c].

Definition AnimatedList (cn : list jsstring -> jsstring) (className : option jsstring) (rest : list (string * jsstring))
  (s : list_state) : vnode :=
  VEl "div" (("className"%string, cn (js "flex flex-col items-center gap-4" :: cls_opt className)) :: rest)
    [VEl "AnimatePresence" [] (map AnimatedListItem (itemsToShow s))].

Definition list_reachable (s : list_state) : Prop :=
  exists children es, s = fold_left list_step es (list_mount children).

Definition list_inv (s : list_state) : Prop := timeout s = arm (index s) (length (childrenArray s)).

Lemma list_step_inv s e : list_inv s -> list_inv (list_step s e).
Proof.
  unfold list_inv. destruct e as [|l]; cbn [list_step].
  - intros H. unfold list_timeout. destruct (timeout s) eqn:E; [reflexivity|congruence].
  - intros H. cbn. destruct (Nat.eqb_spec (length l) (length (childrenArray s))) as [->|_]; [exact H|reflexivity].
Qed.

Lemma list_reachable_inv s : list_reachable s -> list_inv s.
Proof.
  intros (l & es & ->). assert (H : list_inv (list_mount l)) by reflexivity. revert H. generalize (list_mount l) as s.
  induction es as [|e es IH]; intros s H; cbn [fold_left]; [exact H|]. now apply IH, list_step_inv.
Qed.

(** A pending timer moves to the next child and never wraps around. *)
Lemma list_timeout_next s :
  list_inv s -> S (index s) < length (childrenArray s) ->
  list_timeout s = {| index := S (index s); childrenArray := childrenArray s;
                      timeout := arm (S (index s)) (length (childrenArray s)) |}.
Proof.
  intros H Hl. unfold list_timeout. rewrite H. unfold arm at 1. rewrite (proj2 (Nat.ltb_lt _ _) Hl).
  now rewrite Nat.add_1_r, Nat.mod_small.
Qed.

Lemma list_timeouts k : forall s,
  list_inv s -> index s + k < length (childrenArray s) ->
  iterate k list_timeout s = {| index := index s + k; childrenArray := childrenArray s;
                                timeout := arm (index s + k) (length (childrenArray s)) |}.
Proof.
  induction k as [|k IH]; intros s H Hl.
  - cbn. rewrite Nat.add_0_r, <- H. now destruct s.
  - cbn [iterate]. rewrite IH by (auto; lia). rewrite list_timeout_next; cbn; [|reflexivity|lia].
    now replace (S (index s + k)) with (index s + S k) by lia.
Qed.

(** In every reachable state a timer is pending exactly while a child is hidden; each time-out
    reveals one more child, the newest first, and the index never wraps around: after as many
    time-outs as children are hidden, all of them are shown and no timer is left. *)
Theorem animated_list_shows_all s :
  list_reachable s ->
  let n := length (childrenArray s) in
  let hidden := n - 1 - index s in
  (timeout s <> None <-> 0 < hidden) /\
  (forall k, k <= hidden ->
     itemsToShow (iterate k list_timeout s) = rev (firstn (index s + k + 1) (childrenArray s))) /\
  itemsToShow (iterate hidden list_timeout s) = rev (childrenArray s) /\
  timeout (iterate hidden list_timeout s) = None.
Proof.
  intros Hr n hidden. apply list_reachable_inv in Hr as H. split; [|assert (Hk : forall k, k <= hidden -> 0 < k -> index s + k < n) by lia].
  { rewrite H. unfold arm. fold n. destruct (Nat.ltb_spec (S (index s)) n); split; intros; try congruence; lia. }
  assert (Hs : forall k, k <= hidden ->
    itemsToShow (iterate k list_timeout s) = rev (firstn (index s + k + 1) (childrenArray s))).
  { intros [|k] Hle; [unfold itemsToShow, slice; cbn [iterate skipn]; now rewrite Nat.sub_0_r, Nat.add_0_r|]. rewrite list_timeouts by (auto; apply Hk; lia).
    unfold itemsToShow, slice. cbn [index childrenArray skipn]. now rewrite Nat.sub_0_r. }
  split; [auto|]. split.
  - rewrite Hs by lia. f_equal. apply firstn_all2. fold n. lia.
  - destruct hidden as [|h] eqn:Eh.
    + cbn. rewrite H. unfold arm. fold n. destruct (Nat.ltb_spec (S (index s)) n); [lia|reflexivity].
    + rewrite list_timeouts by (auto; apply Hk; lia). cbn [timeout]. unfold arm. fold n.
      destruct (Nat.ltb_spec (S (index s + S h)) n); [lia|reflexivity].
Qed.

Definition three : list child := map (fun c => {| key := js c; node := VText (js c) |}) ["a"; "b"; "c"]%string.

Lemma animated_list_shows_all_witness :
  itemsToShow (iterate 2 list_timeout (list_mount three)) = rev three /\
  timeout (iterate 2 list_timeout (list_mount three)) = None.
Proof. exact (proj2 (proj2 (animated_list_shows_all (list_mount three) (ex_intro _ three (ex_intro _ [] eq_refl))))). Defined.

End AnimatedList.

Module WordRotate.

(** [index] is [None] for NaN, the remainder by an empty list's length. *)
Record rotate_state := { index : option nat; words : list jsstring }.

Definition rotate_tick (s : rotate_state) : rotate_state :=
  {| index := match index s with
              | Some i => if length (words s) =? 0 then None else Some ((i + 1) mod length (words s))
              | None => None
              end;
     words := words s |}.

(** [words[index]]. *)
Definition word_shown (s : rotate_state) : option jsstring :=
  match index s with Some i => nth_error (words s) i | None => None end.

Definition default_motionProps : list (string * jsstring) :=
  [("initial"%string, js "opacity:0,y:-50"); ("animate"%string, js "opacity:1,y:0");
   ("exit"%string, js "opacity:0,y:50"); ("transition"%string, js "duration:0.25,ease:easeOut")].

Definition WordRotate (cn : list jsstring -> jsstring) (className : option jsstring)
  (motionProps : option (list (string * jsstring))) (s : rotate_state) : vnode :=
  VEl "div" [("className"%string, js "overflow-hidden py-2")]
    [VEl "AnimatePresence" [("mode"%string, js "wait")]
       [VEl "motion.h1"
          (match word_shown s with Some w => [("key"%string, w)] | None => [] end
           ++ [("className"%string, cn (cls_opt className))] ++ default_of default_motionProps motionProps)
          (when_some (word_shown s) VText)]].

(** The words are shown in turn, from the first one on. *)
Lemma word_rotate_cycles ws k :
  ws <> [] -> word_shown (iterate k rotate_tick {| index := Some 0; words := ws |}) = nth_error ws (k mod length ws).
Proof.
  intros H. assert (Hn : length ws <> 0) by (now destruct ws).
  assert (E : iterate k rotate_tick {| index := Some 0; words := ws |} = {| index := Some (k mod length ws); words := ws |}).
  { induction k as [|k IH]; [cbn; now rewrite Nat.Div0.mod_0_l|]. cbn [iterate]. rewrite IH. unfold rotate_tick. cbn [index words].
    rewrite (proj2 (Nat.eqb_neq _ _) Hn). now rewrite Nat.Div0.add_mod_idemp_l, Nat.add_1_r. }
  now rewrite E.
Qed.

End WordRotate.

Module InteractiveGrid.

Record InteractiveGridPatternProps := {
  ig_width : num; ig_height : num; ig_horizontal : nat; ig_vertical : nat;
  ig_className : option jsstring; ig_squaresClassName : option jsstring; ig_rest : list (string * jsstring) }.

Inductive grid_event := mouse_enter (index : nat) | mouse_leave (index : nat).

(** [hoveredSquare] after a notification of a cell. *)
Definition hover (e : grid_event) : option nat :=
  match e with mouse_enter index => Some index | mouse_leave _ => None end.

(** The column and the row of a cell. *)
Definition cell (horizontal index : nat) : nat * nat := (index mod horizontal, index / horizontal).

Definition cell_fill (hoveredSquare : option nat) (index : nat) : jsstring :=
  if match hoveredSquare with Some k => k =? index | None => false end then js "fill-gray-300/30" else js "fill-transparent".

Definition InteractiveGridPattern (cn : list jsstring -> jsstring) (props : InteractiveGridPatternProps)
  (hoveredSquare : option nat) : vnode :=
  let '(width, height) := (ig_width props, ig_height props) in
  let '(horizontal, vertical) := (ig_horizontal props, ig_vertical props) in
  VEl "svg"
    ([("width"%string, num_to_js (nmul width (nof (Z.of_nat horizontal))));
      ("height"%string, num_to_js (nmul height (nof (Z.of_nat vertical))));
      ("className"%string, cn (js "absolute inset-0 h-full w-full border border-gray-400/30" :: cls_opt (ig_className props)))]
     ++ ig_rest props)
    (map (fun index =>
            let '(col, row) := cell horizontal index in
            VEl "rect"
              [("key"%string, nat_to_js index);
               ("x"%string, num_to_js (nmul (nof (Z.of_nat col)) width));
               ("y"%string, num_to_js (nmul (nof (Z.of_nat row)) height));
               ("width"%string, num_to_js width); ("height"%string, num_to_js height);
               ("className"%string,
                cn ([js "stroke-gray-400/30 transition-all duration-100 ease-in-out not-[&:hover]:duration-1000";
                     cell_fill hoveredSquare index] ++ cls_opt (ig_squaresClassName props)))] [])
         (seq 0 (horizontal * vertical))).

Lemma cell_index h i j : j < h -> cell h (i * h + j) = (j, i).
Proof.
  intros H. unfold cell. rewrite (Nat.add_comm (i * h)). f_equal.
  - rewrite Nat.Div0.mod_add. now apply Nat.mod_small.
  - rewrite Nat.div_add by lia. now rewrite Nat.div_small.
Qed.

(** The rectangles are the cells of the grid: each column and row has exactly one. *)
Lemma interactive_grid_cells h v j i :
  (j < h /\ i < v <-> In (j, i) (map (cell h) (seq 0 (h * v)))) /\ NoDup (map (cell h) (seq 0 (h * v))).
Proof.
  assert (Hd : forall k, k < h * v -> k = (k / h) * h + k mod h /\ k mod h < h /\ k / h < v).
  { intros k Hk. assert (h <> 0) by lia. pose proof (Nat.div_mod_eq k h). pose proof (Nat.mod_upper_bound k h).
    repeat split; try lia. apply Nat.Div0.div_lt_upper_bound; lia. }
  split; [split|].
  - intros [Hj Hi]. apply in_map_iff. exists (i * h + j). split; [now apply cell_index|]. apply in_seq. nia.
  - intros H. apply in_map_iff in H as (k & E & Hk). apply in_seq in Hk. unfold cell in E. inv E. now apply Hd.
  - apply NoDup_map_NoDup_ForallPairs; [|apply seq_NoDup]. intros a b Ha Hb E. apply in_seq in Ha, Hb.
    destruct (Hd a) as [-> _]; [lia|]. destruct (Hd b) as [-> _]; [lia|]. unfold cell in E. congruence.
Qed.

(** At most one rectangle is filled, the one under the pointer. *)
Lemma interactive_grid_fill e index :
  cell_fill (hover e) index = js "fill-gray-300/30" <-> e = mouse_enter index.
Proof.
  destruct e as [k|k]; unfold cell_fill, hover; [destruct (Nat.eqb_spec k index) as [->|Hne]|]; split; intros H;
    try reflexivity; try discriminate H; congruence.
Qed.

End InteractiveGrid.

Module CircularProgress.

Record ProgressProps := {
  cp_max : num; cp_min : num; cp_value : num; cp_primary : jsstring; cp_secondary : jsstring;
  cp_className : option jsstring }.

Definition circumference : num := nmul (nmul (nof 2) Math_PI) (nof 45).
Definition percentPx : num := ndiv circumference (nof 100).
Definition currentPercent (props : ProgressProps) : num :=
  Math_round (nmul (ndiv (nsub (cp_value props) (cp_min props)) (nsub (cp_max props) (cp_min props))) (nof 100)).

(** The attributes both circles share. *)
Definition circle_attrs : list (string * jsstring) :=
  [("cx", js "50"); ("cy", js "50"); ("r", js "45"); ("strokeWidth", js "10"); ("strokeDashoffset", js "0");
   ("strokeLinecap", js "round"); ("strokeLinejoin", js "round"); ("className", js "opacity-100")]%string.

Definition has_secondary (percent : num) : bool := nle percent (nof 90) && nle (nof 0) percent.

Definition AnimatedCircularProgressBar (cn : list jsstring -> jsstring) (props : ProgressProps) : vnode :=
  let percent := currentPercent props in
  VEl "div"
    [("className"%string, cn (js "relative size-40 text-2xl font-semibold" :: cls_opt (cp_className props)));
     ("style.--circle-size"%string, js "100px"); ("style.--circumference"%string, num_to_js circumference);
     ("style.--percent-to-px"%string, num_to_js percentPx ++ js "px"); ("style.--gap-percent"%string, js "5");
     ("style.--offset-factor"%string, js "0"); ("style.--transition-length"%string, js "1s");
     ("style.--transition-step"%string, js "200ms"); ("style.--delay"%string, js "0s");
     ("style.--percent-to-deg"%string, js "3.6deg"); ("style.transform"%string, js "translateZ(0)")]
    [VEl "svg" [("fill", js "none"); ("className", js "size-full"); ("strokeWidth", js "2"); ("viewBox", js "0 0 100 100")]%string
       (when (has_secondary percent)
          (VEl "circle"
             (circle_attrs ++
              [("style.stroke"%string, cp_secondary props);
               ("style.--stroke-percent"%string, num_to_js (nsub (nof 90) percent));
               ("style.--offset-factor-secondary"%string, js "calc(1 - var(--offset-factor))");
               ("style.strokeDasharray"%string, js "calc(var(--stroke-percent) * var(--percent-to-px)) var(--circumference)");
               ("style.transform"%string,
                js "rotate(calc(1turn - 90deg - (var(--gap-percent) * var(--percent-to-deg) * var(--offset-factor-secondary)))) scaleY(-1)");
               ("style.transition"%string, js "all var(--transition-length) ease var(--delay)");
               ("style.transformOrigin"%string, js "calc(var(--circle-size) / 2) calc(var(--circle-size) / 2)")]) [])
        ++ [VEl "circle"
              (circle_attrs ++
               [("style.stroke"%string, cp_primary props);
                ("style.--stroke-percent"%string, num_to_js percent);
                ("style.strokeDasharray"%string, js "calc(var(--stroke-percent) * var(--percent-to-px)) var(--circumference)");
                ("style.transition"%string,
                 js "var(--transition-length) ease var(--delay),stroke var(--transition-length) ease var(--delay)");
                ("style.transitionProperty"%string, js "stroke-dasharray,transform");
                ("style.transform"%string,
                 js "rotate(calc(-90deg + var(--gap-percent) * var(--offset-factor) * var(--percent-to-deg)))");
                ("style.transformOrigin"%string, js "calc(var(--circle-size) / 2) calc(var(--circle-size) / 2)")]) []]);
     VEl "span"
       [("data-current-value"%string, num_to_js percent);
        ("className"%string,
         js "animate-in fade-in absolute inset-0 m-auto size-fit delay-(--delay) duration-(--transition-length) ease-linear")]
       [VText (num_to_js percent)]].

(** The bar shows the percentage as text. *)
Lemma progress_text cn props : textContent (AnimatedCircularProgressBar cn props) = num_to_js (currentPercent props).
Proof.
  cbn [AnimatedCircularProgressBar textContent flat_map]. unfold when. destruct (has_secondary _); cbn; now rewrite !app_nil_r.
Qed.

Example progress_percent :
  map (fun v => currentPercent {| cp_max := nof 100; cp_min := nof 0; cp_value := v; cp_primary := []; cp_secondary := []; cp_className := None |})
      [nof 0; nof 50; lit 905 10; nof 100]
  = [nof 0; nof 50; nof 91; nof 100].
Proof. vm_compute. reflexivity. Qed.

End CircularProgress.

Module AnimatedGrid.
Local Open Scope state_scope.

Record Square := { id : nat; pos : num * num; iteration : nat }.

Record AnimatedGridPatternProps := {
  ag_width : num; ag_height : num; ag_x : num; ag_y : num; ag_strokeDasharray : num; ag_numSquares : nat;
  ag_maxOpacity : num; ag_duration : num; ag_repeatDelay : num; ag_className : option jsstring;
  ag_rest : list (string * jsstring) }.

(** The component's state, its current props, and how often [Math.random] has been called. *)
Record grid_state := { dimensions : num * num; squares : list Square; props : AnimatedGridPatternProps; calls : nat }.

Section Handlers.
Context (random : nat -> num).

Definition Math_random : M nat num := k <- get (fun k => k) ;; modify S ;;; ret (random k).

Definition getPos (p : AnimatedGridPatternProps) (dimensions : num * num) : M nat (num * num) :=
  r1 <- Math_random ;; r2 <- Math_random ;;
  ret (Math_floor (ndiv (nmul r1 (fst dimensions)) (ag_width p)),
       Math_floor (ndiv (nmul r2 (snd dimensions)) (ag_height p))).

(** [Array.from({ length: count }, (_, i) => ...)], from index [i] on. *)
Fixpoint generate_from (p : AnimatedGridPatternProps) (dimensions : num * num) (count i : nat) : M nat (list Square) :=
  match count with
  | O => ret []
  | S n =>
      xy <- getPos p dimensions ;;
      rest <- generate_from p dimensions n (S i) ;;
      ret ({| id := i; pos := xy; iteration := 0 |} :: rest)
  end.
Definition generateSquares (p : AnimatedGridPatternProps) (dimensions : num * num) (count : nat) : M nat (list Square) :=
  generate_from p dimensions count 0.

Definition updateSquarePosition (squareId : nat) (s : grid_state) : grid_state :=
  match nth_error (squares s) squareId with
  | None => s
  | Some current =>
      if negb (id current =? squareId) then s
      else
        let '(xy, calls') := getPos (props s) (dimensions s) (calls s) in
        {| dimensions := dimensions s;
           squares := firstn squareId (squares s)
                      ++ {| id := id current; pos := xy; iteration := iteration current + 1 |}
                      :: skipn (S squareId) (squares s);
           props := props s; calls := calls' |}
  end.

(** The effect that fills the grid once it has a size. *)
Definition fill_effect (s : grid_state) : grid_state :=
  if truthy (fst (dimensions s)) && truthy (snd (dimensions s)) then
    let '(sq, calls') := generateSquares (props s) (dimensions s) (ag_numSquares (props s)) (calls s) in
    {| dimensions := dimensions s; squares := sq; props := props s; calls := calls' |}
  else s.

(** The updater of one entry of the resize observer. *)
Definition next_dimensions (current entry : num * num) : num * num :=
  if neq (fst current) (fst entry) && neq (snd current) (snd entry) then current else entry.

Definition same_number (a b : num) : bool := if num_dec a b then true else false.

(** The observer's callback, then the effect when the size is another one. *)
Definition on_resize (entries : list (num * num)) (s : grid_state) : grid_state :=
  let d := fold_left next_dimensions entries (dimensions s) in
  let s' := {| dimensions := d; squares := squares s; props := props s; calls := calls s |} in
  if same_number (fst d) (fst (dimensions s)) && same_number (snd d) (snd (dimensions s)) then s' else fill_effect s'.

(** New props: the effect depends on the size of a square and on their number. *)
Definition on_props (p : AnimatedGridPatternProps) (s : grid_state) : grid_state :=
  let s' := {| dimensions := dimensions s; squares := squares s; props := p; calls := calls s |} in
  if same_number (ag_width p) (ag_width (props s)) && same_number (ag_height p) (ag_height (props s))
     && (ag_numSquares p =? ag_numSquares (props s)) then s' else fill_effect s'.

Inductive grid_event :=
| ev_resize (entries : list (num * num)) | ev_props (p : AnimatedGridPatternProps) | ev_animationComplete (squareId : nat).

Definition grid_step (s : grid_state) (e : grid_event) : grid_state :=
  match e with
  | ev_resize entries => on_resize entries s
  | ev_props p => on_props p s
  | ev_animationComplete squareId => updateSquarePosition squareId s
  end.

Definition grid_mount (p : AnimatedGridPatternProps) : grid_state :=
  fill_effect {| dimensions := (nof 0, nof 0); squares := []; props := p; calls := 0 |}.

Definition grid_reachable (s : grid_state) : Prop := exists p es, s = fold_left grid_step es (grid_mount p).
End Handlers.

Definition square_key (sq : Square) : jsstring := nat_to_js (id sq) ++ js "-" ++ nat_to_js (iteration sq).

Definition square_rect (p : AnimatedGridPatternProps) (index : nat) (sq : Square) : vnode :=
  VEl "motion.rect"
    [("initial.opacity"%string, js "0"); ("animate.opacity"%string, num_to_js (ag_maxOpacity p));
     ("transition.duration"%string, num_to_js (ag_duration p)); ("transition.repeat"%string, js "1");
     ("transition.delay"%string, num_to_js (nmul (nof (Z.of_nat index)) (lit 1 10)));
     ("transition.repeatType"%string, js "reverse"); ("transition.repeatDelay"%string, num_to_js (ag_repeatDelay p));
     ("key"%string, square_key sq);
     ("width"%string, num_to_js (nsub (ag_width p) (nof 1))); ("height"%string, num_to_js (nsub (ag_height p) (nof 1)));
     ("x"%string, num_to_js (nadd (nmul (fst (pos sq)) (ag_width p)) (nof 1)));
     ("y"%string, num_to_js (nadd (nmul (snd (pos sq)) (ag_height p)) (nof 1)));
     ("fill"%string, js "currentColor"); ("strokeWidth"%string, js "0")] [].

Definition AnimatedGridPattern (cn : list jsstring -> jsstring) (patternId : jsstring) (s : grid_state) : vnode :=
  let p := props s in
  VEl "svg"
    ([("aria-hidden"%string, js "true");
      ("className"%string,
       cn (js "pointer-events-none absolute inset-0 h-full w-full fill-gray-400/30 stroke-gray-400/30"
           :: cls_opt (ag_className p)))] ++ ag_rest p)
    [VEl "defs" []
       [VEl "pattern"
          [("id"%string, patternId); ("width"%string, num_to_js (ag_width p)); ("height"%string, num_to_js (ag_height p));
           ("patternUnits"%string, js "userSpaceOnUse"); ("x"%string, num_to_js (ag_x p)); ("y"%string, num_to_js (ag_y p))]
          [VEl "path"
             [("d"%string, js "M.5 " ++ num_to_js (ag_height p) ++ js "V.5H" ++ num_to_js (ag_width p));
              ("fill"%string, js "none"); ("strokeDasharray"%string, num_to_js (ag_strokeDasharray p))] []]];
     VEl "rect" [("width"%string, js "100%"); ("height"%string, js "100%"); ("fill"%string, js "url(#" ++ patternId ++ js ")")] [];
     VEl "svg" [("x"%string, num_to_js (ag_x p)); ("y"%string, num_to_js (ag_y p)); ("className"%string, js "overflow-visible")]
       (mapi_from (square_rect p) 0 (squares s))].

(** ** The squares of a mounted grid *)

Definition grid_inv (s : grid_state) : Prop :=
  map id (squares s) = seq 0 (length (squares s)) /\
  (truthy (fst (dimensions s)) = true -> truthy (snd (dimensions s)) = true ->
   length (squares s) = ag_numSquares (props s)).

Lemma generate_from_ids random p d n : forall i k,
  map id (fst (generate_from random p d n i k)) = seq i n.
Proof.
  induction n as [|n IH]; intros i k; [reflexivity|]. specialize (IH (S i) (S (S k))).
  cbn [generate_from]. unfold getPos, Math_random, bind, get, modify, ret in *.
  destruct (generate_from random p d n (S i) (S (S k))) as [l k']. cbn [fst map id seq] in *. now rewrite IH.
Qed.

Lemma fill_effect_inv random s : map id (squares s) = seq 0 (length (squares s)) -> grid_inv (fill_effect random s).
Proof.
  intros H. unfold fill_effect. destruct (truthy (fst _) && truthy (snd _)) eqn:E.
  - unfold generateSquares. pose proof (generate_from_ids random (props s) (dimensions s) (ag_numSquares (props s)) 0 (calls s)) as G.
    destruct (generate_from random _ _ _ 0 (calls s)) as [l k]. cbn [fst] in G. unfold grid_inv. cbn [squares dimensions props].
    assert (Hl : length l = ag_numSquares (props s)) by now rewrite <- (length_map id), G, length_seq.
    split; [now rewrite Hl|auto].
  - split; [exact H|]. intros E1 E2. now rewrite E1, E2 in E.
Qed.

Lemma map_id_put l k (sq sq' : Square) :
  nth_error l k = Some sq -> id sq' = id sq ->
  map id (firstn k l ++ sq' :: skipn (S k) l) = map id l /\ length (firstn k l ++ sq' :: skipn (S k) l) = length l.
Proof.
  revert k. induction l as [|x l IH]; intros [|k] H E; try discriminate.
  - inv H. cbn. now rewrite E.
  - destruct (IH k H E) as [E1 E2]. cbn [firstn app map length].
    change (skipn (S (S k)) (x :: l)) with (skipn (S k) l). now rewrite E1, E2.
Qed.

Lemma grid_step_inv random s e : grid_inv s -> grid_inv (grid_step random s e).
Proof.
  intros [H1 H2]. destruct e as [es|p|k]; cbn [grid_step].
  - unfold on_resize, same_number. destruct (num_dec _ _) as [E1|]; [destruct (num_dec _ _) as [E2|]|]; cbn [andb];
      try now apply fill_effect_inv. split; [exact H1|]. cbn [dimensions squares props]. now rewrite E1, E2.
  - unfold on_props, same_number. destruct (num_dec _ _); [destruct (num_dec _ _)|]; cbn [andb]; try now apply fill_effect_inv.
    destruct (Nat.eqb_spec (ag_numSquares p) (ag_numSquares (props s))) as [E|]; [|now apply fill_effect_inv].
    split; [exact H1|]. cbn [dimensions squares props]. now rewrite E.
  - unfold updateSquarePosition. destruct (nth_error (squares s) k) as [sq|] eqn:Ek; [|split; assumption].
    destruct (id sq =? k); cbn [negb]; [|split; assumption]. destruct (getPos _ _ _ _) as [xy k'].
    unfold grid_inv. cbn [squares dimensions props].
    destruct (map_id_put (squares s) k sq {| id := id sq; pos := xy; iteration := iteration sq + 1 |} Ek eq_refl) as [E1 E2].
    rewrite E1, E2. now split.
Qed.

Lemma grid_reachable_inv random s : grid_reachable random s -> grid_inv s.
Proof.
  intros (p & es & ->). assert (H : grid_inv (grid_mount random p)) by now apply fill_effect_inv.
  revert H. generalize (grid_mount random p) as s. induction es as [|e es IH]; intros s H; [exact H|].
  now apply IH, grid_step_inv.
Qed.

Lemma square_key_inj a b : square_key a = square_key b -> id a = id b.
Proof.
  unfold square_key. intros H. apply nat_to_js_inj.
  now apply (digits_sep_inj _ _ _ _ 45%N) in H as [H _]; [|reflexivity|apply nat_to_js_digit|apply nat_to_js_digit].
Qed.

Lemma mapi_keys p i l :
  flat_map (collect "motion.rect" "key") (mapi_from (square_rect p) i l) = map square_key l.
Proof. revert i. induction l as [|sq l IH]; intros i; [reflexivity|]. cbn [mapi_from flat_map]. now rewrite IH. Qed.

Lemma grid_keys cn i s : collect "motion.rect" "key" (AnimatedGridPattern cn i s) = map square_key (squares s).
Proof. cbn. now rewrite mapi_keys, app_nil_r. Qed.

Lemma ids_keys_NoDup l : NoDup (map id l) -> NoDup (map square_key l).
Proof.
  induction l as [|a l IH]; cbn [map]; intros H; [constructor|]. inv H. constructor; [|auto]. rewrite in_map_iff.
  intros (b & E & Hb). apply H2. apply square_key_inj in E. rewrite <- E. now apply in_map.
Qed.

(** In every reachable state the square at index [i] has the identifier [i], a grid with a size has
    exactly the number of squares asked for, and the keys of the rectangles are pairwise distinct;
    when the animation of a shown square completes, that square alone moves and starts its next
    iteration. *)
Theorem animated_grid_squares random cn patternId s :
  grid_reachable random s ->
  map id (squares s) = seq 0 (length (squares s)) /\
  (truthy (fst (dimensions s)) = true -> truthy (snd (dimensions s)) = true ->
   length (squares s) = ag_numSquares (props s)) /\
  NoDup (collect "motion.rect" "key" (AnimatedGridPattern cn patternId s)) /\
  (forall k sq, nth_error (squares s) k = Some sq ->
     let s' := updateSquarePosition random k s in
     squares s' = firstn k (squares s)
                  ++ {| id := k; pos := fst (getPos random (props s) (dimensions s) (calls s)); iteration := iteration sq + 1 |}
                  :: skipn (S k) (squares s)).
Proof.
  intros H. destruct (grid_reachable_inv random s H) as [H1 H2]. split; [exact H1|]. split; [exact H2|]. split.
  - rewrite grid_keys. apply ids_keys_NoDup. rewrite H1. apply seq_NoDup.
  - intros k sq E s'. unfold s', updateSquarePosition. rewrite E.
    assert (Hk : id sq = k).
    { assert (Hl : k < length (squares s)) by (apply nth_error_Some; congruence).
      apply (map_nth_error id) in E. rewrite H1, (nth_error_nth' _ 0), seq_nth in E; rewrite ?length_seq; auto. now inv E. }
    rewrite Hk, Nat.eqb_refl. cbn [negb]. now destruct (getPos _ _ _ _).
Qed.

Definition demo_props : AnimatedGridPatternProps :=
  {| ag_width := nof 40; ag_height := nof 40; ag_x := nof (-1); ag_y := nof (-1); ag_strokeDasharray := nof 0;
     ag_numSquares := 3; ag_maxOpacity := lit 1 2; ag_duration := nof 4; ag_repeatDelay := lit 1 2; ag_className := None;
     ag_rest := [] |}.

Lemma animated_grid_squares_witness :
  let s := fold_left (grid_step (fun _ => lit 1 2)) [ev_resize [(nof 400, nof 200)]; ev_animationComplete 1]
             (grid_mount (fun _ => lit 1 2) demo_props) in
  length (squares s) = 3 /\ NoDup (collect "motion.rect" "key" (AnimatedGridPattern (fun l => join (js " ") l) (js "i") s)).
Proof.
  intros s.
  destruct (animated_grid_squares (fun _ => lit 1 2) (fun l => join (js " ") l) (js "i") s
              (ex_intro _ demo_props (ex_intro _ _ eq_refl))) as (_ & H2 & H3 & _).
  split; [now apply H2|exact H3].
Defined.

End AnimatedGrid.
