(* ===== verification/FlickeringGrid.v ===== *)
(** * The flickering grid ([website/components/magicui/flickering-grid.tsx])

    A canvas of small squares whose opacity changes at random while it is in view.  The variables of
    the effect, the React state and the browser state they act on are the record [world]; what the
    browser answers during a notification is the record [env]; [Math.random] is a function from the
    number of the call to its answer.  [cols] and [rows] are numbers, so that the model covers a
    division by a zero step: an allocation that throws and a loop that does not end are outcomes. *)

From Stdlib Require Import String List Arith NArith ZArith Lia Bool SpecFloat.
From S2P Require Import Prelude JsString JsNum NumText Dom State.
Import ListNotations.
Local Open Scope list_scope.
Local Open Scope state_scope.

Record FlickeringGridProps := {
  fg_squareSize : num; fg_gridGap : num; fg_flickerChance : num; fg_color : jsstring; fg_width : option num;
  fg_height : option num; fg_className : option jsstring; fg_maxOpacity : num; fg_rest : list (string * jsstring) }.

(** What [setupCanvas] returns; [squares] is a [Float32Array]. *)
Record grid := { cols : num; rows : num; squares : list num; dpr : num }.

Record fill := Fill { f_style : jsstring; f_x : num; f_y : num; f_w : num; f_h : num }.

Record env := {
  e_canvas : bool; e_container : bool; e_context : bool; e_clientWidth : Z; e_clientHeight : Z; e_dpr : num }.

(** [halted]: the effect threw, which removes the component, or a loop does not end. *)
Record world := World {
  isInView : bool;
  canvasSize : num * num;
  canvasWidth : Z;
  canvasHeight : Z;
  styleSize : jsstring * jsstring;
  gridParams : option grid;
  lastTime : num;
  animationFrameId : option nat;
  observing : bool;
  pending : list nat;
  nextId : nat;
  fills : list fill;
  calls : nat;
  halted : bool }.

Definition set_isInView v w := World v (canvasSize w) (canvasWidth w) (canvasHeight w) (styleSize w) (gridParams w) (lastTime w) (animationFrameId w) (observing w) (pending w) (nextId w) (fills w) (calls w) (halted w).
Definition set_canvasSize v w := World (isInView w) v (canvasWidth w) (canvasHeight w) (styleSize w) (gridParams w) (lastTime w) (animationFrameId w) (observing w) (pending w) (nextId w) (fills w) (calls w) (halted w).
(** Assigning the size of a canvas also clears it. *)
Definition set_canvas cw ch st w := World (isInView w) (canvasSize w) cw ch st (gridParams w) (lastTime w) (animationFrameId w) (observing w) (pending w) (nextId w) [] (calls w) (halted w).
Definition set_gridParams v w := World (isInView w) (canvasSize w) (canvasWidth w) (canvasHeight w) (styleSize w) v (lastTime w) (animationFrameId w) (observing w) (pending w) (nextId w) (fills w) (calls w) (halted w).
Definition set_lastTime v w := World (isInView w) (canvasSize w) (canvasWidth w) (canvasHeight w) (styleSize w) (gridParams w) v (animationFrameId w) (observing w) (pending w) (nextId w) (fills w) (calls w) (halted w).
Definition set_animationFrameId v w := World (isInView w) (canvasSize w) (canvasWidth w) (canvasHeight w) (styleSize w) (gridParams w) (lastTime w) v (observing w) (pending w) (nextId w) (fills w) (calls w) (halted w).
Definition set_observing v w := World (isInView w) (canvasSize w) (canvasWidth w) (canvasHeight w) (styleSize w) (gridParams w) (lastTime w) (animationFrameId w) v (pending w) (nextId w) (fills w) (calls w) (halted w).
Definition set_pending v n w := World (isInView w) (canvasSize w) (canvasWidth w) (canvasHeight w) (styleSize w) (gridParams w) (lastTime w) (animationFrameId w) (observing w) v n (fills w) (calls w) (halted w).
Definition set_fills v w := World (isInView w) (canvasSize w) (canvasWidth w) (canvasHeight w) (styleSize w) (gridParams w) (lastTime w) (animationFrameId w) (observing w) (pending w) (nextId w) v (calls w) (halted w).
Definition set_calls v w := World (isInView w) (canvasSize w) (canvasWidth w) (canvasHeight w) (styleSize w) (gridParams w) (lastTime w) (animationFrameId w) (observing w) (pending w) (nextId w) (fills w) v (halted w).
Definition set_halted v w := World (isInView w) (canvasSize w) (canvasWidth w) (canvasHeight w) (styleSize w) (gridParams w) (lastTime w) (animationFrameId w) (observing w) (pending w) (nextId w) (fills w) (calls w) v.

(** The effect of assigning a number to [canvas.width]: an unsigned 32-bit integer, and the default
    of the attribute above 2^31 - 1. *)
Definition canvas_dim (default : Z) (v : num) : Z :=
  (let z := truncZ v mod 2 ^ 32 in if z <? 2 ^ 31 then z else default)%Z.

(** The length of [new Float32Array(cols * rows)], [None] for a [RangeError].  The product of two
    integers is exact below 2^53, and above it is out of range whatever its rounding. *)
Definition array_length (cols rows : num) : option nat :=
  if is_finite cols && is_finite rows then
    let z := (truncZ cols * truncZ rows)%Z in
    if ((0 <=? z) && (z <? 2 ^ 53))%Z then Some (Z.to_nat z) else None
  else if is_nan (nmul cols rows) then Some 0 else None.

(** How often [for (let i = 0; i < n; i++)] runs for an integer or non-finite [n]; [None] for ever. *)
Definition loop_count (n : num) : option nat :=
  match n with S754_nan => Some 0 | S754_infinity s => if s then Some 0 else None | _ => Some (Z.to_nat (truncZ n)) end.

(** [toRGBA]: [pixel] is the colour the browser paints for a fill style, [None] without a context. *)
Definition toRGBA (pixel : jsstring -> option (Z * Z * Z)) (window : bool) (color : jsstring) : jsstring :=
  if negb window then js "rgba(0, 0, 0,"
  else match pixel color with
       | None => js "rgba(255, 0, 0,"
       | Some (r, g, b) => js "rgba(" ++ z_to_js r ++ js ", " ++ z_to_js g ++ js ", " ++ z_to_js b ++ js ","
       end.

(** [v || d]. *)
Definition or_else (v : option num) (d : num) : num := match v with Some x => if truthy x then x else d | None => d end.

Section Flicker.
Context (random : nat -> num) (pixel : jsstring -> option (Z * Z * Z)).

Definition Math_random : M world num := k <- get calls ;; modify (set_calls (S k)) ;;; ret (random k).

(** The loop that fills the array. *)
Fixpoint fill_squares (maxOpacity : num) (n : nat) : M world (list num) :=
  match n with
  | O => ret []
  | S m => r <- Math_random ;; rest <- fill_squares maxOpacity m ;; ret (fround (nmul r maxOpacity) :: rest)
  end.

Definition setupCanvas (p : FlickeringGridProps) (e : env) (width height : num) : M world (option grid) :=
  let dpr := if truthy (e_dpr e) then e_dpr e else nof 1 in
  modify (set_canvas (canvas_dim 300 (nmul width dpr)) (canvas_dim 150 (nmul height dpr))
                     (num_to_js width ++ js "px", num_to_js height ++ js "px")) ;;;
  let step := nadd (fg_squareSize p) (fg_gridGap p) in
  let cols := Math_ceil (ndiv width step) in
  let rows := Math_ceil (ndiv height step) in
  match array_length cols rows with
  | None => ret None
  | Some n => sq <- fill_squares (fg_maxOpacity p) n ;; ret (Some {| cols := cols; rows := rows; squares := sq; dpr := dpr |})
  end.

Fixpoint updateSquares (p : FlickeringGridProps) (deltaTime : num) (sq : list num) : M world (list num) :=
  match sq with
  | [] => ret []
  | v :: sq' =>
      r <- Math_random ;;
      v' <- (if nlt r (nmul (fg_flickerChance p) deltaTime)
             then r' <- Math_random ;; ret (fround (nmul r' (fg_maxOpacity p))) else ret v) ;;
      rest <- updateSquares p deltaTime sq' ;; ret (v' :: rest)
  end.

(** One square; reading outside the array gives [undefined]. *)
Definition square_fill (p : FlickeringGridProps) (memoizedColor : jsstring) (g : grid) (nrows i j : nat) : fill :=
  let step := nadd (fg_squareSize p) (fg_gridGap p) in
  let opacity := nth_error (squares g) (i * nrows + j) in
  {| f_style := memoizedColor ++ match opacity with Some v => num_to_js v | None => js "undefined" end ++ js ")";
     f_x := nmul (nmul (nof (Z.of_nat i)) step) (dpr g); f_y := nmul (nmul (nof (Z.of_nat j)) step) (dpr g);
     f_w := nmul (fg_squareSize p) (dpr g); f_h := nmul (fg_squareSize p) (dpr g) |}.

(** Everything [drawGrid] paints; [None] when its loop does not end. *)
Definition drawGrid (p : FlickeringGridProps) (memoizedColor : jsstring) (width height : Z) (g : grid) : option (list fill) :=
  match loop_count (cols g) with
  | None => None
  | Some ncols =>
      match ncols, loop_count (rows g) with
      | S _, None => None
      | _, r =>
          let nrows := default_of 0 r in
          Some (Fill (js "transparent") (nof 0) (nof 0) (nof width) (nof height)
                :: flat_map (fun i => map (square_fill p memoizedColor g nrows i) (seq 0 nrows)) (seq 0 ncols))
      end
  end.

Definition requestAnimationFrame : M world unit :=
  k <- get nextId ;; q <- get pending ;;
  modify (set_pending (q ++ [k]) (S k)) ;;; modify (set_animationFrameId (Some k)).

(** [false] when it throws. *)
Definition updateCanvasSize (p : FlickeringGridProps) (e : env) : M world bool :=
  let newWidth := or_else (fg_width p) (nof (e_clientWidth e)) in
  let newHeight := or_else (fg_height p) (nof (e_clientHeight e)) in
  modify (set_canvasSize (newWidth, newHeight)) ;;;
  g <- setupCanvas p e newWidth newHeight ;;
  match g with Some g => modify (set_gridParams (Some g)) ;;; ret true | None => ret false end.

Definition animate (p : FlickeringGridProps) (time : num) : M world unit :=
  inView <- get isInView ;; gp <- get gridParams ;;
  match gp with
  | Some g =>
      when_m inView
        (last <- get lastTime ;;
         let deltaTime := ndiv (nsub time last) (nof 1000) in
         modify (set_lastTime time) ;;;
         sq <- updateSquares p deltaTime (squares g) ;;
         let g' := {| cols := cols g; rows := rows g; squares := sq; dpr := dpr g |} in
         modify (set_gridParams (Some g')) ;;;
         cw <- get canvasWidth ;; ch <- get canvasHeight ;;
         match drawGrid p (toRGBA pixel true (fg_color p)) cw ch g' with
         | Some fs => modify (set_fills fs) ;;; requestAnimationFrame
         | None => modify (set_halted true)
         end)
  | None => ret tt
  end.

(** The effect, with its variables at their initial values. *)
Definition effect (p : FlickeringGridProps) (e : env) : M world unit :=
  modify (set_animationFrameId None) ;;; modify (set_gridParams None) ;;; modify (set_lastTime (nof 0)) ;;;
  when_m (e_canvas e && e_container e && e_context e)
    (ok <- updateCanvasSize p e ;;
     if ok : bool then
       modify (set_observing true) ;;;
       inView <- get isInView ;; when_m inView requestAnimationFrame
     else modify (set_halted true)).

Definition cancel (k : option nat) (l : list nat) : list nat :=
  match k with Some j => filter (fun i => negb (i =? j)) l | None => l end.

Definition cleanup : M world unit :=
  k <- get animationFrameId ;; q <- get pending ;; n <- get nextId ;;
  modify (set_pending (cancel k q) n) ;;; modify (set_observing false).

Inductive event := ev_resize | ev_intersect (isIntersecting : bool) | ev_frame (time : num) | ev_unmount.

Definition handle (p : FlickeringGridProps) (e : env) (ev : event) : M world unit :=
  dead <- get halted ;;
  when_m (negb dead)
    match ev with
    | ev_resize => on <- get observing ;; when_m on (updateCanvasSize p e ;;; ret tt)
    | ev_intersect b =>
        on <- get observing ;; v <- get isInView ;;
        when_m (on && negb (Bool.eqb v b)) (modify (set_isInView b) ;;; cleanup ;;; effect p e)
    | ev_frame time =>
        q <- get pending ;; n <- get nextId ;;
        match q with [] => ret tt | _ :: rest => modify (set_pending rest n) ;;; animate p time end
    | ev_unmount => cleanup
    end.

Definition init : world :=
  {| isInView := false; canvasSize := (nof 0, nof 0); canvasWidth := 300; canvasHeight := 150; styleSize := ([], []);
     gridParams := None; lastTime := nof 0; animationFrameId := None; observing := false; pending := []; nextId := 1;
     fills := []; calls := 0; halted := false |}.

(** [fr_props]: new props that change a dependency of the effect. *)
Inductive reachable : FlickeringGridProps -> world -> Prop :=
| fr_mount p e : reachable p (exec_m (effect p e) init)
| fr_step p e ev w : reachable p w -> reachable p (exec_m (handle p e ev) w)
| fr_props p p' e w : halted w = false -> reachable p w -> reachable p' (exec_m (cleanup ;;; effect p' e) w).
End Flicker.

Definition FlickeringGrid (cn : list jsstring -> jsstring) (p : FlickeringGridProps) (w : world) : vnode :=
  VEl "div"
    (("className"%string, cn [js "h-full w-full " ++ default_of (js "undefined") (fg_className p)]) :: fg_rest p)
    [VEl "canvas"
       [("className"%string, js "pointer-events-none"); ("style.width"%string, num_to_js (fst (canvasSize w)));
        ("style.height"%string, num_to_js (snd (canvasSize w)))] []].

(** ** What a frame paints *)

Lemma cells_in_order nc nr :
  flat_map (fun i => map (fun j => i * nr + j) (seq 0 nr)) (seq 0 nc) = seq 0 (nc * nr).
Proof.
  assert (Hm : forall a n, map (fun j => a + j) (seq 0 n) = seq a n).
  { intros a n. induction n as [|n IH]; [reflexivity|]. now rewrite !seq_S, map_app, IH. }
  induction nc as [|nc IH]; [reflexivity|]. rewrite seq_S, flat_map_app, IH. cbn [flat_map Nat.add]. rewrite app_nil_r, Hm.
  replace (S nc * nr) with (nc * nr + nr) by lia. now rewrite seq_app.
Qed.

Lemma map_nth_seq {A} (l : list A) : map (nth_error l) (seq 0 (length l)) = map Some l.
Proof.
  induction l as [|x l IH]; [reflexivity|]. cbn [length seq map]. f_equal. rewrite <- seq_shift, map_map. exact IH.
Qed.

Definition opacity_style (memoizedColor : jsstring) (v : num) : jsstring := memoizedColor ++ num_to_js v ++ js ")".

(** The two loops read the array from its first entry to its last. *)
Lemma cells_styles p color g nc nr :
  length (squares g) = nc * nr ->
  map f_style (flat_map (fun i => map (square_fill p color g nr i) (seq 0 nr)) (seq 0 nc))
  = map (opacity_style color) (squares g).
Proof.
  intros H. set (txt := fun o : option num => color ++ match o with Some v => num_to_js v | None => js "undefined" end ++ js ")").
  transitivity (map txt (map (nth_error (squares g)) (seq 0 (nc * nr)))).
  - rewrite <- cells_in_order, flat_map_concat_map, !concat_map, !map_map. rewrite flat_map_concat_map, !concat_map, !map_map.
    f_equal. apply map_ext. intros i. rewrite !map_map. reflexivity.
  - rewrite <- H, map_nth_seq, map_map. reflexivity.
Qed.

Definition grid_ok (g : grid) : Prop := array_length (cols g) (rows g) = Some (length (squares g)).

Lemma grid_ok_cells g :
  grid_ok g -> is_finite (cols g) = true -> is_finite (rows g) = true -> (0 <= truncZ (cols g))%Z -> (0 <= truncZ (rows g))%Z ->
  loop_count (cols g) = Some (Z.to_nat (truncZ (cols g))) /\ loop_count (rows g) = Some (Z.to_nat (truncZ (rows g))) /\
  length (squares g) = Z.to_nat (truncZ (cols g)) * Z.to_nat (truncZ (rows g)).
Proof.
  intros H Hc Hr Pc Pr. split; [destruct (cols g); try discriminate; reflexivity|].
  split; [destruct (rows g); try discriminate; reflexivity|].
  unfold grid_ok, array_length in H. rewrite Hc, Hr in H. cbn [andb] in H. destruct (_ && _)%Z; [|discriminate]. inv H.
  now rewrite Z2Nat.inj_mul.
Qed.

(** The whole painting of a well-formed grid. *)
Lemma drawGrid_spec p color width height g :
  grid_ok g -> is_finite (cols g) = true -> is_finite (rows g) = true -> (0 <= truncZ (cols g))%Z -> (0 <= truncZ (rows g))%Z ->
  exists fs, drawGrid p color width height g = Some fs /\
             map f_style fs = js "transparent" :: map (opacity_style color) (squares g).
Proof.
  intros H Hc Hr Pc Pr. destruct (grid_ok_cells g H Hc Hr Pc Pr) as (E1 & E2 & E3). unfold drawGrid. rewrite E1, E2.
  exists (Fill (js "transparent") (nof 0) (nof 0) (nof width) (nof height)
          :: flat_map (fun i => map (square_fill p color g (Z.to_nat (truncZ (rows g))) i) (seq 0 (Z.to_nat (truncZ (rows g)))))
               (seq 0 (Z.to_nat (truncZ (cols g))))).
  split; [now destruct (Z.to_nat (truncZ (cols g)))|]. cbn [map f_style]. f_equal. now apply cells_styles.
Qed.

(** ** Invariant *)

Section Invariant.
Context (random : nat -> num) (pixel : jsstring -> option (Z * Z * Z)).

(** The random loops only count calls, and keep the length. *)
Lemma fill_squares_spec mo n : forall w, exists l k, fill_squares random mo n w = (l, set_calls k w) /\ length l = n.
Proof.
  induction n as [|n IH]; intros w; [exists [], (calls w); split; [now destruct w|reflexivity]|].
  destruct (IH (set_calls (S (calls w)) w)) as (l & k & E & El). cbn [fill_squares].
  exists (fround (nmul (random (calls w)) mo) :: l), k. unfold Math_random, bind, get, modify, ret. rewrite E. cbn. auto.
Qed.

Lemma updateSquares_spec p dt sq : forall w,
  exists l k, updateSquares random p dt sq w = (l, set_calls k w) /\ length l = length sq.
Proof.
  induction sq as [|v sq IH]; intros w; [exists [], (calls w); split; [now destruct w|reflexivity]|].
  cbn [updateSquares]. unfold Math_random, bind, get, modify, ret. cbn [calls set_calls].
  destruct (nlt _ _); match goal with |- context [updateSquares _ _ _ _ ?w'] => destruct (IH w') as (l & k & E & El) end;
    rewrite E; eexists _, k; (split; [reflexivity|]); cbn [length]; now rewrite El.
Qed.

Definition part (w : world) := (isInView w, animationFrameId w, observing w, pending w, nextId w, halted w).

Lemma updateCanvasSize_spec p e w :
  let w' := exec_m (updateCanvasSize random p e) w in
  part w' = part w /\
  if run_m (updateCanvasSize random p e) w then exists g, gridParams w' = Some g /\ grid_ok g else gridParams w' = gridParams w.
Proof.
  unfold updateCanvasSize, setupCanvas, exec_m, run_m, bind, modify, ret. cbn [fst snd].
  destruct (array_length _ _) as [n|] eqn:E; [|split; reflexivity]. cbn beta.
  match goal with |- context [fill_squares random ?mo n ?w1] => destruct (fill_squares_spec mo n w1) as (l & k & El & Hl) end.
  rewrite El. cbn. split; [reflexivity|]. eexists. split; [reflexivity|]. unfold grid_ok. cbn. now rewrite E, Hl.
Qed.

Definition one_frame (w : world) : Prop := pending w = [] \/ exists k, animationFrameId w = Some k /\ pending w = [k].

Definition FInv (w : world) : Prop :=
  one_frame w /\ (forall g, gridParams w = Some g -> grid_ok g) /\
  (pending w <> [] -> isInView w = true /\ gridParams w <> None).

Lemma request_spec w :
  exec_m requestAnimationFrame w = set_animationFrameId (Some (nextId w)) (set_pending (pending w ++ [nextId w]) (S (nextId w)) w).
Proof. reflexivity. Qed.

Lemma request_inv w g :
  pending w = [] -> isInView w = true -> gridParams w = Some g -> grid_ok g -> FInv (exec_m requestAnimationFrame w).
Proof.
  intros Hp Hv Hg Ho. rewrite request_spec, Hp. split; [right; eexists; split; reflexivity|]. cbn.
  split; [|rewrite Hg; split; [exact Hv|discriminate]]. intros g' E. congruence.
Qed.

Lemma idle_inv w : pending w = [] -> (forall g, gridParams w = Some g -> grid_ok g) -> FInv w.
Proof. intros H Hg. split; [now left|]. split; [exact Hg|]. congruence. Qed.

Lemma effect_inv p e w : pending w = [] -> FInv (exec_m (effect random p e) w).
Proof.
  intros Hp. unfold effect. run_steps. set (w1 := set_lastTime _ _).
  assert (H1 : pending w1 = [] /\ gridParams w1 = None) by (split; [exact Hp|reflexivity]). clearbody w1. destruct H1 as [H1 H2].
  destruct (e_canvas e && e_container e && e_context e); cbn [when_m]; [|apply idle_inv; [exact H1|cbn; congruence]].
  rewrite exec_bind. destruct (updateCanvasSize_spec p e w1) as [E1 E2].
  destruct (run_m (updateCanvasSize random p e) w1); revert E1 E2; generalize (exec_m (updateCanvasSize random p e) w1) as w2;
    unfold part; intros w2 E1 E2; inv E1.
  - destruct E2 as (g & Eg & Og). run_steps. cbn [isInView set_observing]. destruct (isInView w2) eqn:Ev; cbn [when_m].
    + apply (request_inv _ g); auto. cbn. congruence.
    + apply idle_inv; cbn; [congruence|]. intros g' E. congruence.
  - run_steps. apply idle_inv; cbn; [congruence|]. intros g' E. congruence.
Qed.

Lemma flicker_cleanup_spec w :
  one_frame w -> pending (exec_m cleanup w) = [] /\ gridParams (exec_m cleanup w) = gridParams w /\
                 observing (exec_m cleanup w) = false.
Proof.
  intros H. unfold cleanup. run_steps. cbn. split; [|auto]. destruct H as [->|(k & -> & ->)]; [now destruct (animationFrameId w)|].
  cbn. now rewrite Nat.eqb_refl.
Qed.

(** A frame of a component in view. *)
Lemma animate_cases p time w g :
  pending w = [] -> isInView w = true -> gridParams w = Some g -> grid_ok g ->
  exists sq w1, length sq = length (squares g) /\ pending w1 = [] /\ isInView w1 = true /\ nextId w1 = nextId w /\
    let g' := {| cols := cols g; rows := rows g; squares := sq; dpr := dpr g |} in
    gridParams w1 = Some g' /\ grid_ok g' /\
    exec_m (animate random pixel p time) w =
      match drawGrid p (toRGBA pixel true (fg_color p)) (canvasWidth w1) (canvasHeight w1) g' with
      | Some fs => exec_m requestAnimationFrame (set_fills fs w1)
      | None => set_halted true w1
      end.
Proof.
  intros Hp Hv Hg Ho. unfold animate. run_steps. rewrite Hg, Hv. cbn [when_m]. run_steps. rewrite exec_bind.
  match goal with |- context [updateSquares random p ?dt (squares g)] => set (dt' := dt) end.
  destruct (updateSquares_spec p dt' (squares g) (set_lastTime time w)) as (sq & k & E & El).
  assert (Er : run_m (updateSquares random p dt' (squares g)) (set_lastTime time w) = sq /\
               exec_m (updateSquares random p dt' (squares g)) (set_lastTime time w) = set_calls k (set_lastTime time w))
    by (unfold run_m, exec_m; now rewrite E).
  destruct Er as [-> ->]. run_steps.
  exists sq, (set_gridParams (Some {| cols := cols g; rows := rows g; squares := sq; dpr := dpr g |}) (set_calls k (set_lastTime time w))).
  split; [exact El|]. split; [exact Hp|]. split; [exact Hv|]. split; [reflexivity|]. split; [reflexivity|].
  split; [unfold grid_ok; cbn; now rewrite El|].
  destruct (drawGrid _ _ _ _ _); reflexivity.
Qed.

Lemma flicker_handle_inv p e ev w : FInv w -> FInv (exec_m (handle random pixel p e ev) w).
Proof.
  intros H. assert (H0 := H). destruct H0 as (Ho & Hg & Hv). unfold handle. rewrite exec_get.
  destruct (halted w); cbn [negb when_m]; [exact H|]. destruct ev as [|b|time|].
  - run_steps. destruct (observing w); cbn [when_m]; [|exact H]. rewrite exec_bind. run_steps.
    destruct (updateCanvasSize_spec p e w) as [E1 E2]. destruct (run_m _ w); revert E1 E2;
      generalize (exec_m (updateCanvasSize random p e) w) as w2; unfold part; intros w2 E1 E2; inv E1; unfold FInv, one_frame;
      repeat match goal with E : _ w2 = _ w |- _ => rewrite E; clear E end; [|exact (conj Ho (conj Hg Hv))].
    destruct E2 as (g & -> & Og). split; [exact Ho|]. split; [intros g' E; congruence|]. intros Hn. split; [now apply Hv|discriminate].
  - run_steps. destruct (observing w && _); cbn [when_m]; [|exact H]. rewrite exec_modify, exec_bind. apply effect_inv.
    now apply flicker_cleanup_spec.
  - run_steps. destruct (pending w) as [|k rest] eqn:Ep; [exact H|]. rewrite exec_modify.
    assert (rest = []) as -> by (destruct Ho as [Ho|(j & _ & Ho)]; congruence).
    destruct Hv as [Hv Hn]; [discriminate|]. destruct (gridParams w) as [g|] eqn:Eg; [|congruence].
    destruct (animate_cases p time (set_pending [] (nextId w) w) g) as (sq & w1 & _ & P1 & P2 & _ & P3 & P4 & E); auto.
    rewrite E. destruct (drawGrid _ _ _ _ _); [eapply request_inv; eauto|]. apply idle_inv; [exact P1|]. cbn. intros g' E'. congruence.
  - destruct (flicker_cleanup_spec w Ho) as (E1 & E2 & _). apply idle_inv; [exact E1|]. now rewrite E2.
Qed.

Lemma flicker_reachable_inv p w : reachable random pixel p w -> FInv w.
Proof.
  induction 1 as [p e|p e ev w _ IH|p p' e w _ _ IH]; [now apply effect_inv|now apply flicker_handle_inv|].
  rewrite exec_bind. apply effect_inv. now apply flicker_cleanup_spec, IH.
Qed.
End Invariant.

(** In every reachable state at most one animation frame is pending, it is the one the effect
    holds, and it is pending only while the canvas is in view; unmounting cancels it and disconnects
    the observers. *)
Theorem flicker_one_frame random pixel p e w :
  reachable random pixel p w ->
  (pending w = [] \/ exists k, animationFrameId w = Some k /\ pending w = [k] /\ isInView w = true) /\
  (halted w = false ->
   let w' := exec_m (handle random pixel p e ev_unmount) w in pending w' = [] /\ observing w' = false).
Proof.
  intros H. destruct (flicker_reachable_inv random pixel p w H) as (Ho & _ & Hv). split.
  - destruct Ho as [Ho|(k & Hk & Ho)]; [now left|right]. exists k. rewrite Ho in Hv. split; [exact Hk|]. split; [exact Ho|]. now apply Hv.
  - intros Hh w'. unfold w', handle. rewrite exec_get, Hh. cbn [negb when_m]. destruct (flicker_cleanup_spec w Ho) as (E1 & _ & E2). auto.
Qed.

(** C37: A pending frame repaints the canvas: after the transparent background it paints every square of
    the array exactly once, in order, with its own opacity (no read is out of range), keeps the number
    of squares, and schedules the next frame. *)
Theorem flicker_frame_paints random pixel p e time w g :
  reachable random pixel p w -> halted w = false -> pending w <> [] -> gridParams w = Some g ->
  is_finite (cols g) = true -> is_finite (rows g) = true -> (0 <= truncZ (cols g))%Z -> (0 <= truncZ (rows g))%Z ->
  let w' := exec_m (handle random pixel p e (ev_frame time)) w in
  exists g', gridParams w' = Some g' /\ length (squares g') = length (squares g) /\ cols g' = cols g /\ rows g' = rows g /\
    length (squares g') = Z.to_nat (truncZ (cols g)) * Z.to_nat (truncZ (rows g)) /\
    map f_style (fills w') = js "transparent" :: map (opacity_style (toRGBA pixel true (fg_color p))) (squares g') /\
    pending w' = [nextId w].
Proof.
  intros H Hh Hp Hg Fc Fr Pc Pr w'. destruct (flicker_reachable_inv random pixel p w H) as (Ho & Hok & Hv).
  destruct (Hv Hp) as [Hv' _]. assert (Og := Hok g Hg). unfold w', handle. rewrite exec_get, Hh. cbn [negb when_m]. run_steps.
  destruct (pending w) as [|k rest] eqn:Ep; [congruence|].
  assert (rest = []) as -> by (destruct Ho as [Ho|(j & _ & Ho)]; congruence). rewrite exec_modify.
  destruct (grid_ok_cells g Og Fc Fr Pc Pr) as (_ & _ & Hl).
  destruct (animate_cases random pixel p time (set_pending [] (nextId w) w) g) as (sq & w1 & El & P1 & P2 & P3 & P4 & P5 & E); auto.
  destruct (drawGrid_spec p (toRGBA pixel true (fg_color p)) (canvasWidth w1) (canvasHeight w1) _ P5 Fc Fr Pc Pr) as (fs & E1 & E2).
  rewrite E, E1, request_spec. exists {| cols := cols g; rows := rows g; squares := sq; dpr := dpr g |}.
  cbn [gridParams set_animationFrameId set_pending set_fills squares cols rows fills pending nextId]. rewrite P1, P3, El.
  repeat split; assumption.
Qed.

Definition demo_props : FlickeringGridProps :=
  {| fg_squareSize := nof 4; fg_gridGap := nof 6; fg_flickerChance := lit 3 10; fg_color := js "rgb(0, 0, 0)"; fg_width := None;
     fg_height := None; fg_className := None; fg_maxOpacity := lit 3 10; fg_rest := [] |}.
Definition demo_env : env :=
  {| e_canvas := true; e_container := true; e_context := true; e_clientWidth := 25; e_clientHeight := 15; e_dpr := nof 2 |}.
Definition demo_random (k : nat) : num := lit (Z.of_nat (k mod 10)) 10.
Definition demo_pixel (_ : jsstring) : option (Z * Z * Z) := Some (0, 0, 0)%Z.

(** A mounted canvas that has come into view. *)
Definition demo_world : world :=
  exec_m (handle demo_random demo_pixel demo_props demo_env (ev_intersect true)) (exec_m (effect demo_random demo_props demo_env) init).

Lemma flicker_one_frame_witness : pending demo_world = [] \/ exists k, animationFrameId demo_world = Some k /\ pending demo_world = [k] /\ isInView demo_world = true.
Proof. exact (proj1 (flicker_one_frame demo_random demo_pixel demo_props demo_env demo_world (fr_step _ _ _ _ _ _ (fr_mount _ _ _ _)))). Defined.

Definition demo_grid : grid :=
  match gridParams demo_world with Some g => g | None => {| cols := nof 0; rows := nof 0; squares := []; dpr := nof 0 |} end.

Lemma flicker_frame_paints_witness :
  length (fills (exec_m (handle demo_random demo_pixel demo_props demo_env (ev_frame (nof 1000))) demo_world)) = 7.
Proof.
  assert (Hg : gridParams demo_world = Some demo_grid) by (vm_compute; reflexivity).
  assert (Hc : is_finite (cols demo_grid) = true /\ is_finite (rows demo_grid) = true) by (vm_compute; split; reflexivity).
  assert (Hp : (0 <= truncZ (cols demo_grid) /\ 0 <= truncZ (rows demo_grid))%Z) by (vm_compute; split; discriminate).
  assert (Hq : halted demo_world = false /\ pending demo_world <> []) by (vm_compute; split; [reflexivity|discriminate]).
  destruct Hc as [Hc Hr], Hp as [Pc Pr], Hq as [Hh Hq].
  destruct (flicker_frame_paints demo_random demo_pixel demo_props demo_env (nof 1000) demo_world demo_grid
              (fr_step _ _ _ _ _ _ (fr_mount _ _ _ _)) Hh Hq Hg Hc Hr Pc Pr) as (g' & _ & _ & _ & _ & Hl & Hf & _).
  apply (f_equal (@length jsstring)) in Hf. rewrite length_map in Hf. rewrite Hf. cbn [length]. rewrite length_map, Hl.
  vm_compute. reflexivity.
Defined.
