(* ===== verification/JsValue.v ===== *)
(** * JavaScript values and [JSON.parse]

    The values a program receives from a service: what a JSON text can denote, and [undefined] for
    what is absent.  The file models property access, truthiness, [String(v)] and [JSON.parse] with
    the whole grammar of ECMA-404.  A result is a value or an exception, whose text is [String] of
    the error. *)

From Stdlib Require Import String List Arith NArith ZArith Lia Bool SpecFloat.
From S2P Require Import Prelude JsString JsNum NumText Json.
Import ListNotations.
Local Open Scope list_scope.

(** ** Results *)

Inductive result (A : Type) : Type := Ok (a : A) | Err (e : jsstring).
Arguments Ok {A} a.
Arguments Err {A} e.

Definition result_bind {A B} (r : result A) (f : A -> result B) : result B :=
  match r with Ok a => f a | Err e => Err e end.

(** ** Values *)

#[warnings="-register-all"]
Inductive jsval : Type :=
| VUndefined
| VNull
| VBool (b : bool)
| VNum (n : num)
| VStr (s : jsstring)
| VArr (l : list jsval)
| VObj (l : list (jsstring * jsval)).

Fixpoint lookup (k : jsstring) (l : list (jsstring * jsval)) : jsval :=
  match l with
  | [] => VUndefined
  | (k', v) :: l' => if jseqb k' k then v else lookup k l'
  end.

Definition nullish (v : jsval) : bool := match v with VUndefined | VNull => true | _ => false end.

(** [a ?? b]. *)
Definition coalesce (a b : jsval) : jsval := if nullish a then b else a.

(** [v?.k]: the properties of other values than objects are not among those that are read. *)
Definition prop (k : string) (v : jsval) : jsval := match v with VObj l => lookup (js k) l | _ => VUndefined end.

Definition is_truthy (v : jsval) : bool :=
  match v with
  | VUndefined | VNull => false
  | VBool b => b
  | VNum n => truthy n
  | VStr s => match s with [] => false | _ => true end
  | VArr _ | VObj _ => true
  end.

(** [Set.prototype.has] of one element: two objects of different origin are never the same. *)
Definition same_value (a b : jsval) : bool :=
  match a, b with
  | VUndefined, VUndefined | VNull, VNull => true
  | VBool x, VBool y => Bool.eqb x y
  | VNum x, VNum y => neq x y || (is_nan x && is_nan y)
  | VStr x, VStr y => jseqb x y
  | _, _ => false
  end.

(** [String(v)].  An own [toString] that is not a function makes the conversion fail. *)
Definition type_error : jsstring := js "TypeError: Cannot convert object to primitive value".

Fixpoint to_string (v : jsval) : result jsstring :=
  match v with
  | VUndefined => Ok (js "undefined")
  | VNull => Ok (js "null")
  | VBool b => Ok (if b then js "true" else js "false")
  | VNum n => Ok (num_to_js n)
  | VStr s => Ok s
  | VArr l =>
      result_bind
        ((fix go (l : list jsval) : result (list jsstring) :=
            match l with
            | [] => Ok []
            | x :: l' =>
                result_bind (if nullish x then Ok [] else to_string x) (fun s =>
                result_bind (go l') (fun ss => Ok (s :: ss)))
            end) l)
        (fun ss => Ok (join [44%N] ss))
  | VObj l => if existsb (fun kv => jseqb (fst kv) (js "toString")) l then Err type_error else Ok (js "[object Object]")
  end.

(** ** [JSON.parse] *)

(** [obj[k] = v]: a key that is already there keeps its place. *)
Fixpoint obj_set (k : jsstring) (v : jsval) (l : list (jsstring * jsval)) : list (jsstring * jsval) :=
  match l with
  | [] => [(k, v)]
  | (k', v') :: l' => if jseqb k' k then (k', v) :: l' else (k', v') :: obj_set k v l'
  end.

Definition hex_unit (c : N) : option N :=
  (if in_range c (48, 57) then Some (c - 48)
   else if in_range c (97, 102) then Some (c - 87)
   else if in_range c (65, 70) then Some (c - 55)
   else None)%N.

(** The character an escape of one letter denotes. *)
Definition escape_unit (e : N) : option N :=
  (if (e =? 34) || (e =? 92) || (e =? 47) then Some e
   else if e =? 98 then Some 8 else if e =? 102 then Some 12 else if e =? 110 then Some 10
   else if e =? 114 then Some 13 else if e =? 116 then Some 9 else None)%N.

Definition push_unit (u : N) (p : option (jsstring * jsstring)) : option (jsstring * jsstring) :=
  option_map (fun p => (u :: fst p, snd p)) p.

(** The content of a string literal, up to its closing quote. *)
Fixpoint string_body (s : jsstring) : option (jsstring * jsstring) :=
  match s with
  | [] => None
  | c :: s1 =>
      if (c =? 34)%N then Some ([], s1)
      else if (c <? 32)%N then None
      else if (c =? 92)%N then
        match s1 with
        | e :: s2 =>
            if (e =? 117)%N then
              match s2 with
              | a :: b :: c' :: d :: s3 =>
                  match hex_unit a, hex_unit b, hex_unit c', hex_unit d with
                  | Some a, Some b, Some c', Some d => push_unit (a * 4096 + b * 256 + c' * 16 + d)%N (string_body s3)
                  | _, _, _, _ => None
                  end
              | _ => None
              end
            else match escape_unit e with Some u => push_unit u (string_body s2) | None => None end
        | [] => None
        end
      else push_unit c (string_body s1)
  end.

(** The optional fraction and the optional exponent of a number. *)
Definition frac_part (s : jsstring) : option (jsstring * jsstring) :=
  match s with
  | c :: r =>
      if (c =? 46)%N then
        match take_while is_digit r with [] => None | ds => Some (ds, drop_while is_digit r) end
      else Some ([], s)
  | [] => Some ([], s)
  end.

Definition exp_part (s : jsstring) : option (Z * jsstring) :=
  match s with
  | c :: r =>
      if (c =? 101)%N || (c =? 69)%N then
        let '(neg, r) := match r with
                         | g :: r' => if (g =? 45)%N then (true, r') else if (g =? 43)%N then (false, r') else (false, r)
                         | [] => (false, r)
                         end in
        match take_while is_digit r with
        | [] => None
        | ds => Some ((if neg then - Z.of_N (parse_int ds) else Z.of_N (parse_int ds))%Z, drop_while is_digit r)
        end
      else Some (0%Z, s)
  | [] => Some (0%Z, s)
  end.

(** The number with the given sign, decimal digits and power of ten. *)
Definition decimal (neg : bool) (mantissa : N) (e : Z) : num :=
  match mantissa with
  | N0 => S754_zero neg
  | Npos _ => let v := scale (Z.of_N mantissa) e in if neg then nneg v else v
  end.

Definition number_lit (s : jsstring) : option (num * jsstring) :=
  let '(neg, s) := match s with c :: r => if (c =? 45)%N then (true, r) else (false, s) | [] => (false, s) end in
  let ds := take_while is_digit s in
  match ds with
  | [] => None
  | d :: ds' =>
      if (d =? 48)%N && negb (length ds' =? 0) then None
      else
        match frac_part (drop_while is_digit s) with
        | Some (fs, s1) =>
            match exp_part s1 with
            | Some (e, s2) => Some (decimal neg (parse_int (ds ++ fs)) (e - Z.of_nat (length fs))%Z, s2)
            | None => None
            end
        | None => None
        end
  end.

Fixpoint json_value (fuel : nat) (s : jsstring) : option (jsval * jsstring) :=
  match fuel with
  | O => None
  | S f =>
      match skip s with
      | [] => None
      | c :: r =>
          if (c =? 34)%N then option_map (fun p => (VStr (fst p), snd p)) (string_body r)
          else if (c =? 91)%N then
            match skip r with
            | c1 :: r' => if (c1 =? 93)%N then Some (VArr [], r')
                          else option_map (fun p => (VArr (fst p), snd p)) (json_elements f r)
            | [] => None
            end
          else if (c =? 123)%N then
            match skip r with
            | c1 :: r' => if (c1 =? 125)%N then Some (VObj [], r')
                          else option_map (fun p => (VObj (fst p), snd p)) (json_members f [] r)
            | [] => None
            end
          else if startsWith (c :: r) (js "null") then Some (VNull, slice_from 4 (c :: r))
          else if startsWith (c :: r) (js "true") then Some (VBool true, slice_from 4 (c :: r))
          else if startsWith (c :: r) (js "false") then Some (VBool false, slice_from 5 (c :: r))
          else option_map (fun p => (VNum (fst p), snd p)) (number_lit (c :: r))
      end
  end
with json_elements (fuel : nat) (s : jsstring) : option (list jsval * jsstring) :=
  match fuel with
  | O => None
  | S f =>
      match json_value f s with
      | Some (v, r) =>
          match skip r with
          | c :: r' => if (c =? 44)%N then option_map (fun p => (v :: fst p, snd p)) (json_elements f r')
                       else if (c =? 93)%N then Some ([v], r') else None
          | [] => None
          end
      | None => None
      end
  end
with json_members (fuel : nat) (acc : list (jsstring * jsval)) (s : jsstring) : option (list (jsstring * jsval) * jsstring) :=
  match fuel with
  | O => None
  | S f =>
      match skip s with
      | q :: r0 =>
          if (q =? 34)%N then
            match string_body r0 with
            | Some (k, r1) =>
                match skip r1 with
                | c1 :: r2 =>
                    if (c1 =? 58)%N then
                      match json_value f r2 with
                      | Some (v, r3) =>
                          let acc := obj_set k v acc in
                          match skip r3 with
                          | c :: r' => if (c =? 44)%N then json_members f acc r'
                                       else if (c =? 125)%N then Some (acc, r') else None
                          | [] => None
                          end
                      | None => None
                      end
                    else None
                | [] => None
                end
            | None => None
            end
          else None
      | [] => None
      end
  end.

Definition syntax_error : jsstring := js "SyntaxError: JSON.parse".

(** [JSON.parse(s)]. *)
Definition JSON_parse (s : jsstring) : result jsval :=
  match json_value (2 * length s + 1) s with
  | Some (v, r) => match skip r with [] => Ok v | _ => Err syntax_error end
  | None => Err syntax_error
  end.

Example JSON_parse_ex :
  JSON_parse (jsq " {`a`: [1, -2.5e1, 0.1], `b`: `x\u0041\n`, `a`: null} ")
  = Ok (VObj [(js "a", VNull); (js "b", VStr (js "xA" ++ [10%N]))]).
Proof. vm_compute. reflexivity. Qed.

Example JSON_parse_numbers :
  (JSON_parse (js "[1, -2.5e1, 0.1]"), JSON_parse (js "01"), JSON_parse (js "1."), JSON_parse (jsq "{`a`:}"))
  = (Ok (VArr [VNum (nof 1); VNum (nof (-25)); VNum (lit 1 10)]), Err syntax_error, Err syntax_error, Err syntax_error).
Proof. vm_compute. reflexivity. Qed.

Example to_string_ex :
  (to_string (VArr [VStr (js "a"); VNull; VArr [VNum (nof 1); VBool true]]), to_string (VObj []),
   to_string (VObj [(js "toString", VNull)]))
  = (Ok (js "a,,1,true"), Ok (js "[object Object]"), Err type_error).
Proof. vm_compute. reflexivity. Qed.

(** ** The fuel of the parser is enough *)

Lemma drop_while_length {A} (p : A -> bool) l : length (drop_while p l) <= length l.
Proof. induction l as [|x l IH]; cbn; [lia|]. destruct (p x); cbn; lia. Qed.

Lemma skip_length s : length (skip s) <= length s.
Proof. apply drop_while_length. Qed.

Lemma skip_cons s c r : skip s = c :: r -> length r < length s.
Proof. intros E. pose proof (skip_length s) as H. rewrite E in H. cbn in H. lia. Qed.

Lemma push_unit_inv u p v r : push_unit u p = Some (v, r) -> exists v', p = Some (v', r).
Proof. destruct p as [[v' r']|]; [|discriminate]. cbn. intros H. inv H. eauto. Qed.

Lemma string_body_length s : forall v r, string_body s = Some (v, r) -> length r < length s.
Proof.
  remember (length s) as n eqn:Hn. assert (Hle : length s <= n) by lia. clear Hn. revert s Hle.
  induction n as [|n IH]; intros [|c s] Hle v r H; cbn [string_body] in H; try discriminate; cbn in Hle; [lia|].
  repeat case_hyp H; try discriminate; try (apply push_unit_inv in H as [v' H]; apply IH in H; cbn in *; lia).
  inv H. lia.
Qed.

Lemma frac_part_length s v r : frac_part s = Some (v, r) -> length r <= length s.
Proof.
  unfold frac_part. destruct s as [|c s]; [intros H; inv H; lia|]. destruct (c =? 46)%N; [|intros H; inv H; lia].
  pose proof (drop_while_length is_digit s). destruct (take_while is_digit s); [discriminate|].
  intros H'. injection H' as _ <-. cbn. lia.
Qed.

Lemma exp_part_length s v r : exp_part s = Some (v, r) -> length r <= length s.
Proof.
  unfold exp_part. destruct s as [|c s]; [intros H; inv H; lia|]. destruct (_ || _); [|intros H; inv H; lia].
  assert (Hs : exists neg t, match s with
                             | [] => (false, s)
                             | g :: r' => if (g =? 45)%N then (true, r') else if (g =? 43)%N then (false, r') else (false, s)
                             end = (neg, t) /\ length t <= length s)
    by (destruct s as [|g s]; [|destruct (g =? 45)%N; [|destruct (g =? 43)%N]]; eexists _, _; split; cbn; auto; lia).
  destruct Hs as (neg & t & -> & Ht). pose proof (drop_while_length is_digit t). destruct (take_while is_digit t); [discriminate|].
  intros H'. injection H' as _ <-. cbn. lia.
Qed.

Lemma number_lit_length s v r : number_lit s = Some (v, r) -> length r <= length s.
Proof.
  unfold number_lit.
  assert (Hs : exists neg t, match s with [] => (false, s) | c :: r => if (c =? 45)%N then (true, r) else (false, s) end = (neg, t)
                             /\ length t <= length s)
    by (destruct s as [|c s]; [|destruct (c =? 45)%N]; eexists _, _; split; cbn; auto; lia).
  destruct Hs as (neg & t & -> & Ht). cbv zeta. destruct (take_while is_digit t) as [|d ds]; [discriminate|].
  destruct (_ && _); [discriminate|]. pose proof (drop_while_length is_digit t).
  destruct (frac_part _) as [[fs s1]|] eqn:E1; [|discriminate]. apply frac_part_length in E1.
  destruct (exp_part s1) as [[e s2]|] eqn:E2; [|discriminate]. apply exp_part_length in E2.
  intros H'. injection H' as _ <-. lia.
Qed.

Lemma slice_from_length {A} n (l : list A) : length (slice_from n l) <= length l.
Proof. unfold slice_from. rewrite length_skipn. lia. Qed.

Lemma json_length f :
  (forall s v r, json_value f s = Some (v, r) -> length r <= length s) /\
  (forall s v r, json_elements f s = Some (v, r) -> length r <= length s) /\
  (forall a s v r, json_members f a s = Some (v, r) -> length r <= length s).
Proof.
  induction f as [|f (IHv & IHe & IHm)]; [repeat split; discriminate|]. split; [|split].
  - intros s v r H. cbn [json_value] in H. destruct (skip s) as [|c s1] eqn:E; [discriminate|].
    assert (Hc := skip_cons _ _ _ E). pose proof (skip_length s) as Hk. rewrite E in Hk.
    destruct (c =? 34)%N; [destruct (string_body s1) as [[x y]|] eqn:E1; inv H; apply string_body_length in E1; cbn; lia|].
    destruct (c =? 91)%N.
    { destruct (skip s1) as [|c1 s2] eqn:E1; [discriminate|]. apply skip_cons in E1.
      destruct (c1 =? 93)%N; [inv H; lia|]. destruct (json_elements f s1) as [[x y]|] eqn:E2; inv H. apply IHe in E2. cbn. lia. }
    destruct (c =? 123)%N.
    { destruct (skip s1) as [|c1 s2] eqn:E1; [discriminate|]. apply skip_cons in E1.
      destruct (c1 =? 125)%N; [inv H; lia|]. destruct (json_members f [] s1) as [[x y]|] eqn:E2; inv H. apply IHm in E2. cbn. lia. }
    pose proof (slice_from_length 4 (c :: s1)). pose proof (slice_from_length 5 (c :: s1)).
    revert H0 H1 H. generalize (slice_from 4 (c :: s1)) (slice_from 5 (c :: s1)). intros t4 t5 H0 H1 H.
    do 3 (destruct (startsWith _ _); [injection H as _ <-; lia|]).
    destruct (number_lit (c :: s1)) as [[x y]|] eqn:E1; inv H. apply number_lit_length in E1. cbn [snd]. lia.
  - intros s v r H. cbn [json_elements] in H. destruct (json_value f s) as [[x y]|] eqn:E; [|discriminate]. apply IHv in E.
    destruct (skip y) as [|c s1] eqn:E1; [discriminate|]. apply skip_cons in E1. destruct (c =? 44)%N.
    + destruct (json_elements f s1) as [[x' y']|] eqn:E2; inv H. apply IHe in E2. cbn. lia.
    + destruct (c =? 93)%N; inv H. lia.
  - intros a s v r H. cbn [json_members] in H. destruct (skip s) as [|q r0] eqn:E; [discriminate|]. apply skip_cons in E.
    destruct (q =? 34)%N; [|discriminate]. destruct (string_body r0) as [[k r1]|] eqn:E1; [|discriminate]. apply string_body_length in E1.
    destruct (skip r1) as [|c1 r2] eqn:E2; [discriminate|]. apply skip_cons in E2. destruct (c1 =? 58)%N; [|discriminate].
    destruct (json_value f r2) as [[x r3]|] eqn:E3; [|discriminate]. apply IHv in E3.
    destruct (skip r3) as [|c r'] eqn:E4; [discriminate|]. apply skip_cons in E4. destruct (c =? 44)%N; [apply IHm in H; lia|].
    destruct (c =? 125)%N; inv H. lia.
Qed.

(** More fuel than twice the length of the text never changes the outcome: [None] is a syntax error. *)
Lemma json_fuel n :
  (forall s f g, length s <= n -> 2 * length s < f -> 2 * length s < g -> json_value f s = json_value g s) /\
  (forall s f g, length s <= n -> 2 * length s + 1 < f -> 2 * length s + 1 < g -> json_elements f s = json_elements g s) /\
  (forall a s f g, length s <= n -> 2 * length s + 1 < f -> 2 * length s + 1 < g -> json_members f a s = json_members g a s).
Proof.
  induction n as [n IH] using lt_wf_ind.
  assert (IHe : forall s f g, length s < n -> 2 * length s + 1 < f -> 2 * length s + 1 < g -> json_elements f s = json_elements g s)
    by (intros s f g H; apply (IH (length s)); auto).
  assert (IHm : forall a s f g, length s < n -> 2 * length s + 1 < f -> 2 * length s + 1 < g -> json_members f a s = json_members g a s)
    by (intros a s f g H; apply (IH (length s)); auto).
  assert (Hv : forall s f g, length s <= n -> 2 * length s < f -> 2 * length s < g -> json_value f s = json_value g s).
  { intros s [|f] [|g] Hn Hf Hg; try lia. cbn [json_value]. destruct (skip s) as [|c s1] eqn:E; [reflexivity|]. apply skip_cons in E.
    destruct (c =? 34)%N; [reflexivity|].
    destruct (c =? 91)%N; [destruct (skip s1); [reflexivity|]; destruct (_ =? 93)%N; [reflexivity|]; now rewrite (IHe s1 f g) by lia|].
    destruct (c =? 123)%N; [destruct (skip s1); [reflexivity|]; destruct (_ =? 125)%N; [reflexivity|]; now rewrite (IHm [] s1 f g) by lia|].
    reflexivity. }
  split; [exact Hv|]. split.
  - intros s [|f] [|g] Hn Hf Hg; try lia. cbn [json_elements]. rewrite (Hv s f g) by lia.
    destruct (json_value g s) as [[v r]|] eqn:E; [|reflexivity]. apply json_length in E.
    destruct (skip r) as [|c r'] eqn:E1; [reflexivity|]. apply skip_cons in E1. destruct (c =? 44)%N; [|reflexivity].
    now rewrite (IHe r' f g) by lia.
  - intros a s [|f] [|g] Hn Hf Hg; try lia. cbn [json_members]. destruct (skip s) as [|q r0] eqn:E; [reflexivity|]. apply skip_cons in E.
    destruct (q =? 34)%N; [|reflexivity]. destruct (string_body r0) as [[k r1]|] eqn:E1; [|reflexivity]. apply string_body_length in E1.
    destruct (skip r1) as [|c1 r2] eqn:E2; [reflexivity|]. apply skip_cons in E2. destruct (c1 =? 58)%N; [|reflexivity].
    rewrite (Hv r2 f g) by lia. destruct (json_value g r2) as [[v r3]|] eqn:E3; [|reflexivity]. apply json_length in E3.
    destruct (skip r3) as [|c r'] eqn:E4; [reflexivity|]. apply skip_cons in E4. destruct (c =? 44)%N; [|reflexivity].
    now rewrite (IHm _ r' f g) by lia.
Qed.

Lemma json_value_fuel s f : 2 * length s < f -> json_value (2 * length s + 1) s = json_value f s.
Proof. intros H. apply (json_fuel (length s)); lia. Qed.

(** ** String literals read back *)

Lemma hex_unit_digit n : (n < 16)%N -> hex_unit (hex_digit n) = Some n.
Proof.
  intros H. unfold hex_digit. destruct (N.ltb_spec n 10); unfold hex_unit, in_range; cbn [fst snd].
  - rewrite (proj2 (N.leb_le 48 _)), (proj2 (N.leb_le _ 57)) by lia. cbn [andb]. f_equal. lia.
  - rewrite (proj2 (N.leb_gt (87 + n) 57)) by lia. rewrite andb_false_r.
    rewrite (proj2 (N.leb_le 97 _)), (proj2 (N.leb_le _ 102)) by lia. cbn [andb]. f_equal. lia.
Qed.

Lemma string_body_plain u t :
  (32 <= u)%N -> u <> 34%N -> u <> 92%N -> string_body (u :: t) = push_unit u (string_body t).
Proof.
  intros H0 H1 H2. cbn [string_body]. rewrite (proj2 (N.eqb_neq _ _) H1), (proj2 (N.eqb_neq _ _) H2).
  now rewrite (proj2 (N.ltb_ge _ _) H0).
Qed.

Lemma string_body_unicode u t : (u < 65536)%N -> string_body (unicode_escape u ++ t) = push_unit u (string_body t).
Proof.
  intros H. unfold unicode_escape. cbn [app string_body N.eqb Pos.eqb N.ltb N.compare Pos.compare Pos.compare_cont].
  rewrite !hex_unit_digit by (zify; Z.to_euclidean_division_equations; lia). f_equal.
  zify. Z.to_euclidean_division_equations. lia.
Qed.

Lemma string_body_point u t : string_body (quote_point [u] ++ t) = push_unit u (string_body t).
Proof.
  unfold quote_point. repeat (match goal with |- context [if ?b then _ else _] => destruct b eqn:?E end);
    bprop; subst; try reflexivity; [|apply string_body_plain; assumption].
  apply string_body_unicode. unfold is_high, is_low in *.
  repeat match goal with H : _ || _ = true |- _ => apply orb_true_iff in H; destruct H end; bprop;
    repeat match goal with H : (_ <? _)%N = true |- _ => apply N.ltb_lt in H end; lia.
Qed.

(** The body of a quoted string reads back as the string. *)
Lemma string_body_quoted s rest :
  string_body (flat_map quote_point (code_points s) ++ 34%N :: rest) = Some (s, rest).
Proof.
  induction s as [|u|c d s IH1 IH2] using list_ind2;
    [reflexivity|cbn [code_points flat_map]; now rewrite <- app_assoc, string_body_point|].
  cbn [code_points]. destruct (is_high c && is_low d) eqn:E; cbn [flat_map]; rewrite <- app_assoc.
  - unfold is_high, is_low in E. bprop. cbn [quote_point app]. rewrite !string_body_plain by lia. now rewrite IH1.
  - rewrite string_body_point. cbn [code_points flat_map] in IH2. now rewrite IH2.
Qed.
