(* ===== verification/CommitMessage.v ===== *)
(** * Commit messages ([.opencode/plugins/auto-commit.js])

    The pure part of the auto-commit plugin: what it takes from an event, how it reads a commit
    message out of the reply of a language model, and the texts it builds.  A reply is an arbitrary
    value; the functions are total on every one, and the only exception they can raise is the one of
    [String(...)] on an object whose [toString] is not a function. *)

From Stdlib Require Import String List Arith NArith ZArith Lia Bool.
From S2P Require Import Prelude JsString Regex JsNum NumText Json JsValue Dom.
Import ListNotations.
Local Open Scope list_scope.
Local Open Scope regex_scope.

Definition INTERNAL_TITLE : jsstring := js "[auto-commit hook] commit message generator".
Definition DIFF_BUDGET : nat := N.to_nat 12000.
Definition BODY_BUDGET : nat := N.to_nat 2000.

Record message := Msg { subject : jsstring; body : jsstring }.

(** ** Events *)

Record event := { ev_type : jsval; ev_properties : jsval }.

Definition sessionIdOf (e : event) : jsval :=
  let properties := coalesce (ev_properties e) (VObj []) in
  coalesce (prop "sessionID" properties)
    (coalesce (prop "sessionId" properties)
       (coalesce (prop "id" properties)
          (coalesce (prop "id" (prop "info" properties)) VNull))).

(** ** Reading a reply *)

(** The strings pushed on [out] by [collectText(node, out)]. *)
Fixpoint collectText (node : jsval) : list jsstring :=
  match node with
  | VArr l => flat_map collectText l
  | VObj l =>
      (match lookup (js "text") l with VStr s => [s] | _ => [] end) ++ flat_map (fun kv => collectText (snd kv)) l
  | _ => []
  end.

(** The back quote, the two ASCII quotes and the two curly ones. *)
Definition quote_class : cclass := Cls false (singles [96; 34; 39; 8220; 8221]%N).

Definition quotes_re : regex := RBol · rplus (RChr quote_class) ∥ rplus (RChr quote_class) · REol.

Definition sanitizeSubject (value : jsstring) : jsstring :=
  slice 0 100 (trim (default_of [] (replace_all quotes_re (hd [] (split1 10 value))))).

(** [/^\{?.subject.\s*:\s*.?/] and [/.?,?\}?$/], the dot standing for a double quote. *)
Definition prose_head_re : regex :=
  RBol · ropt (rch 123) · rch 34 · rword "subject" · rch 34 · RStar (RChr c_space) · rch 58 · RStar (RChr c_space)
  · ropt (rch 34).
Definition prose_tail_re : regex := ropt (rch 34) · ropt (rch 44) · ropt (rch 125) · REol.

Definition is_brace_or_quote (c : N) : bool := (c =? 123)%N || (c =? 125)%N || (c =? 34)%N.

(** [text.split(newline).map(trim).filter(Boolean)]. *)
Definition nonblank_lines (text : jsstring) : list jsstring :=
  filter (fun line => match line with [] => false | _ => true end) (map trim (split1 10 text)).

Definition fromProseText (joined : jsstring) : option message :=
  match nonblank_lines joined with
  | [] => None
  | first :: rest =>
      let subject := sanitizeSubject (replace_first prose_tail_re (replace_first prose_head_re first)) in
      match subject with
      | [] => None
      | _ =>
          let body := slice 0 BODY_BUDGET
                        (trim (filter (fun c => negb (is_brace_or_quote c)) (join [10%N] rest))) in
          Some {| subject := subject; body := body |}
      end
  end.

Definition object_re : regex :=
  rch 123 · RStar (RChr c_any) · rch 34 · rword "subject" · rch 34 · RStar (RChr c_any) · rch 125.

(** The subject of an object, when it is a string that is not blank. *)
Definition usable_subject (v : jsval) : option jsstring :=
  match prop "subject" v with
  | VStr s => match trim s with [] => None | _ => Some s end
  | _ => None
  end.

(** The message of an object with a usable subject; [None] without one. *)
Definition object_message (v : jsval) : result (option message) :=
  match usable_subject v with
  | Some s =>
      result_bind (to_string (coalesce (prop "body" v) (VStr []))) (fun b =>
      Ok (Some {| subject := sanitizeSubject s; body := trim b |}))
  | None => Ok None
  end.

Definition extractMessage (res : jsval) : result (option message) :=
  let data := prop "data" res in
  let structured := coalesce (prop "structured_output" (prop "info" data))
                      (coalesce (prop "structured_output" data) VNull) in
  if is_truthy structured && match usable_subject structured with Some _ => true | None => false end
  then object_message structured
  else
    let joined := join [10%N] (collectText data) in
    match exec object_re joined 0 with
    | Some mt =>
        match result_bind (JSON_parse (m_text mt)) object_message with
        | Ok (Some msg) => Ok (Some msg)
        | _ => Ok (fromProseText joined)
        end
    | None => Ok (fromProseText joined)
    end.

(** ** Texts *)

Definition fallbackMessage (fileCount : nat) (stat : jsstring) : message :=
  {| subject := js "chore: sync working tree changes";
     body := join [10%N]
       [js "- " ++ nat_to_js fileCount ++ js " file(s) changed; LLM summary unavailable (generation failed).";
        js "- Stat: " ++ match stat with [] => js "n/a" | _ => stat end] |}.

Definition promptText (diff : jsstring) (files : list jsstring) : jsstring :=
  join [10%N]
    ([js "You are a commit message generator. Write a commit message for the changes below.";
      js "Rules:";
      js "- English only.";
      js "- Conventional commits: type must be one of feat, fix, docs, refactor, test, chore, perf, ci, build.";
      js "- Subject: imperative mood, max 72 characters, no trailing period.";
      js "- Body: bullet list of what changed and why, one bullet per area.";
      js "- Base the message ONLY on the diff below; do not invent changes.";
      jsq "- Reply with ONLY a JSON object {`subject`: `...`, `body`: `...`}, no prose, no code fences.";
      [];
      js "Changed files:"]
     ++ map (fun file => js "- " ++ file) files
     ++ [[]; js "Diff (may be truncated):"; diff]).

(** The diff that is put into the prompt. *)
Definition clipDiff (diff : jsstring) : jsstring :=
  if DIFF_BUDGET <? length diff then slice 0 DIFF_BUDGET diff ++ [10%N] ++ js "... [truncated]" else diff.

Definition footer : jsstring := js "Generated by opencode auto-commit hook; commit only, no push.".

Definition commitBody (m : message) : jsstring :=
  match body m with [] => footer | b => b ++ [10%N; 10%N] ++ footer end.

Example extract_structured :
  extractMessage (VObj [(js "data", VObj [(js "info", VObj [(js "structured_output",
     VObj [(js "subject", VStr (jsq "`feat: x`")); (js "body", VNum (nof 7))])])])])
  = Ok (Some (Msg (js "feat: x") (js "7"))).
Proof. vm_compute. reflexivity. Qed.

Example extract_text :
  extractMessage (VObj [(js "data", VObj [(js "parts", VArr [VObj [(js "type", VStr (js "text"));
     (js "text", VStr (jsq "Sure: {`subject`: `fix: y`, `body`: ` - z `} done"))]])])])
  = Ok (Some (Msg (js "fix: y") (js "- z"))).
Proof. vm_compute. reflexivity. Qed.

Example extract_prose :
  extractMessage (VObj [(js "data", VObj [(js "text", VStr (jsq "  `fix: y`,
- `z`
"))])]) = Ok (Some (Msg (js "fix: y") (js "- z"))).
Proof. vm_compute. reflexivity. Qed.

(** ** Quotes around the subject *)

Definition is_quote (c : N) : bool := cls_in c quote_class.

(** What is between the quotes at both ends. *)
Definition strip_quotes (s : jsstring) : jsstring :=
  rev (drop_while is_quote (rev (drop_while is_quote s))).

(** The run of quotes a string ends with. *)
Definition trail (s : jsstring) : jsstring := rev (take_while is_quote (rev s)).

Lemma take_while_app {A} (p : A -> bool) l x :
  take_while p (l ++ [x]) = if forallb p l then if p x then l ++ [x] else l else take_while p l.
Proof.
  induction l as [|y l IH]; cbn; [now destruct (p x)|]. destruct (p y); cbn; [|reflexivity]. rewrite IH.
  destruct (forallb p l); [destruct (p x)|]; reflexivity.
Qed.

Lemma trail_cons c s : trail (c :: s) = if forallb is_quote s then if is_quote c then c :: s else s else trail s.
Proof.
  unfold trail. cbn [rev]. rewrite take_while_app, forallb_rev. destruct (forallb is_quote s).
  - destruct (is_quote c); [now rewrite rev_app_distr, rev_involutive|apply rev_involutive].
  - reflexivity.
Qed.

Lemma trail_all s : forallb is_quote s = true -> trail s = s.
Proof.
  destruct s as [|c s]; [reflexivity|]. cbn [forallb]. intros H. bprop. now rewrite trail_cons, H, H0.
Qed.

Lemma trail_length s : length (trail s) <= length s.
Proof.
  unfold trail. rewrite length_rev, <- (length_rev s). generalize (rev s) as l. intros l.
  pose proof (take_drop_while is_quote l) as E. apply (f_equal (@length N)) in E. rewrite length_app in E. lia.
Qed.

(** The two alternatives of the pattern at one position. *)
Lemma m_quotes b a :
  m quotes_re (MS b a []) Some
  = if (length b =? 0) && is_quote (hd 0%N a)
    then Some (MS (rev (take_while is_quote a) ++ b) (drop_while is_quote a) [])
    else if negb (length a =? 0) && forallb is_quote a then Some (MS (rev a ++ b) [] []) else None.
Proof.
  assert (H2 : m (rplus (RChr quote_class) · REol) (MS b a []) Some
               = if negb (length a =? 0) && forallb is_quote a then Some (MS (rev a ++ b) [] []) else None).
  { unfold rplus. destruct a as [|x a]; [reflexivity|].
    change (m (RChr quote_class) (MS b (x :: a) []) (fun st' => m_star (RChr quote_class) (fun st => m REol st Some) (length (after st')) st')
            = if is_quote x && forallb is_quote a then Some (MS (rev (x :: a) ++ b) [] []) else None).
    rewrite m_chr_cons. fold (is_quote x). destruct (is_quote x); [|reflexivity].
    rewrite m_star_class_eol; [|discriminate|cbn; lia]. cbn [rev andb]. rewrite <- app_assoc. reflexivity. }
  change (m quotes_re (MS b a []) Some)
    with (match m (RBol · rplus (RChr quote_class)) (MS b a []) Some with
          | Some v => Some v | None => m (rplus (RChr quote_class) · REol) (MS b a []) Some end).
  rewrite H2. destruct b as [|y b]; [|reflexivity]. destruct a as [|x a]; [reflexivity|]. cbn [hd length Nat.eqb andb].
  change (m (RBol · rplus (RChr quote_class)) (MS [] (x :: a) []) Some)
    with (m (RChr quote_class) (MS [] (x :: a) []) (fun st' => m_star (RChr quote_class) Some (length (after st')) st')).
  rewrite m_chr_cons. fold (is_quote x). destruct (is_quote x) eqn:E; [|reflexivity].
  rewrite m_star_class; [|discriminate|cbn; lia]. cbn [take_while drop_while]. rewrite E. cbn [rev]. now rewrite <- app_assoc.
Qed.

(** Past the start the pattern finds the trailing quotes. *)
Lemma search_quotes_tail a : forall b, b <> [] ->
  search quotes_re b a
  = match trail a with [] => None | t => Some (RM (length b + (length a - length t)) t []) end.
Proof.
  induction a as [|x a IH]; intros b Hb; cbn [search]; rewrite m_quotes; destruct b as [|y b]; try congruence; [reflexivity|].
  cbn [length Nat.eqb andb negb forallb]. destruct (is_quote x && forallb is_quote a) eqn:E; [rewrite trail_all by exact E|].
  - unfold consumed. cbn [after length]. rewrite Nat.sub_diag, Nat.add_0_r, Nat.sub_0_r.
    change (S (length a)) with (length (x :: a)). now rewrite firstn_all.
  - rewrite IH by discriminate. rewrite trail_cons. destruct (forallb is_quote a) eqn:Ea.
    + rewrite andb_true_r in E. rewrite E, trail_all by exact Ea. destruct a as [|z a]; [reflexivity|]. cbn [length]. do 2 f_equal. lia.
    + pose proof (trail_length a). destruct (trail a) as [|z t]; [reflexivity|]. cbn [length] in *. do 2 f_equal. lia.
Qed.

Lemma exec_quotes_tail s last :
  0 < last <= length s ->
  exec quotes_re s last
  = match trail (skipn last s) with
    | [] => None
    | t => Some (RM (length s - length t) t [])
    end.
Proof.
  intros [H1 H2]. unfold exec. rewrite (proj2 (Nat.leb_le _ _) H2), search_quotes_tail.
  - pose proof (trail_length (skipn last s)) as Hl. rewrite length_skipn in Hl. rewrite length_rev, length_firstn, length_skipn, Nat.min_l by lia.
    destruct (trail (skipn last s)) as [|z t]; [reflexivity|]. cbn [length] in *. do 2 f_equal. lia.
  - intros E. apply (f_equal (@length N)) in E. rewrite length_rev, length_firstn in E. cbn in E. lia.
Qed.

Lemma exec_quotes_0 s :
  exec quotes_re s 0
  = match take_while is_quote s with
    | [] => match trail s with [] => None | t => Some (RM (length s - length t) t []) end
    | t => Some (RM 0 t [])
    end.
Proof.
  unfold exec. cbn [Nat.leb firstn rev skipn]. destruct s as [|x s]; [reflexivity|]. cbn [search]. rewrite m_quotes.
  cbn [length Nat.eqb hd negb andb take_while]. destruct (is_quote x) eqn:E.
  - unfold consumed. cbn [after drop_while]. rewrite E. pose proof (take_drop_while is_quote s) as Es.
    assert (El : length s = length (take_while is_quote s) + length (drop_while is_quote s)) by (rewrite <- length_app, Es; reflexivity).
    cbn [length]. replace (S (length s) - _) with (S (length (take_while is_quote s))) by lia. cbn [firstn].
    rewrite <- Es at 2. rewrite firstn_app, firstn_all, Nat.sub_diag, firstn_O, app_nil_r. reflexivity.
  - cbn [forallb]. rewrite E. cbn [andb]. rewrite search_quotes_tail by discriminate.
    assert (Et : trail (x :: s) = trail s).
    { rewrite trail_cons, E. destruct (forallb is_quote s) eqn:Ea; [now rewrite trail_all|reflexivity]. }
    rewrite Et. pose proof (trail_length s). destruct (trail s); [reflexivity|]. cbn [length] in *. do 2 f_equal. lia.
Qed.

Lemma strip_tail d : rev (drop_while is_quote (rev d)) ++ trail d = d.
Proof. unfold trail. rewrite <- rev_app_distr, take_drop_while. apply rev_involutive. Qed.

Lemma skipn_take_while {A} (p : A -> bool) l : skipn (length (take_while p l)) l = drop_while p l.
Proof. rewrite <- (take_drop_while p l) at 2. rewrite skipn_app, skipn_all, Nat.sub_diag. reflexivity. Qed.

Lemma exec_quotes_end s : 0 < length s -> exec quotes_re s (length s) = None.
Proof. intros H. rewrite exec_quotes_tail by lia. now rewrite skipn_all. Qed.

Definition quotes_body (s : jsstring) (st : jsstring * nat) (mt : rmatch_result) : jsstring * nat :=
  (fst st ++ slice (snd st) (m_index mt) s, m_end mt).

(** What is removed once the start has been dealt with. *)
Lemma quotes_loop_tail s last fuel out :
  0 < length s -> last <= length s -> length (trail (skipn last s)) < fuel ->
  exec quotes_re s last = match trail (skipn last s) with [] => None | t => Some (RM (length s - length t) t []) end ->
  option_map (fun st : jsstring * nat => fst st ++ slice_from (snd st) s)
    (exec_loop fuel quotes_re s (quotes_body s) last (out, last))
  = Some (out ++ rev (drop_while is_quote (rev (skipn last s)))).
Proof.
  intros Hs Hl Hf He. pose proof (strip_tail (skipn last s)) as Et. destruct fuel as [|f]; [lia|]. cbn [exec_loop]. rewrite He.
  pose proof (f_equal (@length N) Et) as El. rewrite length_app, length_skipn in El.
  destruct (trail (skipn last s)) as [|z t] eqn:Ez.
  - cbn [option_map fst snd]. rewrite app_nil_r in Et. unfold slice_from. now rewrite Et.
  - destruct f as [|f]; [cbn in Hf; lia|]. cbn [exec_loop]. unfold quotes_body, m_end. cbn [m_index m_text fst snd].
    replace (length s - length (z :: t) + length (z :: t)) with (length s) by lia.
    rewrite exec_quotes_end by exact Hs. cbn [option_map fst snd]. rewrite slice_from_end by lia. rewrite app_nil_r. do 2 f_equal.
    unfold slice. rewrite <- Et at 1. rewrite firstn_app, firstn_all2 by lia.
    replace (_ - _ - _ - _) with 0 by lia. now rewrite firstn_O, app_nil_r.
Qed.

(** The regular expression removes exactly the quotes at both ends. *)
Lemma replace_quotes s : replace_all quotes_re s = Some (strip_quotes s).
Proof.
  destruct s as [|x s0] eqn:Es; [reflexivity|]. rewrite <- Es. assert (Hpos : 0 < length s) by (subst; cbn; lia). clear Es x s0.
  unfold replace_all, exec_while. fold (quotes_body s). pose proof (exec_quotes_0 s) as He.
  pose proof (take_drop_while is_quote s) as Ed. pose proof (skipn_take_while is_quote s) as Hd.
  pose proof (trail_length (drop_while is_quote s)) as Ht.
  pose proof (f_equal (@length N) Ed) as El. rewrite length_app in El. unfold strip_quotes.
  destruct (take_while is_quote s) as [|q t0].
  - rewrite <- Hd. rewrite <- Hd in Ht. cbn [length skipn] in *.
    apply (quotes_loop_tail s 0 _ []); [exact Hpos|lia|cbn [skipn]; lia|exact He].
  - cbn [exec_loop]. rewrite He. unfold quotes_body at 2, m_end. cbn [m_index m_text fst snd app].
    change (slice 0 0 s) with (@nil N). rewrite <- Hd. cbn [Nat.add]. apply (quotes_loop_tail s (length (q :: t0)) _ []).
    + exact Hpos.
    + lia.
    + rewrite Hd. cbn [length] in *. lia.
    + apply exec_quotes_tail. cbn [length] in *. lia.
Qed.

Lemma sanitizeSubject_eq v : sanitizeSubject v = firstn 100 (trim (strip_quotes (hd [] (split1 10 v)))).
Proof. unfold sanitizeSubject. now rewrite replace_quotes, slice_0. Qed.

(** ** Bounds on the subject *)

Lemma In_drop_while {A} (p : A -> bool) l x : In x (drop_while p l) -> In x l.
Proof. intros H. rewrite <- (take_drop_while p l). apply in_or_app. now right. Qed.

Lemma In_strip_quotes c s : In c (strip_quotes s) -> In c s.
Proof.
  unfold strip_quotes. rewrite <- in_rev. intros H. apply In_drop_while in H. rewrite <- in_rev in H. now apply In_drop_while in H.
Qed.

Lemma In_trim c s : In c (trim s) -> In c s.
Proof.
  unfold trim, trimStart, trimEnd. intros H. apply In_drop_while in H. rewrite <- in_rev in H. apply In_drop_while in H.
  now rewrite <- in_rev in H.
Qed.

Lemma In_firstn {A} n (l : list A) x : In x (firstn n l) -> In x l.
Proof. intros H. rewrite <- (firstn_skipn n l). apply in_or_app. now left. Qed.

Lemma sanitizeSubject_ok v : length (sanitizeSubject v) <= 100 /\ ~ In 10%N (sanitizeSubject v).
Proof.
  rewrite sanitizeSubject_eq. split; [rewrite length_firstn; lia|]. intros H.
  apply In_firstn, In_trim, In_strip_quotes in H. pose proof (split1_no_sep 10 v) as F. pose proof (split1_nonempty 10 v).
  destruct (split1 10 v) as [|l ls]; [congruence|]. inv F. contradiction.
Qed.

Lemma object_message_inv v m :
  object_message v = Ok (Some m) ->
  exists s b, prop "subject" v = VStr s /\ trim s <> [] /\ to_string (coalesce (prop "body" v) (VStr [])) = Ok b /\
    m = {| subject := sanitizeSubject s; body := trim b |}.
Proof.
  unfold object_message, usable_subject. destruct (prop "subject" v) as [| | | |s| |]; try discriminate.
  destruct (trim s) eqn:E; [discriminate|]. destruct (to_string _) as [b|e] eqn:Eb; [|discriminate]. cbn. intros H. inv H.
  exists s, b. repeat split; auto. now rewrite E.
Qed.

Lemma fromProseText_ok t m :
  fromProseText t = Some m ->
  subject m <> [] /\ length (subject m) <= 100 /\ ~ In 10%N (subject m) /\ length (body m) <= BODY_BUDGET.
Proof.
  unfold fromProseText. destruct (nonblank_lines t) as [|l ls]; [discriminate|]. set (v := replace_first _ _).
  destruct (sanitizeSubject_ok v) as [H1 H2]. destruct (sanitizeSubject v) as [|c r]; [discriminate|]. intros H.
  injection H as <-. cbn [subject body]. repeat split; auto; [discriminate|]. rewrite slice_0, length_firstn. lia.
Qed.

(** Where an extracted message comes from. *)
Lemma extractMessage_cases r x :
  extractMessage r = x ->
  (exists v, x = object_message v /\ usable_subject v <> None) \/
  (exists v m, x = Ok (Some m) /\ object_message v = Ok (Some m)) \/
  x = Ok (fromProseText (join [10%N] (collectText (prop "data" r)))).
Proof.
  intros <-. unfold extractMessage. set (st := coalesce _ _). destruct (_ && _) eqn:E.
  - left. exists st. split; [reflexivity|]. bprop. now destruct (usable_subject st).
  - right. destruct (exec _ _ _) as [mt|]; [|now right]. destruct (JSON_parse _) as [v|]; [|now right]. cbn [result_bind].
    destruct (object_message v) as [[m|]|] eqn:Em; [left; eauto|now right|now right].
Qed.



Lemma drop_while_app {A} (p : A -> bool) a s : forallb p a = true -> drop_while p (a ++ s) = drop_while p s.
Proof. induction a as [|c a IH]; cbn; [reflexivity|]. intros H. bprop. now rewrite H, IH. Qed.

Lemma strip_quotes_between a s b :
  forallb is_quote a = true -> forallb is_quote b = true ->
  is_quote (hd 0%N s) = false -> is_quote (last s 0%N) = false -> strip_quotes (a ++ s ++ b) = s.
Proof.
  intros Ha Hb Hs Hl. unfold strip_quotes. rewrite drop_while_app by exact Ha. destruct s as [|c s].
  - cbn [app]. now rewrite (proj2 (drop_while_nil is_quote b) Hb).
  - cbn [hd] in Hs. cbn [app]. rewrite drop_while_id by exact Hs. change (c :: s ++ b) with ((c :: s) ++ b).
    destruct (exists_last (l := c :: s) ltac:(discriminate)) as (s' & x & E). rewrite E in *. rewrite last_last in Hl.
    rewrite rev_app_distr, drop_while_app by now rewrite forallb_rev. rewrite rev_app_distr. cbn [rev app].
    rewrite drop_while_id by exact Hl. cbn [rev]. now rewrite rev_involutive.
Qed.

(** C25: The subject of a commit message is the first line of the text given, without the quotes around it
    and without the white space around what is left, cut after 100 characters: the regular
    expression with two anchored alternatives does exactly what stripping both ends does. *)
Theorem sanitizeSubject_spec value :
  sanitizeSubject value = firstn 100 (trim (strip_quotes (hd [] (split1 10 value)))) /\
  forall a s b, forallb is_quote a = true -> forallb is_quote b = true ->
    is_quote (hd 0%N s) = false -> is_quote (last s 0%N) = false -> strip_quotes (a ++ s ++ b) = s.
Proof. split; [apply sanitizeSubject_eq|apply strip_quotes_between]. Qed.

Lemma sanitizeSubject_spec_witness : strip_quotes (jsq "`'" ++ js "a 'b' c" ++ jsq "``") = js "a 'b' c".
Proof.
  apply (proj2 (sanitizeSubject_spec []) (jsq "`'") (js "a 'b' c") (jsq "``")); reflexivity.
Defined.

(** ** A JSON reply reads back *)

(** The reply the prompt asks for. *)
Definition reply (s b : jsstring) : jsstring :=
  stringify [] (JObj [(js "subject", JStr s); (js "body", JStr b)]).

Lemma reply_eq s b :
  reply s b = 123%N :: quote (js "subject") ++ 58%N :: quote s ++ 44%N :: quote (js "body") ++ 58%N :: quote b ++ [125%N].
Proof.
  unfold reply, stringify. cbn [serialize map bracket join newline colon app].
  rewrite <- !app_assoc. reflexivity.
Qed.

Lemma skip_quote k rest : skip (quote k ++ rest) = 34%N :: flat_map quote_point (code_points k) ++ 34%N :: rest.
Proof. unfold quote. rewrite <- !app_assoc. reflexivity. Qed.

Lemma json_value_string f s t :
  json_value (S f) (quote s ++ t) = Some (VStr s, t).
Proof.
  unfold quote. rewrite <- !app_assoc. cbn [app json_value]. rewrite skip_hd by reflexivity. cbn [N.eqb Pos.eqb].
  now rewrite string_body_quoted.
Qed.

Lemma reply_parses s b :
  JSON_parse (reply s b) = Ok (VObj [(js "subject", VStr s); (js "body", VStr b)]).
Proof.
  unfold JSON_parse. rewrite (json_value_fuel _ (4 + 2 * length (reply s b))) by lia. rewrite reply_eq.
  generalize (2 * length (123%N :: quote (js "subject") ++ 58%N :: quote s ++ 44%N :: quote (js "body") ++ 58%N :: quote b ++ [125%N])) as f.
  intros f. cbn [Nat.add json_value]. rewrite skip_hd by reflexivity. cbn [N.eqb Pos.eqb].
  rewrite skip_quote. cbn [N.eqb Pos.eqb]. cbn [json_members]. rewrite skip_quote. cbn [N.eqb Pos.eqb].
  rewrite string_body_quoted, skip_hd by reflexivity. cbn [N.eqb Pos.eqb]. rewrite json_value_string, skip_hd by reflexivity.
  cbn [N.eqb Pos.eqb]. rewrite skip_quote. cbn [N.eqb Pos.eqb].
  rewrite string_body_quoted, skip_hd by reflexivity. cbn [N.eqb Pos.eqb]. rewrite json_value_string, skip_hd by reflexivity.
  reflexivity.
Qed.

(** A match of the object pattern ends at the last closing brace. *)
Lemma m_object_last st v : m object_re st Some = Some v -> ~ In 125%N (after v).
Proof.
  unfold object_re. do 5 (rewrite m_seq; intros H; apply m_sound in H as (? & _ & H); revert H). rewrite m_seq.
  rewrite m_star_eq. destruct x3 as [b a cs]. cbn [after]. intros H. pose proof (m_star_any_last 125 (length a) b a cs ltac:(lia)) as L.
  now rewrite H in L.
Qed.

Lemma suffix_no_last {A} (w v : list A) c l : l ++ [c] = w ++ v -> ~ In c v -> v = [].
Proof.
  intros E H. destruct v as [|x v] using rev_ind; [reflexivity|]. rewrite app_assoc in E. apply app_inj_tail in E as [_ ->].
  exfalso. apply H, in_or_app. right. now left.
Qed.

(** A text that is an object with the key, from its first character to its last, is taken whole. *)
Lemma exec_object mid :
  let t := 123%N :: 34%N :: js "subject" ++ 34%N :: mid ++ [125%N] in exec object_re t 0 = Some (RM 0 t []).
Proof.
  intros t. assert (Hm : m object_re (MS [] t []) Some <> None).
  { unfold object_re, t. eapply m_complete; [|discriminate]. eapply rm_seq; [apply rmatch_ch|]. eapply rm_seq; [apply (rmatch_any [])|].
    eapply rm_seq; [apply rmatch_ch|]. eapply rm_seq; [apply rmatch_word|]. eapply rm_seq; [apply rmatch_ch|].
    eapply rm_seq; [apply rmatch_any|]. apply rmatch_ch. }
  destruct (m object_re (MS [] t []) Some) as [st|] eqn:Em; [|congruence]. assert (HL := m_object_last _ _ Em).
  unfold exec. cbn [Nat.leb firstn rev skipn]. rewrite (search_first _ _ _ _ Em).
  apply m_sound in Em as (st' & Hr & Hs). injection Hs as ->. assert (Hc := rmatch_caps _ _ _ Hr eq_refl).
  destruct (rmatch_advances _ _ _ Hr) as (w & Ha). rewrite (advances_consumed _ _ _ Ha), Hc. destruct Ha as [Ha _]. cbn [after caps length] in *.
  assert (Hnil : after st = []).
  { apply (suffix_no_last w _ 125%N (123%N :: 34%N :: js "subject" ++ 34%N :: mid)); [|exact HL]. rewrite <- Ha. unfold t.
    cbn [app]. now rewrite <- app_assoc. }
  rewrite Hnil, app_nil_r in Ha. now rewrite <- Ha.
Qed.

Lemma exec_reply s b : exec object_re (reply s b) 0 = Some (RM 0 (reply s b) []).
Proof.
  pose proof (exec_object (58%N :: quote s ++ 44%N :: quote (js "body") ++ 58%N :: quote b)) as H. cbv zeta in H.
  replace (reply s b) with (123%N :: 34%N :: js "subject" ++ 34%N :: (58%N :: quote s ++ 44%N :: quote (js "body") ++ 58%N :: quote b) ++ [125%N]);
    [exact H|]. rewrite reply_eq. change (quote (js "subject")) with (34%N :: js "subject" ++ [34%N]).
  repeat (rewrite <- ?app_assoc; cbn [app]). reflexivity.
Qed.




