(* ===== verification/AutoCommit.v ===== *)
(** * The auto-commit plugin ([.opencode/plugins/auto-commit.js])

    The plugin is an asynchronous event handler.  An [async] function is a program: a tree whose nodes
    are the calls it awaits, with one branch for every answer, fulfilled or rejected, and the accesses
    to the two module variables [busy] and [internalSessions].  Between two awaits a program runs
    without interruption ([run]); at an await the other handlers may run.  The machine holds one task
    per event received, and [Promise.race] keeps a generator running beside its flow, also after the
    timeout has settled the race.

    The theorems show that the lock [busy] works: whatever the interleaving, the answers and the
    failures, the git commands are those of one transaction after the other, and the lock is released
    at the end of every flow. *)

From Stdlib Require Import String List Arith NArith ZArith Lia Bool.
From S2P Require Import Prelude JsString Regex JsNum NumText Json JsValue Dom CommitMessage.
Import ListNotations.
Local Open Scope list_scope.

(** ** Programs *)

Record shared := Shared { busy : bool; internalSessions : list jsval }.

Inductive prog (O : Type -> Type) (A : Type) : Type :=
| Done (a : A)
| Throw (e : jsstring)
| Await {X : Type} (o : O X) (k : result X -> prog O A)
| GetBusy (k : bool -> prog O A)
| SetBusy (b : bool) (p : prog O A)
| HasInternal (v : jsval) (k : bool -> prog O A)
| AddInternal (v : jsval) (p : prog O A)
| DelInternal (v : jsval) (p : prog O A).
Arguments Done {O A} a.
Arguments Throw {O A} e.
Arguments Await {O A X} o k.
Arguments GetBusy {O A} k.
Arguments SetBusy {O A} b p.
Arguments HasInternal {O A} v k.
Arguments AddInternal {O A} v p.
Arguments DelInternal {O A} v p.

Section Combinators.
Context {O : Type -> Type}.

(** What follows a program, when it returns and when it throws. *)
Fixpoint both {A B} (p : prog O A) (f : A -> prog O B) (h : jsstring -> prog O B) : prog O B :=
  match p with
  | Done a => f a
  | Throw e => h e
  | Await o k => Await o (fun r => both (k r) f h)
  | GetBusy k => GetBusy (fun b => both (k b) f h)
  | SetBusy b p => SetBusy b (both p f h)
  | HasInternal v k => HasInternal v (fun b => both (k b) f h)
  | AddInternal v p => AddInternal v (both p f h)
  | DelInternal v p => DelInternal v (both p f h)
  end.

Definition seq {A B} (p : prog O A) (f : A -> prog O B) : prog O B := both p f Throw.

(** [try { p } catch (e) { h }] and [try { p } finally { q }]. *)
Definition catch {A} (p : prog O A) (h : jsstring -> prog O A) : prog O A := both p Done h.
Definition finally {A} (p : prog O A) (q : prog O unit) : prog O A :=
  both p (fun a => seq q (fun _ => Done a)) (fun e => seq q (fun _ => Throw e)).

(** [await o]: a rejection is thrown. *)
Definition await {X} (o : O X) : prog O X := Await o (fun r => match r with Ok x => Done x | Err e => Throw e end).

(** The part of a program that runs without interruption. *)
Fixpoint run {A} (p : prog O A) (s : shared) : prog O A * shared :=
  match p with
  | GetBusy k => run (k (busy s)) s
  | SetBusy b p' => run p' (Shared b (internalSessions s))
  | HasInternal v k => run (k (existsb (same_value v) (internalSessions s))) s
  | AddInternal v p' =>
      run p' (Shared (busy s) (if existsb (same_value v) (internalSessions s) then internalSessions s
                               else internalSessions s ++ [v]))
  | DelInternal v p' => run p' (Shared (busy s) (filter (fun w => negb (same_value v w)) (internalSessions s)))
  | _ => (p, s)
  end.
End Combinators.

Declare Scope prog_scope.
Notation "x <- p ;; f" := (seq p (fun x => f)) (at level 100, p at next level, right associativity) : prog_scope.
Notation "p ;;; f" := (seq p (fun _ => f)) (at level 100, right associativity) : prog_scope.
Local Open Scope prog_scope.

(** ** Generating the message *)

Definition MESSAGE_SCHEMA : jsval :=
  VObj [(js "type", VStr (js "object"));
        (js "properties", VObj
           [(js "subject", VObj [(js "type", VStr (js "string"));
               (js "description", VStr (js "Conventional-commit subject line in English, imperative mood, max 72 characters, e.g. 'feat: ...' or 'fix: ...'. No Chinese, no trailing period."))]);
            (js "body", VObj [(js "type", VStr (js "string"));
               (js "description", VStr (js "Bullet list in English explaining what changed and why, one bullet per area. No Chinese."))])]);
        (js "required", VArr [VStr (js "subject"); VStr (js "body")])].

(** The body of the request to the model. *)
Definition promptBody (prompt : jsstring) : jsval :=
  VObj [(js "parts", VArr [VObj [(js "type", VStr (js "text")); (js "text", VStr prompt)]]);
        (js "outputFormat", VObj [(js "type", VStr (js "json_schema")); (js "schema", MESSAGE_SCHEMA)])].

Inductive gen_op : Type -> Type :=
| Create (title : jsstring) : gen_op jsval
| Prompt (id : jsval) (body : jsval) : gen_op jsval
| Delete (id : jsval) : gen_op unit.

(** [String(new Error(message))]. *)
Definition error_text (message : jsstring) : jsstring :=
  match message with [] => js "Error" | _ => js "Error: " ++ message end.

Definition throw_error {O A} (message : result jsstring) : prog O A :=
  match message with Ok m => Throw (error_text m) | Err e => Throw e end.

(** The text of an error reported inside a reply. *)
Definition structured_error (v : jsval) : result jsstring :=
  result_bind (to_string (coalesce (prop "name" v) (VStr (js "error")))) (fun n =>
  result_bind (to_string (coalesce (prop "message" v) (VStr []))) (fun m =>
  Ok (trim (js "structured output: " ++ n ++ js " " ++ m)))).

Definition of_result {O A} (r : result A) : prog O A := match r with Ok a => Done a | Err e => Throw e end.

Definition generateCommitMessage (diff : jsstring) (files : list jsstring) : prog gen_op (option message) :=
  created <- await (Create INTERNAL_TITLE) ;;
  let helperId := prop "id" (prop "data" created) in
  if negb (is_truthy helperId) then Throw (error_text (js "failed to create helper session"))
  else
    AddInternal helperId
      (finally
         (result <- await (Prompt helperId (promptBody (promptText diff files))) ;;
          if is_truthy (prop "error" result) then throw_error (to_string (prop "error" result))
          else
            let structuredError := prop "error" (prop "info" (prop "data" result)) in
            if is_truthy structuredError then throw_error (structured_error structuredError)
            else of_result (extractMessage result))
         (Await (Delete helperId) (fun _ => Done tt))).

(** ** The handler *)

Inductive gitcmd := RevParse | AddU | DiffNames | Diff | ShortStat | Commit (subject body : jsstring).

Definition git_args (directory : jsstring) (c : gitcmd) : list jsstring :=
  [js "git"; js "-C"; directory] ++
  match c with
  | RevParse => [js "rev-parse"; js "--is-inside-work-tree"]
  | AddU => [js "add"; js "-u"]
  | DiffNames => [js "diff"; js "--cached"; js "--name-only"]
  | Diff => [js "diff"; js "--cached"]
  | ShortStat => [js "diff"; js "--cached"; js "--shortstat"]
  | Commit subject body => [js "commit"; js "-m"; subject; js "-m"; body]
  end.

(** A git command answers with its exit code and its output; [nothrow] makes a failure an answer. *)
Inductive flow_op : Type -> Type :=
| Log (level message : jsstring) : flow_op unit
| Git (c : gitcmd) : flow_op (Z * jsstring)
| Race (g : prog gen_op (option message)) : flow_op (option message).

Definition flow := prog flow_op.

(** A failure to log is swallowed. *)
Definition log (level message : jsstring) : flow unit := Await (Log level message) (fun _ => Done tt).
Definition git (c : gitcmd) : flow (Z * jsstring) := await (Git c).

Definition timeout_error : jsstring := error_text (js "commit message timeout").

(** The message of a race, with its outcome logged; a failure is logged and gives none. *)
Definition requestMessage (diff : jsstring) (files : list jsstring) : flow (option message) :=
  catch
    (message <- await (Race (generateCommitMessage diff files)) ;;
     match message with
     | Some m => log (js "info") (js "auto-commit: message generated: " ++ subject m)
     | None => log (js "warn") (js "auto-commit: prompt returned no usable text, using fallback")
     end ;;;
     Done message)
    (fun error =>
       log (js "warn") (js "auto-commit: LLM message generation failed, using fallback: " ++ error) ;;;
       Done None).

Definition reportCommit (files : list jsstring) (m : message) (r : Z * jsstring) : flow unit :=
  if negb (fst r =? 0)%Z
  then log (js "error") (js "auto-commit: git commit failed (exit " ++ z_to_js (fst r) ++ js "): "
                         ++ slice 0 500 (trim (snd r)))
  else log (js "info") (js "auto-commit: committed " ++ nat_to_js (length files) ++ js " file(s): " ++ subject m).

(** The body of the [try] statement. *)
Definition commitFlow : flow unit :=
  inside <- git RevParse ;;
  if negb (jseqb (trim (snd inside)) (js "true")) then log (js "warn") (js "skip: not inside a git work tree")
  else
    git AddU ;;;
    cached <- git DiffNames ;;
    let files := nonblank_lines (trim (snd cached)) in
    match files with
    | [] => log (js "info") (js "skip: no staged changes")
    | _ =>
        d <- git Diff ;;
        let diff := clipDiff (trim (snd d)) in
        st <- git ShortStat ;;
        let stat := trim (snd st) in
        message <- requestMessage diff files ;;
        let finalMessage := default_of (fallbackMessage (length files) stat) message in
        commitResult <- git (Commit (subject finalMessage) (commitBody finalMessage)) ;;
        reportCommit files finalMessage commitResult
    end.

Definition is_idle (e : event) : bool := match ev_type e with VStr s => jseqb s (js "session.idle") | _ => false end.

Definition handler (e : event) : flow unit :=
  if negb (is_idle e) then Done tt
  else
    log (js "info") (js "session.idle received") ;;;
    let sid := sessionIdOf e in
    HasInternal sid (fun internal =>
      if is_truthy sid && internal then DelInternal sid (Done tt)
      else GetBusy (fun running =>
        if running : bool then log (js "warn") (js "skip: previous commit flow still running")
        else
          SetBusy true
            (finally
               (catch commitFlow (fun error => log (js "error") (js "auto-commit: flow failed: " ++ error)))
               (SetBusy false (Done tt))))).

(** What the plugin does when it is loaded. *)
Definition AutoCommitPlugin (directory : jsstring) : flow (event -> flow unit) :=
  log (js "info") (js "auto-commit hook loaded (directory=" ++ directory ++ js ")") ;;; Done handler.

(** ** The machine *)

(** One task per event: its flow, or its flow waiting for a race; and a generator whose race is over. *)
Inductive task :=
| Flow (p : flow unit)
| Racing (g : prog gen_op (option message)) (k : result (option message) -> flow unit)
| Detached (g : prog gen_op (option message)).

(** A flow that starts a race starts its generator. *)
Definition park_op {X} (o : flow_op X) : (result X -> flow unit) -> shared -> task * shared :=
  match o with
  | Race g => fun k s => let '(g', s') := run g s in (Racing g' k, s')
  | o' => fun k s => (Flow (Await o' k), s)
  end.

(** Run a flow up to its next await. *)
Definition park (p : flow unit) (s : shared) : task * shared :=
  match run p s with
  | (Await o k, s') => park_op o k s'
  | (p', s') => (Flow p', s')
  end.

(** [trace]: the git commands that have been answered, in order. *)
Record machine := Machine { sh : shared; tasks : list task; trace : list gitcmd }.

Definition issued {X} (o : flow_op X) : list gitcmd := match o with Git c => [c] | _ => [] end.

(** An awaited call is answered, or a race is settled. *)
Inductive progress : machine -> machine -> Prop :=
| st_answer s l1 X (o : flow_op X) k l2 tr r t s' :
    park (k r) s = (t, s') ->
    progress (Machine s (l1 ++ Flow (Await o k) :: l2) tr) (Machine s' (l1 ++ t :: l2) (tr ++ issued o))
| st_generator s l1 X (o : gen_op X) k0 k l2 tr r g' s' :
    run (k0 r) s = (g', s') ->
    progress (Machine s (l1 ++ Racing (Await o k0) k :: l2) tr) (Machine s' (l1 ++ Racing g' k :: l2) tr)
| st_settle s l1 g k l2 tr r t s' :
    match g with Done m => r = Ok m | Throw e => r = Err e | _ => False end ->
    park (k r) s = (t, s') ->
    progress (Machine s (l1 ++ Racing g k :: l2) tr) (Machine s' (l1 ++ t :: l2) tr)
| st_timeout s l1 g k l2 tr t s' :
    park (k (Err timeout_error)) s = (t, s') ->
    progress (Machine s (l1 ++ Racing g k :: l2) tr) (Machine s' (l1 ++ t :: l2 ++ [Detached g]) tr)
| st_detached s l1 X (o : gen_op X) k0 l2 tr r g' s' :
    run (k0 r) s = (g', s') ->
    progress (Machine s (l1 ++ Detached (Await o k0) :: l2) tr) (Machine s' (l1 ++ Detached g' :: l2) tr).

Inductive step : machine -> machine -> Prop :=
| st_event e m t s' :
    park (handler e) (sh m) = (t, s') -> step m (Machine s' (tasks m ++ [t]) (trace m))
| st_progress m m' : progress m m' -> step m m'.

Definition start : machine := Machine (Shared false []) [] [].

Inductive reachable : machine -> Prop :=
| r_start : reachable start
| r_step m m' : reachable m -> step m m' -> reachable m'.

(** ** The abstract specification: one transaction after the other

    A transaction is a prefix of the six git commands in their order; it may stop after any of them. *)

Inductive abs := Idle | Active (n : nat).

Definition git_index (c : gitcmd) : nat :=
  match c with RevParse => 0 | AddU => 1 | DiffNames => 2 | Diff => 3 | ShortStat => 4 | Commit _ _ => 5 end.

Inductive abs_run : abs -> list gitcmd -> abs -> Prop :=
| a_refl a : abs_run a [] a
| a_begin tr a : abs_run a tr Idle -> abs_run a tr (Active 0)
| a_git tr a c n : abs_run a tr (Active n) -> git_index c = n -> abs_run a (tr ++ [c]) (Active (S n))
| a_end tr a n : abs_run a tr (Active n) -> abs_run a tr Idle.

Definition active (a : abs) : bool := match a with Idle => false | Active _ => true end.

(** ** What a program may do with the lock *)

(** What a program knows of the lock: nothing, that it has just read it as free, or that it holds it
    and has issued [n] commands. *)
Inductive view := Out | Unlocked | Hold (n : nat).

Definition await_view (v : view) : view := match v with Unlocked => Out | _ => v end.

(** A generator leaves the lock alone. *)
Fixpoint quiet {A} (p : prog gen_op A) : Prop :=
  match p with
  | Done _ | Throw _ => True
  | Await _ k => forall r, quiet (k r)
  | GetBusy _ | SetBusy _ _ => False
  | HasInternal _ k => forall b, quiet (k b)
  | AddInternal _ p | DelInternal _ p => quiet p
  end.

Definition op_ok {X} (o : flow_op X) (v : view) (rest : view -> Prop) : Prop :=
  match o with
  | Log _ _ => rest (await_view v)
  | Git c => match v with Hold n => git_index c = n /\ rest (Hold (S n)) | _ => False end
  | Race g => match v with Hold _ => quiet g /\ rest v | _ => False end
  end.

(** A flow takes the lock only when it is free, issues commands only under it and in order, catches
    every exception, and releases the lock before it ends; [Q] is what its value must satisfy. *)
Fixpoint flow_ok {A} (Q : view -> A -> Prop) (E : view -> Prop) (v : view) (p : flow A) : Prop :=
  match p with
  | Done a => Q v a
  | Throw _ => E v
  | Await o k => op_ok o v (fun v' => forall r, flow_ok Q E v' (k r))
  | GetBusy k => match v with Hold _ => False | _ => flow_ok Q E Out (k true) /\ flow_ok Q E Unlocked (k false) end
  | SetBusy true p' => v = Unlocked /\ flow_ok Q E (Hold 0) p'
  | SetBusy false p' => match v with Hold _ => flow_ok Q E Out p' | _ => False end
  | HasInternal _ k => forall b, flow_ok Q E v (k b)
  | AddInternal _ p' | DelInternal _ p' => flow_ok Q E v p'
  end.

Definition not_held (v : view) : Prop := match v with Hold _ => False | _ => True end.

(** A whole handler. *)
Definition ok (v : view) (p : flow unit) : Prop := flow_ok (fun v _ => not_held v) (fun _ => False) v p.

Lemma op_ok_impl {X} (o : flow_op X) v (P P' : view -> Prop) :
  (forall v, P v -> P' v) -> op_ok o v P -> op_ok o v P'.
Proof. destruct o; cbn; auto; destruct v; intuition auto. Qed.

Lemma flow_ok_both {A B} (p : flow A) (f : A -> flow B) h Q E Q' E' v :
  flow_ok Q E v p -> (forall v a, Q v a -> flow_ok Q' E' v (f a)) -> (forall v e, E v -> flow_ok Q' E' v (h e)) ->
  flow_ok Q' E' v (both p f h).
Proof.
  intros H Hf Hh. revert v H.
  induction p as [a|e|X o k IH|k IH|b p IH|w k IH|w p IH|w p IH]; intros v H; cbn [both flow_ok] in *; auto.
  - eapply op_ok_impl; [|exact H]. cbn. intros v' H' r. now apply IH.
  - destruct v; intuition auto.
  - destruct b; [intuition auto|]. destruct v; auto.
Qed.

Lemma flow_ok_seq {A B} (p : flow A) (f : A -> flow B) Q E Q' v :
  flow_ok Q E v p -> (forall v a, Q v a -> flow_ok Q' E v (f a)) -> flow_ok Q' E v (seq p f).
Proof. intros H Hf. eapply flow_ok_both; [exact H|exact Hf|auto]. Qed.

(** ** The handler respects the lock *)

Definition held (v : view) : Prop := match v with Hold _ => True | _ => False end.

Lemma quiet_both {A B} (p : prog gen_op A) (f : A -> prog gen_op B) h :
  quiet p -> (forall a, quiet (f a)) -> (forall e, quiet (h e)) -> quiet (both p f h).
Proof. intros H Hf Hh. induction p; cbn [both quiet] in *; auto. Qed.

Lemma generate_quiet diff files : quiet (generateCommitMessage diff files).
Proof.
  unfold generateCommitMessage, seq. apply quiet_both; [intros []; exact I| |intros; exact I]. intros created.
  destruct (negb _); [exact I|]. cbn [quiet]. unfold finally. apply quiet_both.
  - apply quiet_both; [intros []; exact I| |intros; exact I]. intros res. destruct (is_truthy (prop "error" res)).
    { unfold throw_error. destruct (to_string _); exact I. }
    destruct (is_truthy _); [unfold throw_error; destruct (structured_error _); exact I|]. destruct (extractMessage res); exact I.
  - intros a. cbn. auto.
  - intros e. cbn. auto.
Qed.

Lemma flow_ok_log Q E v l m : Q (await_view v) tt -> flow_ok Q E v (log l m).
Proof. cbn. auto. Qed.

Lemma flow_ok_git (Q : view -> Z * jsstring -> Prop) (E : view -> Prop) n c :
  git_index c = n -> (forall x, Q (Hold (S n)) x) -> E (Hold (S n)) -> flow_ok Q E (Hold n) (git c).
Proof. intros H HQ HE. cbn. split; [exact H|]. intros []; cbn; auto. Qed.

Lemma requestMessage_ok diff files E n : flow_ok (fun v _ => v = Hold n) E (Hold n) (requestMessage diff files).
Proof.
  unfold requestMessage, catch. eapply flow_ok_both with (Q := fun v _ => v = Hold n) (E := fun v => v = Hold n).
  - eapply flow_ok_seq with (Q := fun v _ => v = Hold n).
    + cbn. split; [apply generate_quiet|]. intros []; reflexivity.
    + intros v a ->. eapply flow_ok_seq with (Q := fun v _ => v = Hold n); [destruct a; now apply flow_ok_log|]. intros v b ->. reflexivity.
  - intros v a ->. reflexivity.
  - intros v e ->. eapply flow_ok_seq with (Q := fun v _ => v = Hold n); [now apply flow_ok_log|]. intros v b ->. reflexivity.
Qed.

(** One git command of the flow. *)
Lemma flow_ok_git_seq {B} (f : Z * jsstring -> flow B) Q E n c :
  git_index c = n -> E (Hold (S n)) -> (forall x, flow_ok Q E (Hold (S n)) (f x)) -> flow_ok Q E (Hold n) (seq (git c) f).
Proof.
  intros Hc HE Hf. eapply flow_ok_seq with (Q := fun v _ => v = Hold (S n)); [now apply flow_ok_git|]. intros v a ->. apply Hf.
Qed.

Lemma commitFlow_ok : flow_ok (fun v _ => held v) held (Hold 0) commitFlow.
Proof.
  unfold commitFlow. apply flow_ok_git_seq; [reflexivity|exact I|]. intros inside. destruct (negb _); [now apply flow_ok_log|].
  apply flow_ok_git_seq; [reflexivity|exact I|]. intros _. apply flow_ok_git_seq; [reflexivity|exact I|]. intros cached.
  cbv zeta. destruct (nonblank_lines _) as [|x fs]; [now apply flow_ok_log|].
  apply flow_ok_git_seq; [reflexivity|exact I|]. intros d. apply flow_ok_git_seq; [reflexivity|exact I|]. intros st.
  eapply flow_ok_seq; [apply requestMessage_ok|]. intros v m ->. apply flow_ok_git_seq; [reflexivity|exact I|]. intros r.
  unfold reportCommit. destruct (negb _); now apply flow_ok_log.
Qed.

Lemma locked_ok h :
  (forall n e, flow_ok (fun v _ => held v) (fun _ => False) (Hold n) (h e)) ->
  ok (Hold 0) (finally (catch commitFlow h) (SetBusy false (Done tt))).
Proof.
  intros Hh. unfold ok, finally. eapply flow_ok_both with (Q := fun v _ => held v) (E := fun _ => False).
  - unfold catch. eapply flow_ok_both; [apply commitFlow_ok|auto|]. intros [| |n] e []. apply Hh.
  - intros [| |n] a []. cbn. exact I.
  - intros v e [].
Qed.

Lemma handler_ok e : ok Out (handler e).
Proof.
  unfold handler, ok. destruct (negb _); [exact I|]. eapply flow_ok_seq with (Q := fun v _ => v = Out); [now apply flow_ok_log|].
  intros v a ->. cbn [flow_ok]. intros internal. destruct (_ && _); [exact I|]. cbn [flow_ok]. split; [now apply flow_ok_log|].
  cbn [flow_ok]. split; [reflexivity|]. apply locked_ok; intros; now apply flow_ok_log.
Qed.

(** ** Uninterrupted runs *)

(** The lock, what a task knows of it, and the abstract state agree. *)
Definition agree (v : view) (s : shared) (a : abs) : Prop :=
  busy s = active a /\ (v = Unlocked -> a = Idle) /\ (forall n, v = Hold n -> a = Active n).

(** From one view and abstract state to others: the abstract machine follows silently, and a task that
    does not hold the lock before and after changes nothing. *)
Definition moves (v : view) (a : abs) (v' : view) (a' : abs) : Prop :=
  (forall a0 tr, abs_run a0 tr a -> abs_run a0 tr a') /\ (not_held v -> not_held v' -> a' = a) /\
  (not_held v -> held v' -> a = Idle) /\ (held v -> not_held v' -> a' = Idle).

Lemma moves_refl v a : moves v a v a.
Proof. unfold moves. destruct v; cbn; intuition auto. Qed.

Lemma moves_trans v1 a1 v2 a2 v3 a3 : moves v1 a1 v2 a2 -> moves v2 a2 v3 a3 -> moves v1 a1 v3 a3.
Proof.
  intros (A1 & B1 & C1 & D1) (A2 & B2 & C2 & D2). unfold moves.
  destruct v1, v2, v3; cbn in *; repeat split; intros; auto; try tauto;
    repeat match goal with H : True -> _ |- _ => specialize (H I) end; subst; auto; congruence.
Qed.

(** A program that [run] returns waits or has ended. *)
Definition parked {O A} (p : prog O A) : Prop := match p with Done _ | Throw _ | Await _ _ => True | _ => False end.

Lemma run_parked {O A} (p : prog O A) s : parked (fst (run p s)).
Proof. revert s. induction p; intros s; cbn [run]; auto; exact I. Qed.

Lemma run_quiet {A} (p : prog gen_op A) s :
  quiet p -> quiet (fst (run p s)) /\ busy (snd (run p s)) = busy s.
Proof.
  revert s. induction p as [x|e|X o k IH|k IH|b p IHp|w k IH|v p IHp|v p IHp]; intros s H; cbn [run quiet] in *; auto; try tauto.
  - destruct (IHp (Shared (busy s) (if existsb (same_value v) (internalSessions s) then internalSessions s else internalSessions s ++ [v])) H); auto.
  - destruct (IHp (Shared (busy s) (filter (fun w => negb (same_value v w)) (internalSessions s))) H); auto.
Qed.

Lemma agree_busy v s s' a : busy s' = busy s -> agree v s a -> agree v s' a.
Proof. unfold agree. now intros ->. Qed.

Lemma run_ok p : forall v s a,
  ok v p -> agree v s a ->
  exists v' a', ok v' (fst (run p s)) /\ agree v' (snd (run p s)) a' /\ moves v a v' a'.
Proof.
  induction p as [x|e|X o k IH|k IH|b p IH|w k IH|w p IH|w p IH]; intros v s a H Ha; cbn [run];
    try (exists v, a; split; [exact H|split; [exact Ha|apply moves_refl]]).
  - (* GetBusy *)
    destruct Ha as (Hb & Hu & Hh). unfold ok in H. cbn [flow_ok] in H.
    assert (Hk : exists v1, ok v1 (k (busy s)) /\ agree v1 s a /\ not_held v /\ not_held v1).
    { destruct v; [| |contradiction]; destruct H as [Ht Hf]; destruct (busy s) eqn:Es.
      - exists Out. repeat split; auto; congruence.
      - exists Unlocked. repeat split; auto; try congruence. intros _. now destruct a.
      - exists Out. repeat split; auto; congruence.
      - exists Unlocked. repeat split; auto; congruence. }
    destruct Hk as (v1 & Hk & Ha1 & N & N1). destruct (IH _ _ _ _ Hk Ha1) as (v' & a' & H1 & H2 & H3).
    exists v', a'. split; [exact H1|]. split; [exact H2|]. eapply moves_trans; [|exact H3].
    unfold moves. destruct v, v1; cbn in *; intuition auto; contradiction.
  - (* SetBusy *)
    destruct Ha as (Hb & Hu & Hh). unfold ok in H. cbn [flow_ok] in H. destruct b.
    + destruct H as [-> H]. assert (a = Idle) as -> by auto.
      destruct (IH (Hold 0) (Shared true (internalSessions s)) (Active 0) H) as (v' & a' & H1 & H2 & H3).
      { repeat split; try discriminate. intros n E. now inv E. }
      exists v', a'. split; [exact H1|]. split; [exact H2|]. eapply moves_trans; [|exact H3].
      repeat split; cbn; try tauto. intros a0 tr Hr. now apply a_begin.
    + destruct v as [| |n]; try contradiction. assert (a = Active n) as -> by auto.
      destruct (IH Out (Shared false (internalSessions s)) Idle H) as (v' & a' & H1 & H2 & H3).
      { repeat split; discriminate. }
      exists v', a'. split; [exact H1|]. split; [exact H2|]. eapply moves_trans; [|exact H3].
      repeat split; cbn; try tauto. intros a0 tr Hr. now apply a_end with n.
  - apply IH; [exact (H _)|exact Ha].
  - apply IH; [exact H|eapply agree_busy; [|exact Ha]; reflexivity].
  - apply IH; [exact H|eapply agree_busy; [|exact Ha]; reflexivity].
Qed.

(** What a task may do, given what it knows of the lock. *)
Definition task_ok (v : view) (t : task) : Prop :=
  match t with
  | Flow p => ok v p
  | Racing g k => held v /\ quiet g /\ forall r, ok v (k r)
  | Detached g => v = Out /\ quiet g
  end.

Lemma park_ok p v s a :
  ok v p -> agree v s a ->
  exists v' a', v' <> Unlocked /\ task_ok v' (fst (park p s)) /\ agree v' (snd (park p s)) a' /\ moves v a v' a'.
Proof.
  intros H Ha. destruct (run_ok p v s a H Ha) as (v1 & a1 & H1 & H2 & H3). unfold park.
  pose proof (run_parked p s) as Hp. destruct (run p s) as [p' s']. cbn [fst snd] in *.
  (* nothing is known of the lock after an await *)
  assert (Hw : forall t s1, task_ok (await_view v1) t -> agree v1 s1 a1 ->
            exists v' a', v' <> Unlocked /\ task_ok v' t /\ agree v' s1 a' /\ moves v a v' a').
  { intros t s1 Ht Hs. exists (await_view v1), a1. split; [destruct v1; discriminate|]. split; [exact Ht|]. split.
    - destruct Hs as (A & B & C). destruct v1; cbn; repeat split; auto; discriminate.
    - eapply moves_trans; [exact H3|]. unfold moves. destruct v1; cbn; intuition auto. }
  destruct p' as [x|e|X o k| | | | |]; try contradiction.
  - apply Hw; [|exact H2]. unfold ok in H1. cbn in H1. destruct v1; cbn; auto.
  - unfold ok in H1. cbn [flow_ok] in H1. destruct o as [l m|c|g]; cbn [park_op op_ok fst snd] in *.
    + apply Hw; [|exact H2]. unfold task_ok, ok. cbn. destruct v1; exact H1.
    + destruct v1 as [| |n]; try contradiction. apply Hw; [|exact H2]. exact H1.
    + destruct v1 as [| |n]; try contradiction. destruct H1 as [Hq Hk]. destruct (run_quiet g s' Hq) as [Q1 Q2].
      destruct (run g s') as [g' s'']. cbn [fst snd] in *. apply Hw; [|now apply (agree_busy _ s')].
      split; [exact I|]. split; [exact Q1|exact Hk].
Qed.

(** ** Simulation *)

Definition view_at (own : option nat) (a : abs) (i : nat) : view :=
  match own, a with Some j, Active n => if i =? j then Hold n else Out | _, _ => Out end.

(** At most one task, the owner, holds the lock. *)
Definition owned (own : option nat) (l : list task) (a : abs) : Prop :=
  match own with None => a = Idle | Some j => j < length l /\ exists n, a = Active n end.

Definition simulates (m : machine) (a : abs) : Prop :=
  exists own, (forall i t, nth_error (tasks m) i = Some t -> task_ok (view_at own a i) t) /\
              busy (sh m) = active a /\ owned own (tasks m) a.

Definition local_move (v : view) (a : abs) (v' : view) (a' : abs) : Prop :=
  (not_held v -> not_held v' -> a' = a) /\ (not_held v -> held v' -> a = Idle) /\ (held v -> not_held v' -> a' = Idle).

Lemma moves_local v a v' a' : moves v a v' a' -> local_move v a v' a'.
Proof. intros (_ & H). exact H. Qed.

(** One task at index [i] becomes [t']; tasks that know nothing of the lock may be added at the end. *)
Definition updates (l l' : list task) (i : nat) (t' : task) : Prop :=
  i < length l' /\ length l <= length l' /\
  forall j t, nth_error l' j = Some t ->
    (j = i /\ t = t') \/ (j <> i /\ (nth_error l j = Some t \/ (length l <= j /\ task_ok Out t))).

Lemma simulates_update l own a i v v' a' s' l' tr' t' :
  (forall i t, nth_error l i = Some t -> task_ok (view_at own a i) t) -> owned own l a ->
  view_at own a i = v -> local_move v a v' a' -> v' <> Unlocked -> task_ok v' t' -> agree v' s' a' ->
  updates l l' i t' -> simulates (Machine s' l' tr') a'.
Proof.
  intros Ht Ho Hv (M1 & M2 & M3) Hu Hk (Ab & _ & Ah) (U1 & U2 & U3). unfold simulates. cbn [tasks sh].
  (* the view of the other tasks *)
  assert (Hother : forall own', owned own' l' a' ->
            (forall j, j <> i -> j < length l -> view_at own' a' j = view_at own a j) ->
            (forall j, j <> i -> length l <= j -> view_at own' a' j = Out) -> view_at own' a' i = v' ->
            exists own, (forall i t, nth_error l' i = Some t -> task_ok (view_at own a' i) t) /\ busy s' = active a' /\ owned own l' a').
  { intros own' Hw H1 H2 H3. exists own'. split; [|split; [exact Ab|exact Hw]]. intros j t Hj.
    destruct (U3 j t Hj) as [[-> ->]|[Hne [Hj'|[Hl Hout]]]]; [now rewrite H3| |now rewrite H2].
    rewrite H1; [now apply Ht|exact Hne|]. apply nth_error_Some. congruence. }
  assert (Hout : forall o b j, o <> Some j -> view_at o b j = Out).
  { intros [k|] [|m] j Hne; try reflexivity. cbn. destruct (Nat.eqb_spec j k) as [->|]; [congruence|reflexivity]. }
  assert (Hown : forall n, v = Hold n -> own = Some i).
  { intros n E. destruct own as [j|]; [|cbn in Hv; congruence]. destruct (Nat.eq_dec i j) as [->|Hne]; [reflexivity|].
    rewrite Hout in Hv; congruence. }
  assert (Hlast : forall j, length l <= j -> own <> Some j).
  { intros j Hj E. rewrite E in Ho. cbn in Ho. lia. }
  destruct v' as [| |n']; [|congruence|].
  - destruct v as [| |n]; [|unfold view_at in Hv; destruct own, a; try destruct (i =? n); discriminate|].
    + assert (a' = a) as -> by (apply M1; exact I). apply (Hother own); auto.
      destruct own as [j|]; cbn in *; [|exact Ho]. split; [lia|apply Ho].
    + assert (a' = Idle) as -> by (apply M3; exact I). specialize (Hown n eq_refl). apply (Hother None); auto; try reflexivity.
      intros j Hne _. symmetry. apply Hout. congruence.
  - specialize (Ah n' eq_refl). subst a'. assert (Hin : view_at (Some i) (Active n') i = Hold n') by (cbn; now rewrite Nat.eqb_refl).
    apply (Hother (Some i)); auto; [split; [exact U1|now exists n']| |intros j Hne _; apply Hout; congruence].
    intros j Hne _. rewrite Hout by congruence. destruct v as [| |n].
    + rewrite M2 by exact I. now destruct own.
    + rewrite M2 by exact I. now destruct own.
    + specialize (Hown n eq_refl). symmetry. apply Hout. congruence.
Qed.

Lemma updates_replace l1 T l2 t' extra :
  Forall (task_ok Out) extra -> updates (l1 ++ T :: l2) (l1 ++ t' :: l2 ++ extra) (length l1) t'.
Proof.
  intros He. repeat split; try (rewrite ?length_app; cbn; rewrite ?length_app; lia). intros j t Hj.
  destruct (Nat.lt_trichotomy j (length l1)) as [Hl|[->|Hg]].
  - right. split; [lia|]. left. rewrite nth_error_app1 in * by exact Hl. exact Hj.
  - left. rewrite nth_error_app2, Nat.sub_diag in Hj by lia. cbn in Hj. inv Hj. auto.
  - right. split; [lia|]. rewrite nth_error_app2 in * by lia. destruct (j - length l1) as [|d] eqn:Ed; [lia|]. cbn [nth_error] in *.
    destruct (Nat.lt_ge_cases d (length l2)) as [Hd|Hd].
    + left. now rewrite nth_error_app1 in Hj by exact Hd.
    + right. split; [rewrite length_app; cbn; lia|]. rewrite nth_error_app2 in Hj by exact Hd.
      apply nth_error_In in Hj. now apply (proj1 (Forall_forall _ _) He).
Qed.

Lemma updates_append l t' : updates l (l ++ [t']) (length l) t'.
Proof.
  repeat split; try (rewrite ?length_app; cbn; lia). intros j t Hj. destruct (Nat.eq_dec j (length l)) as [->|Hne].
  - left. rewrite nth_error_app2, Nat.sub_diag in Hj by lia. inv Hj. auto.
  - right. split; [exact Hne|]. left. assert (j < length (l ++ [t'])) by (apply nth_error_Some; congruence).
    rewrite length_app in *. cbn in *. rewrite nth_error_app1 in Hj by lia. exact Hj.
Qed.

(** The view of a task agrees with the state of the machine. *)
Lemma agree_at s own a i :
  busy s = active a -> agree (view_at own a i) s a.
Proof.
  intros Hb. unfold agree. split; [exact Hb|]. unfold view_at. destruct own as [j|], a as [|n]; try (split; [|intros m]; discriminate).
  destruct (i =? j); split; intros; congruence.
Qed.

Section Step.
Context (s : shared) (own : option nat) (a : abs) (Hb : busy s = active a).

(** A task is replaced, and tasks that know nothing of the lock may be added. *)
Lemma simulates_replace l1 T l2 t' extra v' a' s' tr' :
  (forall i t, nth_error (l1 ++ T :: l2) i = Some t -> task_ok (view_at own a i) t) -> owned own (l1 ++ T :: l2) a ->
  local_move (view_at own a (length l1)) a v' a' -> v' <> Unlocked -> task_ok v' t' -> agree v' s' a' ->
  Forall (task_ok Out) extra -> simulates (Machine s' (l1 ++ t' :: l2 ++ extra) tr') a'.
Proof.
  intros Ht Ho Hm Hu Hk Ha He. eapply (simulates_update (l1 ++ T :: l2) own a (length l1)); eauto. now apply updates_replace.
Qed.

Lemma simulates_replace1 l1 T l2 t' v' a' s' tr' :
  (forall i t, nth_error (l1 ++ T :: l2) i = Some t -> task_ok (view_at own a i) t) -> owned own (l1 ++ T :: l2) a ->
  local_move (view_at own a (length l1)) a v' a' -> v' <> Unlocked -> task_ok v' t' -> agree v' s' a' ->
  simulates (Machine s' (l1 ++ t' :: l2) tr') a'.
Proof. intros. rewrite <- (app_nil_r l2). eapply simulates_replace; eauto. Qed.

Lemma simulates_event l e tr :
  (forall i t, nth_error l i = Some t -> task_ok (view_at own a i) t) -> owned own l a ->
  exists a', simulates (Machine (snd (park (handler e) s)) (l ++ [fst (park (handler e) s)]) tr) a' /\
             (forall a0 tr0, abs_run a0 tr0 a -> abs_run a0 tr0 a').
Proof using Hb.
  intros Ht Ho. destruct (park_ok _ Out s a (handler_ok e)) as (v' & a' & Hu & Hk & Ha & Hm).
  { repeat split; try discriminate. exact Hb. }
  exists a'. split; [|now apply Hm]. assert (Hv : view_at own a (length l) = Out).
  { destruct own as [j|]; [|reflexivity]. destruct Ho as [Hj _]. unfold view_at. destruct a; [reflexivity|].
    now rewrite (proj2 (Nat.eqb_neq (length l) j)) by lia. }
  eapply (simulates_update l own a (length l) Out v'); eauto using updates_append, moves_local.
Qed.

(** The abstract machine follows the answer to a call of a flow. *)
Lemma answer_view X (o : flow_op X) k r tr v :
  v <> Unlocked -> agree v s a -> ok v (Await o k) -> abs_run Idle tr a ->
  exists v1 a1, ok v1 (k r) /\ agree v1 s a1 /\ abs_run Idle (tr ++ issued o) a1 /\
                (held v <-> held v1) /\ (not_held v -> a1 = a) /\ (not_held v <-> not_held v1).
Proof.
  intros Hu Hag HT Hr. unfold ok in HT. cbn [flow_ok] in HT. destruct o as [l m|c|g]; cbn [op_ok issued] in *; rewrite ?app_nil_r.
  - exists v, a. assert (await_view v = v) as Ev by (now destruct v). rewrite Ev in HT. split; [apply HT|]. tauto.
  - destruct v as [| |n] eqn:Ev; try contradiction. destruct HT as [Hc HT]. destruct Hag as (A & _ & C). specialize (C n eq_refl).
    rewrite C in *. exists (Hold (S n)), (Active (S n)). split; [apply HT|].
    split; [repeat split; try discriminate; [exact A|intros m E; now inv E]|]. split; [now apply a_git|]. cbn. tauto.
  - exists v, a. destruct v; try contradiction. split; [apply HT|]. tauto.
Qed.

Lemma view_at_known i : view_at own a i <> Unlocked.
Proof. unfold view_at. destruct own, a; try discriminate. now destruct (i =? _). Qed.

Lemma simulates_answer l1 X (o : flow_op X) k l2 r tr :
  (forall i t, nth_error (l1 ++ Flow (Await o k) :: l2) i = Some t -> task_ok (view_at own a i) t) ->
  owned own (l1 ++ Flow (Await o k) :: l2) a -> abs_run Idle tr a ->
  exists a', simulates (Machine (snd (park (k r) s)) (l1 ++ fst (park (k r) s) :: l2) (tr ++ issued o)) a' /\
             abs_run Idle (tr ++ issued o) a'.
Proof using Hb.
  intros Ht Ho Hr. assert (HT := Ht _ _ (nth_error_mid l1 _ l2)). cbn [task_ok] in HT.
  destruct (answer_view X o k r tr _ (view_at_known _) (agree_at s own a (length l1) Hb) HT Hr) as (v1 & a1 & Hok & Hag1 & Hr1 & Hh & Ha1 & Hn).
  destruct (park_ok _ v1 s a1 Hok Hag1) as (v' & a' & Hu & Hk & Ha & Hm). exists a'. split; [|now apply Hm].
  destruct Hm as (_ & M1 & M2 & M3). eapply simulates_replace1; eauto. repeat split; intros.
  - rewrite M1; tauto.
  - rewrite <- Ha1 by assumption. tauto.
  - tauto.
Qed.

(** A race is over: its flow goes on, and its generator may go on beside it. *)
Lemma simulates_settle l1 g k l2 r tr extra :
  (forall i t, nth_error (l1 ++ Racing g k :: l2) i = Some t -> task_ok (view_at own a i) t) ->
  owned own (l1 ++ Racing g k :: l2) a -> (quiet g -> Forall (task_ok Out) extra) ->
  exists a', simulates (Machine (snd (park (k r) s)) (l1 ++ fst (park (k r) s) :: l2 ++ extra) tr) a' /\
             (forall a0 tr0, abs_run a0 tr0 a -> abs_run a0 tr0 a').
Proof using Hb.
  intros Ht Ho He. assert (HT := Ht _ _ (nth_error_mid l1 _ l2)). cbn [task_ok] in HT. destruct HT as (Hh & Hq & Hk).
  destruct (park_ok _ _ s a (Hk r) (agree_at s own a (length l1) Hb)) as (v' & a' & Hu & Hk' & Ha & Hm).
  exists a'. split; [|now apply Hm]. eapply simulates_replace; eauto using moves_local.
Qed.

(** A generator goes on; only the set of sessions changes. *)
Lemma simulates_generator l1 T l2 T' s' tr :
  (forall i t, nth_error (l1 ++ T :: l2) i = Some t -> task_ok (view_at own a i) t) -> owned own (l1 ++ T :: l2) a ->
  (forall v, task_ok v T -> task_ok v T') -> busy s' = busy s -> simulates (Machine s' (l1 ++ T' :: l2) tr) a.
Proof using Hb.
  intros Ht Ho HT Hs. eapply simulates_replace1; eauto using view_at_known.
  - apply moves_local, moves_refl.
  - apply HT, (Ht _ _ (nth_error_mid l1 _ l2)).
  - apply (agree_busy _ s); [exact Hs|]. now apply agree_at.
Qed.
End Step.

Lemma simulation_step m a m' :
  simulates m a -> abs_run Idle (trace m) a -> step m m' -> exists a', simulates m' a' /\ abs_run Idle (trace m') a'.
Proof.
  intros (own & Ht & Hb & Ho) Hr Hs.
  destruct Hs as [e m t s' Ep|m m' Hp].
  { destruct (simulates_event (sh m) own a Hb (tasks m) e (trace m) Ht Ho) as (a' & H1 & H2). rewrite Ep in H1. eauto. }
  destruct Hp as [s l1 X o k l2 tr r t s' Ep|s l1 X o k0 k l2 tr r g' s' Ep|s l1 g k l2 tr r t s' Eg Ep
                 |s l1 g k l2 tr t s' Ep|s l1 X o k0 l2 tr r g' s' Ep]; cbn [tasks sh trace] in *.
  - destruct (simulates_answer s own a Hb l1 X o k l2 r tr Ht Ho Hr) as (a' & H1 & H2). rewrite Ep in H1. eauto.
  - exists a. split; [|exact Hr]. eapply simulates_generator; eauto.
    + intros v (Hh & Hq & Hk). pose proof (run_quiet (k0 r) s (Hq r)) as [Q _]. rewrite Ep in Q. now repeat split.
    + assert (HT := Ht _ _ (nth_error_mid l1 _ l2)). destruct HT as (_ & Hq & _). pose proof (run_quiet (k0 r) s (Hq r)) as [_ Q]. now rewrite Ep in Q.
  - destruct (simulates_settle s own a Hb l1 g k l2 r tr [] Ht Ho ltac:(constructor)) as (a' & H1 & H2). rewrite Ep, app_nil_r in H1. eauto.
  - destruct (simulates_settle s own a Hb l1 g k l2 (Err timeout_error) tr [Detached g] Ht Ho) as (a' & H1 & H2).
    + intros Hq. repeat constructor. exact Hq.
    + rewrite Ep in H1. eauto.
  - exists a. split; [|exact Hr]. eapply simulates_generator; eauto.
    + intros v (Hv & Hq). pose proof (run_quiet (k0 r) s (Hq r)) as [Q _]. rewrite Ep in Q. now split.
    + assert (HT := Ht _ _ (nth_error_mid l1 _ l2)). destruct HT as (_ & Hq). pose proof (run_quiet (k0 r) s (Hq r)) as [_ Q]. now rewrite Ep in Q.
Qed.

Lemma reachable_simulates m : reachable m -> exists a, simulates m a /\ abs_run Idle (trace m) a.
Proof.
  induction 1 as [|m m' _ (a & Hs & Hr) Hst]; [|eapply simulation_step; eauto].
  exists Idle. split; [|constructor]. exists None. repeat split. intros [|i] t H; discriminate.
Qed.

(** ** Transactions *)

Definition transaction (l : list gitcmd) : Prop := map git_index l = List.seq 0 (length l).

Lemma abs_run_transactions a tr a' :
  abs_run a tr a' -> a = Idle ->
  exists txns cur, tr = concat txns ++ cur /\ Forall transaction txns /\ transaction cur /\
    match a' with Idle => cur = [] | Active n => length cur = n end.
Proof.
  induction 1 as [a|tr a H IH|tr a c n H IH Hc|tr a n H IH]; intros ->.
  - exists [], []. repeat constructor.
  - destruct (IH eq_refl) as (txns & cur & -> & Ht & Hc & ->). exists txns, []. rewrite app_nil_r. repeat split; auto.
  - destruct (IH eq_refl) as (txns & cur & -> & Ht & Hcur & Hl). exists txns, (cur ++ [c]). rewrite app_assoc. repeat split; auto.
    + unfold transaction in *. rewrite map_app, Hcur, length_app. cbn [map length].
      now rewrite Nat.add_1_r, seq_S, Hl, Hc.
    + rewrite length_app. cbn. lia.
  - destruct (IH eq_refl) as (txns & cur & -> & Ht & Hcur & Hl). exists (txns ++ [cur]), []. rewrite concat_app. cbn. rewrite !app_nil_r.
    repeat split; auto. apply Forall_app. split; [exact Ht|]. now constructor.
Qed.


(** ** Release of the lock *)

(** A task that waits for nothing more. *)
Definition ended (t : task) : Prop :=
  match t with
  | Flow p => match p with Await _ _ => False | _ => True end
  | Racing _ _ => False
  | Detached g => match g with Await _ _ => False | _ => True end
  end.

Lemma park_parked p s p' : fst (park p s) = Flow p' -> parked p'.
Proof.
  unfold park. pose proof (run_parked p s) as H. destruct (run p s) as [q s']. cbn [fst] in H.
  destruct q as [a|e|X o k| | | | |]; try contradiction; cbn; intros E; try (injection E as <-; exact I).
  destruct o; cbn in E; try (injection E as <-; exact I). destruct (run g s'). discriminate.
Qed.

Definition all_parked (m : machine) : Prop := forall p, In (Flow p) (tasks m) -> parked p.

Lemma step_parked m m' : all_parked m -> step m m' -> all_parked m'.
Proof.
  intros H Hs. destruct Hs as [e m t s' Ep|m m' Hp].
  - intros p Hin. apply in_app_or in Hin as [Hin|[->|[]]]; [now apply H|]. apply (park_parked (handler e) (sh m)). now rewrite Ep.
  - destruct Hp; intros p Hin; cbn [tasks] in *; apply in_app_or in Hin as [Hin|Hin];
      try (apply H; apply in_or_app; now left);
      try (destruct Hin as [E|Hin]; [try discriminate E|]);
      try (apply in_app_or in Hin as [Hin|[E|[]]]; [|discriminate E]);
      try (apply H; apply in_or_app; right; now right);
      match goal with Ep : park ?q ?s0 = _ |- _ => apply (park_parked q s0); now rewrite Ep, E end.
Qed.

Lemma reachable_parked m : reachable m -> all_parked m.
Proof. induction 1 as [|m m' _ IH Hs]; [intros p []|]. eapply step_parked; eauto. Qed.

Lemma released m : reachable m -> Forall ended (tasks m) -> busy (sh m) = false.
Proof.
  intros H He. pose proof (reachable_parked m H) as Hp. destruct (reachable_simulates m H) as (a & (own & Ht & Hb & Ho) & _).
  rewrite Hb. destruct own as [j|]; [|now rewrite Ho]. destruct Ho as [Hj [n ->]]. exfalso.
  destruct (nth_error (tasks m) j) as [t|] eqn:E; [|now apply nth_error_None in E; lia].
  assert (HT := Ht j t E). cbn in HT. rewrite Nat.eqb_refl in HT. apply nth_error_In in E.
  assert (He' := proj1 (Forall_forall _ _) He t E). destruct t as [p|g k|g]; [|contradiction|now destruct HT].
  specialize (Hp p E). destruct p; try contradiction; cbn in HT, He'; contradiction.
Qed.

(** C4: The lock is always released: in a reachable state where nothing is awaited any more, [busy] is
    false; and no handler ever ends with an exception, whatever failed along the way. *)
Theorem auto_commit_releases m :
  reachable m ->
  (forall e, ~ In (Flow (Throw e)) (tasks m)) /\ (Forall ended (tasks m) -> busy (sh m) = false).
Proof.
  intros H. split; [|now apply released]. intros e Hin. destruct (reachable_simulates m H) as (a & (own & Ht & _) & _).
  apply In_nth_error in Hin as [i Hi]. exact (Ht i _ Hi).
Qed.

(** ** Witnesses *)

(** One event received and its first log answered: the flow holds the lock and awaits its first command. *)
Definition sample_event : event := {| ev_type := VStr (js "session.idle"); ev_properties := VObj [(js "sessionID", VStr (js "s"))] |}.

Definition sample_start : task := fst (park (handler sample_event) (sh start)).

Definition sample_next (t : task) (s : shared) : machine :=
  match t with
  | Flow (Await o k) => let '(t', s') := park (k (Err [])) s in Machine s' [t'] (issued o)
  | _ => start
  end.

Lemma sample_reachable : reachable (sample_next sample_start (sh start)).
Proof.
  assert (H : reachable (Machine (sh start) [sample_start] [])).
  { apply (r_step start); [constructor|]. exact (st_event sample_event start _ _ eq_refl). }
  destruct sample_start as [[a|e|X o k| | | | |]|g k|g]; try constructor. cbn [sample_next].
  destruct (park (k (Err [])) (sh start)) as [t' s'] eqn:E.
  apply r_step with (1 := H), st_progress. exact (st_answer _ [] X o k [] [] (Err []) t' s' E).
Qed.


Lemma auto_commit_releases_witness :
  (forall e, ~ In (Flow (Throw e)) (tasks (sample_next sample_start (sh start)))) /\
  (Forall ended (tasks start) -> busy (sh start) = false).
Proof.
  split; [exact (proj1 (auto_commit_releases (sample_next sample_start (sh start)) sample_reachable))|].
  exact (proj2 (auto_commit_releases start r_start)).
Defined.
