(* ===== verification/CommitRuns.v ===== *)
(** * How long a commit flow lasts and what it does

    Two results on the handler of [AutoCommit.v].  The number of answers the plugin waits for is bounded
    by the number of events it receives, and a machine that still waits for something can go on, so
    that every flow ends and releases the lock.  And an executable driver, which answers every call
    from a given table, shows which git commands a flow issues on each of its branches. *)

From Stdlib Require Import String List Arith NArith ZArith Lia Bool.
From S2P Require Import Prelude JsString Regex JsNum NumText Json JsValue Dom CommitMessage AutoCommit.
Import ListNotations.
Local Open Scope list_scope.

(** ** The cost of a program *)

(** A generator awaits at most [n] calls. *)
Fixpoint gen_cost {A} (n : nat) (p : prog gen_op A) : Prop :=
  match p with
  | Done _ | Throw _ => True
  | Await _ k => match n with 0 => False | S n' => forall r, gen_cost n' (k r) end
  | GetBusy k | HasInternal _ k => forall b, gen_cost n (k b)
  | SetBusy _ p | AddInternal _ p | DelInternal _ p => gen_cost n p
  end.

(** A race costs its generator and its settlement. *)
Definition op_cost {X} (o : flow_op X) (n : nat) (rest : nat -> Prop) : Prop :=
  match o with
  | Race g => exists a b, n = S (a + b) /\ gen_cost a g /\ rest b
  | _ => match n with 0 => False | S n' => rest n' end
  end.

(** From [n] answers left, a flow ends in [Q] or throws in [E] with some of them left. *)
Fixpoint flow_cost {A} (Q : nat -> A -> Prop) (E : nat -> Prop) (n : nat) (p : flow A) : Prop :=
  match p with
  | Done a => Q n a
  | Throw _ => E n
  | Await o k => op_cost o n (fun n' => forall r, flow_cost Q E n' (k r))
  | GetBusy k | HasInternal _ k => forall b, flow_cost Q E n (k b)
  | SetBusy _ p | AddInternal _ p | DelInternal _ p => flow_cost Q E n p
  end.

Definition cost (n : nat) (p : flow unit) : Prop := flow_cost (fun _ _ => True) (fun _ => True) n p.

Lemma op_cost_impl {X} (o : flow_op X) n (P P' : nat -> Prop) : (forall n, P n -> P' n) -> op_cost o n P -> op_cost o n P'.
Proof. intros H. destruct o; cbn; [destruct n; auto|destruct n; auto|]. intros (a & b & ? & ? & ?). exists a, b. auto. Qed.

Lemma flow_cost_both {A B} (p : flow A) (f : A -> flow B) h Q E Q' E' n :
  flow_cost Q E n p -> (forall n a, Q n a -> flow_cost Q' E' n (f a)) -> (forall n e, E n -> flow_cost Q' E' n (h e)) ->
  flow_cost Q' E' n (both p f h).
Proof.
  intros H Hf Hh. revert n H.
  induction p as [a|e|X o k IH|k IH|b p IH|w k IH|w p IH|w p IH]; intros n H; cbn [both flow_cost] in *; auto.
  eapply op_cost_impl; [|exact H]. cbn. auto.
Qed.

Lemma flow_cost_seq {A B} (p : flow A) (f : A -> flow B) Q E Q' n :
  flow_cost Q E n p -> (forall n a, Q n a -> flow_cost Q' E n (f a)) -> flow_cost Q' E n (seq p f).
Proof. intros H Hf. eapply flow_cost_both; [exact H|exact Hf|auto]. Qed.

Lemma gen_cost_mono {A} (q : prog gen_op A) : forall x y, x <= y -> gen_cost x q -> gen_cost y q.
Proof.
  induction q as [a|e|X o k IH|k IH|c p IH|w k IH|w p IH|w p IH]; intros x y L G; cbn [gen_cost] in *; eauto.
  destruct x as [|x], y as [|y]; try lia; try tauto. intros r. eapply IH; [|apply G]. lia.
Qed.

Lemma gen_cost_both {A B} (p : prog gen_op A) (f : A -> prog gen_op B) h a b :
  gen_cost a p -> (forall x, gen_cost b (f x)) -> (forall e, gen_cost b (h e)) -> gen_cost (a + b) (both p f h).
Proof.
  intros H Hf Hh. revert a H.
  induction p as [x|e|X o k IH|k IH|c p IH|w k IH|w p IH|w p IH]; intros a H; cbn [both gen_cost] in *; auto.
  - eapply gen_cost_mono; [|apply Hf]. lia.
  - eapply gen_cost_mono; [|apply Hh]. lia.
  - destruct a; [contradiction|]. cbn. auto.
Qed.

(** ** The cost of the handler *)

(** Create, prompt, delete. *)
Lemma generate_cost diff files : gen_cost 3 (generateCommitMessage diff files).
Proof.
  unfold generateCommitMessage, seq. apply (gen_cost_both _ _ _ 1 2); [intros []; exact I| |intros; exact I]. intros created.
  destruct (negb _); [exact I|]. cbn [gen_cost]. unfold finally. apply (gen_cost_both _ _ _ 1 1).
  - apply (gen_cost_both _ _ _ 1 0); [intros []; exact I| |intros; exact I]. intros res. destruct (is_truthy (prop "error" res)).
    { unfold throw_error. destruct (to_string _); exact I. }
    destruct (is_truthy (prop "error" (prop "info" _))); [unfold throw_error; destruct (structured_error _); exact I|]. destruct (extractMessage res); exact I.
  - intros a. cbn. auto.
  - intros e. cbn. auto.
Qed.

Lemma flow_cost_log Q E n l m : Q n tt -> flow_cost Q E (S n) (log l m).
Proof. cbn. auto. Qed.

Lemma flow_cost_git_seq {B} (f : Z * jsstring -> flow B) Q (E : nat -> Prop) n c :
  E n -> (forall x, flow_cost Q E n (f x)) -> flow_cost Q E (S n) (seq (git c) f).
Proof. intros HE Hf. cbn. intros []; cbn; auto. Qed.

Lemma requestMessage_cost diff files E n : flow_cost (fun n' _ => n' = n) E (n + 5) (requestMessage diff files).
Proof.
  unfold requestMessage, catch. eapply flow_cost_both with (Q := fun n' _ => n' = n) (E := fun n' => n' = S n).
  - eapply flow_cost_seq with (Q := fun n' _ => n' = S n).
    + cbn. exists 3, (S n). split; [lia|]. split; [apply generate_cost|]. intros []; reflexivity.
    + intros v a ->. eapply flow_cost_seq with (Q := fun n' _ => n' = n); [destruct a; now apply flow_cost_log|]. now intros v b ->.
  - now intros v a ->.
  - intros v e ->. eapply flow_cost_seq with (Q := fun n' _ => n' = n); [now apply flow_cost_log|]. now intros v b ->.
Qed.

Lemma commitFlow_cost : flow_cost (fun _ _ => True) (fun n => 1 <= n) 12 commitFlow.
Proof.
  unfold commitFlow. apply flow_cost_git_seq; [lia|]. intros inside. destruct (negb _); [now apply flow_cost_log|].
  apply flow_cost_git_seq; [lia|]. intros _. apply flow_cost_git_seq; [lia|]. intros cached.
  cbv zeta. destruct (nonblank_lines _) as [|x fs]; [now apply flow_cost_log|].
  apply flow_cost_git_seq; [lia|]. intros d. apply flow_cost_git_seq; [lia|]. intros st.
  eapply flow_cost_seq; [apply (requestMessage_cost _ _ _ 2)|]. intros n m ->. apply flow_cost_git_seq; [lia|]. intros r.
  unfold reportCommit. destruct (negb _); now apply flow_cost_log.
Qed.

Definition HANDLER_COST : nat := 13.

Lemma handler_cost e : cost HANDLER_COST (handler e).
Proof.
  unfold handler, cost. destruct (negb _); [exact I|].
  eapply flow_cost_seq with (Q := fun n _ => n = 12); [now apply flow_cost_log|].
  intros n a ->. cbn [flow_cost]. intros internal. destruct (_ && _); [exact I|]. cbn [flow_cost]. intros [|]; [now apply flow_cost_log|].
  cbn [flow_cost]. unfold finally. eapply flow_cost_both with (Q := fun _ _ => True) (E := fun _ => True); [|cbn; auto|cbn; auto].
  unfold catch. eapply flow_cost_both; [apply commitFlow_cost|auto|]. intros [|m] err Hm; [lia|]. now apply flow_cost_log.
Qed.

(** ** The cost of a machine *)

Definition task_cost (n : nat) (t : task) : Prop :=
  match t with
  | Flow p => cost n p
  | Racing g k => exists a b, n = S (a + b) /\ gen_cost a g /\ forall r, cost b (k r)
  | Detached g => gen_cost n g
  end.

Lemma run_gen_cost {A} n (p : prog gen_op A) s : gen_cost n p -> gen_cost n (fst (run p s)).
Proof. revert s. induction p; intros s H'; cbn [run gen_cost] in *; auto. Qed.

Lemma run_cost n (p : flow unit) s : cost n p -> cost n (fst (run p s)).
Proof. unfold cost. revert s. induction p; intros s H'; cbn [run flow_cost] in *; auto. Qed.

Lemma park_cost n p s : cost n p -> task_cost n (fst (park p s)).
Proof.
  intros H. apply (run_cost n p s) in H. unfold park. destruct (run p s) as [q s']. cbn [fst] in H.
  destruct q as [a|e|X o k| | | | |]; try exact H. destruct o as [l m|c|g]; cbn [park_op fst]; try exact H.
  destruct H as (a & b & -> & Hg & Hk). pose proof (run_gen_cost a g s' Hg) as G. destruct (run g s'). exists a, b. auto.
Qed.

(** The answers left to all the tasks. *)
Inductive tasks_cost : nat -> list task -> Prop :=
| tc_nil : tasks_cost 0 []
| tc_cons n t m l : task_cost n t -> tasks_cost m l -> tasks_cost (n + m) (t :: l).

Lemma tasks_cost_app l1 l2 n m : tasks_cost n l1 -> tasks_cost m l2 -> tasks_cost (n + m) (l1 ++ l2).
Proof. induction 1; intros H2; [exact H2|]. cbn. rewrite <- Nat.add_assoc. constructor; auto. Qed.

Lemma tasks_cost_one n t : task_cost n t -> tasks_cost n [t].
Proof. intros H. rewrite <- (Nat.add_0_r n). constructor; [exact H|constructor]. Qed.

Lemma tasks_cost_app_inv l1 l2 n : tasks_cost n (l1 ++ l2) -> exists a b, n = a + b /\ tasks_cost a l1 /\ tasks_cost b l2.
Proof.
  revert n. induction l1 as [|t l1 IH]; cbn; intros n H.
  - exists 0, n. repeat split; [constructor|exact H].
  - inv H. destruct (IH _ H4) as (a & b & -> & H1 & H2). exists (n0 + a), b. split; [lia|]. split; [now constructor|exact H2].
Qed.

Lemma tasks_cost_mid l1 t l2 n :
  tasks_cost n (l1 ++ t :: l2) -> exists a b c, n = a + (b + c) /\ tasks_cost a l1 /\ task_cost b t /\ tasks_cost c l2.
Proof. intros H. apply tasks_cost_app_inv in H as (a & m & -> & H1 & H2). inv H2. exists a, n, m0. auto. Qed.

Lemma tasks_cost_update l1 t l2 a b c : tasks_cost a l1 -> task_cost b t -> tasks_cost c l2 -> tasks_cost (a + (b + c)) (l1 ++ t :: l2).
Proof. intros. apply tasks_cost_app; [assumption|]. now constructor. Qed.

(** Every answer uses up one. *)
Lemma progress_cost m m' n : progress m m' -> tasks_cost n (tasks m) -> exists n', S n' <= n /\ tasks_cost n' (tasks m').
Proof.
  intros Hp. destruct Hp as [s l1 X o k l2 tr r t s' Ep|s l1 X o k0 k l2 tr r g' s' Ep|s l1 g k l2 tr r t s' Eg Ep
    |s l1 g k l2 tr t s' Ep|s l1 X o k0 l2 tr r g' s' Ep]; cbn [tasks]; intros H;
    apply tasks_cost_mid in H as (a & b & c & -> & H1 & H2 & H3); cbn [task_cost] in H2.
  - assert (Hb : exists b', S b' <= b /\ cost b' (k r)).
    { unfold cost in *. cbn [flow_cost] in H2. destruct o as [l w|w|g]; cbn [op_cost] in H2.
      - destruct b as [|b]; [contradiction|]. exists b. auto.
      - destruct b as [|b]; [contradiction|]. exists b. auto.
      - destruct H2 as (x & y & -> & _ & Hk). exists y. split; [lia|apply Hk]. }
    destruct Hb as (b' & Hb & Hk). apply (park_cost b' _ s) in Hk. rewrite Ep in Hk.
    exists (a + (b' + c)). split; [lia|]. now apply tasks_cost_update.
  - destruct H2 as (x & y & -> & Hg & Hk). cbn [gen_cost] in Hg. destruct x as [|x]; [contradiction|].
    specialize (Hg r). apply (run_gen_cost x _ s) in Hg. rewrite Ep in Hg.
    exists (a + (S (x + y) + c)). split; [lia|]. apply tasks_cost_update; auto. exists x, y. auto.
  - destruct H2 as (x & y & -> & Hg & Hk). specialize (Hk r). apply (park_cost y _ s) in Hk. rewrite Ep in Hk.
    exists (a + (y + c)). split; [lia|]. now apply tasks_cost_update.
  - destruct H2 as (x & y & -> & Hg & Hk). specialize (Hk (Err timeout_error)). apply (park_cost y _ s) in Hk. rewrite Ep in Hk.
    exists (a + (y + (c + x))). split; [lia|]. apply tasks_cost_update; auto. apply tasks_cost_app; auto. now apply tasks_cost_one.
  - cbn [gen_cost] in H2. destruct b as [|b]; [contradiction|]. specialize (H2 r). apply (run_gen_cost b _ s) in H2. rewrite Ep in H2.
    exists (a + (b + c)). split; [lia|]. now apply tasks_cost_update.
Qed.

(** ** Runs of the plugin *)

(** From the start, after [e] events and [p] answers. *)
Inductive runs : nat -> nat -> machine -> Prop :=
| runs_start : runs 0 0 start
| runs_event n p ev m t s' :
    runs n p m -> park (handler ev) (sh m) = (t, s') -> runs (S n) p (Machine s' (tasks m ++ [t]) (trace m))
| runs_progress n p m m' : runs n p m -> progress m m' -> runs n (S p) m'.

Lemma runs_reachable n p m : runs n p m -> reachable m.
Proof.
  induction 1 as [|n p ev m t s' _ IH E|n p m m' _ IH Hp]; [constructor|eapply r_step; [exact IH|eapply st_event; exact E]|].
  eapply r_step; [exact IH|now apply st_progress].
Qed.

Lemma runs_cost n p m : runs n p m -> exists left, tasks_cost left (tasks m) /\ p + left <= HANDLER_COST * n.
Proof.
  induction 1 as [|n p ev m t s' _ (c & Hc & Hl) E|n p m m' _ (c & Hc & Hl) Hp].
  - exists 0. split; [constructor|lia].
  - exists (c + HANDLER_COST). split; [|unfold HANDLER_COST in *; lia]. cbn [tasks]. apply tasks_cost_app; [exact Hc|].
    apply tasks_cost_one. pose proof (park_cost _ _ (sh m) (handler_cost ev)) as H. now rewrite E in H.
  - destruct (progress_cost m m' c Hp Hc) as (c' & Hs & Hc'). exists c'. split; [exact Hc'|lia].
Qed.

(** A task that still waits can go on, on any answer. *)
Lemma waiting_progress m : reachable m -> ~ Forall ended (tasks m) -> exists m', progress m m'.
Proof.
  intros Hr Hn. assert (Hex : exists t, In t (tasks m) /\ ~ ended t).
  { apply Exists_exists. apply neg_Forall_Exists_neg; [|exact Hn].
    intros [[]|g k|[]]; cbn; auto. }
  destruct Hex as (t & Hin & Ht). apply in_split in Hin as (l1 & l2 & E). destruct m as [s l tr]. cbn in E. subst l.
  destruct t as [p|g k|g].
  - destruct p as [a|e|X o k| | | | |]; cbn in Ht; try tauto. destruct (park (k (Err [])) s) as [t' s'] eqn:Ep.
    eexists. apply (st_answer s l1 X o k l2 tr (Err []) t' s' Ep).
  - destruct (park (k (Err timeout_error)) s) as [t' s'] eqn:Ep. eexists. apply (st_timeout s l1 g k l2 tr t' s' Ep).
  - destruct g as [a|e|X o k| | | | |]; cbn in Ht; try tauto. destruct (run (k (Err [])) s) as [t' s'] eqn:Ep.
    eexists. apply (st_detached s l1 X o k l2 tr (Err []) t' s' Ep).
Qed.

(** C5: The plugin never runs away: [n] events cause at most thirteen answers each to be waited for, in every
    interleaving; and from any state it reaches, letting the pending calls be answered leads to a
    state where nothing is awaited and the lock is free. *)
Theorem auto_commit_terminates n p m :
  runs n p m ->
  p <= HANDLER_COST * n /\
  exists q m', runs n (p + q) m' /\ Forall ended (tasks m') /\ busy (sh m') = false.
Proof.
  intros H. destruct (runs_cost n p m H) as (c & _ & Hl). split; [lia|].
  assert (IH : forall d p m, runs n p m -> HANDLER_COST * n - p <= d ->
            exists q m', runs n (p + q) m' /\ Forall ended (tasks m')).
  { clear. induction d as [|d IH]; intros p m H Hd;
      (destruct (Forall_dec ended ltac:(intros [[]|g k|[]]; cbn; auto) (tasks m)) as [He|He];
       [exists 0, m; rewrite Nat.add_0_r; auto|]);
      destruct (waiting_progress m (runs_reachable _ _ _ H) He) as [m1 Hp];
      pose proof (runs_progress _ _ _ _ H Hp) as H1; destruct (runs_cost _ _ _ H1) as (c & _ & Hl); [lia|].
    destruct (IH (S p) m1 H1 ltac:(lia)) as (q & m' & Hq & He'). exists (S q), m'. rewrite Nat.add_succ_r. auto. }
  destruct (IH _ p m H (Nat.le_refl _)) as (q & m' & Hq & He). exists q, m'. split; [exact Hq|]. split; [exact He|].
  now apply released, He; apply (runs_reachable _ _ _ Hq).
Qed.

(** ** Driving one flow to its end *)

(** A table of answers: to the log, to git, to the calls of the generator, and whether the generator
    settles before the timeout. *)
Record answers := Answers {
  log_answer : jsstring -> jsstring -> result unit;
  git_answer : gitcmd -> result (Z * jsstring);
  gen_answer : forall X, gen_op X -> result X;
  in_time : bool }.

Fixpoint exec_gen {A} (ans : answers) (p : prog gen_op A) (s : shared) : result A * shared :=
  match p with
  | Done a => (Ok a, s)
  | Throw e => (Err e, s)
  | Await o k => exec_gen ans (k (gen_answer ans _ o)) s
  | GetBusy k => exec_gen ans (k (busy s)) s
  | SetBusy b p' => exec_gen ans p' (Shared b (internalSessions s))
  | HasInternal v k => exec_gen ans (k (existsb (same_value v) (internalSessions s))) s
  | AddInternal v p' =>
      exec_gen ans p' (Shared (busy s) (if existsb (same_value v) (internalSessions s) then internalSessions s
                                        else internalSessions s ++ [v]))
  | DelInternal v p' => exec_gen ans p' (Shared (busy s) (filter (fun w => negb (same_value v w)) (internalSessions s)))
  end.

(** The generator runs to its end also when its race is over. *)
Definition answer {X} (ans : answers) (o : flow_op X) : shared -> result X * shared :=
  match o with
  | Log l m => fun s => (log_answer ans l m, s)
  | Git c => fun s => (git_answer ans c, s)
  | Race g => fun s => let '(r, s') := exec_gen ans g s in ((if in_time ans then r else Err timeout_error), s')
  end.

Fixpoint exec {A} (ans : answers) (p : flow A) (s : shared) : result A * shared * list gitcmd :=
  match p with
  | Done a => (Ok a, s, [])
  | Throw e => (Err e, s, [])
  | Await o k => let '(r, s1) := answer ans o s in
                 let '(res, s2, tr) := exec ans (k r) s1 in (res, s2, issued o ++ tr)
  | GetBusy k => exec ans (k (busy s)) s
  | SetBusy b p' => exec ans p' (Shared b (internalSessions s))
  | HasInternal v k => exec ans (k (existsb (same_value v) (internalSessions s))) s
  | AddInternal v p' =>
      exec ans p' (Shared (busy s) (if existsb (same_value v) (internalSessions s) then internalSessions s
                                    else internalSessions s ++ [v]))
  | DelInternal v p' => exec ans p' (Shared (busy s) (filter (fun w => negb (same_value v w)) (internalSessions s)))
  end.

Lemma exec_both {A B} ans (p : flow A) (f : A -> flow B) h s :
  exec ans (both p f h) s =
  let '(r, s1, tr) := exec ans p s in
  let '(res, s2, tr') := exec ans (match r with Ok a => f a | Err e => h e end) s1 in (res, s2, tr ++ tr').
Proof.
  revert s. induction p as [a|e|X o k IH|k IH|b p IH|w k IH|w p IH|w p IH]; intros s; cbn [both exec];
    try solve [now destruct (exec ans _ s) as [[? ?] ?]]; try apply IH.
  destruct (answer ans o s) as [r s1]. rewrite IH. destruct (exec ans (k r) s1) as [[r1 s2] tr1].
  destruct (exec ans _ s2) as [[r3 s3] tr3]. now rewrite app_assoc.
Qed.

Lemma exec_seq {A B} ans (p : flow A) (f : A -> flow B) s :
  exec ans (seq p f) s =
  let '(r, s1, tr) := exec ans p s in
  match r with
  | Ok a => let '(res, s2, tr') := exec ans (f a) s1 in (res, s2, tr ++ tr')
  | Err e => (Err e, s1, tr)
  end.
Proof.
  unfold seq. rewrite exec_both. destruct (exec ans p s) as [[[a|e] s1] tr]; [reflexivity|]. cbn. now rewrite app_nil_r.
Qed.

Lemma exec_log ans l m s : exec ans (log l m) s = (Ok tt, s, []).
Proof. reflexivity. Qed.

Lemma exec_git ans c s : exec ans (git c) s = (git_answer ans c, s, [c]).
Proof. unfold git, await. cbn. now destruct (git_answer ans c). Qed.

(** The message the race gives the flow, if any. *)
Definition generated (ans : answers) (diff : jsstring) (files : list jsstring) (s : shared) : option message :=
  match answer ans (Race (generateCommitMessage diff files)) s with (Ok m, _) => m | _ => None end.

Lemma exec_requestMessage ans diff files s :
  exec ans (requestMessage diff files) s =
  (Ok (generated ans diff files s), snd (exec_gen ans (generateCommitMessage diff files) s), []).
Proof.
  unfold requestMessage, catch, generated. rewrite exec_both, exec_seq. unfold await. cbn [exec answer issued].
  destruct (exec_gen ans _ s) as [r s1]. cbn [snd]. destruct (in_time ans); [|reflexivity].
  destruct r as [[m|]|e]; reflexivity.
Qed.

(** What git answers to a command, with the blanks around it removed. *)
Definition git_text (ans : answers) (c : gitcmd) : option jsstring :=
  match git_answer ans c with Ok (_, t) => Some (trim t) | Err _ => None end.

(** The commit a flow ends with. *)
Definition final_commit (ans : answers) (s : shared) (names diff stat : jsstring) : gitcmd :=
  let files := nonblank_lines names in
  let m := default_of (fallbackMessage (length files) stat) (generated ans (clipDiff diff) files s) in
  Commit (subject m) (commitBody m).

Definition last_is (c : gitcmd) (tr : list gitcmd) : Prop := exists l, tr = l ++ [c].

(** The branches of a flow: the commands issued, by the answers of git. *)
Definition branches (ans : answers) (s : shared) (tr : list gitcmd) : Prop :=
  (git_text ans RevParse <> Some (js "true") -> tr = [RevParse]) /\
  (forall names, git_text ans RevParse = Some (js "true") -> git_text ans AddU <> None ->
     git_text ans DiffNames = Some names -> nonblank_lines names = [] -> tr = [RevParse; AddU; DiffNames]) /\
  (forall names diff stat, git_text ans RevParse = Some (js "true") -> git_text ans AddU <> None ->
     git_text ans DiffNames = Some names -> nonblank_lines names <> [] ->
     git_text ans Diff = Some diff -> git_text ans ShortStat = Some stat ->
     tr = [RevParse; AddU; DiffNames; Diff; ShortStat; final_commit ans s names diff stat]) /\
  (forall c, In c tr -> git_text ans c = None -> last_is c tr).

Lemma last_is_head c : last_is c [c].
Proof. now exists []. Qed.

Lemma last_is_cons c d tr : last_is c tr -> last_is c (d :: tr).
Proof. intros [l ->]. now exists (d :: l). Qed.

Create HintDb commit.
#[export] Hint Resolve last_is_head last_is_cons : commit.

(** Split on the answer of the next git command. *)
Ltac git_case ans c :=
  let x := fresh "x" in let z := fresh "z" in let t := fresh "t" in let E := fresh "E" in
  destruct (git_answer ans c) as [[z t]|x] eqn:E; cbn [fst snd].

(** The branches, once a trace is known. *)
Ltac branch_tac :=
  cbn [app]; unfold branches; split; [|split; [|split]];
  [intros ?|intros ? ? ? ? ?|intros ? ? ? ? ? ? ? ? ?|intros ? Hin Hnone; cbn in Hin;
   repeat match goal with H : _ \/ _ |- _ => destruct H as [<-|H] | H : False |- _ => destruct H end];
  unfold git_text in *;
  repeat match goal with E : git_answer _ _ = _ |- _ => rewrite E in *; clear E end;
  repeat match goal with H : Some _ = Some _ |- _ => injection H as <- end;
  try congruence; auto 10 with commit.

Lemma commitFlow_branches ans s :
  exists s1 r tr, exec ans commitFlow s = (r, s1, tr) /\ branches ans s tr.
Proof.
  unfold commitFlow. rewrite exec_seq, exec_git. git_case ans RevParse; [|do 3 eexists; split; [reflexivity|branch_tac]].
  destruct (jseqb (trim t) (js "true")) eqn:Et; cbn [negb].
  2:{ apply jseqb_neq in Et. do 3 eexists. split; [reflexivity|]. branch_tac. }
  apply jseqb_eq in Et. rewrite exec_seq, exec_git. git_case ans AddU; [|do 3 eexists; split; [reflexivity|branch_tac]].
  rewrite exec_seq, exec_git. git_case ans DiffNames; [|do 3 eexists; split; [reflexivity|branch_tac]].
  cbv zeta. remember (nonblank_lines (trim t1)) as files eqn:Ef. destruct files as [|f fs].
  { do 3 eexists. split; [reflexivity|]. branch_tac. }
  rewrite exec_seq, exec_git. git_case ans Diff; [|do 3 eexists; split; [reflexivity|branch_tac]].
  rewrite exec_seq, exec_git. git_case ans ShortStat; [|do 3 eexists; split; [reflexivity|branch_tac]].
  rewrite exec_seq, exec_requestMessage, exec_seq, exec_git.
  set (m := default_of _ _). set (s1 := snd _).
  assert (Hm : final_commit ans s (trim t1) (trim t2) (trim t3) = Commit (subject m) (commitBody m)).
  { unfold final_commit. now rewrite <- Ef. }
  git_case ans (Commit (subject m) (commitBody m)).
  - unfold reportCommit. destruct (negb _); do 3 eexists; (split; [reflexivity|]); rewrite <- Hm in *; branch_tac.
  - do 3 eexists; split; [reflexivity|]. rewrite <- Hm in *. branch_tac.
Qed.

(** C8: An idle event of a session that is not the plugin's own, while no flow runs: outside a work tree
    the flow stops after the first command; without staged changes it stops after listing them;
    otherwise it commits, with the generated message or with the fallback, and the failure of a
    command is the end of the flow.  In every case the lock is free again at the end. *)
Theorem handler_branches ans e s :
  is_idle e = true -> busy s = false ->
  is_truthy (sessionIdOf e) && existsb (same_value (sessionIdOf e)) (internalSessions s) = false ->
  exists s' tr, exec ans (handler e) s = (Ok tt, s', tr) /\ busy s' = false /\
                branches ans (Shared true (internalSessions s)) tr.
Proof.
  intros He Hb Hi. unfold handler. rewrite He. cbn [negb]. rewrite exec_seq, exec_log. cbv zeta. cbn [exec]. rewrite Hi. cbn [exec].
  rewrite Hb. cbn [exec]. unfold finally, catch. rewrite !exec_both.
  destruct (commitFlow_branches ans (Shared true (internalSessions s))) as (s1 & r & tr & -> & Hbr).
  destruct r as [[]|err]; cbn; (do 2 eexists; split; [reflexivity|]); rewrite ?app_nil_r; auto.
Qed.

(** ** The plugin's own sessions *)

Lemma exec_gen_both {A B} ans (p : prog gen_op A) (f : A -> prog gen_op B) h s :
  exec_gen ans (both p f h) s =
  let '(r, s1) := exec_gen ans p s in exec_gen ans (match r with Ok a => f a | Err e => h e end) s1.
Proof. revert s. induction p; intros s; cbn [both exec_gen]; auto. Qed.

(** What a reply of the model gives. *)
Definition reply_message (reply : result jsval) : result (option message) :=
  match reply with
  | Err e => Err e
  | Ok res =>
      if is_truthy (prop "error" res) then match to_string (prop "error" res) with Ok m => Err (error_text m) | Err e => Err e end
      else
        let err := prop "error" (prop "info" (prop "data" res)) in
        if is_truthy err then match structured_error err with Ok m => Err (error_text m) | Err e => Err e end
        else extractMessage res
  end.

Definition with_session (v : jsval) (s : shared) : shared :=
  Shared (busy s) (if existsb (same_value v) (internalSessions s) then internalSessions s else internalSessions s ++ [v]).

Lemma exec_generate ans diff files s created :
  gen_answer ans _ (Create INTERNAL_TITLE) = Ok created ->
  let id := prop "id" (prop "data" created) in
  is_truthy id = true ->
  exec_gen ans (generateCommitMessage diff files) s =
  (reply_message (gen_answer ans _ (Prompt id (promptBody (promptText diff files)))), with_session id s).
Proof.
  intros Hc id Hid. unfold generateCommitMessage, seq. rewrite exec_gen_both. unfold await at 1. cbn [exec_gen]. rewrite Hc. cbn [exec_gen].
  fold id. rewrite Hid. cbn [negb exec_gen]. unfold finally. rewrite !exec_gen_both. unfold await. cbn [exec_gen].
  fold (with_session id s). destruct (gen_answer ans jsval (Prompt _ _)) as [res|e]; cbn [exec_gen reply_message]; [|reflexivity].
  destruct (is_truthy (prop "error" res)); [unfold throw_error; destruct (to_string _); reflexivity|].
  destruct (is_truthy (prop "error" (prop "info" _))); [unfold throw_error; destruct (structured_error _); reflexivity|]. destruct (extractMessage res); reflexivity.
Qed.

Lemma same_string_app l id : existsb (same_value (VStr id)) (l ++ [VStr id]) = true.
Proof. rewrite existsb_app. cbn. now rewrite jseqb_refl, orb_true_r. Qed.

Lemma with_session_has id s : existsb (same_value (VStr id)) (internalSessions (with_session (VStr id) s)) = true.
Proof. unfold with_session. cbn [internalSessions]. destruct (existsb _ (internalSessions s)) eqn:E; [exact E|apply same_string_app]. Qed.

(** C15: The plugin does not answer to itself: the helper session of a generator is recorded as soon as it is
    created, whatever becomes of the request, the outcome of the generator is that of the reply it
    gets, and the idle event of that session then issues no git command, leaves the lock alone and
    only removes the session from the set. *)
Theorem helper_session_ignored ans ans' diff files s created id e :
  gen_answer ans _ (Create INTERNAL_TITLE) = Ok created -> prop "id" (prop "data" created) = VStr id -> id <> [] ->
  is_idle e = true -> sessionIdOf e = VStr id ->
  exists s1,
    exec_gen ans (generateCommitMessage diff files) s
      = (reply_message (gen_answer ans _ (Prompt (VStr id) (promptBody (promptText diff files)))), s1) /\
    busy s1 = busy s /\ existsb (same_value (VStr id)) (internalSessions s1) = true /\
    exists s2, exec ans' (handler e) s1 = (Ok tt, s2, []) /\ busy s2 = busy s /\
               existsb (same_value (VStr id)) (internalSessions s2) = false.
Proof.
  intros Hc Hid Hne He Hs. exists (with_session (VStr id) s).
  assert (Ht : is_truthy (VStr id) = true) by (destruct id; [contradiction|reflexivity]).
  rewrite (exec_generate ans diff files s created Hc) by now rewrite Hid. rewrite Hid. split; [reflexivity|]. split; [reflexivity|].
  split; [apply with_session_has|]. unfold handler. rewrite He. cbn [negb]. rewrite exec_seq, exec_log. cbv zeta. cbn [exec].
  rewrite Hs, Ht, with_session_has. cbn [andb exec app]. eexists. split; [reflexivity|]. split; [reflexivity|].
  cbn [internalSessions]. apply not_true_is_false. intros H. apply existsb_exists in H as (v & Hin & Hv).
  apply filter_In in Hin as [_ Hin]. now rewrite Hv in Hin.
Qed.

(** ** Witnesses *)

Definition idle_event (id : jsstring) : event :=
  {| ev_type := VStr (js "session.idle"); ev_properties := VObj [(js "sessionID", VStr id)] |}.

(** A repository with one staged file, and a model that replies. *)
Definition sample_answers : answers := {|
  log_answer := fun _ _ => Err (js "no log");
  git_answer := fun c => match c with
    | RevParse => Ok (0%Z, js "true" ++ [10%N])
    | DiffNames => Ok (0%Z, js "a.ts" ++ [10%N])
    | ShortStat => Err (js "lost")
    | _ => Ok (0%Z, []) end;
  gen_answer := fun X o => match o in gen_op X return result X with
    | Create _ => Ok (VObj [(js "data", VObj [(js "id", VStr (js "ses_1"))])])
    | Prompt _ _ => Ok (VObj [(js "data", VObj [(js "structured_output", VObj [(js "subject", VStr (js "feat: x"))])])])
    | Delete _ => Ok tt end;
  in_time := true |}.

Lemma handler_branches_witness :
  exists s' tr, exec sample_answers (handler (idle_event (js "s"))) (Shared false []) = (Ok tt, s', tr) /\ busy s' = false /\
                tr = [RevParse; AddU; DiffNames; Diff; ShortStat].
Proof.
  destruct (handler_branches sample_answers (idle_event (js "s")) (Shared false []) eq_refl eq_refl eq_refl) as (s' & tr & E & Hb & Hbr).
  exists s', tr. split; [exact E|]. split; [exact Hb|]. vm_compute in E. now injection E.
Defined.

Lemma helper_session_ignored_witness :
  exists s1, exec_gen sample_answers (generateCommitMessage [] [js "a.ts"]) (Shared true [])
             = (Ok (Some (Msg (js "feat: x") [])), s1) /\
  exists s2, exec sample_answers (handler (idle_event (js "ses_1"))) s1 = (Ok tt, s2, []) /\ busy s2 = true.
Proof.
  destruct (helper_session_ignored sample_answers sample_answers [] [js "a.ts"] (Shared true [])
    (VObj [(js "data", VObj [(js "id", VStr (js "ses_1"))])]) (js "ses_1") (idle_event (js "ses_1"))
    eq_refl eq_refl ltac:(discriminate) eq_refl eq_refl) as (s1 & E1 & _ & _ & s2 & E2 & Hb & _).
  exists s1. split; [exact E1|]. exists s2. split; [exact E2|exact Hb].
Defined.

Definition logging : machine := Machine (Shared false []) (tasks start ++ [fst (park (handler (idle_event (js "s"))) (sh start))]) [].

Lemma auto_commit_terminates_witness : 0 <= HANDLER_COST * 1 /\ exists q m', runs 1 (0 + q) m' /\ Forall ended (tasks m') /\ busy (sh m') = false.
Proof.
  apply (auto_commit_terminates 1 0 logging). exact (runs_event 0 0 (idle_event (js "s")) start _ _ runs_start eq_refl).
Defined.
