(* ===== verification/IconCloud.v ===== *)
(** * The icon cloud ([website/components/magicui/icon-cloud.tsx])

    Icons on a rotating sphere, drawn on a canvas.  The record [world] holds the React state [ui], the
    references, the state [captured] by the closure of the running effect, and the browser: pending
    frames, the drawing calls of the last frame, the offscreen canvases and the images being loaded.
    A state change whose value is a dependency of the effect sets [dirty]; the effect then runs again
    before the next event.  The trigonometric functions and [Math.pow] are parameters, since the
    language leaves their results to the implementation. *)

From Stdlib Require Import String List Arith NArith ZArith Lia Bool SpecFloat.
From S2P Require Import Prelude JsString JsNum NumText Dom State.
Import ListNotations.
Local Open Scope list_scope.
Local Open Scope state_scope.

Record Icon := { i_x : num; i_y : num; i_z : num; i_scale : num; i_opacity : num; i_id : nat }.

Record IconCloudProps := { ic_icons : option (list vnode); ic_images : option (list jsstring); showControl : bool }.

Record rotation_target := Target {
  t_x : num; t_y : num; startX : num; startY : num; t_distance : num; startTime : num; t_duration : num }.

(** The React state. *)
Record ui_state := Ui {
  iconPositions : list Icon; isDragging : bool; isPaused : bool; lastMousePos : num * num; mousePos : num * num;
  targetRotation : option rotation_target }.

Definition set_iconPositions v u := Ui v (isDragging u) (isPaused u) (lastMousePos u) (mousePos u) (targetRotation u).
Definition set_isDragging v u := Ui (iconPositions u) v (isPaused u) (lastMousePos u) (mousePos u) (targetRotation u).
Definition set_isPaused v u := Ui (iconPositions u) (isDragging u) v (lastMousePos u) (mousePos u) (targetRotation u).
Definition set_lastMousePos v u := Ui (iconPositions u) (isDragging u) (isPaused u) v (mousePos u) (targetRotation u).
Definition set_mousePos v u := Ui (iconPositions u) (isDragging u) (isPaused u) (lastMousePos u) v (targetRotation u).
Definition set_targetRotation v u := Ui (iconPositions u) (isDragging u) (isPaused u) (lastMousePos u) (mousePos u) v.

(** The drawing calls, on the canvas and on the offscreen canvases; a drawn picture is named by its number. *)
Inductive ctx_op :=
| ClearRect (x y w h : num) | BeginPath | ClosePath | Clip | Arc (x y r a b : num)
| DrawImage (picture : nat) (x y : num) (size : option (num * num))
| Save | Restore | Translate (x y : num) | Scale (x y : num) | GlobalAlpha (a : num)
| FillStyle (s : jsstring) | FillPath | TextAlign (s : jsstring) | TextBaseline (s : jsstring) | Font (s : jsstring)
| FillText (s : jsstring) (x y : num).

Record offscreen := { o_context : bool; o_ops : list ctx_op }.

(** An image being loaded: its handler draws on one offscreen canvas and marks one index. *)
Record image := { im_src : jsstring; im_photo : bool; im_index : nat; im_canvas : nat; im_done : bool }.

Record world := World {
  ui : ui_state; captured : ui_state; animationFrameRef : nat; rotationRef : num * num; iconCanvasesRef : list nat;
  imagesLoadedRef : list (option bool); pending : list nat; nextId : nat; screen : list ctx_op; canvases : list offscreen;
  imgs : list image; dirty : bool; listening : bool; halted : bool }.

Definition set_ui v w := World v (captured w) (animationFrameRef w) (rotationRef w) (iconCanvasesRef w) (imagesLoadedRef w) (pending w) (nextId w) (screen w) (canvases w) (imgs w) (dirty w) (listening w) (halted w).
Definition set_captured v w := World (ui w) v (animationFrameRef w) (rotationRef w) (iconCanvasesRef w) (imagesLoadedRef w) (pending w) (nextId w) (screen w) (canvases w) (imgs w) (dirty w) (listening w) (halted w).
Definition set_animationFrameRef v w := World (ui w) (captured w) v (rotationRef w) (iconCanvasesRef w) (imagesLoadedRef w) (pending w) (nextId w) (screen w) (canvases w) (imgs w) (dirty w) (listening w) (halted w).
Definition set_rotationRef v w := World (ui w) (captured w) (animationFrameRef w) v (iconCanvasesRef w) (imagesLoadedRef w) (pending w) (nextId w) (screen w) (canvases w) (imgs w) (dirty w) (listening w) (halted w).
Definition set_iconCanvasesRef v w := World (ui w) (captured w) (animationFrameRef w) (rotationRef w) v (imagesLoadedRef w) (pending w) (nextId w) (screen w) (canvases w) (imgs w) (dirty w) (listening w) (halted w).
Definition set_imagesLoadedRef v w := World (ui w) (captured w) (animationFrameRef w) (rotationRef w) (iconCanvasesRef w) v (pending w) (nextId w) (screen w) (canvases w) (imgs w) (dirty w) (listening w) (halted w).
Definition set_pending v n w := World (ui w) (captured w) (animationFrameRef w) (rotationRef w) (iconCanvasesRef w) (imagesLoadedRef w) v n (screen w) (canvases w) (imgs w) (dirty w) (listening w) (halted w).
Definition set_screen v w := World (ui w) (captured w) (animationFrameRef w) (rotationRef w) (iconCanvasesRef w) (imagesLoadedRef w) (pending w) (nextId w) v (canvases w) (imgs w) (dirty w) (listening w) (halted w).
Definition set_canvases v w := World (ui w) (captured w) (animationFrameRef w) (rotationRef w) (iconCanvasesRef w) (imagesLoadedRef w) (pending w) (nextId w) (screen w) v (imgs w) (dirty w) (listening w) (halted w).
Definition set_imgs v w := World (ui w) (captured w) (animationFrameRef w) (rotationRef w) (iconCanvasesRef w) (imagesLoadedRef w) (pending w) (nextId w) (screen w) (canvases w) v (dirty w) (listening w) (halted w).
Definition set_dirty v w := World (ui w) (captured w) (animationFrameRef w) (rotationRef w) (iconCanvasesRef w) (imagesLoadedRef w) (pending w) (nextId w) (screen w) (canvases w) (imgs w) v (listening w) (halted w).
Definition set_listening v w := World (ui w) (captured w) (animationFrameRef w) (rotationRef w) (iconCanvasesRef w) (imagesLoadedRef w) (pending w) (nextId w) (screen w) (canvases w) (imgs w) (dirty w) v (halted w).
Definition set_halted v w := World (ui w) (captured w) (animationFrameRef w) (rotationRef w) (iconCanvasesRef w) (imagesLoadedRef w) (pending w) (nextId w) (screen w) (canvases w) (imgs w) (dirty w) (listening w) v.

(** What the browser answers during an event. *)
Record env := { e_left : num; e_top : num; e_now : num; e_reduced : bool; e_offscreen : bool }.

Definition canvas_size : num := nof 400.
Definition n20 : num := nof 20.
Definition n40 : num := nof 40.

(** [l[i] = true]: an assignment past the end leaves holes. *)
Fixpoint set_index (i : nat) (l : list (option bool)) : list (option bool) :=
  match i, l with
  | O, [] => [Some true]
  | O, _ :: l' => Some true :: l'
  | S j, [] => None :: set_index j []
  | S j, x :: l' => x :: set_index j l'
  end.

(** [l.every((loaded) => loaded)], which skips holes. *)
Definition every_loaded (l : list (option bool)) : bool := forallb (default_of true) l.

Definition is_loaded (l : list (option bool)) (i : nat) : bool :=
  match nth_error l i with Some (Some b) => b | _ => false end.

Definition has_items (p : IconCloudProps) : bool :=
  match ic_icons p, ic_images p with None, None => false | _, _ => true end.

(** An entry of [icons ?? images ?? []]. *)
Inductive item := Node (v : vnode) | Url (s : jsstring).

Definition items (p : IconCloudProps) : list item :=
  match ic_icons p with
  | Some l => map Node l
  | None => match ic_images p with Some l => map Url l | None => [] end
  end.

(** The text an item becomes when it is assigned to [img.src]. *)
Definition item_src (i : item) : jsstring :=
  match i with Url s | Node (VText s) => s | Node (VEl _ _ _) => js "[object Object]" end.

Section Cloud.
Context (Math_cos Math_sin : num -> num) (Math_atan2 Math_pow : num -> num -> num).
(** [renderToString], and [btoa], which may throw. *)
Context (renderToString : vnode -> jsstring) (btoa : jsstring -> option jsstring).
(** Whether the canvas gives a drawing context. *)
Context (context : bool).

Definition easeOutCubic (t : num) : num := nsub (nof 1) (Math_pow (nsub (nof 1) t) (nof 3)).

(** ** State changes *)

Definition change (f : ui_state -> ui_state) : M world unit := u <- get ui ;; modify (set_ui (f u)).

Definition setIconPositions (v : list Icon) : M world unit := change (set_iconPositions v) ;;; modify (set_dirty true).
Definition setIsDragging (v : bool) : M world unit :=
  u <- get ui ;; change (set_isDragging v) ;;; when_m (negb (Bool.eqb v (isDragging u))) (modify (set_dirty true)).
Definition setIsPaused (v : bool) : M world unit :=
  u <- get ui ;; change (set_isPaused v) ;;; when_m (negb (Bool.eqb v (isPaused u))) (modify (set_dirty true)).
Definition setLastMousePos (v : num * num) : M world unit := change (set_lastMousePos v).
Definition setMousePos (v : num * num) : M world unit := change (set_mousePos v) ;;; modify (set_dirty true).
Definition setTargetRotation (v : option rotation_target) : M world unit :=
  u <- get ui ;; change (set_targetRotation v) ;;;
  when_m (match v, targetRotation u with None, None => false | _, _ => true end) (modify (set_dirty true)).

(** ** The pictures *)

(** One offscreen canvas with the image it loads; [None] when [btoa] throws. *)
Definition create_canvas (p : IconCloudProps) (e : env) (index : nat) (it : item) : M world (option nat) :=
  cs <- get canvases ;; ims <- get imgs ;;
  let k := length cs in
  if negb (e_offscreen e) then
    modify (set_canvases (cs ++ [{| o_context := false; o_ops := [] |}])) ;;; ret (Some k)
  else
    match ic_images p, it with
    | Some _, _ =>
        modify (set_canvases (cs ++ [{| o_context := true; o_ops := [] |}])) ;;;
        modify (set_imgs (ims ++ [{| im_src := item_src it; im_photo := true; im_index := index; im_canvas := k; im_done := false |}])) ;;;
        ret (Some k)
    | None, Node v =>
        match btoa (renderToString v) with
        | None => ret None
        | Some code =>
            modify (set_canvases (cs ++ [{| o_context := true; o_ops := [Scale (lit 4 10) (lit 4 10)] |}])) ;;;
            modify (set_imgs (ims ++ [{| im_src := js "data:image/svg+xml;base64," ++ code; im_photo := false; im_index := index;
                                        im_canvas := k; im_done := false |}])) ;;;
            ret (Some k)
        end
    | None, Url _ => ret (Some k) (* not reached: without images every item is a node *)
    end.

Fixpoint create_canvases (p : IconCloudProps) (e : env) (index : nat) (l : list item) : M world (option (list nat)) :=
  match l with
  | [] => ret (Some [])
  | it :: l' =>
      c <- create_canvas p e index it ;;
      match c with
      | None => ret None
      | Some k => r <- create_canvases p e (S index) l' ;; ret (option_map (cons k) r)
      end
  end.

Definition canvases_effect (p : IconCloudProps) (e : env) : M world unit :=
  when_m (has_items p)
    (modify (set_imagesLoadedRef (repeat (Some false) (length (items p)))) ;;;
     r <- create_canvases p e 0 (items p) ;;
     match r with Some l => modify (set_iconCanvasesRef l) | None => modify (set_halted true) end).

Definition n0 : num := nof 0.

(** [img.onload]. *)
Definition onload_ops (k : nat) (im : image) : list ctx_op :=
  if im_photo im then
    [ClearRect n0 n0 n40 n40; BeginPath; Arc n20 n20 n20 n0 (nmul Math_PI (nof 2)); ClosePath; Clip; DrawImage k n0 n0 (Some (n40, n40))]
  else [ClearRect n0 n0 n40 n40; DrawImage k n0 n0 None].

Definition update {A} (i : nat) (f : A -> A) (l : list A) : list A := mapi_from (fun j x => if j =? i then f x else x) 0 l.

Definition onload (k : nat) : M world unit :=
  ims <- get imgs ;;
  match nth_error ims k with
  | Some im =>
      when_m (negb (im_done im))
        (modify (set_imgs (update k (fun i => {| im_src := im_src i; im_photo := im_photo i; im_index := im_index i;
                                                im_canvas := im_canvas i; im_done := true |}) ims)) ;;;
         cs <- get canvases ;;
         modify (set_canvases (update (im_canvas im) (fun o => {| o_context := o_context o; o_ops := o_ops o ++ onload_ops k im |}) cs)) ;;;
         l <- get imagesLoadedRef ;; modify (set_imagesLoadedRef (set_index (im_index im) l)))
  | None => ret tt
  end.

(** ** The sphere *)

Definition icon_at (numIcons i : nat) : Icon :=
  let offset := ndiv (nof 2) (nof (Z.of_nat numIcons)) in
  let increment := nmul Math_PI (nsub (nof 3) (nsqrt (nof 5))) in
  let ni := nof (Z.of_nat i) in
  let y := nadd (nsub (nmul ni offset) (nof 1)) (ndiv offset (nof 2)) in
  let r := nsqrt (nsub (nof 1) (nmul y y)) in
  let phi := nmul ni increment in
  let x := nmul (Math_cos phi) r in
  let z := nmul (Math_sin phi) r in
  {| i_x := nmul x (nof 100); i_y := nmul y (nof 100); i_z := nmul z (nof 100); i_scale := nof 1; i_opacity := nof 1; i_id := i |}.

Definition numIcons (p : IconCloudProps) : nat := match length (items p) with O => 20 | n => n end.

Definition positions_effect (p : IconCloudProps) : M world unit :=
  setIconPositions (map (icon_at (numIcons p)) (seq 0 (numIcons p))).

(** ** The mouse *)

(** The target of a click at [(x, y)] on one icon, when it hits. *)
Definition aim (rot : num * num) (now x y : num) (icon : Icon) : option rotation_target :=
  let cosX := Math_cos (fst rot) in
  let sinX := Math_sin (fst rot) in
  let cosY := Math_cos (snd rot) in
  let sinY := Math_sin (snd rot) in
  let rotatedX := nsub (nmul (i_x icon) cosY) (nmul (i_z icon) sinY) in
  let rotatedZ := nadd (nmul (i_x icon) sinY) (nmul (i_z icon) cosY) in
  let rotatedY := nadd (nmul (i_y icon) cosX) (nmul rotatedZ sinX) in
  let screenX := nadd (ndiv canvas_size (nof 2)) rotatedX in
  let screenY := nadd (ndiv canvas_size (nof 2)) rotatedY in
  let scale := ndiv (nadd rotatedZ (nof 200)) (nof 300) in
  let radius := nmul (nof 20) scale in
  let dx := nsub x screenX in
  let dy := nsub y screenY in
  if nlt (nadd (nmul dx dx) (nmul dy dy)) (nmul radius radius) then
    let targetX := nneg (Math_atan2 (i_y icon) (nsqrt (nadd (nmul (i_x icon) (i_x icon)) (nmul (i_z icon) (i_z icon))))) in
    let targetY := Math_atan2 (i_x icon) (i_z icon) in
    let currentX := fst rot in
    let currentY := snd rot in
    let distance := nsqrt (nadd (Math_pow (nsub targetX currentX) (nof 2)) (Math_pow (nsub targetY currentY) (nof 2))) in
    let duration := Math_min (nof 2000) (Math_max (nof 800) (nmul distance (nof 1000))) in
    Some {| t_x := targetX; t_y := targetY; startX := currentX; startY := currentY; t_distance := distance; startTime := now;
            t_duration := duration |}
  else None.

(** [iconPositions.forEach(...)]: the [return] of the callback does not stop it. *)
Fixpoint aim_all (rot : num * num) (now x y : num) (l : list Icon) : M world unit :=
  match l with
  | [] => ret tt
  | icon :: l' =>
      match aim rot now x y icon with Some t => setTargetRotation (Some t) | None => ret tt end ;;;
      aim_all rot now x y l'
  end.

Definition handleMouseDown (e : env) (clientX clientY : num) : M world unit :=
  when_m context
    (u <- get ui ;; rot <- get rotationRef ;;
     aim_all rot (e_now e) (nsub clientX (e_left e)) (nsub clientY (e_top e)) (iconPositions u) ;;;
     setIsDragging true ;;;
     setLastMousePos (clientX, clientY)).

Definition handleMouseMove (e : env) (clientX clientY : num) : M world unit :=
  u <- get ui ;; rot <- get rotationRef ;;
  setMousePos (nsub clientX (e_left e), nsub clientY (e_top e)) ;;;
  when_m (isDragging u)
    (let deltaX := nsub clientX (fst (lastMousePos u)) in
     let deltaY := nsub clientY (snd (lastMousePos u)) in
     modify (set_rotationRef (nadd (fst rot) (nmul deltaY (lit 2 1000)), nadd (snd rot) (nmul deltaX (lit 2 1000)))) ;;;
     setLastMousePos (clientX, clientY)).

Definition handleMouseUp : M world unit := setIsDragging false.

(** ** The animation *)

Definition draw_icon (p : IconCloudProps) (rot : num * num) (pictures : list nat) (loaded : list (option bool)) (index : nat)
    (icon : Icon) : list ctx_op :=
  let cosX := Math_cos (fst rot) in
  let sinX := Math_sin (fst rot) in
  let cosY := Math_cos (snd rot) in
  let sinY := Math_sin (snd rot) in
  let rotatedX := nsub (nmul (i_x icon) cosY) (nmul (i_z icon) sinY) in
  let rotatedZ := nadd (nmul (i_x icon) sinY) (nmul (i_z icon) cosY) in
  let rotatedY := nadd (nmul (i_y icon) cosX) (nmul rotatedZ sinX) in
  let scale := ndiv (nadd rotatedZ (nof 200)) (nof 300) in
  let opacity := Math_max (lit 2 10) (Math_min (nof 1) (ndiv (nadd rotatedZ (nof 150)) (nof 200))) in
  [Save; Translate (nadd (ndiv canvas_size (nof 2)) rotatedX) (nadd (ndiv canvas_size (nof 2)) rotatedY);
   Scale scale scale; GlobalAlpha opacity]
  ++ (if has_items p then
        match nth_error pictures index with
        | Some c => if is_loaded loaded index then [DrawImage c (nneg n20) (nneg n20) (Some (n40, n40))] else []
        | None => []
        end
      else
        [BeginPath; Arc n0 n0 n20 n0 (nmul Math_PI (nof 2)); FillStyle (js "#4444ff"); FillPath; FillStyle (js "white");
         TextAlign (js "center"); TextBaseline (js "middle"); Font (js "16px Arial"); FillText (nat_to_js (i_id icon + 1)) n0 n0])
  ++ [Restore].

Definition shouldContinue (p : IconCloudProps) (c : ui_state) (loaded : list (option bool)) : bool :=
  negb (isPaused c) || isDragging c || (match targetRotation c with Some _ => true | None => false end)
  || (has_items p && negb (every_loaded loaded)).

Definition requestAnimationFrame : M world unit :=
  k <- get nextId ;; q <- get pending ;; modify (set_pending (q ++ [k]) (S k)) ;;; modify (set_animationFrameRef k).

(** The rotation of the next frame, towards the target or by itself. *)
Definition rotate (e : env) (c : ui_state) : M world unit :=
  let centerX := ndiv canvas_size (nof 2) in
  let centerY := ndiv canvas_size (nof 2) in
  let maxDistance := nsqrt (nadd (nmul centerX centerX) (nmul centerY centerY)) in
  let dx := nsub (fst (mousePos c)) centerX in
  let dy := nsub (snd (mousePos c)) centerY in
  let distance := nsqrt (nadd (nmul dx dx) (nmul dy dy)) in
  let speed := nadd (lit 3 1000) (nmul (ndiv distance maxDistance) (lit 1 100)) in
  rot <- get rotationRef ;;
  match targetRotation c with
  | Some t =>
      let elapsed := nsub (e_now e) (startTime t) in
      let progress := Math_min (nof 1) (ndiv elapsed (t_duration t)) in
      let easedProgress := easeOutCubic progress in
      modify (set_rotationRef (nadd (startX t) (nmul (nsub (t_x t) (startX t)) easedProgress),
                               nadd (startY t) (nmul (nsub (t_y t) (startY t)) easedProgress))) ;;;
      when_m (nle (nof 1) progress) (setTargetRotation None)
  | None =>
      when_m (negb (isDragging c) && negb (isPaused c))
        (modify (set_rotationRef (nadd (fst rot) (nmul (ndiv dy canvas_size) speed),
                                  nadd (snd rot) (nmul (ndiv dx canvas_size) speed))))
  end.

Definition animate (p : IconCloudProps) (e : env) (c : ui_state) : M world unit :=
  rotate e c ;;;
  rot <- get rotationRef ;; pictures <- get iconCanvasesRef ;; loaded <- get imagesLoadedRef ;;
  modify (set_screen (ClearRect n0 n0 canvas_size canvas_size
                      :: concat (mapi_from (draw_icon p rot pictures loaded) 0 (iconPositions c)))) ;;;
  when_m (shouldContinue p c loaded) requestAnimationFrame.

(** The effect, for the state of the render it belongs to, and its cleanup. *)
Definition animation_effect (p : IconCloudProps) (e : env) (c : ui_state) : M world unit :=
  modify (set_captured c) ;;; when_m context (animate p e c).

Definition cleanup : M world unit :=
  k <- get animationFrameRef ;; q <- get pending ;; n <- get nextId ;;
  when_m (negb (k =? 0)) (modify (set_pending (filter (fun i => negb (i =? k)) q) n)).

(** Renders until no dependency changes: the effect itself may clear the target once. *)
Fixpoint flush (fuel : nat) (p : IconCloudProps) (e : env) : M world unit :=
  match fuel with
  | O => ret tt
  | S f =>
      d <- get dirty ;;
      when_m d (modify (set_dirty false) ;;; cleanup ;;; u <- get ui ;; animation_effect p e u ;;; flush f p e)
  end.

Definition init : world :=
  let u := {| iconPositions := []; isDragging := false; isPaused := false; lastMousePos := (n0, n0); mousePos := (n0, n0);
              targetRotation := None |} in
  {| ui := u; captured := u; animationFrameRef := 0; rotationRef := (n0, n0); iconCanvasesRef := []; imagesLoadedRef := [];
     pending := []; nextId := 1; screen := []; canvases := []; imgs := []; dirty := false; listening := false; halted := false |}.

(** The effects that depend on the items, then the animation for the state of this render. *)
Definition items_effects (p : IconCloudProps) (e : env) (c : ui_state) : M world unit :=
  canvases_effect p e ;;;
  dead <- get halted ;;
  if dead : bool then modify (set_listening false)
  else positions_effect p ;;; animation_effect p e c ;;; flush 2 p e.

Definition mount (p : IconCloudProps) (e : env) : M world unit :=
  u <- get ui ;;
  when_m (e_reduced e) (setIsPaused true) ;;;
  modify (set_listening true) ;;;
  items_effects p e u.

(** New [icons] or [images]. *)
Definition new_items (p : IconCloudProps) (e : env) : M world unit :=
  u <- get ui ;; cleanup ;;; items_effects p e u.

Inductive event :=
| ev_media (matches : bool) | ev_down (clientX clientY : num) | ev_move (clientX clientY : num) | ev_up | ev_toggle
| ev_frame | ev_load (k : nat) | ev_unmount.

Definition handle (p : IconCloudProps) (e : env) (ev : event) : M world unit :=
  on <- get listening ;;
  match ev with
  | ev_load k => onload k
  | _ =>
      when_m on
        (match ev with
         | ev_media matches_ => setIsPaused matches_
         | ev_down x y => handleMouseDown e x y
         | ev_move x y => handleMouseMove e x y
         | ev_up => handleMouseUp
         | ev_toggle => u <- get ui ;; when_m (showControl p) (setIsPaused (negb (isPaused u)))
         | ev_frame =>
             q <- get pending ;; n <- get nextId ;; c <- get captured ;;
             match q with [] => ret tt | _ :: rest => modify (set_pending rest n) ;;; animate p e c end
         | ev_load _ => ret tt
         | ev_unmount => cleanup ;;; modify (set_listening false)
         end ;;;
         still <- get listening ;; when_m still (flush 2 p e))
  end.

Inductive reachable : IconCloudProps -> world -> Prop :=
| ic_mount p e : reachable p (exec_m (mount p e) init)
| ic_step p e ev w : reachable p w -> reachable p (exec_m (handle p e ev) w)
| ic_items p p' e w : listening w = true -> reachable p w -> reachable p' (exec_m (new_items p' e) w)
| ic_control p p' w : ic_icons p' = ic_icons p -> ic_images p' = ic_images p -> reachable p w -> reachable p' w.
End Cloud.

Definition IconCloud (p : IconCloudProps) (u : ui_state) : vnode :=
  VEl "div" [("className"%string, js "relative inline-block")]
    (VEl "canvas"
       [("width", js "400"); ("height", js "400"); ("className", js "rounded-lg"); ("aria-label", js "Interactive 3D Icon Cloud");
        ("role", js "img")]%string []
     :: when (showControl p)
          (VEl "Button"
             [("variant", js "outline"); ("size", js "icon");
              ("aria-label", if isPaused u then js "Play Animation" else js "Pause Animation");
              ("className", js "absolute top-2 right-2")]%string
             [VEl (if isPaused u then "Play" else "Pause") [("size", js "16")]%string []])).

(** ** Frames *)

(** The dependencies of the animation effect. *)
Definition deps (u : ui_state) := (iconPositions u, isDragging u, isPaused u, mousePos u, targetRotation u).

Definition one_frame (w : world) : Prop :=
  1 <= nextId w /\ (pending w = [] \/ (pending w = [animationFrameRef w] /\ animationFrameRef w <> 0)).

(** What only the effects on the items and the end of the component change. *)
Definition life (w : world) := (imagesLoadedRef w, iconCanvasesRef w, listening w, halted w).

Section Frames.
Context (Math_cos Math_sin : num -> num) (Math_atan2 Math_pow : num -> num -> num).
Context (renderToString : vnode -> jsstring) (btoa : jsstring -> option jsstring) (context : bool).

Definition frame_of (go : bool) (w : world) : nat * list nat * nat :=
  if go then (nextId w, [nextId w], S (nextId w)) else (animationFrameRef w, [], nextId w).

(** An effect or a frame: it schedules the next one exactly when the animation goes on, and changes the
    state only to clear a target. *)
Definition animated (p : IconCloudProps) (go : bool) (c : ui_state) (w w' : world) : Prop :=
  life w' = life w /\ (animationFrameRef w', pending w', nextId w') = frame_of go w /\
  ((ui w' = ui w /\ dirty w' = dirty w) \/
   (targetRotation c <> None /\ ui w' = set_targetRotation None (ui w) /\ dirty w' = true)).

Lemma setTargetRotation_none w :
  targetRotation (ui w) <> None ->
  exec_m (setTargetRotation None) w = set_dirty true (set_ui (set_targetRotation None (ui w)) w).
Proof. intros H. unfold setTargetRotation, change. run_steps. now destruct (targetRotation (ui w)). Qed.

Lemma rotate_spec e c w :
  targetRotation c = targetRotation (ui w) ->
  exists rot, exec_m (rotate Math_pow e c) w = set_rotationRef rot w \/
    (targetRotation c <> None /\
     exec_m (rotate Math_pow e c) w = set_dirty true (set_ui (set_targetRotation None (ui w)) (set_rotationRef rot w))).
Proof.
  intros H. unfold rotate. run_steps. destruct (targetRotation c) as [t|] eqn:E.
  - run_steps. destruct (nle _ _); cbn [when_m]; eexists; [right|left; reflexivity].
    split; [discriminate|]. rewrite setTargetRotation_none; [reflexivity|]. cbn [ui set_rotationRef]. congruence.
  - destruct (_ && _); cbn [when_m]; [eexists; left; reflexivity|]. exists (rotationRef w). left. now destruct w.
Qed.

Lemma cloud_animate_spec p e c w :
  targetRotation c = targetRotation (ui w) -> pending w = [] ->
  let w' := exec_m (animate Math_cos Math_sin Math_pow p e c) w in
  animated p (shouldContinue p c (imagesLoadedRef w)) c w w' /\ captured w' = captured w.
Proof using Math_cos Math_sin Math_pow.
  clear Math_atan2. intros H Hp w'. unfold w', animate. rewrite exec_bind.
  destruct (rotate_spec e c w H) as [rot [->|[Ht ->]]]; run_steps; cbn [imagesLoadedRef set_dirty set_ui set_rotationRef];
    destruct (shouldContinue _ _ _); cbn [when_m]; unfold animated, frame_of, requestAnimationFrame, life;
    run_steps; cbn; rewrite ?Hp; cbn; intuition auto.
Qed.

Lemma effect_spec p e w :
  pending w = [] ->
  let w' := exec_m (animation_effect Math_cos Math_sin Math_pow context p e (ui w)) w in
  animated p (context && shouldContinue p (ui w) (imagesLoadedRef w)) (ui w) w w' /\ captured w' = ui w.
Proof.
  intros Hp w'. unfold w', animation_effect. run_steps. destruct context; cbn [when_m andb].
  - destruct (cloud_animate_spec p e (ui w) (set_captured (ui w) w) eq_refl Hp) as [H1 H2]. split; [exact H1|exact H2].
  - split; [|reflexivity]. unfold animated, frame_of, life. cbn. rewrite Hp. auto.
Qed.

Lemma cloud_cleanup_spec w : one_frame w -> exec_m cleanup w = set_pending [] (nextId w) w.
Proof.
  intros [_ [H|[H Hk]]]; unfold cleanup; run_steps; rewrite H.
  - destruct (negb _); cbn [when_m filter]; [reflexivity|]. destruct w; cbn in *; now subst.
  - apply Nat.eqb_neq in Hk. rewrite Hk. cbn [negb when_m filter]. now rewrite Nat.eqb_refl.
Qed.

(** ** The invariant *)

(** The closure of the effect is up to date, and a frame is pending while the animation should go on. *)
Definition settled (p : IconCloudProps) (w : world) : Prop :=
  deps (captured w) = deps (ui w) /\
  (context = true -> shouldContinue p (ui w) (imagesLoadedRef w) = true -> pending w <> []).

Definition CInv (p : IconCloudProps) (w : world) : Prop :=
  one_frame w /\ (listening w = true -> dirty w = false -> settled p w) /\ (listening w = false -> pending w = []).

Definition clean (w : world) : Prop := listening w = true -> dirty w = false.

Lemma animated_frame p go c w w' : 1 <= nextId w -> animated p go c w w' -> one_frame w'.
Proof.
  intros Hn (_ & Hf & _). unfold frame_of in Hf. unfold one_frame. destruct go; injection Hf as -> -> ->; (split; [lia|]); [right|now left].
  split; [reflexivity|lia].
Qed.

Lemma animated_pending p go c w w' : animated p go c w w' -> pending w' = if go then [animationFrameRef w'] else [].
Proof. intros (_ & Hf & _). unfold frame_of in Hf. destruct go; injection Hf as E1 E2 _; now rewrite ?E1, E2. Qed.

Lemma animated_life p go c w w' : animated p go c w w' -> life w' = life w.
Proof. now intros (H & _). Qed.

(** A frame is pending exactly when the animation should go on. *)
Definition frame_exact (p : IconCloudProps) (w : world) : Prop :=
  pending w = if context && shouldContinue p (ui w) (imagesLoadedRef w) then [animationFrameRef w] else [].

(** After one run of the effect on a clean state. *)
Lemma cloud_effect_inv p e w :
  1 <= nextId w -> pending w = [] -> listening w = true -> dirty w = false ->
  let w' := exec_m (animation_effect Math_cos Math_sin Math_pow context p e (ui w)) w in
  CInv p w' /\ life w' = life w /\
  ((ui w' = ui w /\ dirty w' = false /\ frame_exact p w') \/
   (targetRotation (ui w) <> None /\ ui w' = set_targetRotation None (ui w) /\ dirty w' = true)).
Proof.
  intros Hn Hp Hl Hd w'. destruct (effect_spec p e w Hp) as [Ha Hc]. fold w' in Ha, Hc. assert (Ha0 := Ha).
  pose proof (animated_frame _ _ _ _ _ Hn Ha) as H1. pose proof (animated_pending _ _ _ _ _ Ha) as H2.
  pose proof (animated_life _ _ _ _ _ Ha) as H3. destruct Ha as (_ & _ & Hu). injection H3 as Hi _ Hl' _.
  rewrite Hl in Hl'. split; [|split; [now apply (animated_life _ _ _ _ _ Ha0)|]].
  - split; [exact H1|]. split; [|congruence]. intros _ Hd'. destruct Hu as [[Hu _]|(_ & _ & Hu)]; [|congruence].
    split; [now rewrite Hc, Hu|]. rewrite Hu, Hi, H2. intros -> ->. discriminate.
  - destruct Hu as [[Hu Hu']|Hu]; [left|right; exact Hu]. unfold frame_exact. rewrite Hu', Hd, Hu, Hi. auto.
Qed.

Lemma one_frame_pending w : one_frame w -> one_frame (set_pending [] (nextId w) w).
Proof. intros [H _]. split; [exact H|now left]. Qed.

(** Two runs of the effect are enough. *)
Lemma flush_inv p e w :
  CInv p w -> listening w = true ->
  let w' := exec_m (flush Math_cos Math_sin Math_pow context 2 p e) w in
  CInv p w' /\ clean w' /\ life w' = life w /\ (dirty w = false -> w' = w) /\ (dirty w = true -> frame_exact p w').
Proof.
  intros H Hl w'. unfold w'. cbn [flush]. rewrite exec_get. destruct (dirty w) eqn:Hd; cbn [when_m].
  2:{ rewrite exec_ret. split; [exact H|]. split; [intros _; exact Hd|]. repeat split. discriminate. }
  rewrite exec_modify, exec_bind, cloud_cleanup_spec by apply H. rewrite exec_get, exec_bind.
  set (w0 := set_pending [] _ _). cbn [ui set_pending set_dirty].
  destruct (cloud_effect_inv p e w0) as (H1 & L1 & C1); try reflexivity; [apply H|exact Hl|]. change (ui w) with (ui w0) in *.
  revert H1 L1 C1. generalize (exec_m (animation_effect Math_cos Math_sin Math_pow context p e (ui w0)) w0) as w1. intros w1 H1 L1 C1.
  change (life w0) with (life w) in L1. rewrite exec_get. destruct (dirty w1) eqn:Hd1; cbn [when_m].
  2:{ rewrite exec_ret. split; [exact H1|]. split; [intros _; exact Hd1|]. split; [exact L1|]. split; [discriminate|].
      intros _. destruct C1 as [(_ & _ & C1)|(_ & _ & C1)]; [exact C1|congruence]. }
  rewrite exec_modify, exec_bind, cloud_cleanup_spec by apply H1. rewrite exec_get, exec_bind, exec_ret.
  set (w2 := set_pending [] _ _). cbn [ui set_pending set_dirty].
  destruct (cloud_effect_inv p e w2) as (H2 & L2 & C2); try reflexivity; [apply H1|unfold life in L1; cbn; congruence|].
  change (ui w1) with (ui w2) in *. change (life w2) with (life w1) in L2.
  destruct C2 as [(_ & C2 & C3)|(C2 & _)].
  - split; [exact H2|]. split; [intros _; exact C2|]. split; [congruence|]. split; [discriminate|]. intros _. exact C3.
  - exfalso. apply C2. destruct C1 as [(_ & C1 & _)|(_ & C1 & _)]; [congruence|]. now rewrite C1.
Qed.

(** ** Handlers *)

Definition browser (w : world) := (animationFrameRef w, pending w, nextId w, captured w, life w).

(** A handler leaves the frames alone and either marks the state as changed or keeps the dependencies. *)
Definition soft (w w' : world) : Prop :=
  browser w' = browser w /\ (dirty w' = true \/ (dirty w' = dirty w /\ deps (ui w') = deps (ui w))).

Definition soft_m {A} (m : M world A) : Prop := forall w, soft w (exec_m m w).

Lemma soft_refl w : soft w w.
Proof. split; auto. Qed.

Lemma soft_trans w1 w2 w3 : soft w1 w2 -> soft w2 w3 -> soft w1 w3.
Proof.
  intros [B1 H1] [B2 H2]. split; [congruence|]. destruct H2 as [H2|[D2 H2]]; [now left|]. destruct H1 as [H1|[D1 H1]]; [left|right; split]; congruence.
Qed.

Lemma soft_bind {A B} (m : M world A) (f : A -> M world B) : soft_m m -> (forall a, soft_m (f a)) -> soft_m (bind m f).
Proof. intros Hm Hf w. rewrite exec_bind. eapply soft_trans; [apply Hm|apply Hf]. Qed.

Lemma soft_get {A} (f : world -> A) : soft_m (get f).
Proof. intros w. apply soft_refl. Qed.

Lemma soft_ret {A} (a : A) : soft_m (ret a).
Proof. intros w. apply soft_refl. Qed.

Lemma soft_when b m : soft_m m -> soft_m (when_m b m).
Proof. intros H. destruct b; [exact H|apply soft_ret]. Qed.

Lemma setIsDragging_soft v : soft_m (setIsDragging v).
Proof.
  intros w. unfold setIsDragging, change. run_steps. destruct (Bool.eqb_spec v (isDragging (ui w))) as [->|]; cbn [negb when_m];
    (split; [reflexivity|]); [right|now left]. split; [reflexivity|]. now destruct w as [[]].
Qed.

Lemma setIsPaused_soft v : soft_m (setIsPaused v).
Proof.
  intros w. unfold setIsPaused, change. run_steps. destruct (Bool.eqb_spec v (isPaused (ui w))) as [->|]; cbn [negb when_m];
    (split; [reflexivity|]); [right|now left]. split; [reflexivity|]. now destruct w as [[]].
Qed.

Lemma setMousePos_soft v : soft_m (setMousePos v).
Proof. intros w. split; [reflexivity|now left]. Qed.

Lemma setLastMousePos_soft v : soft_m (setLastMousePos v).
Proof. intros w. split; [reflexivity|]. right. split; reflexivity. Qed.

Lemma setTargetRotation_soft t : soft_m (setTargetRotation (Some t)).
Proof. intros w. split; [reflexivity|now left]. Qed.

Lemma set_rotationRef_soft v : soft_m (modify (set_rotationRef v)).
Proof. intros w. split; [reflexivity|]. right. split; reflexivity. Qed.

Lemma aim_all_soft rot now x y l : soft_m (aim_all Math_cos Math_sin Math_atan2 Math_pow rot now x y l).
Proof.
  induction l as [|icon l IH]; cbn [aim_all]; [apply soft_ret|]. apply soft_bind; [|intros _; exact IH].
  destruct (aim _ _ _ _ _ _ _ _ _); [apply setTargetRotation_soft|apply soft_ret].
Qed.
End Frames.

#[export] Hint Resolve soft_bind soft_get soft_ret soft_when setIsDragging_soft setIsPaused_soft setMousePos_soft
  setLastMousePos_soft setTargetRotation_soft set_rotationRef_soft aim_all_soft : kubecell.

Section Reach.
Context (Math_cos Math_sin : num -> num) (Math_atan2 Math_pow : num -> num -> num).
Context (renderToString : vnode -> jsstring) (btoa : jsstring -> option jsstring) (context : bool).

Lemma handleMouseDown_soft e x y : soft_m (handleMouseDown Math_cos Math_sin Math_atan2 Math_pow context e x y).
Proof. unfold handleMouseDown. auto 10 with kubecell. Qed.

Lemma handleMouseMove_soft e x y : soft_m (handleMouseMove e x y).
Proof. unfold handleMouseMove. auto 10 with kubecell. Qed.

Lemma shouldContinue_deps p u u' l : deps u' = deps u -> shouldContinue p u' l = shouldContinue p u l.
Proof. unfold deps. intros E. injection E as _ E1 E2 _ E3. unfold shouldContinue. now rewrite E1, E2, E3. Qed.

Lemma soft_inv p w w' : soft w w' -> CInv context p w -> CInv context p w'.
Proof.
  intros [B H] (Ho & Hs & Hl). unfold browser, life in B. injection B as B1 B2 B3 B4 B5 B6 B7 B8.
  unfold CInv, one_frame, settled. rewrite B1, B2, B3, B4, B5, B7. split; [exact Ho|]. split; [|exact Hl].
  intros L D. destruct H as [H|[D' H]]; [congruence|]. rewrite H, (shouldContinue_deps p _ _ _ H). apply Hs; congruence.
Qed.

(** ** Every event *)

Lemma onload_spec k w :
  let w' := exec_m (onload k) w in
  (animationFrameRef w', pending w', nextId w', captured w', ui w', dirty w', listening w')
  = (animationFrameRef w, pending w, nextId w, captured w, ui w, dirty w, listening w) /\
  (every_loaded (imagesLoadedRef w') = false -> every_loaded (imagesLoadedRef w) = false).
Proof.
  assert (Hs : forall i l, every_loaded (set_index i l) = false -> every_loaded l = false).
  { unfold every_loaded. induction i as [|i IH]; intros [|x l] H; cbn [set_index forallb default_of andb] in *.
    - discriminate.
    - rewrite H. apply andb_false_r.
    - exact (IH [] H).
    - destruct (default_of true x); cbn [andb] in *; auto. }
  unfold onload. run_steps. destruct (nth_error _ _) as [im|]; [|auto]. destruct (im_done im); cbn [negb when_m]; [auto|].
  run_steps. cbn. split; [reflexivity|apply Hs].
Qed.

Lemma onload_inv p k w : CInv context p w -> clean w -> CInv context p (exec_m (onload k) w) /\ clean (exec_m (onload k) w).
Proof.
  intros (Ho & Hs & Hl) Hc. destruct (onload_spec k w) as [E H]. revert E H. generalize (exec_m (onload k) w) as w'. intros w' E H.
  injection E as E1 E2 E3 E4 E5 E6 E7. unfold CInv, one_frame, settled, clean in *. rewrite E1, E2, E3, E4, E5, E6, E7.
  split; [|exact Hc]. split; [exact Ho|]. split; [|exact Hl]. intros L D. destruct (Hs L D) as [H1 H2]. split; [exact H1|].
  intros Hx Hg. apply H2; [exact Hx|]. unfold shouldContinue in *. apply orb_true_iff in Hg. apply orb_true_iff.
  destruct Hg as [Hg|Hg]; [now left|right]. apply andb_true_iff in Hg as [-> Hg]. apply negb_true_iff in Hg. now rewrite (H Hg).
Qed.

(** The frame itself, before the state is rendered again. *)
Lemma cloud_frame_inv p e w k :
  CInv context p w -> clean w -> listening w = true -> pending w = [k] ->
  let w' := exec_m (animate Math_cos Math_sin Math_pow p e (captured w)) (set_pending [] (nextId w) w) in
  CInv context p w' /\ life w' = life w /\
  (dirty w' = false -> ui w' = ui w /\ pending w' = if shouldContinue p (ui w) (imagesLoadedRef w) then [animationFrameRef w'] else []).
Proof.
  intros (Ho & Hs & Hl) Hc L Hp w'. destruct (Hs L (Hc L)) as [Hd _].
  assert (Hg : shouldContinue p (captured w) (imagesLoadedRef w) = shouldContinue p (ui w) (imagesLoadedRef w)) by now apply shouldContinue_deps.
  assert (Ht : targetRotation (captured w) = targetRotation (ui w)) by (unfold deps in Hd; congruence).
  destruct (cloud_animate_spec Math_cos Math_sin Math_pow p e (captured w) (set_pending [] (nextId w) w) Ht eq_refl) as [Ha Hca].
  fold w' in Ha, Hca. cbn [imagesLoadedRef set_pending captured] in Ha, Hca. rewrite Hg in Ha.
  pose proof (animated_frame _ _ _ _ _ (proj1 Ho : 1 <= nextId (set_pending [] (nextId w) w)) Ha) as H1.
  pose proof (animated_pending _ _ _ _ _ Ha) as H2. pose proof (animated_life _ _ _ _ _ Ha) as H3.
  destruct Ha as (_ & _ & Hu). change (life (set_pending [] (nextId w) w)) with (life w) in H3.
  cbn [ui dirty set_pending] in Hu. specialize (Hc L).
  assert (Hi : imagesLoadedRef w' = imagesLoadedRef w /\ listening w' = listening w) by (unfold life in H3; split; congruence).
  destruct Hi as [Hi Hl']. split; [|split; [exact H3|]].
  - split; [exact H1|]. split; [|congruence]. intros _ D. destruct Hu as [[Hu _]|(_ & _ & Hu)]; [|congruence].
    unfold settled. rewrite Hca, Hu, Hi, H2. split; [exact Hd|]. intros _ ->. discriminate.
  - intros D. destruct Hu as [[Hu _]|(_ & _ & Hu)]; [|congruence]. auto.
Qed.

(** ** The effects on the items *)

Definition kept (w : world) := (animationFrameRef w, pending w, nextId w, ui w, dirty w, listening w).

Lemma create_canvases_kept p e l : forall i w, kept (exec_m (create_canvases renderToString btoa p e i l) w) = kept w.
Proof.
  induction l as [|it l IH]; intros i w; cbn [create_canvases]; [reflexivity|]. rewrite exec_bind.
  assert (H : kept (exec_m (create_canvas renderToString btoa p e i it) w) = kept w).
  { unfold create_canvas. run_steps. destruct (negb _); [reflexivity|]. destruct (ic_images p); [reflexivity|].
    destruct it; [|reflexivity]. now destruct (btoa _). }
  destruct (run_m _ w); [|exact H]. rewrite exec_bind, exec_ret. congruence.
Qed.

Lemma canvases_effect_kept p e w : kept (exec_m (canvases_effect renderToString btoa p e) w) = kept w.
Proof.
  unfold canvases_effect. destruct (has_items p); cbn [when_m]; [|reflexivity]. rewrite exec_modify, exec_bind.
  pose proof (create_canvases_kept p e (items p) 0 (set_imagesLoadedRef (repeat (Some false) (length (items p))) w)) as H.
  destruct (run_m _ _); rewrite exec_modify_end; exact H.
Qed.

Lemma items_effects_inv p e c w :
  1 <= nextId w -> pending w = [] -> listening w = true -> targetRotation c = targetRotation (ui w) ->
  let w' := exec_m (items_effects Math_cos Math_sin Math_pow renderToString btoa context p e c) w in
  CInv context p w' /\ clean w'.
Proof.
  intros Hn Hp Hl Ht w'. unfold w', items_effects. rewrite exec_bind.
  pose proof (canvases_effect_kept p e w) as K. unfold kept in K. injection K as _ K2 K3 K4 _ K6.
  set (w1 := exec_m (canvases_effect renderToString btoa p e) w) in *. clearbody w1. rewrite exec_get.
  destruct (halted w1); [rewrite exec_modify_end; split; [|intros D; discriminate D]|].
  { split; [split; cbn; [lia|left; congruence]|]. split; [discriminate|]. cbn. congruence. }
  rewrite exec_bind. set (w2 := exec_m (positions_effect Math_cos Math_sin p) w1).
  assert (W2 : nextId w2 = nextId w1 /\ pending w2 = pending w1 /\ listening w2 = listening w1 /\
               targetRotation (ui w2) = targetRotation (ui w1) /\ dirty w2 = true) by (repeat split; reflexivity).
  clearbody w2. destruct W2 as (W1 & W2 & W3 & W4 & W5).
  assert (H2 : CInv context p (exec_m (animation_effect Math_cos Math_sin Math_pow context p e c) w2) /\
               dirty (exec_m (animation_effect Math_cos Math_sin Math_pow context p e c) w2) = true /\
               listening (exec_m (animation_effect Math_cos Math_sin Math_pow context p e c) w2) = true).
  { unfold animation_effect. rewrite exec_modify. destruct context; cbn [when_m].
    - destruct (cloud_animate_spec Math_cos Math_sin Math_pow p e c (set_captured c w2)) as [Ha _]; [cbn; congruence|cbn; congruence|].
      assert (Hd : dirty (exec_m (animate Math_cos Math_sin Math_pow p e c) (set_captured c w2)) = true)
        by (destruct Ha as (_ & _ & [[_ H]|(_ & _ & H)]); [rewrite H; exact W5|exact H]).
      pose proof (animated_life _ _ _ _ _ Ha) as Hf. unfold life in Hf. cbn in Hf.
      split; [|split; [exact Hd|congruence]]. split; [eapply animated_frame; [|exact Ha]; cbn; lia|]. split; congruence.
    - rewrite exec_ret. split; [|split; cbn; congruence]. split; [split; cbn; [lia|left; congruence]|]. split; cbn; congruence. }
  rewrite exec_bind. destruct H2 as (H2 & _ & H3). destruct (flush_inv Math_cos Math_sin Math_pow context p e _ H2 H3) as (H4 & H5 & _). auto.
Qed.

Lemma cloud_mount_inv p e :
  let w := exec_m (mount Math_cos Math_sin Math_pow renderToString btoa context p e) init in CInv context p w /\ clean w.
Proof.
  unfold mount. rewrite exec_get, exec_bind. set (w1 := exec_m (when_m _ _) init).
  assert (W : nextId w1 = 1 /\ pending w1 = [] /\ targetRotation (ui w1) = None)
    by (unfold w1; destruct (e_reduced e); repeat split; reflexivity).
  clearbody w1. destruct W as (W1 & W2 & W3). rewrite exec_modify. apply items_effects_inv; cbn; try congruence. lia.
Qed.

Lemma new_items_inv p p' e w :
  CInv context p w -> listening w = true ->
  let w' := exec_m (new_items Math_cos Math_sin Math_pow renderToString btoa context p' e) w in CInv context p' w' /\ clean w'.
Proof.
  intros (Ho & _) Hl. unfold new_items. rewrite exec_get, exec_bind, cloud_cleanup_spec by exact Ho.
  apply items_effects_inv; try reflexivity; [apply Ho|exact Hl].
Qed.

(** A handler that leaves the frames alone, then the render. *)
Lemma soft_event_inv {A} p e (m : M world A) w :
  soft_m m -> CInv context p w -> listening w = true ->
  let w' := exec_m (m ;;; still <- get listening ;; when_m still (flush Math_cos Math_sin Math_pow context 2 p e)) w in
  CInv context p w' /\ clean w'.
Proof.
  intros Hm H Hl. rewrite exec_bind, exec_get. specialize (Hm w). assert (L : listening (exec_m m w) = true).
  { destruct Hm as [B _]. unfold browser, life in B. congruence. }
  rewrite L. cbn [when_m]. destruct (flush_inv Math_cos Math_sin Math_pow context p e _ (soft_inv p _ _ Hm H) L) as (H1 & H2 & _). auto.
Qed.

Abbreviation handle_c := (handle Math_cos Math_sin Math_atan2 Math_pow context).

Lemma frame_event p e w :
  CInv context p w -> clean w -> listening w = true -> pending w <> [] ->
  let w' := exec_m (handle_c p e ev_frame) w in
  CInv context p w' /\ clean w' /\ (context = true -> frame_exact context p w').
Proof.
  intros H Hc Hl Hp. assert (H0 := H). destruct H0 as ((_ & Ho) & _). unfold handle. rewrite exec_get, Hl. cbn [when_m].
  rewrite exec_bind. destruct Ho as [Ho|[Ho _]]; [congruence|].
  destruct (cloud_frame_inv p e w _ H Hc Hl Ho) as (H1 & L1 & E1). run_steps. rewrite Ho. rewrite exec_modify.
  set (w1 := exec_m (animate Math_cos Math_sin Math_pow p e (captured w)) (set_pending [] (nextId w) w)) in *. clearbody w1.
  assert (L : listening w1 = true) by (unfold life in L1; congruence). rewrite L. cbn [when_m].
  destruct (flush_inv Math_cos Math_sin Math_pow context p e w1 H1 L) as (H2 & C2 & _ & F1 & F2).
  split; [exact H2|]. split; [exact C2|]. intros ->. destruct (dirty w1) eqn:D; [now apply F2|]. rewrite (F1 eq_refl).
  destruct (E1 eq_refl) as [U P]. unfold frame_exact. rewrite P, U. cbn [andb]. unfold life in L1. injection L1 as -> _ _ _. reflexivity.
Qed.

Lemma cloud_handle_inv p e ev w : CInv context p w -> clean w -> CInv context p (exec_m (handle_c p e ev) w) /\ clean (exec_m (handle_c p e ev) w).
Proof.
  intros H Hc. destruct (listening w) eqn:Hl.
  2:{ destruct ev; try (unfold handle; rewrite exec_get, Hl; cbn [when_m]; rewrite exec_ret; now split).
      unfold handle. rewrite exec_get. now apply onload_inv. }
  destruct ev as [b|x y|x y| | | |k|].
  1-5: unfold handle; rewrite exec_get, Hl; cbn [when_m]; apply soft_event_inv; auto with kubecell.
  - apply handleMouseDown_soft.
  - apply handleMouseMove_soft.
  - apply setIsDragging_soft.
  - destruct (pending w) as [|k rest] eqn:Ep.
    + unfold handle. rewrite exec_get, Hl. cbn [when_m]. rewrite exec_bind. run_steps. rewrite Ep. run_steps. rewrite Hl. cbn [when_m].
      destruct (flush_inv Math_cos Math_sin Math_pow context p e w H Hl) as (H1 & H2 & _). auto.
    + assert (Hp : pending w <> []) by congruence. destruct (frame_event p e w H Hc Hl Hp) as (H1 & H2 & _). auto.
  - unfold handle. rewrite exec_get. now apply onload_inv.
  - unfold handle. rewrite exec_get, Hl. cbn [when_m]. rewrite exec_bind. rewrite (exec_bind cleanup), cloud_cleanup_spec by apply H. run_steps.
    cbn [listening set_listening when_m]. rewrite exec_ret. split; [|intros D; discriminate D].
    split; [split; cbn; [apply H|now left]|]. split; [discriminate|reflexivity].
Qed.

Lemma cloud_reachable_inv p w :
  reachable Math_cos Math_sin Math_atan2 Math_pow renderToString btoa context p w -> CInv context p w /\ clean w.
Proof.
  induction 1 as [p e|p e ev w _ [IH1 IH2]|p p' e w Hl _ [IH1 IH2]|p p' w E1 E2 _ [IH1 IH2]].
  - apply cloud_mount_inv.
  - now apply cloud_handle_inv.
  - eapply new_items_inv; eauto.
  - split; [|exact IH2]. destruct IH1 as (H1 & H2 & H3). split; [exact H1|]. split; [|exact H3]. intros L D.
    destruct (H2 L D) as [H4 H5]. split; [exact H4|]. unfold shouldContinue, has_items in *. now rewrite E1, E2.
Qed.
End Reach.


(** ** Clicks *)

Lemma nsub_diag x : is_finite x = true -> nsub x x = nof 0.
Proof.
  destruct x as [s| | |s m e]; try discriminate; intros _; [destruct s; reflexivity|].
  unfold nsub, SFsub. now rewrite Z.sub_diag.
Qed.

Section Clicks.
Context (Math_cos Math_sin : num -> num) (Math_atan2 Math_pow : num -> num -> num).
#[local] Opaque nadd nsub nmul ndiv nsqrt nof lit.
Abbreviation aim_c := (aim Math_cos Math_sin Math_atan2 Math_pow).

(** A click on the centre of a drawn icon hits it: the handler and the frame compute the same place. *)
Lemma aim_center p rot pictures loaded index icon now sx sy s rest :
  draw_icon Math_cos Math_sin p rot pictures loaded index icon = Save :: Translate sx sy :: Scale s s :: rest ->
  is_finite sx = true -> is_finite sy = true -> nlt (nof 0) (nmul (nmul (nof 20) s) (nmul (nof 20) s)) = true ->
  exists t, aim_c rot now sx sy icon = Some t.
Proof.
  unfold draw_icon. cbn [app]. intros E. injection E as <- <- <- _. intros F1 F2 Hr. unfold aim. rewrite !nsub_diag by assumption.
  change (nadd (nmul (nof 0) (nof 0)) (nmul (nof 0) (nof 0))) with (nof 0). rewrite Hr. eauto.
Qed.

Lemma aim_duration rot now x y icon t :
  aim_c rot now x y icon = Some t -> is_nan (t_duration t) = false ->
  nle (nof 800) (t_duration t) = true /\ nle (t_duration t) (nof 2000) = true.
Proof.
  unfold aim. destruct (nlt _ _); [|discriminate]. intros E. injection E as <-. cbn [t_duration]. set (d := nmul _ (nof 1000)). intros Hn.
  assert (H1 : nle (nof 800) (nof 2000) = true) by (vm_compute; reflexivity).
  destruct (nle_no_nan _ _ H1) as [N1 N2]. assert (Hd : is_nan d = false).
  { destruct (is_nan d) eqn:E; [|reflexivity]. now destruct d. }
  split.
  - apply Math_min_glb; [exact H1|]. now apply Math_max_ge.
  - apply Math_min_le; [exact N2|]. now apply Math_max_nan.
Qed.

(** The target after a click: that of the last icon hit. *)
Definition last_hit (rot : num * num) (now x y : num) (l : list Icon) (t : option rotation_target) : option rotation_target :=
  fold_left (fun acc icon => match aim_c rot now x y icon with Some t => Some t | None => acc end) l t.

Lemma aim_all_spec rot now x y l : forall w,
  targetRotation (ui (exec_m (aim_all Math_cos Math_sin Math_atan2 Math_pow rot now x y l) w))
  = last_hit rot now x y l (targetRotation (ui w)).
Proof.
  induction l as [|icon l IH]; intros w; cbn [aim_all]; [reflexivity|]. rewrite exec_bind, IH. unfold last_hit. cbn [fold_left].
  f_equal. now destruct (aim _ _ _ _ _ _ _ _ _).
Qed.

Lemma aim_all_rotation rot now x y l : forall w,
  rotationRef (exec_m (aim_all Math_cos Math_sin Math_atan2 Math_pow rot now x y l) w) = rotationRef w.
Proof.
  induction l as [|icon l IH]; intros w; cbn [aim_all]; [reflexivity|]. rewrite exec_bind, IH. now destruct (aim _ _ _ _ _ _ _ _ _).
Qed.

Lemma press_spec v w :
  let w' := exec_m (setIsDragging true ;;; setLastMousePos v) w in
  (isDragging (ui w'), targetRotation (ui w'), rotationRef w') = (true, targetRotation (ui w), rotationRef w).
Proof. unfold setIsDragging, setLastMousePos, change. cbv zeta. rewrite exec_bind. run_steps. now destruct (isDragging (ui w)). Qed.

Lemma last_hit_app rot now x y l1 icon l2 t0 t :
  aim_c rot now x y icon = Some t -> exists icon' t', In icon' (icon :: l2) /\ aim_c rot now x y icon' = Some t' /\
    last_hit rot now x y (l1 ++ icon :: l2) t0 = Some t'.
Proof.
  intros H. unfold last_hit. rewrite fold_left_app. cbn [fold_left]. rewrite H. revert icon t H.
  generalize (fold_left (fun acc icon => match aim_c rot now x y icon with Some t => Some t | None => acc end) l1 t0). intros _.
  induction l2 as [|i l2 IH]; intros icon t H; cbn [fold_left]; [exists icon, t; auto with datatypes|].
  destruct (aim_c rot now x y i) as [t'|] eqn:E.
  - destruct (IH i t' E) as (a & b & Hin & Ha & Hb). exists a, b. split; [now right|auto].
  - destruct (IH icon t H) as (a & b & Hin & Ha & Hb). exists a, b. split; [|auto]. destruct Hin as [<-|Hin]; [now left|right; now right].
Qed.
End Clicks.

(** C31: A mouse press on the centre of an icon as the last frame drew it aims the rotation at that icon, or
    at a later one under the same point: the handler and the frame compute the same place.  The
    animation starts now from the current rotation, and lasts between 0.8 and 2 seconds. *)
Theorem icon_cloud_click cos sin atan2 pow p e w l1 icon l2 x y s rest :
  iconPositions (ui w) = l1 ++ icon :: l2 ->
  draw_icon cos sin p (rotationRef w) (iconCanvasesRef w) (imagesLoadedRef w) (length l1) icon
    = Save :: Translate (nsub x (e_left e)) (nsub y (e_top e)) :: Scale s s :: rest ->
  is_finite (nsub x (e_left e)) = true -> is_finite (nsub y (e_top e)) = true ->
  nlt (nof 0) (nmul (nmul (nof 20) s) (nmul (nof 20) s)) = true ->
  let w' := exec_m (handleMouseDown cos sin atan2 pow true e x y) w in
  isDragging (ui w') = true /\ rotationRef w' = rotationRef w /\
  exists icon' t, In icon' (icon :: l2) /\ targetRotation (ui w') = Some t /\
    aim cos sin atan2 pow (rotationRef w) (e_now e) (nsub x (e_left e)) (nsub y (e_top e)) icon' = Some t /\
    (is_nan (t_duration t) = false -> nle (nof 800) (t_duration t) = true /\ nle (t_duration t) (nof 2000) = true).
Proof.
  intros El Hd F1 F2 Hr w'. destruct (aim_center cos sin atan2 pow _ _ _ _ _ _ (e_now e) _ _ _ _ Hd F1 F2 Hr) as [t Ht].
  destruct (last_hit_app cos sin atan2 pow _ _ _ _ l1 icon l2 (targetRotation (ui w)) t Ht) as (icon' & t' & Hin & Ha & Hl).
  rewrite <- El, <- aim_all_spec in Hl. pose proof (aim_all_rotation cos sin atan2 pow (rotationRef w) (e_now e)
    (nsub x (e_left e)) (nsub y (e_top e)) (iconPositions (ui w)) w) as Hro.
  unfold w', handleMouseDown. cbn [when_m]. rewrite exec_get, exec_get, exec_bind. revert Hl Hro.
  generalize (exec_m (aim_all cos sin atan2 pow (rotationRef w) (e_now e) (nsub x (e_left e)) (nsub y (e_top e)) (iconPositions (ui w))) w) as w1.
  intros w1 Hl Hro. pose proof (press_spec (x, y) w1) as P. cbv zeta in P. injection P as -> P2 ->. split; [reflexivity|]. split; [exact Hro|].
  exists icon', t'. rewrite P2. repeat split; auto; intros; now apply (aim_duration cos sin atan2 pow _ _ _ _ _ _ Ha).
Qed.

(** ** Arrival *)

Section Arrival.
Context (Math_cos Math_sin : num -> num) (Math_pow : num -> num -> num).
(** A case the language specifies exactly. *)
Hypothesis pow_zero : Math_pow (nof 0) (nof 3) = nof 0.

Lemma min_one r : nle (nof 1) r = true -> Math_min (nof 1) r = nof 1.
Proof.
  intros H. apply nle_spec in H. unfold Math_min. destruct H as [E|E]; rewrite E; [reflexivity|].
  destruct r as [[]| | |]; try reflexivity. discriminate E.
Qed.

Lemma rotate_arrives e c t w :
  targetRotation c = Some t -> targetRotation (ui w) = Some t ->
  nle (nof 1) (ndiv (nsub (e_now e) (startTime t)) (t_duration t)) = true ->
  exec_m (rotate Math_pow e c) w =
  set_dirty true (set_ui (set_targetRotation None (ui w))
    (set_rotationRef (nadd (startX t) (nmul (nsub (t_x t) (startX t)) (nof 1)), nadd (startY t) (nmul (nsub (t_y t) (startY t)) (nof 1))) w)).
Proof using pow_zero.
  intros Hc Hw Hr. unfold rotate. run_steps. rewrite Hc, (min_one _ Hr). change (nle (nof 1) (nof 1)) with true. cbn [when_m].
  assert (E : easeOutCubic Math_pow (nof 1) = nof 1).
  { unfold easeOutCubic. change (nsub (nof 1) (nof 1)) with (nof 0). rewrite pow_zero. reflexivity. }
  rewrite E, exec_modify, setTargetRotation_none; [reflexivity|]. cbn [ui set_rotationRef]. congruence.
Qed.

(** An effect that leaves the rotation alone. *)
Lemma rotate_still e c w :
  targetRotation c = None -> isDragging c || isPaused c = true -> exec_m (rotate Math_pow e c) w = w.
Proof.
  intros Hc Hd. unfold rotate. run_steps. rewrite Hc. replace (negb (isDragging c) && negb (isPaused c)) with false; [reflexivity|].
  rewrite <- negb_orb, Hd. reflexivity.
Qed.

Lemma animate_after p e c w w1 :
  exec_m (rotate Math_pow e c) w = w1 ->
  let w' := exec_m (animate Math_cos Math_sin Math_pow p e c) w in
  (ui w', rotationRef w', dirty w', screen w') =
  (ui w1, rotationRef w1, dirty w1,
   ClearRect n0 n0 canvas_size canvas_size
   :: concat (mapi_from (draw_icon Math_cos Math_sin p (rotationRef w1) (iconCanvasesRef w1) (imagesLoadedRef w1)) 0 (iconPositions c))).
Proof.
  intros E. unfold animate. rewrite exec_bind, E. cbv zeta. run_steps. unfold requestAnimationFrame. now destruct (shouldContinue _ _ _).
Qed.
End Arrival.

(** The picture of the current state. *)
Definition shows (cos sin : num -> num) (p : IconCloudProps) (w : world) : Prop :=
  screen w = ClearRect n0 n0 canvas_size canvas_size
             :: concat (mapi_from (draw_icon cos sin p (rotationRef w) (iconCanvasesRef w) (imagesLoadedRef w)) 0 (iconPositions (ui w))).

(** Once its duration has passed, the next frame ends an animation towards an icon: the rotation is the
    start plus the whole way to the target, the target is cleared, and the icons are drawn with that
    rotation; with the mouse held or the cloud paused it then stays there. *)
Theorem icon_cloud_arrives cos sin atan2 pow renderToString btoa p e w t :
  pow (nof 0) (nof 3) = nof 0 ->
  reachable cos sin atan2 pow renderToString btoa true p w -> listening w = true -> targetRotation (ui w) = Some t ->
  isDragging (ui w) || isPaused (ui w) = true ->
  nle (nof 1) (ndiv (nsub (e_now e) (startTime t)) (t_duration t)) = true ->
  let w' := exec_m (handle cos sin atan2 pow true p e ev_frame) w in
  targetRotation (ui w') = None /\
  rotationRef w' = (nadd (startX t) (nmul (nsub (t_x t) (startX t)) (nof 1)), nadd (startY t) (nmul (nsub (t_y t) (startY t)) (nof 1))) /\
  shows cos sin p w'.
Proof.
  intros Hpow Hreach Hl Ht Hstill Hr. apply cloud_reachable_inv in Hreach as [H Hc].
  assert (H0 := H). destruct H0 as ((_ & Ho) & Hs & _). destruct (Hs Hl (Hc Hl)) as [Hd Hgo].
  assert (Hct : targetRotation (captured w) = Some t) by (unfold deps in Hd; congruence).
  assert (Hp : pending w = [animationFrameRef w]).
  { destruct Ho as [Ho|[Ho _]]; [|exact Ho]. exfalso. apply Hgo; auto. unfold shouldContinue. rewrite Ht. now rewrite !orb_true_r. }
  destruct (cloud_frame_inv cos sin pow true p e w _ H Hc Hl Hp) as (H1 & L1 & _).
  pose proof (animate_after cos sin pow p e (captured w) (set_pending [] (nextId w) w) _
                (rotate_arrives pow Hpow e (captured w) t (set_pending [] (nextId w) w) Hct Ht Hr)) as A1.
  unfold handle. rewrite exec_get, Hl. cbn [when_m]. rewrite exec_bind. run_steps. rewrite Hp, exec_modify.
  set (w1 := exec_m (animate cos sin pow p e (captured w)) (set_pending [] (nextId w) w)) in *. clearbody w1.
  cbn [ui set_dirty set_ui set_rotationRef rotationRef dirty set_pending] in A1. injection A1 as U1 R1 D1 _.
  assert (L : listening w1 = true) by (unfold life in L1; congruence). rewrite L. cbn [when_m flush]. rewrite exec_get, D1. cbn [when_m].
  rewrite exec_modify, exec_bind, cloud_cleanup_spec by apply H1. rewrite exec_get, exec_bind. unfold animation_effect. rewrite exec_modify.
  set (w2 := set_captured _ _). cbn [when_m].
  pose proof (animate_after cos sin pow p e (ui w1) w2 w2) as A2. cbv zeta in A2.
  rewrite (rotate_still pow e (ui w1) w2) in A2; [|now rewrite U1|now rewrite U1]. specialize (A2 eq_refl).
  assert (K : life (exec_m (animate cos sin pow p e (ui w1)) w2) = life w2).
  { destruct (cloud_animate_spec cos sin pow p e (ui w1) w2 eq_refl eq_refl) as [Ha _]. exact (animated_life _ _ _ _ _ Ha). }
  change (ui (set_pending [] (nextId (set_dirty false w1)) (set_dirty false w1))) with (ui w1).
  set (w3 := exec_m (animate cos sin pow p e (ui w1)) w2) in *. clearbody w3.
  injection A2 as U3 R3 D3 S3. rewrite exec_get, D3. cbn [dirty w2 set_captured set_pending set_dirty when_m]. rewrite exec_ret.
  change (ui w2) with (ui w1) in U3. change (rotationRef w2) with (rotationRef w1) in R3. unfold life in K. injection K as K1 K2 _ _.
  split; [now rewrite U3, U1|]. split; [now rewrite R3, R1|]. unfold shows. rewrite S3, K1, K2, U3, R3. reflexivity.
Qed.

(** ** Witnesses *)

Definition flat_cos (_ : num) : num := nof 1.
Definition flat_sin (_ : num) : num := nof 0.
Definition flat_atan2 (_ _ : num) : num := nof 0.
Definition flat_pow (x _ : num) : num := x.

Definition demo_props : IconCloudProps := {| ic_icons := None; ic_images := None; showControl := true |}.
Definition at_time (now : Z) : env := {| e_left := nof 0; e_top := nof 0; e_now := nof now; e_reduced := false; e_offscreen := true |}.

Definition demo_mounted : world :=
  exec_m (mount flat_cos flat_sin flat_pow (fun _ => []) Some true demo_props (at_time 0)) init.

Abbreviation demo_reachable := (reachable flat_cos flat_sin flat_atan2 flat_pow (fun _ => []) Some true demo_props).
Abbreviation demo_handle := (handle flat_cos flat_sin flat_atan2 flat_pow true demo_props).


Definition demo_icon : Icon := icon_at flat_cos flat_sin 20 0.
Definition demo_center : num * num :=
  match draw_icon flat_cos flat_sin demo_props (rotationRef demo_mounted) [] [] 0 demo_icon with
  | _ :: Translate x y :: _ => (x, y)
  | _ => (nof 0, nof 0)
  end.

Lemma icon_cloud_click_witness :
  isDragging (ui (exec_m (handleMouseDown flat_cos flat_sin flat_atan2 flat_pow true (at_time 20) (fst demo_center) (snd demo_center)) demo_mounted)) = true.
Proof.
  apply (icon_cloud_click flat_cos flat_sin flat_atan2 flat_pow demo_props (at_time 20) demo_mounted [] demo_icon
           (map (icon_at flat_cos flat_sin 20) (seq 1 19)) (fst demo_center) (snd demo_center) (ndiv (nof 200) (nof 300))
           (skipn 3 (draw_icon flat_cos flat_sin demo_props (rotationRef demo_mounted) [] [] 0 demo_icon))); vm_compute; reflexivity.
Defined.

Definition demo_aimed : world := exec_m (demo_handle (at_time 20) (ev_down (fst demo_center) (snd demo_center))) demo_mounted.
Definition demo_target : rotation_target :=
  default_of (Target (nof 0) (nof 0) (nof 0) (nof 0) (nof 0) (nof 0) (nof 0)) (targetRotation (ui demo_aimed)).

Lemma icon_cloud_arrives_witness :
  targetRotation (ui (exec_m (demo_handle (at_time 3000) ev_frame) demo_aimed)) = None.
Proof.
  apply (icon_cloud_arrives flat_cos flat_sin flat_atan2 flat_pow (fun _ => []) Some demo_props (at_time 3000) demo_aimed demo_target eq_refl
           (ic_step _ _ _ _ _ _ _ _ _ _ _ (ic_mount _ _ _ _ _ _ _ _ _))); vm_compute; reflexivity.
Defined.
