(* ===== verification/DiaTextReveal.v ===== *)
(** * The text reveal ([website/components/magicui/dia-text-reveal.tsx])

    A gradient sweeps over a text, once or for ever over several texts.  The record [dia] holds the
    React state, the references, the animations the motion library is running and the timers of the
    browser.  The library only notifies: it moves the value it animates and reports that an animation
    has completed, unless it was stopped.  The operator [**] is a parameter, since the language leaves
    its results to the implementation, and so is the width the browser measures for a text. *)

From Stdlib Require Import String List Arith NArith ZArith Lia Bool SpecFloat.
From S2P Require Import Prelude JsString JsNum NumText Dom.
Import ListNotations.
Local Open Scope list_scope.

(** [text: string | string[]]. *)
Inductive text_prop := One (s : jsstring) | Many (l : list jsstring).

Record DiaTextRevealProps := {
  dt_text : text_prop; dt_colors : list jsstring; dt_textColor : jsstring; dt_duration : num; dt_delay : num; dt_repeat : bool;
  dt_repeatDelay : num; dt_startOnView : bool; dt_once : bool; dt_className : option jsstring; dt_fixedWidth : bool;
  dt_rest : list (string * jsstring) }.

Definition DEFAULT_COLORS : list jsstring := [js "#c679c4"; js "#fa3d1d"; js "#ffb005"; js "#e1e1fe"; js "#0358f7"].
Definition BAND_HALF : num := nof 17.
Definition SWEEP_START : num := nneg BAND_HALF.
Definition SWEEP_END : num := nadd (nof 100) BAND_HALF.

Definition texts (p : DiaTextRevealProps) : list jsstring := match dt_text p with One s => [s] | Many l => l end.
Definition isMulti (p : DiaTextRevealProps) : bool := 1 <? length (texts p).

(** The dependency of the measuring effect. *)
Definition text_key (p : DiaTextRevealProps) : jsstring := match dt_text p with One s => s | Many l => join [0%N] l end.

(** ** The gradient *)

Definition percent (x : num) : jsstring := toFixed x 2 ++ js "%".

Definition color_stop (pos bandStart : num) (n i : nat) (c : jsstring) : jsstring :=
  let pct := if n =? 1 then pos
             else nadd bandStart (nmul (nmul (ndiv (nof (Z.of_nat i)) (nof (Z.of_nat n - 1))) BAND_HALF) (nof 2)) in
  c ++ js " " ++ percent pct.

Definition buildGradient (pos : num) (colors : list jsstring) (textColor : jsstring) : jsstring :=
  let bandStart := nsub pos BAND_HALF in
  let bandEnd := nadd pos BAND_HALF in
  if nle (nof 100) bandStart then js "linear-gradient(90deg, " ++ textColor ++ js ", " ++ textColor ++ js ")"
  else
    let n := length colors in
    let parts :=
      (if nlt (nof 0) bandStart then [textColor ++ js " 0%"; textColor ++ js " " ++ percent bandStart] else [])
      ++ mapi_from (color_stop pos bandStart n) 0 colors
      ++ (if nlt bandEnd (nof 100) then [js "transparent " ++ percent bandEnd; js "transparent 100%"] else []) in
    js "linear-gradient(90deg, " ++ join (js ", ") parts ++ js ")".

Section Ease.
Context (pow : num -> num -> num).

Definition sweepEase (t : num) : num :=
  if nlt t (lit 1 2) then nmul (nof 4) (pow t (nof 3))
  else nsub (nof 1) (ndiv (pow (nadd (nmul (nof (-2)) t) (nof 2)) (nof 3)) (nof 2)).
End Ease.

(** ** The state *)

(** A running animation keeps the options it was started with. *)
Record animation := { an_id : nat; an_repeat : bool; an_length : nat }.

(** A pending timer keeps the number of texts. *)
Record timer := { ti_id : nat; ti_length : nat }.

(** [armed]: the last run of the effect returned a cleanup.  An index is [None] when it is not a number. *)
Record dia := Dia {
  props : DiaTextRevealProps; isInView : bool; prefersReducedMotion : bool; activeIndex : option nat; measuredWidths : list num;
  indexRef : option nat; hasPlayedRef : bool; timerRef : option nat; stopRef : option nat; sweepPos : num;
  running : list animation; timers : list timer; nextId : nat; armed : bool; mounted : bool }.

Section Dia.
(** [getBoundingClientRect().width] of the ghost element with a text. *)
Context (width_of : jsstring -> num).

Definition measureWidths (l : list jsstring) : list num := map width_of l.

Definition measure_effect (s : dia) : dia :=
  if isMulti (props s) then
    Dia (props s) (isInView s) (prefersReducedMotion s) (activeIndex s) (measureWidths (texts (props s))) (indexRef s) (hasPlayedRef s)
        (timerRef s) (stopRef s) (sweepPos s) (running s) (timers s) (nextId s) (armed s) (mounted s)
  else s.

Definition play (s : dia) : dia :=
  let a := {| an_id := nextId s; an_repeat := dt_repeat (props s); an_length := length (texts (props s)) |} in
  Dia (props s) (isInView s) (prefersReducedMotion s) (activeIndex s) (measuredWidths s) (indexRef s) (hasPlayedRef s)
      (timerRef s) (Some (nextId s)) SWEEP_START (running s ++ [a]) (timers s) (S (nextId s)) (armed s) (mounted s).

(** [onComplete]. *)
Definition complete (a : animation) (s : dia) : dia :=
  let running' := filter (fun b => negb (an_id b =? an_id a)) (running s) in
  if an_repeat a then
    Dia (props s) (isInView s) (prefersReducedMotion s) (activeIndex s) (measuredWidths s) (indexRef s) (hasPlayedRef s)
        (Some (nextId s)) (stopRef s) SWEEP_END running' (timers s ++ [{| ti_id := nextId s; ti_length := an_length a |}])
        (S (nextId s)) (armed s) (mounted s)
  else
    Dia (props s) (isInView s) (prefersReducedMotion s) (activeIndex s) (measuredWidths s) (indexRef s) (hasPlayedRef s)
        (timerRef s) (stopRef s) SWEEP_END running' (timers s) (nextId s) (armed s) (mounted s).

(** [(index + 1) % n]. *)
Definition next_index (index : option nat) (n : nat) : option nat :=
  match index, n with Some i, S _ => Some ((i + 1) mod n) | _, _ => None end.

(** The timer of the next text. *)
Definition timeout (t : timer) (s : dia) : dia :=
  let next := next_index (indexRef s) (ti_length t) in
  play (Dia (props s) (isInView s) (prefersReducedMotion s) next (measuredWidths s) next (hasPlayedRef s)
            (timerRef s) (stopRef s) (sweepPos s) (running s) (filter (fun u => negb (ti_id u =? ti_id t)) (timers s)) (nextId s)
            (armed s) (mounted s)).

Definition set_armed (b : bool) (s : dia) : dia :=
  Dia (props s) (isInView s) (prefersReducedMotion s) (activeIndex s) (measuredWidths s) (indexRef s) (hasPlayedRef s)
      (timerRef s) (stopRef s) (sweepPos s) (running s) (timers s) (nextId s) b (mounted s).

Definition set_sweepPos (v : num) (s : dia) : dia :=
  Dia (props s) (isInView s) (prefersReducedMotion s) (activeIndex s) (measuredWidths s) (indexRef s) (hasPlayedRef s)
      (timerRef s) (stopRef s) v (running s) (timers s) (nextId s) (armed s) (mounted s).

Definition set_played (s : dia) : dia :=
  Dia (props s) (isInView s) (prefersReducedMotion s) (activeIndex s) (measuredWidths s) (indexRef s) true
      (timerRef s) (stopRef s) (sweepPos s) (running s) (timers s) (nextId s) (armed s) (mounted s).

(** The playing effect. *)
Definition effect (s : dia) : dia :=
  if prefersReducedMotion s then set_armed false (set_sweepPos SWEEP_END s)
  else if dt_startOnView (props s) && negb (isInView s) then set_armed false s
  else if dt_once (props s) && hasPlayedRef s then set_armed false s
  else set_armed true (play (set_played s)).

Definition not_id {A} (id : A -> nat) (k : option nat) (x : A) : bool :=
  match k with Some j => negb (id x =? j) | None => true end.

(** Its cleanup: [stopRef.current?.()] and [clearTimeout(timerRef.current)]. *)
Definition cleanup (s : dia) : dia :=
  if armed s then
    Dia (props s) (isInView s) (prefersReducedMotion s) (activeIndex s) (measuredWidths s) (indexRef s) (hasPlayedRef s)
        (timerRef s) (stopRef s) (sweepPos s) (filter (not_id an_id (stopRef s)) (running s))
        (filter (not_id ti_id (timerRef s)) (timers s)) (nextId s) false (mounted s)
  else s.

Definition set_view (inView reduced : bool) (p : DiaTextRevealProps) (s : dia) : dia :=
  Dia p inView reduced (activeIndex s) (measuredWidths s) (indexRef s) (hasPlayedRef s)
      (timerRef s) (stopRef s) (sweepPos s) (running s) (timers s) (nextId s) (armed s) (mounted s).

Definition set_mounted (b : bool) (s : dia) : dia :=
  Dia (props s) (isInView s) (prefersReducedMotion s) (activeIndex s) (measuredWidths s) (indexRef s) (hasPlayedRef s)
      (timerRef s) (stopRef s) (sweepPos s) (running s) (timers s) (nextId s) (armed s) b.

(** A render with another view, preference or props: the cleanup of the effect when a dependency of
    it has changed, then the effects. *)
Definition render (inView reduced : bool) (p : DiaTextRevealProps) (s : dia) : dia :=
  let stale := negb (Bool.eqb inView (isInView s) && Bool.eqb (dt_startOnView p) (dt_startOnView (props s))
                     && Bool.eqb (dt_once p) (dt_once (props s)) && Bool.eqb reduced (prefersReducedMotion s)) in
  let measure := negb (jseqb (text_key p) (text_key (props s))) in
  let s := set_view inView reduced p s in
  let s := if stale then cleanup s else s in
  let s := if measure then measure_effect s else s in
  if stale then effect s else s.

Inductive event :=
| ev_render (inView reduced : bool) (p : DiaTextRevealProps)
| ev_progress (k : nat) (pos : num)
| ev_complete (k : nat)
| ev_timeout (k : nat)
| ev_strict
| ev_unmount.

(** [ev_strict]: in strict mode React runs the cleanup and the effects of a component once more. *)
Definition step (s : dia) (e : event) : dia :=
  if mounted s then
    match e with
    | ev_render v r p => render v r p s
    | ev_progress k pos => if existsb (fun a => an_id a =? k) (running s) then set_sweepPos pos s else s
    | ev_complete k => match find (fun a => an_id a =? k) (running s) with Some a => complete a s | None => s end
    | ev_timeout k => match find (fun t => ti_id t =? k) (timers s) with Some t => timeout t s | None => s end
    | ev_strict => effect (measure_effect (cleanup s))
    | ev_unmount => set_mounted false (cleanup s)
    end
  else s.

Definition init (inView reduced : bool) (p : DiaTextRevealProps) : dia :=
  {| props := p; isInView := inView; prefersReducedMotion := reduced; activeIndex := Some 0; measuredWidths := []; indexRef := Some 0;
     hasPlayedRef := false; timerRef := None; stopRef := None; sweepPos := SWEEP_START; running := []; timers := []; nextId := 0;
     armed := false; mounted := true |}.

Definition mount (inView reduced : bool) (p : DiaTextRevealProps) : dia := effect (measure_effect (init inView reduced p)).

Definition reachable (s : dia) : Prop := exists v r p es, s = fold_left step es (mount v r p).

(** ** The view *)

Definition fixedW (s : dia) : option num :=
  if isMulti (props s) && dt_fixedWidth (props s) then
    match measuredWidths s with [] => None | w :: l => Some (fold_left Math_max l w) end
  else None.

Definition animatedW (s : dia) : option num :=
  if isMulti (props s) && negb (dt_fixedWidth (props s)) then
    match activeIndex s with Some i => nth_error (measuredWidths s) i | None => None end
  else None.

Definition shown_text (s : dia) : option jsstring :=
  match activeIndex s with Some i => nth_error (texts (props s)) i | None => None end.

Definition DiaTextReveal (cn : list jsstring -> jsstring) (s : dia) : vnode :=
  VEl "motion.span"
    ([("className", cn (js "align-bottom leading-[100%] text-inherit" :: cls_opt (dt_className (props s))));
      ("style.transform", js "translateY(-2px)"); ("style.color", js "transparent"); ("style.backgroundClip", js "text");
      ("style.WebkitBackgroundClip", js "text"); ("style.backgroundSize", js "100% 100%");
      ("style.backgroundImage", buildGradient (sweepPos s) (dt_colors (props s)) (dt_textColor (props s)))]%string
     ++ (if isMulti (props s) then
           [("style.display", js "inline-block"); ("style.overflow", js "hidden"); ("style.whiteSpace", js "nowrap");
            ("style.verticalAlign", js "text-center")]%string
           ++ match fixedW s with Some w => [("style.width"%string, num_to_js w)] | None => [] end
         else [])
     ++ match animatedW s with Some w => [("animate.width"%string, num_to_js w)] | None => [] end
     ++ [("transition"%string, js "duration:0.4,ease:0.4,0,0.2,1")] ++ dt_rest (props s))
    (when_some (shown_text s) VText).
End Dia.

(** ** One animation or one timer *)

Definition idle (s : dia) : Prop := running s = [] /\ timers s = [].

(** What the component is waiting for: nothing, the animation it can stop, or the timer it can clear. *)
Definition waits (s : dia) : Prop :=
  idle s \/ (exists a, running s = [a] /\ stopRef s = Some (an_id a) /\ timers s = []) \/
  (exists t, timers s = [t] /\ timerRef s = Some (ti_id t) /\ running s = []).

(** Without a cleanup nothing is waited for; with reduced motion the text is revealed. *)
Definition DInv (s : dia) : Prop :=
  waits s /\ (armed s = false -> idle s) /\ activeIndex s = indexRef s /\
  (prefersReducedMotion s = true -> armed s = false /\ sweepPos s = SWEEP_END).

Section Invariant.
Context (width_of : jsstring -> num).

Definition outer (s : dia) := (props s, isInView s, prefersReducedMotion s, activeIndex s, indexRef s, mounted s).

Lemma cleanup_idle s : DInv s -> idle (cleanup s) /\ outer (cleanup s) = outer s /\ sweepPos (cleanup s) = sweepPos s /\ armed (cleanup s) = false.
Proof.
  intros (Hw & Ha & _). unfold cleanup. destruct (armed s) eqn:E; [|auto]. unfold idle. cbn [running timers armed].
  split; [|split; [reflexivity|auto]].
  destruct Hw as [[-> ->]|[(a & -> & -> & ->)|(t & -> & -> & ->)]]; cbn; rewrite ?Nat.eqb_refl; auto.
Qed.

Lemma dia_effect_inv s : idle s -> activeIndex s = indexRef s -> DInv (effect s).
Proof.
  intros [Hr Ht] Hi. unfold effect. destruct (prefersReducedMotion s) eqn:Er; [|destruct (_ && _); [|destruct (_ && _)]].
  1-3: split; [now left|]; split; [now split|]; split; [exact Hi|]; cbn; intros; split; try reflexivity; congruence.
  unfold DInv, waits, idle. cbn. rewrite Hr, Ht. cbn. split; [right; left; eexists; now repeat split|]. repeat split; auto; discriminate || congruence.
Qed.

Lemma measure_inv s : DInv s -> DInv (measure_effect width_of s).
Proof. unfold measure_effect. destruct (isMulti _); auto. Qed.

Lemma measure_idle s : idle s /\ activeIndex s = indexRef s -> idle (measure_effect width_of s) /\ activeIndex (measure_effect width_of s) = indexRef (measure_effect width_of s).
Proof. unfold measure_effect. destruct (isMulti _); auto. Qed.

Lemma refresh_inv (b : bool) s :
  DInv s -> DInv (effect (if b then measure_effect width_of (cleanup s) else cleanup s)).
Proof.
  intros H. destruct (cleanup_idle s H) as (H1 & H2 & _). unfold outer in H2. injection H2 as _ _ _ H3 H4 _.
  assert (H5 : idle (cleanup s) /\ activeIndex (cleanup s) = indexRef (cleanup s)) by (split; [exact H1|]; destruct H as (_ & _ & H & _); congruence).
  destruct b; [destruct (measure_idle _ H5)|destruct H5]; now apply dia_effect_inv.
Qed.

Lemma complete_inv a s : DInv s -> running s = [a] -> DInv (complete a s) /\ outer (complete a s) = outer s.
Proof.
  intros (Hw & Ha & Hi & Hp) Hr. assert (Hs : armed s = true) by (destruct (armed s); [reflexivity|destruct (Ha eq_refl); congruence]).
  assert (Ht : timers s = []) by (destruct Hw as [[? ?]|[(? & _ & _ & ?)|(? & _ & _ & ?)]]; congruence).
  unfold complete. rewrite Hr. cbn [filter]. rewrite Nat.eqb_refl. cbn [negb].
  destruct (an_repeat a); (split; [|reflexivity]); unfold DInv, waits, idle; cbn; rewrite ?Ht; repeat split; auto; try congruence.
  1: right; right; eexists; now repeat split.
  1-2: apply Hp; assumption.
Qed.

Lemma timeout_inv t s :
  DInv s -> timers s = [t] ->
  DInv (timeout t s) /\ activeIndex (timeout t s) = next_index (activeIndex s) (ti_length t) /\
  running (timeout t s) = [{| an_id := nextId s; an_repeat := dt_repeat (props s); an_length := length (texts (props s)) |}].
Proof.
  intros (Hw & Ha & Hi & Hp) Ht. assert (Hs : armed s = true) by (destruct (armed s); [reflexivity|destruct (Ha eq_refl); congruence]).
  assert (Hr : running s = []) by (destruct Hw as [[? ?]|[(? & _ & _ & ?)|(? & _ & _ & ?)]]; congruence).
  unfold timeout, play. cbn [activeIndex running props nextId timers]. rewrite Ht, Hr, Hi. cbn [filter app]. rewrite Nat.eqb_refl. cbn [negb].
  split; [|split; reflexivity]. unfold DInv, waits, idle. cbn. split; [right; left; eexists; now repeat split|].
  split; [congruence|]. split; [reflexivity|]. intros E. destruct (Hp E). congruence.
Qed.

Lemma DInv_view v r p s : r = prefersReducedMotion s -> DInv s -> DInv (set_view v r p s).
Proof. now intros ->. Qed.

(** Whatever is pending survives a change of the view until the cleanup. *)
Lemma cleanup_view v r p s : DInv s -> idle (cleanup (set_view v r p s)) /\ activeIndex (cleanup (set_view v r p s)) = indexRef (cleanup (set_view v r p s)).
Proof.
  intros (Hw & Ha & Hi & _). unfold cleanup. cbn [armed set_view]. destruct (armed s) eqn:E; [|split; [exact (Ha eq_refl)|exact Hi]].
  split; [|exact Hi]. unfold idle. cbn.
  destruct Hw as [[-> ->]|[(a & -> & -> & ->)|(t & -> & -> & ->)]]; cbn; rewrite ?Nat.eqb_refl; auto.
Qed.

Lemma dia_render_inv v r p s : DInv s -> DInv (render width_of v r p s).
Proof.
  intros H. unfold render. destruct (negb (_ && _)) eqn:E.
  - destruct (cleanup_view v r p s H) as [H1 H2].
    destruct (negb (jseqb _ _)); [destruct (measure_idle _ (conj H1 H2))|]; now apply dia_effect_inv.
  - assert (Hr : r = prefersReducedMotion s).
    { apply negb_false_iff, andb_true_iff in E as [_ E]. now apply eqb_prop. }
    destruct (negb (jseqb _ _)); [apply measure_inv|]; now apply DInv_view.
Qed.

Lemma find_running k s a : waits s -> find (fun a => an_id a =? k) (running s) = Some a -> running s = [a].
Proof.
  intros Hw Hf. destruct Hw as [[E _]|[(b & E & _)|(t & _ & _ & E)]]; rewrite E in *; cbn in Hf; try discriminate.
  destruct (_ =? _); congruence.
Qed.

Lemma find_timer k s t : waits s -> find (fun t => ti_id t =? k) (timers s) = Some t -> timers s = [t].
Proof.
  intros Hw Hf. destruct Hw as [[_ E]|[(b & _ & _ & E)|(u & E & _)]]; rewrite E in *; cbn in Hf; try discriminate.
  destruct (_ =? _); congruence.
Qed.

Lemma dia_step_inv s e : DInv s -> DInv (step width_of s e).
Proof.
  intros H. unfold step. destruct (mounted s); [|exact H]. assert (H0 := H). destruct H0 as (Hw & Ha & Hi & Hp). destruct e as [v r p|k pos|k|k| |].
  - now apply dia_render_inv.
  - destruct (existsb _ _) eqn:E; [|exact H]. split; [exact Hw|]. split; [exact Ha|]. split; [exact Hi|]. intros R. exfalso.
    destruct (Hp R) as [A _]. destruct (Ha A) as [E0 _]. rewrite E0 in E. discriminate.
  - destruct (find _ (running s)) as [a|] eqn:E; [|exact H]. now apply complete_inv; [|eapply find_running; eauto].
  - destruct (find _ (timers s)) as [t|] eqn:E; [|exact H]. apply timeout_inv; [exact H|eapply find_timer; eauto].
  - exact (refresh_inv true s H).
  - destruct (cleanup_idle s H) as (H1 & H2 & H3 & H4). unfold outer in H2. injection H2 as _ _ H5 H6 H7 _.
    split; [left; exact H1|]. split; [intros _; exact H1|]. split; [cbn; congruence|]. cbn. rewrite H5, H3, H4. intros R. now destruct (Hp R).
Qed.

Lemma dia_reachable_inv s : reachable width_of s -> DInv s.
Proof.
  intros (v & r & p & es & ->). assert (H : DInv (mount width_of v r p)).
  { unfold mount. destruct (measure_idle (init v r p)) as [H1 H2]; [repeat split|]. now apply dia_effect_inv. }
  revert H. generalize (mount width_of v r p) as s. induction es as [|e es IH]; intros s H; [exact H|]. apply IH, dia_step_inv, H.
Qed.
End Invariant.

(** ** What is shown *)

Lemma gradient_end colors textColor :
  buildGradient SWEEP_END colors textColor = js "linear-gradient(90deg, " ++ textColor ++ js ", " ++ textColor ++ js ")".
Proof. unfold buildGradient. replace (nle (nof 100) (nsub SWEEP_END BAND_HALF)) with true by (vm_compute; reflexivity). reflexivity. Qed.

Section Shown.
Context (width_of : jsstring -> num).

Lemma effect_mounted s : mounted (effect s) = mounted s.
Proof. unfold effect. destruct (prefersReducedMotion s); [reflexivity|]. destruct (_ && _); [reflexivity|]. destruct (_ && _); reflexivity. Qed.

Lemma measure_mounted s : mounted (measure_effect width_of s) = mounted s.
Proof. unfold measure_effect. now destruct (isMulti _). Qed.

Lemma cleanup_mounted s : mounted (cleanup s) = mounted s.
Proof. unfold cleanup. now destruct (armed s). Qed.

Lemma step_mounted s e : mounted s = true -> mounted (step width_of s e) = match e with ev_unmount => false | _ => true end.
Proof.
  intros H. unfold step. rewrite H. destruct e as [v r p|k pos|k|k| |]; try reflexivity.
  - unfold render. destruct (negb _), (negb _); rewrite ?effect_mounted, ?measure_mounted, ?cleanup_mounted; exact H.
  - now destruct (existsb _ _).
  - destruct (find _ _); [|exact H]. unfold complete. now destruct (an_repeat _).
  - now destruct (find _ _).
  - now rewrite effect_mounted, measure_mounted, cleanup_mounted.
Qed.

Lemma unmount_idle s : DInv s -> mounted s = true -> idle (step width_of s ev_unmount).
Proof. intros H Hm. unfold step. rewrite Hm. now destruct (cleanup_idle s H). Qed.

Lemma unmounted_idle s : reachable width_of s -> mounted s = false -> idle s.
Proof.
  intros (v & r & p & es & ->). assert (Hm : mounted (mount width_of v r p) = true) by (unfold mount; now rewrite effect_mounted, measure_mounted).
  assert (H : reachable width_of (mount width_of v r p)) by (exists v, r, p, []; reflexivity). apply dia_reachable_inv in H.
  revert Hm H. generalize (mount width_of v r p) as s. induction es as [|e es IH]; intros s Hm H Hf; [cbn in *; congruence|]. cbn [fold_left] in *.
  pose proof (step_mounted s e Hm) as E. pose proof (dia_step_inv width_of s e H) as H'.
  destruct e; try (apply IH; assumption). pose proof (unmount_idle s H Hm) as Hi. revert E Hi. clear. generalize (step width_of s ev_unmount) as s'.
  induction es as [|e es IH]; intros s' E Hi; [exact Hi|]. cbn [fold_left].
  replace (step width_of s' e) with s'; [now apply IH|]. unfold step. now rewrite E.
Qed.

(** The animation completes and, when it repeats, the timer of the next text fires. *)
Definition round (s : dia) : dia :=
  match running s with
  | a :: _ =>
      let s' := step width_of s (ev_complete (an_id a)) in
      match timers s' with t :: _ => step width_of s' (ev_timeout (ti_id t)) | [] => s' end
  | [] => s
  end.

(** Playing text number [i] with the props it was mounted with. *)
Definition playing (p : DiaTextRevealProps) (i : nat) (s : dia) : Prop :=
  DInv s /\ mounted s = true /\ props s = p /\ activeIndex s = Some i /\
  exists a, running s = [a] /\ an_repeat a = dt_repeat p /\ an_length a = length (texts p).

Lemma mount_playing v p :
  dt_startOnView p && negb v = false -> playing p 0 (mount width_of v false p).
Proof.
  intros Hv. split; [apply (dia_reachable_inv width_of); exists v, false, p, []; reflexivity|].
  unfold mount, measure_effect. cbn [props init]. unfold effect. destruct (isMulti p); cbn; rewrite Hv; cbn; rewrite andb_false_r; cbn;
    repeat split; eexists; repeat split.
Qed.

Lemma complete_step a s : running s = [a] -> mounted s = true -> step width_of s (ev_complete (an_id a)) = complete a s.
Proof. intros Hr Hm. unfold step. rewrite Hm, Hr. cbn [find]. now rewrite Nat.eqb_refl. Qed.

Lemma round_playing p i s :
  dt_repeat p = true -> texts p <> [] -> playing p i s -> playing p ((i + 1) mod length (texts p)) (round s).
Proof.
  intros Hp Hn (H & Hm & Ep & Ei & a & Hr & Ha1 & Ha2). unfold round. rewrite Hr, (complete_step a s Hr Hm).
  destruct (complete_inv a s H Hr) as [H1 H2]. unfold outer in H2. injection H2 as E1 _ _ E2 _ E3.
  assert (Ht : timers (complete a s) = [{| ti_id := nextId s; ti_length := an_length a |}]).
  { destruct H as (Hw & _). assert (Ht : timers s = []) by (destruct Hw as [[? ?]|[(? & _ & _ & ?)|(? & _ & _ & ?)]]; congruence).
    unfold complete. rewrite Ha1, Hp. cbn. now rewrite Ht. }
  rewrite Ht. cbn [ti_id]. unfold step. rewrite E3, Hm, Ht. cbn [find ti_id]. rewrite Nat.eqb_refl.
  destruct (timeout_inv _ _ H1 Ht) as (H3 & H4 & H5). split; [exact H3|]. split; [cbn; congruence|]. split; [cbn; congruence|].
  split; [|eexists; split; [exact H5|cbn; split; congruence]].
  rewrite H4, E2, Ei. cbn [ti_length]. rewrite Ha2. unfold next_index. destruct (texts p); [contradiction|reflexivity].
Qed.
End Shown.

(** At every moment the component waits for at most one thing, an animation it can stop or a timer it
    can clear, and for nothing once it is unmounted; with reduced motion it waits for nothing either
    and the text is painted in its final colour. *)
Theorem dia_waits_once width_of s :
  reachable width_of s ->
  waits s /\ (mounted s = false -> idle s) /\ (mounted s = true -> idle (step width_of s ev_unmount)) /\
  (prefersReducedMotion s = true ->
   idle s /\ forall colors c, buildGradient (sweepPos s) colors c = js "linear-gradient(90deg, " ++ c ++ js ", " ++ c ++ js ")").
Proof.
  intros Hr. pose proof (dia_reachable_inv width_of s Hr) as H. assert (H0 := H). destruct H0 as (Hw & Ha & _ & Hp). split; [exact Hw|].
  split; [now apply unmounted_idle with width_of|]. split; [now apply unmount_idle|]. intros R. destruct (Hp R) as [A ->].
  split; [now apply Ha|]. intros. apply gradient_end.
Qed.

(** A component mounted in view plays its first text.  Without repetition the end of the animation leaves
    nothing pending and the text in its final colour; with it, after [k] rounds of animation and timer
    text number [k] modulo their number is shown and being animated. *)
Theorem dia_cycles width_of v p k :
  dt_startOnView p && negb v = false -> texts p <> [] ->
  let s := iterate k (round width_of) (mount width_of v false p) in
  if dt_repeat p then
    shown_text s = nth_error (texts p) (k mod length (texts p)) /\ length (running s) = 1
  else
    k = 1 -> idle s /\ shown_text s = nth_error (texts p) 0 /\ sweepPos s = SWEEP_END.
Proof.
  intros Hv Hn s. pose proof (mount_playing width_of v p Hv) as H0. destruct (dt_repeat p) eqn:Er.
  - assert (H : playing p (k mod length (texts p)) s).
    { unfold s. assert (Hl : length (texts p) <> 0) by (destruct (texts p); [contradiction|discriminate]).
      clear s. induction k as [|k IH]; [now rewrite Nat.Div0.mod_0_l|]. cbn [iterate].
      replace (S k mod length (texts p)) with ((k mod length (texts p) + 1) mod length (texts p)); [now apply round_playing|].
      rewrite Nat.Div0.add_mod_idemp_l. f_equal. lia. }
    destruct H as (_ & _ & Ep & Ei & a & Ha & _). unfold shown_text. rewrite Ei, Ep, Ha. split; reflexivity.
  - intros ->. unfold s. cbn [iterate]. destruct H0 as (H & Hm & Ep & Ei & a & Hr & Ha & _). unfold round. rewrite Hr, (complete_step _ a _ Hr Hm).
    destruct (complete_inv a _ H Hr) as [H1 H2]. unfold outer in H2. injection H2 as E1 _ _ E2 _ _.
    assert (Ht : timers (complete a (mount width_of v false p)) = [] /\ running (complete a (mount width_of v false p)) = []
                 /\ sweepPos (complete a (mount width_of v false p)) = SWEEP_END).
    { destruct H as (Hw & _). assert (Ht : timers (mount width_of v false p) = []) by (destruct Hw as [[? ?]|[(? & _ & _ & ?)|(? & _ & _ & ?)]]; congruence).
      unfold complete. rewrite Ha, Er, Hr. cbn [filter]. rewrite Nat.eqb_refl. auto. }
    destruct Ht as (Ht & Hrr & Hs). rewrite Ht. split; [split; assumption|]. split; [|exact Hs]. unfold shown_text. now rewrite E2, Ei, E1, Ep.
Qed.

(** When the effect runs again after it has played, the cleanup has stopped the animation and [once] keeps
    it from playing: nothing is pending any more and the sweep stays where it was, at its start when
    the second run follows the first at once. *)
Theorem dia_strict_stops width_of v p :
  dt_startOnView p && negb v = false -> dt_once p = true ->
  let s := step width_of (mount width_of v false p) ev_strict in
  idle s /\ sweepPos s = SWEEP_START /\ forall k pos, step width_of s (ev_progress k pos) = s /\ step width_of s (ev_complete k) = s.
Proof.
  intros Hv Ho s. assert (H : idle s /\ sweepPos s = SWEEP_START /\ mounted s = true).
  { unfold s, step, mount, measure_effect. cbn [props init]. destruct (isMulti p) eqn:Em; unfold effect; cbn; rewrite Hv; cbn;
      rewrite andb_false_r; cbn; unfold cleanup; cbn; rewrite Em; cbn; rewrite Hv, Ho; cbn; repeat split. }
  destruct H as ([Hr Ht] & Hs & Hm). split; [split; assumption|]. split; [exact Hs|]. intros k pos. unfold step. rewrite Hm, Hr. split; reflexivity.
Qed.

(** ** Witnesses *)

Definition two_texts (again : bool) : DiaTextRevealProps :=
  {| dt_text := Many [js "a"; js "b"]; dt_colors := DEFAULT_COLORS; dt_textColor := js "var(--foreground)"; dt_duration := lit 3 2;
     dt_delay := nof 0; dt_repeat := again; dt_repeatDelay := lit 1 2; dt_startOnView := true; dt_once := true; dt_className := None;
     dt_fixedWidth := false; dt_rest := [] |}.

Lemma dia_waits_once_witness : waits (step (fun _ => nof 8) (mount (fun _ => nof 8) true false (two_texts true)) (ev_complete 0)).
Proof. apply (dia_waits_once (fun _ => nof 8)). exists true, false, (two_texts true), [ev_complete 0]. reflexivity. Defined.

Lemma dia_cycles_witness :
  shown_text (iterate 3 (round (fun _ => nof 8)) (mount (fun _ => nof 8) true false (two_texts true))) = Some (js "b").
Proof. apply (dia_cycles (fun _ => nof 8) true (two_texts true) 3); [reflexivity|discriminate]. Defined.

Example gradient_middle :
  buildGradient (nof 50) [js "red"; js "blue"] (js "black")
  = js "linear-gradient(90deg, black 0%, black 33.00%, red 33.00%, blue 67.00%, transparent 67.00%, transparent 100%)".
Proof. vm_compute. reflexivity. Qed.
