(* ===== verification/Effects.v ===== *)
(** * Components with small effects ([website/components/magicui])

    - [MagicCard]: [magic-card.tsx], a highlight that follows the pointer;
    - [SparklesText]: [sparkles-text.tsx], stars renewed by an interval;
    - [NumberTicker]: [number-ticker.tsx], a number that starts moving when it is seen;
    - [Highlighter]: [highlighter.tsx], an annotation drawn by a third-party library;
    - [AnimatedBeam]: [animated-beam.tsx], a curve between two elements;
    - [DotPattern]: [dot-pattern.tsx]; [Meteors]: [meteors.tsx].

    As in [Widgets.v], the state is a record, notifications are events, an effect runs again when a
    dependency has changed, and [Math.random] is a function from the number of the call to its answer.
    Values of the motion library are the targets the component sets. *)

From Stdlib Require Import String List Arith NArith ZArith Lia Bool SpecFloat.
From S2P Require Import Prelude JsString Regex JsNum NumText Dom State Decor.
Import ListNotations.
Local Open Scope list_scope.

Module MagicCard.

Inductive card_mode := Gradient | Orb.

Record MagicCardProps := {
  mc_children : list vnode; mc_className : option jsstring; mc_gradientSize : option num; mc_gradientFrom : option jsstring;
  mc_gradientTo : option jsstring; mc_mode : option card_mode; mc_gradientColor : option jsstring; mc_gradientOpacity : option num;
  mc_glowFrom : option jsstring; mc_glowTo : option jsstring; mc_glowAngle : option num; mc_glowSize : option num;
  mc_glowBlur : option num; mc_glowOpacity : option num }.

Definition mode (p : MagicCardProps) : card_mode := default_of Gradient (mc_mode p).
Definition gradientSize (p : MagicCardProps) : num := default_of (nof 200) (mc_gradientSize p).

(** A glow prop counts only in orb mode. *)
Definition glow {A} (p : MagicCardProps) (d : A) (v : option A) : A := match mode p with Orb => default_of d v | Gradient => d end.
Definition glowOpacity (p : MagicCardProps) : num := glow p (lit 9 10) (mc_glowOpacity p).

Record card := {
  cprops : MagicCardProps; isMounted : bool; mouseX : num; mouseY : num; orbVisible : num; modeRef : card_mode; glowOpacityRef : num;
  gradientSizeRef : num; listening : bool }.

Inductive ResetReason := enter | leave | global | init.

Definition reset (reason : ResetReason) (s : card) : card :=
  match modeRef s with
  | Orb =>
      {| cprops := cprops s; isMounted := isMounted s; mouseX := mouseX s; mouseY := mouseY s;
         orbVisible := match reason with enter => glowOpacityRef s | _ => nof 0 end; modeRef := modeRef s;
         glowOpacityRef := glowOpacityRef s; gradientSizeRef := gradientSizeRef s; listening := listening s |}
  | Gradient =>
      let off := nneg (gradientSizeRef s) in
      {| cprops := cprops s; isMounted := isMounted s; mouseX := off; mouseY := off; orbVisible := orbVisible s; modeRef := modeRef s;
         glowOpacityRef := glowOpacityRef s; gradientSizeRef := gradientSizeRef s; listening := listening s |}
  end.

Definition handlePointerMove (x y rectLeft rectTop : num) (s : card) : card :=
  {| cprops := cprops s; isMounted := isMounted s; mouseX := nsub x rectLeft; mouseY := nsub y rectTop; orbVisible := orbVisible s;
     modeRef := modeRef s; glowOpacityRef := glowOpacityRef s; gradientSizeRef := gradientSizeRef s; listening := listening s |}.

(** The effects that keep the references up to date. *)
Definition sync_refs (p : MagicCardProps) (s : card) : card :=
  {| cprops := p; isMounted := isMounted s; mouseX := mouseX s; mouseY := mouseY s; orbVisible := orbVisible s; modeRef := mode p;
     glowOpacityRef := glowOpacity p; gradientSizeRef := gradientSize p; listening := listening s |}.

Definition card_mount (p : MagicCardProps) : card :=
  let off := nneg (gradientSize p) in
  let s := {| cprops := p; isMounted := true; mouseX := off; mouseY := off; orbVisible := nof 0; modeRef := mode p;
              glowOpacityRef := glowOpacity p; gradientSizeRef := gradientSize p; listening := true |} in
  reset init s.

Inductive card_event :=
| ev_move (x y rectLeft rectTop : num) | ev_leave | ev_enter
| ev_pointerout (relatedTarget : bool) | ev_blur | ev_visibility (visible : bool)
| ev_props (p : MagicCardProps) | ev_unmount.

Definition card_step (s : card) (e : card_event) : card :=
  if listening s then
    match e with
    | ev_move x y rl rt => handlePointerMove x y rl rt s
    | ev_leave => reset leave s
    | ev_enter => reset enter s
    | ev_pointerout relatedTarget => if relatedTarget then s else reset global s
    | ev_blur => reset global s
    | ev_visibility visible => if visible then s else reset global s
    | ev_props p => sync_refs p s
    | ev_unmount =>
        {| cprops := cprops s; isMounted := false; mouseX := mouseX s; mouseY := mouseY s; orbVisible := orbVisible s; modeRef := modeRef s;
           glowOpacityRef := glowOpacityRef s; gradientSizeRef := gradientSizeRef s; listening := false |}
    end
  else s.

Definition isDarkTheme (s : card) (theme systemTheme : option jsstring) : bool :=
  if negb (isMounted s) then true
  else
    let currentTheme := match theme with Some t => if jseqb t (js "system") then systemTheme else theme | None => None end in
    match currentTheme with Some t => jseqb t (js "dark") | None => false end.

(** White space in the gradient templates is written as one space. *)
Definition MagicCard (cn : list jsstring -> jsstring) (theme systemTheme : option jsstring) (s : card) : vnode :=
  let p := cprops s in
  let spot := num_to_js (gradientSize p) ++ js "px circle at " ++ num_to_js (mouseX s) ++ js "px " ++ num_to_js (mouseY s) ++ js "px, " in
  VEl "motion.div"
    [sv "className" (cn (js "group relative isolate overflow-hidden rounded-[inherit] border border-transparent" :: cls_opt (mc_className p)));
     sv "style.background" (js "linear-gradient(var(--color-background) 0 0) padding-box, radial-gradient(" ++ spot
       ++ default_of (js "#9E7AFF") (mc_gradientFrom p) ++ js ", " ++ default_of (js "#FE8BBB") (mc_gradientTo p)
       ++ js ", var(--color-border) 100% ) border-box")]
    ([VEl "div" [sv "className" (js "bg-background absolute inset-px z-20 rounded-[inherit]")] []]
     ++ match mode p with
        | Gradient =>
            [VEl "motion.div"
               [sv "className" (js "pointer-events-none absolute inset-px z-30 rounded-[inherit] opacity-0 transition-opacity duration-300 group-hover:opacity-100");
                sv "style.background" (js "radial-gradient(" ++ spot ++ default_of (js "#262626") (mc_gradientColor p) ++ js ", transparent 100% )");
                sv "style.opacity" (num_to_js (default_of (lit 8 10) (mc_gradientOpacity p)))] []]
        | Orb =>
            [VEl "motion.div"
               [sv "aria-hidden" (js "true"); sv "className" (js "pointer-events-none absolute z-30");
                sv "style.width" (num_to_js (glow p (nof 420) (mc_glowSize p))); sv "style.height" (num_to_js (glow p (nof 420) (mc_glowSize p)));
                sv "style.x" (num_to_js (mouseX s)); sv "style.y" (num_to_js (mouseY s)); sv "style.translateX" (js "-50%");
                sv "style.translateY" (js "-50%"); sv "style.borderRadius" (js "9999");
                sv "style.filter" (js "blur(" ++ num_to_js (glow p (nof 60) (mc_glowBlur p)) ++ js "px)");
                sv "style.opacity" (num_to_js (orbVisible s));
                sv "style.background" (js "linear-gradient(" ++ num_to_js (glow p (nof 90) (mc_glowAngle p)) ++ js "deg, "
                  ++ glow p (js "#ee4f27") (mc_glowFrom p) ++ js ", " ++ glow p (js "#6b21ef") (mc_glowTo p) ++ js ")");
                sv "style.mixBlendMode" (if isDarkTheme s theme systemTheme then js "screen" else js "multiply");
                sv "style.willChange" (js "transform, opacity")] []]
        end
     ++ [VEl "div" [sv "className" (js "relative z-40")] (mc_children p)]).

(** ** The highlight is off when the pointer is away *)

(** Moved out of the card, or invisible. *)
Definition off (s : card) : Prop :=
  match modeRef s with
  | Orb => orbVisible s = nof 0
  | Gradient => mouseX s = nneg (gradientSizeRef s) /\ mouseY s = nneg (gradientSizeRef s)
  end.

Definition leaves (e : card_event) : bool :=
  match e with ev_leave | ev_blur => true | ev_pointerout r => negb r | ev_visibility v => negb v | _ => false end.

Definition keeps_away (e : card_event) : bool :=
  match e with ev_move _ _ _ _ | ev_enter | ev_props _ => false | _ => true end.

Lemma reset_off r s : r <> enter -> off (reset r s).
Proof. intros H. unfold off, reset. destruct (modeRef s) eqn:E; cbn; rewrite ?E; [now split|]. now destruct r. Qed.

(** After the pointer has left the card or the window, the highlight is off until it comes back. *)
Lemma magic_card_off s e es :
  leaves e = true -> listening s = true -> forallb keeps_away es = true -> off (fold_left card_step es (card_step s e)).
Proof.
  intros He Hl. assert (H : off (card_step s e)).
  { unfold card_step. rewrite Hl. destruct e as [| | |[]| |[]| |]; try discriminate He; now apply reset_off. }
  revert H. generalize (card_step s e) as s'. induction es as [|e' es IH]; intros s' H Hes; [exact H|]. cbn [forallb fold_left] in *.
  apply andb_true_iff in Hes as [He' Hes]. apply IH; [|exact Hes]. unfold card_step. destruct (listening s'); [|exact H].
  destruct e' as [| | |[]| |[]| |]; try discriminate He'; try exact H; now apply reset_off.
Qed.
End MagicCard.

Module SparklesText.
Local Open Scope state_scope.

Record Sparkle := { sp_id : jsstring; sp_x : jsstring; sp_y : jsstring; sp_color : jsstring; sp_delay : num; sp_scale : num; lifespan : num }.

Record SparklesTextProps := {
  st_children : list vnode; st_first : jsstring; st_second : jsstring; st_className : option jsstring; st_count : nat;
  st_rest : list (string * jsstring) }.

Section Stars.
Context (random : nat -> num).

Definition Math_random : M nat num := k <- get (fun k => k) ;; modify S ;;; ret (random k).

(** [now]: the answer of [Date.now()]. *)
Definition generateStar (p : SparklesTextProps) (now : Z) : M nat Sparkle :=
  rx <- Math_random ;;
  let starX := num_to_js (nmul rx (nof 100)) ++ js "%" in
  ry <- Math_random ;;
  let starY := num_to_js (nmul ry (nof 100)) ++ js "%" in
  rc <- Math_random ;;
  let color := if nlt (lit 1 2) rc then st_first p else st_second p in
  rd <- Math_random ;;
  let delay := nmul rd (nof 2) in
  rs <- Math_random ;;
  let scale := nadd (nmul rs (nof 1)) (lit 3 10) in
  rl <- Math_random ;;
  ret {| sp_id := starX ++ js "-" ++ starY ++ js "-" ++ z_to_js now; sp_x := starX; sp_y := starY; sp_color := color; sp_delay := delay;
         sp_scale := scale; lifespan := nadd (nmul rl (nof 10)) (nof 5) |}.

Fixpoint initializeStars (p : SparklesTextProps) (now : Z) (n : nat) : M nat (list Sparkle) :=
  match n with O => ret [] | S m => s <- generateStar p now ;; l <- initializeStars p now m ;; ret (s :: l) end.

Fixpoint updateStars (p : SparklesTextProps) (now : Z) (l : list Sparkle) : M nat (list Sparkle) :=
  match l with
  | [] => ret []
  | star :: l' =>
      s <- (if nle (lifespan star) (nof 0) then generateStar p now
            else ret {| sp_id := sp_id star; sp_x := sp_x star; sp_y := sp_y star; sp_color := sp_color star; sp_delay := sp_delay star;
                        sp_scale := sp_scale star; lifespan := nsub (lifespan star) (lit 1 10) |}) ;;
      r <- updateStars p now l' ;; ret (s :: r)
  end.

(** [interval]: an interval runs; [calls]: the number of random numbers drawn. *)
Record sparkles_state := { sprops : SparklesTextProps; sparkles : list Sparkle; interval : bool; calls : nat }.

Definition sparkles_effect (p : SparklesTextProps) (now : Z) (k : nat) : sparkles_state :=
  let '(l, k') := initializeStars p now (st_count p) k in {| sprops := p; sparkles := l; interval := true; calls := k' |}.

Inductive sparkles_event := ev_tick (now : Z) | ev_props (p : SparklesTextProps) (now : Z) | ev_unmount.

Definition sparkles_step (s : sparkles_state) (e : sparkles_event) : sparkles_state :=
  if interval s then
    match e with
    | ev_tick now =>
        let '(l, k) := updateStars (sprops s) now (sparkles s) (calls s) in
        {| sprops := sprops s; sparkles := l; interval := true; calls := k |}
    | ev_props p now =>
        if jseqb (st_first p) (st_first (sprops s)) && jseqb (st_second p) (st_second (sprops s)) && (st_count p =? st_count (sprops s))
        then {| sprops := p; sparkles := sparkles s; interval := true; calls := calls s |}
        else sparkles_effect p now (calls s)
    | ev_unmount => {| sprops := sprops s; sparkles := sparkles s; interval := false; calls := calls s |}
    end
  else s.

Definition sparkles_reachable (s : sparkles_state) : Prop :=
  exists p now es, s = fold_left sparkles_step es (sparkles_effect p now 0).
End Stars.

Definition star_path : jsstring := js "M9.82531 0.843845C10.0553 0.215178 10.9446 0.215178 11.1746 0.843845L11.8618 2.72026C12.4006 4.19229 12.3916 6.39157 13.5 7.5C14.6084 8.60843 16.8077 8.59935 18.2797 9.13822L20.1561 9.82534C20.7858 10.0553 20.7858 10.9447 20.1561 11.1747L18.2797 11.8618C16.8077 12.4007 14.6084 12.3916 13.5 13.5C12.3916 14.6084 12.4006 16.8077 11.8618 18.2798L11.1746 20.1562C10.9446 20.7858 10.0553 20.7858 9.82531 20.1562L9.13819 18.2798C8.59932 16.8077 8.60843 14.6084 7.5 13.5C6.39157 12.3916 4.19225 12.4007 2.72023 11.8618L0.843814 11.1747C0.215148 10.9447 0.215148 10.0553 0.843814 9.82534L2.72023 9.13822C4.19225 8.59935 6.39157 8.60843 7.5 7.5C8.60843 6.39157 8.59932 4.19229 9.13819 2.72026L9.82531 0.843845Z".

Definition SparkleView (s : Sparkle) : vnode :=
  VEl "motion.svg"
    [sv "key" (sp_id s); sv "className" (js "pointer-events-none absolute z-20"); sv "initial.opacity" (js "0"); sv "initial.left" (sp_x s);
     sv "initial.top" (sp_y s); sv "animate.opacity" (js "0,1,0"); sv "animate.scale" (js "0," ++ num_to_js (sp_scale s) ++ js ",0");
     sv "animate.rotate" (js "75,120,150"); sv "transition.duration" (js "0.8"); sv "transition.repeat" (js "Infinity");
     sv "transition.delay" (num_to_js (sp_delay s)); sv "width" (js "21"); sv "height" (js "21"); sv "viewBox" (js "0 0 21 21")]
    [VEl "path" [sv "d" star_path; sv "fill" (sp_color s)] []].

Definition SparklesText (cn : list jsstring -> jsstring) (s : sparkles_state) : vnode :=
  let p := sprops s in
  VEl "div"
    (spread (spread [sv "className" (cn (js "text-6xl font-bold" :: cls_opt (st_className p)))] (filter (fun a => negb (is_style a)) (st_rest p)))
       [sv "style.--sparkles-first-color" (st_first p); sv "style.--sparkles-second-color" (st_second p)])
    [VEl "span" [sv "className" (js "relative inline-block")] (map SparkleView (sparkles s) ++ [VEl "strong" [] (st_children p)])].

(** ** Invariant *)

Definition star_ok (p : SparklesTextProps) (s : Sparkle) : Prop := sp_color s = st_first p \/ sp_color s = st_second p.

Definition stars_ok (s : sparkles_state) : Prop :=
  length (sparkles s) = st_count (sprops s) /\ Forall (star_ok (sprops s)) (sparkles s).

Lemma generateStar_ok random p now k : star_ok p (fst (generateStar random p now k)).
Proof. unfold generateStar, Math_random, bind, get, modify, ret, star_ok. cbn. destruct (nlt _ _); auto. Qed.

Lemma initializeStars_ok random p now n : forall k,
  length (fst (initializeStars random p now n k)) = n /\ Forall (star_ok p) (fst (initializeStars random p now n k)).
Proof.
  induction n as [|n IH]; intros k; cbn [initializeStars]; [split; constructor|]. pose proof (generateStar_ok random p now k) as H.
  unfold bind. destruct (generateStar random p now k) as [s k1]. destruct (IH k1) as [H1 H2].
  destruct (initializeStars random p now n k1) as [l k2]. cbn in *. split; [now rewrite H1|now constructor].
Qed.

Lemma updateStars_ok random p now l : forall k,
  Forall (star_ok p) l ->
  length (fst (updateStars random p now l k)) = length l /\ Forall (star_ok p) (fst (updateStars random p now l k)).
Proof.
  induction l as [|s l IH]; intros k H; cbn [updateStars]; [split; constructor|]. inv H. unfold bind.
  assert (Hs : exists s' k', (if nle (lifespan s) (nof 0) then generateStar random p now
            else ret {| sp_id := sp_id s; sp_x := sp_x s; sp_y := sp_y s; sp_color := sp_color s; sp_delay := sp_delay s;
                        sp_scale := sp_scale s; lifespan := nsub (lifespan s) (lit 1 10) |}) k = (s', k') /\ star_ok p s').
  { destruct (nle _ _); [|eexists _, _; split; [reflexivity|exact H2]]. pose proof (generateStar_ok random p now k) as G.
    destruct (generateStar random p now k) as [s' k']. exists s', k'. auto. }
  destruct Hs as (s' & k' & -> & Hs). destruct (IH k' H3) as [H1 H4]. destruct (updateStars random p now l k') as [r k2].
  cbn in *. split; [now rewrite H1|now constructor].
Qed.

(** There are always as many stars as asked for, in the two colours. *)
Lemma sparkles_constant random s : sparkles_reachable random s -> stars_ok s.
Proof.
  intros (p & now & es & ->).
  assert (He : forall p now k, stars_ok (sparkles_effect random p now k)).
  { intros q t k. unfold sparkles_effect. pose proof (initializeStars_ok random q t (st_count q) k) as H.
    destruct (initializeStars random q t (st_count q) k) as [l k']. exact H. }
  generalize (He p now 0). generalize (sparkles_effect random p now 0) as s. induction es as [|e es IH]; intros s H; [exact H|].
  cbn [fold_left]. apply IH. unfold sparkles_step. destruct (interval s); [|exact H]. destruct H as [H1 H2]. destruct e as [t|q t|].
  - pose proof (updateStars_ok random (sprops s) t (sparkles s) (calls s) H2) as [H3 H4].
    destruct (updateStars random (sprops s) t (sparkles s) (calls s)) as [l k]. split; cbn in *; [congruence|exact H4].
  - destruct (_ && _) eqn:E; [|apply He]. rewrite !andb_true_iff in E. destruct E as [[E1 E2] E3]. apply jseqb_eq in E1, E2. apply Nat.eqb_eq in E3.
    split; cbn; [congruence|]. eapply Forall_impl; [|exact H2]. unfold star_ok. now rewrite E1, E2.
  - split; assumption.
Qed.
End SparklesText.

Module NumberTicker.

Inductive count_direction := up | down.

Record NumberTickerProps := {
  nt_value : num; nt_startValue : option num; nt_direction : option count_direction; nt_delay : option num; nt_className : option jsstring;
  nt_decimalPlaces : option nat; nt_rest : list (string * jsstring) }.

Definition startValue (p : NumberTickerProps) : num := default_of (nof 0) (nt_startValue p).
Definition counts_down (p : NumberTickerProps) : bool := match nt_direction p with Some down => true | _ => false end.

(** [timer]: what the pending timer will set. *)
Record ticker := { tprops : NumberTickerProps; motionValue : num; seen : bool; timer : option num; text : option jsstring; alive : bool }.

Definition target (p : NumberTickerProps) : num := if counts_down p then startValue p else nt_value p.

(** The timer effect: its cleanup has cleared the timer of the run before. *)
Definition timer_effect (p : NumberTickerProps) (inView : bool) : option num := if inView then Some (target p) else None.

Definition ticker_mount (p : NumberTickerProps) (inView : bool) : ticker :=
  {| tprops := p; motionValue := if counts_down p then nt_value p else startValue p; seen := inView; timer := timer_effect p inView;
     text := None; alive := true |}.

(** The dependencies of the effect. *)
Definition same_deps (p q : NumberTickerProps) : bool :=
  (if num_dec (default_of (nof 0) (nt_delay p)) (default_of (nof 0) (nt_delay q)) then true else false)
  && (if num_dec (nt_value p) (nt_value q) then true else false) && Bool.eqb (counts_down p) (counts_down q)
  && (if num_dec (startValue p) (startValue q) then true else false).

Section Ticker.
(** [Intl.NumberFormat] with a fixed number of decimals, and [Number] of a text. *)
Context (format : nat -> num -> jsstring) (Number : jsstring -> num).

Inductive ticker_event := ev_view | ev_timeout | ev_change (latest : num) | ev_props (p : NumberTickerProps) | ev_unmount.

Definition ticker_step (s : ticker) (e : ticker_event) : ticker :=
  if alive s then
    match e with
    | ev_view =>
        if seen s then s
        else {| tprops := tprops s; motionValue := motionValue s; seen := true; timer := timer_effect (tprops s) true; text := text s; alive := true |}
    | ev_timeout =>
        match timer s with
        | Some v => {| tprops := tprops s; motionValue := v; seen := seen s; timer := None; text := text s; alive := true |}
        | None => s
        end
    | ev_change latest =>
        let places := default_of 0 (nt_decimalPlaces (tprops s)) in
        {| tprops := tprops s; motionValue := motionValue s; seen := seen s; timer := timer s;
           text := Some (format places (Number (toFixed latest (Z.of_nat places)))); alive := true |}
    | ev_props p =>
        {| tprops := p; motionValue := motionValue s; seen := seen s;
           timer := if same_deps p (tprops s) then timer s else timer_effect p (seen s); text := text s; alive := true |}
    | ev_unmount => {| tprops := tprops s; motionValue := motionValue s; seen := seen s; timer := None; text := text s; alive := false |}
    end
  else s.

(** The text is that of the first render until the spring notifies. *)
Definition NumberTicker (cn : list jsstring -> jsstring) (s : ticker) : vnode :=
  VEl "span"
    (over [sv "className" (cn (js "inline-block tracking-wider text-black tabular-nums dark:text-white" :: cls_opt (nt_className (tprops s))))]
          (nt_rest (tprops s)))
    [VText (default_of (num_to_js (startValue (tprops s))) (text s))].

Definition ticker_reachable (s : ticker) : Prop := exists p v es, s = fold_left ticker_step es (ticker_mount p v).

Lemma same_deps_target p q : same_deps p q = true -> target p = target q.
Proof.
  unfold same_deps, target. rewrite !andb_true_iff. intros [[[_ H2] H3] H4]. destruct (num_dec (nt_value p) _) as [->|]; [|discriminate].
  destruct (num_dec (startValue p) _) as [->|]; [|discriminate]. now rewrite (eqb_prop _ _ H3).
Qed.

Definition ticker_inv (s : ticker) : Prop :=
  (forall v, timer s = Some v -> seen s = true /\ alive s = true /\ v = target (tprops s)) /\
  (alive s = true -> seen s = true -> timer s = None -> motionValue s = target (tprops s)).

Lemma ticker_step_inv s e : ticker_inv s -> ticker_inv (ticker_step s e).
Proof.
  intros [H1 H2]. unfold ticker_step. destruct (alive s) eqn:Ea; [|unfold ticker_inv; rewrite Ea; now split]. unfold ticker_inv.
  destruct e as [| |x|q|]; cbn.
  - destruct (seen s) eqn:Es; [rewrite Ea, Es; now split|]. cbn. split; [|discriminate]. intros w E. inv E. auto.
  - destruct (timer s) as [w|] eqn:Et; [|rewrite Ea, Et; split; [discriminate|exact H2]]. cbn. split; [discriminate|]. intros _ _ _. now apply H1.
  - split; [exact H1|exact H2].
  - destruct (same_deps q (tprops s)) eqn:E.
    + rewrite (same_deps_target _ _ E). split; assumption.
    + unfold timer_effect. destruct (seen s); split; try discriminate. intros w E'. inv E'. auto.
  - split; discriminate.
Qed.

(** Once it has been seen, a number that has stopped waiting is at its target, and a pending timer will
    bring it there; before, and after it is gone, nothing is pending. *)
Lemma ticker_target s : ticker_reachable s -> ticker_inv s.
Proof.
  intros (p & v & es & ->). assert (H : ticker_inv (ticker_mount p v)).
  { unfold ticker_inv, ticker_mount, timer_effect. cbn. destruct v; split; try discriminate. intros w E. inv E. auto. }
  revert H. generalize (ticker_mount p v) as s. induction es as [|e es IH]; intros s H; [exact H|]. apply IH, ticker_step_inv, H.
Qed.
End Ticker.
End NumberTicker.

Module Highlighter.

Inductive AnnotationAction := highlight | underline | box | circle | strike_through | crossed_off | bracket.

Record HighlighterProps := {
  hl_children : list vnode; hl_action : option AnnotationAction; hl_color : option jsstring; hl_strokeWidth : option num;
  hl_animationDuration : option num; hl_iterations : option num; hl_padding : option num; hl_multiline : option bool; hl_isView : bool }.

Record annotationConfig := {
  ac_type : AnnotationAction; ac_color : jsstring; ac_strokeWidth : num; ac_animationDuration : num; ac_iterations : num; ac_padding : num;
  ac_multiline : bool }.

Definition config (p : HighlighterProps) : annotationConfig :=
  {| ac_type := default_of highlight (hl_action p); ac_color := default_of (js "#ffd1dc") (hl_color p);
     ac_strokeWidth := default_of (lit 3 2) (hl_strokeWidth p); ac_animationDuration := default_of (nof 600) (hl_animationDuration p);
     ac_iterations := default_of (nof 2) (hl_iterations p); ac_padding := default_of (nof 2) (hl_padding p);
     ac_multiline := default_of true (hl_multiline p) |}.

Definition config_dec (a b : annotationConfig) : {a = b} + {a <> b}.
Proof. decide equality; try apply num_dec; try apply bool_dec; try apply (list_eq_dec N.eq_dec). decide equality. Defined.

Definition shouldShow (p : HighlighterProps) (isInView : bool) : bool := negb (hl_isView p) || isInView.

(** The annotations on the page, and the one the effect holds with its observer; [shown]: how often it was shown. *)
Record annotation := { a_id : nat; a_config : annotationConfig; a_shown : nat }.
Record highlighter := {
  hprops : HighlighterProps; inView : bool; annotations : list annotation; current : option nat; observers : list nat; nextId : nat }.

Definition effect (s : highlighter) : highlighter :=
  if shouldShow (hprops s) (inView s) then
    {| hprops := hprops s; inView := inView s;
       annotations := annotations s ++ [{| a_id := nextId s; a_config := config (hprops s); a_shown := 1 |}];
       current := Some (nextId s); observers := observers s ++ [nextId s]; nextId := S (nextId s) |}
  else {| hprops := hprops s; inView := inView s; annotations := annotations s; current := None; observers := observers s; nextId := nextId s |}.

Definition without (k : option nat) (l : list nat) : list nat := match k with Some j => filter (fun i => negb (i =? j)) l | None => l end.

Definition cleanup (s : highlighter) : highlighter :=
  {| hprops := hprops s; inView := inView s;
     annotations := match current s with Some j => filter (fun a => negb (a_id a =? j)) (annotations s) | None => annotations s end;
     current := None; observers := without (current s) (observers s); nextId := nextId s |}.

Inductive hl_event := ev_view | ev_resize | ev_props (p : HighlighterProps) | ev_unmount.

Definition render (p : HighlighterProps) (v : bool) (s : highlighter) : highlighter :=
  let s' := {| hprops := p; inView := v; annotations := annotations s; current := current s; observers := observers s; nextId := nextId s |} in
  if Bool.eqb (shouldShow p v) (shouldShow (hprops s) (inView s)) && (if config_dec (config p) (config (hprops s)) then true else false)
  then s' else effect (cleanup s').

(** An observer hides its annotation and shows it again. *)
Definition hl_step (s : highlighter) (e : hl_event) : highlighter :=
  match e with
  | ev_view => render (hprops s) true s
  | ev_resize =>
      {| hprops := hprops s; inView := inView s;
         annotations := map (fun a => if existsb (Nat.eqb (a_id a)) (observers s)
                                      then {| a_id := a_id a; a_config := a_config a; a_shown := S (a_shown a) |} else a) (annotations s);
         current := current s; observers := observers s; nextId := nextId s |}
  | ev_props p => render p (inView s) s
  | ev_unmount => cleanup s
  end.

Definition hl_mount (p : HighlighterProps) (v : bool) : highlighter :=
  effect {| hprops := p; inView := v; annotations := []; current := None; observers := []; nextId := 0 |}.

Definition Highlighter (p : HighlighterProps) : vnode := VEl "span" [sv "className" (js "relative inline-block bg-transparent")] (hl_children p).

(** The annotations on the page are the one held, with one observer, and have the current settings. *)
Definition holds (s : highlighter) : Prop :=
  match current s with
  | Some k => map a_id (annotations s) = [k] /\ observers s = [k]
  | None => annotations s = [] /\ observers s = []
  end.

Definition hl_inv (s : highlighter) : Prop := holds s /\ Forall (fun a => a_config a = config (hprops s)) (annotations s).

Lemma hl_effect_inv s : annotations s = [] -> observers s = [] -> hl_inv (effect s).
Proof. intros Ha Ho. unfold effect. destruct (shouldShow _ _); unfold hl_inv, holds; cbn; rewrite ?Ha, ?Ho; cbn; repeat constructor. Qed.

Lemma cleanup_clear s : holds s -> annotations (cleanup s) = [] /\ observers (cleanup s) = [].
Proof.
  unfold holds, cleanup. cbn. destruct (current s) as [k|]; [|auto]. intros [H1 H2]. rewrite H2. cbn. rewrite Nat.eqb_refl. split; [|reflexivity].
  destruct (annotations s) as [|a [|b l]]; try discriminate H1. inv H1. cbn. now rewrite Nat.eqb_refl.
Qed.

Lemma hl_render_inv p v s : hl_inv s -> hl_inv (render p v s).
Proof.
  intros [H1 H2]. unfold render. destruct (_ && _) eqn:E.
  - apply andb_true_iff in E as [_ E]. destruct (config_dec _ _) as [Ec|]; [|discriminate]. split; [exact H1|]. cbn. now rewrite Ec.
  - set (s' := {| hprops := p |}). destruct (cleanup_clear s' H1). now apply hl_effect_inv.
Qed.

Lemma resize_inv s : hl_inv s -> hl_inv (hl_step s ev_resize).
Proof.
  intros [H1 H2]. split; cbn.
  - unfold holds in *. cbn. destruct (current s); [|destruct H1 as [-> H1]; now split]. destruct H1 as [H1 H3]. split; [|exact H3].
    rewrite map_map, <- H1. apply map_ext. intros a. now destruct (existsb _ _).
  - rewrite Forall_map. eapply Forall_impl; [|exact H2]. intros a Ha. now destruct (existsb _ _).
Qed.

(** However it is resized and re-rendered, a highlighter has at most one annotation and one observer, and
    none once it is unmounted. *)
Lemma highlighter_single p v es :
  let s := fold_left hl_step es (hl_mount p v) in hl_inv s /\ annotations (hl_step s ev_unmount) = [] /\ observers (hl_step s ev_unmount) = [].
Proof.
  assert (H : hl_inv (fold_left hl_step es (hl_mount p v))).
  { assert (H : hl_inv (hl_mount p v)) by now apply hl_effect_inv. revert H. generalize (hl_mount p v) as s.
    induction es as [|e es IH]; intros s H; [exact H|]. cbn [fold_left]. apply IH.
    destruct e; [now apply hl_render_inv|now apply resize_inv|now apply hl_render_inv|].
    destruct (cleanup_clear s (proj1 H)) as [H1 H2]. split; cbn; [split; assumption|]. cbn in H1. rewrite H1. constructor. }
  split; [exact H|]. now apply cleanup_clear, H.
Qed.
End Highlighter.

Module AnimatedBeam.

Record AnimatedBeamProps := {
  ab_className : option jsstring; ab_curvature : option num; ab_reverse : bool; ab_pathColor : option jsstring; ab_pathWidth : option num;
  ab_pathOpacity : option num; ab_gradientStartColor : option jsstring; ab_gradientStopColor : option jsstring; ab_delay : option num;
  ab_duration : option num; ab_repeat : option num; ab_repeatDelay : option num; ab_startXOffset : option num; ab_startYOffset : option num;
  ab_endXOffset : option num; ab_endYOffset : option num }.

Record rect := { r_left : num; r_top : num; r_width : num; r_height : num }.

(** The three elements, where they are present. *)
Record scene := { container : option rect; from : option rect; to : option rect }.

Record beam := { pathD : jsstring; svgDimensions : num * num; observed : bool }.

Definition zero_of (v : option num) : num := default_of (nof 0) v.

(** The middle of an element, in the coordinates of the container. *)
Definition mid_x (c r : rect) (offset : option num) : num :=
  nadd (nadd (nsub (r_left r) (r_left c)) (ndiv (r_width r) (nof 2))) (zero_of offset).
Definition mid_y (c r : rect) (offset : option num) : num :=
  nadd (nadd (nsub (r_top r) (r_top c)) (ndiv (r_height r) (nof 2))) (zero_of offset).

Definition updatePath (p : AnimatedBeamProps) (sc : scene) (s : beam) : beam :=
  match container sc, from sc, to sc with
  | Some containerRect, Some rectA, Some rectB =>
      let startX := mid_x containerRect rectA (ab_startXOffset p) in
      let startY := mid_y containerRect rectA (ab_startYOffset p) in
      let endX := mid_x containerRect rectB (ab_endXOffset p) in
      let endY := mid_y containerRect rectB (ab_endYOffset p) in
      let controlY := nsub startY (zero_of (ab_curvature p)) in
      {| svgDimensions := (r_width containerRect, r_height containerRect);
         pathD := js "M " ++ num_to_js startX ++ js "," ++ num_to_js startY ++ js " Q "
                  ++ num_to_js (ndiv (nadd startX endX) (nof 2)) ++ js "," ++ num_to_js controlY ++ js " "
                  ++ num_to_js endX ++ js "," ++ num_to_js endY;
         observed := observed s |}
  | _, _, _ => s
  end.

Definition beam_effect (p : AnimatedBeamProps) (sc : scene) (s : beam) : beam :=
  updatePath p sc {| pathD := pathD s; svgDimensions := svgDimensions s;
                     observed := match container sc with Some _ => true | None => false end |}.

Definition beam_cleanup (s : beam) : beam := {| pathD := pathD s; svgDimensions := svgDimensions s; observed := false |}.

Definition beam_init : beam := {| pathD := []; svgDimensions := (nof 0, nof 0); observed := false |}.

(** A notification of the observer. *)
Definition beam_resize (p : AnimatedBeamProps) (sc : scene) (s : beam) : beam := if observed s then updatePath p sc s else s.

(** The ends of the animated coordinates of the gradient. *)
Definition gradientCoordinates (reverse : bool) : list (string * jsstring) :=
  if reverse then [sv "animate.x1" (js "90%,-10%"); sv "animate.x2" (js "100%,0%"); sv "animate.y1" (js "0%,0%"); sv "animate.y2" (js "0%,0%")]
  else [sv "animate.x1" (js "10%,110%"); sv "animate.x2" (js "0%,100%"); sv "animate.y1" (js "0%,0%"); sv "animate.y2" (js "0%,0%")].

Definition AnimatedBeam (cn : list jsstring -> jsstring) (id : jsstring) (p : AnimatedBeamProps) (s : beam) : vnode :=
  let w := num_to_js (fst (svgDimensions s)) in
  let h := num_to_js (snd (svgDimensions s)) in
  let width := num_to_js (default_of (nof 2) (ab_pathWidth p)) in
  let c1 := default_of (js "#ffaa40") (ab_gradientStartColor p) in
  let c2 := default_of (js "#9c40ff") (ab_gradientStopColor p) in
  VEl "svg"
    [sv "fill" (js "none"); sv "width" w; sv "height" h; sv "xmlns" (js "http://www.w3.org/2000/svg");
     sv "className" (cn (js "pointer-events-none absolute top-0 left-0 transform-gpu stroke-2" :: cls_opt (ab_className p)));
     sv "viewBox" (js "0 0 " ++ w ++ js " " ++ h)]
    [VEl "path" [sv "d" (pathD s); sv "stroke" (default_of (js "gray") (ab_pathColor p)); sv "strokeWidth" width;
                 sv "strokeOpacity" (num_to_js (default_of (lit 2 10) (ab_pathOpacity p))); sv "strokeLinecap" (js "round")] [];
     VEl "path" [sv "d" (pathD s); sv "strokeWidth" width; sv "stroke" (js "url(#" ++ id ++ js ")"); sv "strokeOpacity" (js "1");
                 sv "strokeLinecap" (js "round")] [];
     VEl "defs" []
       [VEl "motion.linearGradient"
          ([sv "className" (js "transform-gpu"); sv "id" id; sv "gradientUnits" (js "userSpaceOnUse"); sv "initial.x1" (js "0%");
            sv "initial.x2" (js "0%"); sv "initial.y1" (js "0%"); sv "initial.y2" (js "0%")]
           ++ gradientCoordinates (ab_reverse p)
           ++ [sv "transition.delay" (num_to_js (zero_of (ab_delay p))); sv "transition.duration" (num_to_js (default_of (nof 5) (ab_duration p)));
               sv "transition.ease" (js "0.16,1,0.3,1");
               sv "transition.repeat" (match ab_repeat p with Some r => num_to_js r | None => js "Infinity" end);
               sv "transition.repeatDelay" (num_to_js (zero_of (ab_repeatDelay p)))])
          [VEl "stop" [sv "stopColor" c1; sv "stopOpacity" (js "0")] []; VEl "stop" [sv "stopColor" c1] [];
           VEl "stop" [sv "offset" (js "32.5%"); sv "stopColor" c2] [];
           VEl "stop" [sv "offset" (js "100%"); sv "stopColor" c2; sv "stopOpacity" (js "0")] []]]].

(** The beam and its background are the same curve, and the gradient that paints the beam is the one defined
    beside it. *)
Lemma beam_paths cn id p s :
  collect "path" "d" (AnimatedBeam cn id p s) = [pathD s; pathD s] /\
  collect "motion.linearGradient" "id" (AnimatedBeam cn id p s) = [id] /\
  nth_error (collect "path" "stroke" (AnimatedBeam cn id p s)) 1 = Some (js "url(#" ++ id ++ js ")").
Proof. repeat split. Qed.

Example beam_curve :
  pathD (beam_effect {| ab_className := None; ab_curvature := Some (nof 50); ab_reverse := false; ab_pathColor := None; ab_pathWidth := None;
                        ab_pathOpacity := None; ab_gradientStartColor := None; ab_gradientStopColor := None; ab_delay := None;
                        ab_duration := None; ab_repeat := None; ab_repeatDelay := None; ab_startXOffset := None; ab_startYOffset := None;
                        ab_endXOffset := None; ab_endYOffset := Some (nof (-10)) |}
           {| container := Some {| r_left := nof 100; r_top := nof 10; r_width := nof 400; r_height := nof 300 |};
              from := Some {| r_left := nof 110; r_top := nof 30; r_width := nof 40; r_height := nof 40 |};
              to := Some {| r_left := nof 300; r_top := nof 90; r_width := nof 40; r_height := nof 41 |} |} beam_init)
  = js "M 30,40 Q 125,-10 220,90.5".
Proof. vm_compute. reflexivity. Qed.
End AnimatedBeam.

Module DotPattern.
Local Open Scope state_scope.

Record DotPatternProps := {
  dp_width : option num; dp_height : option num; dp_x : option num; dp_y : option num; dp_cx : option num; dp_cy : option num;
  dp_cr : option num; dp_className : option jsstring; dp_glow : bool; dp_rest : list (string * jsstring) }.

Record dot := { d_x : num; d_y : num; d_delay : num; d_duration : num }.

(** The number of entries of [Array.from({ length })]; [None] when the length is too large and it throws. *)
Definition from_length (n : num) : option nat :=
  match n with
  | S754_nan => Some 0
  | S754_infinity s => if s then Some 0 else None
  | _ => let z := truncZ n in if (z <? 2 ^ 32)%Z then Some (Z.to_nat z) else None
  end.

Section Dots.
Context (random : nat -> num).

Definition Math_random : M nat num := k <- get (fun k => k) ;; modify S ;;; ret (random k).

Definition perRow (p : DotPatternProps) (width : num) : num := Math_ceil (ndiv width (default_of (nof 16) (dp_width p))).

Definition make_dot (p : DotPatternProps) (dimensions : num * num) (i : nat) : M nat dot :=
  let cols := perRow p (fst dimensions) in
  let col := nrem (nof (Z.of_nat i)) cols in
  let row := Math_floor (ndiv (nof (Z.of_nat i)) cols) in
  d <- Math_random ;; e <- Math_random ;;
  ret {| d_x := nadd (nadd (nmul col (default_of (nof 16) (dp_width p))) (default_of (nof 1) (dp_cx p))) (default_of (nof 0) (dp_x p));
         d_y := nadd (nadd (nmul row (default_of (nof 16) (dp_height p))) (default_of (nof 1) (dp_cy p))) (default_of (nof 0) (dp_y p));
         d_delay := nmul d (nof 5); d_duration := nadd (nmul e (nof 3)) (nof 2) |}.

Fixpoint make_dots (p : DotPatternProps) (dimensions : num * num) (i n : nat) : M nat (list dot) :=
  match n with
  | O => ret []
  | S m => d <- make_dot p dimensions i ;; l <- make_dots p dimensions (S i) m ;; ret (d :: l)
  end.

Definition dots (p : DotPatternProps) (dimensions : num * num) : M nat (option (list dot)) :=
  match from_length (nmul (perRow p (fst dimensions)) (Math_ceil (ndiv (snd dimensions) (default_of (nof 16) (dp_height p))))) with
  | None => ret None
  | Some n => l <- make_dots p dimensions 0 n ;; ret (Some l)
  end.

Lemma make_dots_length p dimensions n : forall i k, length (fst (make_dots p dimensions i n k)) = n.
Proof.
  induction n as [|n IH]; intros i k; [reflexivity|]. cbn [make_dots]. unfold bind at 1. destruct (make_dot p dimensions i k) as [d k1].
  unfold bind. specialize (IH (S i) k1). destruct (make_dots p dimensions (S i) n k1) as [l k2]. cbn in *. now rewrite IH.
Qed.
End Dots.

Definition dot_circle (id : jsstring) (p : DotPatternProps) (d : dot) : vnode :=
  VEl "motion.circle"
    ([sv "key" (num_to_js (d_x d) ++ js "-" ++ num_to_js (d_y d)); sv "cx" (num_to_js (d_x d)); sv "cy" (num_to_js (d_y d));
      sv "r" (num_to_js (default_of (nof 1) (dp_cr p)));
      sv "fill" (if dp_glow p then js "url(#" ++ id ++ js "-gradient)" else js "currentColor")]
     ++ (if dp_glow p then
           [sv "initial.opacity" (js "0.4"); sv "initial.scale" (js "1"); sv "animate.opacity" (js "0.4,1,0.4"); sv "animate.scale" (js "1,1.5,1");
            sv "transition.duration" (num_to_js (d_duration d)); sv "transition.repeat" (js "Infinity");
            sv "transition.repeatType" (js "reverse"); sv "transition.delay" (num_to_js (d_delay d)); sv "transition.ease" (js "easeInOut")]
         else []))
    [].

Definition DotPattern (cn : list jsstring -> jsstring) (id : jsstring) (p : DotPatternProps) (l : list dot) : vnode :=
  VEl "svg"
    (over [sv "aria-hidden" (js "true");
           sv "className" (cn (js "pointer-events-none absolute inset-0 h-full w-full text-neutral-400/80" :: cls_opt (dp_className p)))]
          (dp_rest p))
    (VEl "defs" []
       [VEl "radialGradient" [sv "id" (id ++ js "-gradient")]
          [VEl "stop" [sv "offset" (js "0%"); sv "stopColor" (js "currentColor"); sv "stopOpacity" (js "1")] [];
           VEl "stop" [sv "offset" (js "100%"); sv "stopColor" (js "currentColor"); sv "stopOpacity" (js "0")] []]]
     :: map (dot_circle id p) l).

(** A grid of two rows of three dots, row by row. *)
Example dots_grid :
  option_map (map (fun d => (num_to_js (d_x d), num_to_js (d_y d))))
    (fst (dots (fun _ => nof 0) {| dp_width := None; dp_height := None; dp_x := None; dp_y := None; dp_cx := None; dp_cy := None; dp_cr := None;
                                   dp_className := None; dp_glow := false; dp_rest := [] |} (nof 40, nof 30) 0))
  = Some [(js "1", js "1"); (js "17", js "1"); (js "33", js "1"); (js "1", js "17"); (js "17", js "17"); (js "33", js "17")].
Proof. vm_compute. reflexivity. Qed.
End DotPattern.

Module Meteors.
Local Open Scope state_scope.

Record MeteorsProps := {
  me_number : option nat; me_minDelay : option num; me_maxDelay : option num; me_minDuration : option num; me_maxDuration : option num;
  me_angle : option num; me_className : option jsstring }.

Section Sky.
Context (random : nat -> num).

Definition Math_random : M nat num := k <- get (fun k => k) ;; modify S ;;; ret (random k).

Definition meteor_style (p : MeteorsProps) (innerWidth : num) : M nat (list (string * jsstring)) :=
  let minDelay := default_of (lit 2 10) (me_minDelay p) in
  let minDuration := default_of (nof 2) (me_minDuration p) in
  a <- Math_random ;; b <- Math_random ;; c <- Math_random ;;
  ret [sv "style.--angle" (num_to_js (nneg (default_of (nof 215) (me_angle p))) ++ js "deg"); sv "style.top" (js "-5%");
       sv "style.left" (js "calc(0% + " ++ num_to_js (Math_floor (nmul a innerWidth)) ++ js "px)");
       sv "style.animationDelay" (num_to_js (nadd (nmul b (nsub (default_of (lit 12 10) (me_maxDelay p)) minDelay)) minDelay) ++ js "s");
       sv "style.animationDuration"
         (num_to_js (Math_floor (nadd (nmul c (nsub (default_of (nof 10) (me_maxDuration p)) minDuration)) minDuration)) ++ js "s")].

Fixpoint meteor_styles (p : MeteorsProps) (innerWidth : num) (n : nat) : M nat (list (list (string * jsstring))) :=
  match n with
  | O => ret []
  | S m => s <- meteor_style p innerWidth ;; l <- meteor_styles p innerWidth m ;; ret (s :: l)
  end.

(** The effect: the new styles. *)
Definition meteors_effect (p : MeteorsProps) (innerWidth : num) : M nat (list (list (string * jsstring))) :=
  meteor_styles p innerWidth (default_of 20 (me_number p)).
End Sky.

Definition meteor (cn : list jsstring -> jsstring) (p : MeteorsProps) (idx : nat) (style : list (string * jsstring)) : vnode :=
  VEl "span"
    ([sv "key" (nat_to_js idx)] ++ style
     ++ [sv "className" (cn (js "animate-meteor pointer-events-none absolute size-0.5 rotate-(--angle) rounded-full bg-zinc-500 shadow-[0_0_0_1px_#ffffff10]"
                             :: cls_opt (me_className p)))])
    [VEl "div" [sv "className" (js "pointer-events-none absolute top-1/2 -z-10 h-px w-12.5 -translate-y-1/2 bg-linear-to-r from-zinc-500 to-transparent")] []].

Definition Meteors (cn : list jsstring -> jsstring) (p : MeteorsProps) (meteorStyles : list (list (string * jsstring))) : list vnode :=
  mapi_from (meteor cn p) 0 meteorStyles.

(** One meteor per style, three random numbers each. *)
Lemma meteors_count random p w k :
  length (fst (meteors_effect random p w k)) = default_of 20 (me_number p) /\
  snd (meteors_effect random p w k) = k + 3 * default_of 20 (me_number p).
Proof.
  unfold meteors_effect. generalize (default_of 20 (me_number p)) as n. intros n. revert k.
  induction n as [|n IH]; intros k; cbn [meteor_styles]; [cbn; split; lia|]. unfold bind at 1.
  unfold meteor_style, Math_random, bind, get, modify, ret. cbn [fst snd]. destruct (IH (S (S (S k)))) as [H1 H2].
  destruct (meteor_styles random p w n (S (S (S k)))) as [l k']. cbn in *. lia.
Qed.
End Meteors.
