(* ===== verification/Wrappers.v ===== *)
(** * Static wrappers

    Components that only arrange what they are given: the shimmering link and button, the shiny
    button, the bento grid and its cards, the back light and the scroll progress bar.  The identifier
    [useId] returns is an argument; the motion library receives attributes, as in [Decor.v]. *)

From Stdlib Require Import String List Arith NArith ZArith Lia Bool.
From S2P Require Import Prelude JsString JsNum NumText Dom Decor Ui.
Import ListNotations.
Local Open Scope list_scope.

Section Wrappers.
Context (cn : list jsstring -> jsstring) (cva : cva_config -> cva_props -> jsstring).

(** ** Shimmer *)

(** The custom properties of a shimmering element. *)
Definition shimmer_style (color radius speed cut background : jsstring) : attributes :=
  [sv "style.--spread" (js "90deg"); sv "style.--shimmer-color" color; sv "style.--radius" radius; sv "style.--speed" speed;
   sv "style.--cut" cut; sv "style.--bg" background].

Definition shimmer_spark (before : jsstring) : vnode :=
  classed "div" (cn [js "-z-30 blur-[2px]"; js "@container-[size] absolute inset-0 overflow-visible"])
    [classed "div" (js "animate-shimmer-slide absolute inset-0 aspect-[1] h-[100cqh] rounded-none [mask:none]")
       [classed "div" before []]].

Definition shimmer_highlight : vnode :=
  classed "div"
    (cn [js "absolute inset-0 size-full"; js "rounded-2xl px-4 py-1.5 text-sm font-medium shadow-[inset_0_-8px_10px_#ffffff1f]"; js "transform-gpu transition-all duration-300 ease-in-out";
         js "group-hover:shadow-[inset_0_-6px_10px_#ffffff3f]"; js "group-active:shadow-[inset_0_-10px_10px_#ffffff3f]"]) [].

Record ShimmerLinkProps := {
  sl_href : jsstring; sl_children : list vnode; sl_className : option jsstring; sl_shimmerColor : option jsstring;
  sl_shimmerSize : option jsstring; sl_shimmerDuration : option jsstring; sl_borderRadius : option jsstring; sl_background : option jsstring }.

Definition ShimmerLink (p : ShimmerLinkProps) : vnode :=
  VEl "Link"
    ([sv "href" (sl_href p)]
     ++ shimmer_style (default_of (js "#9ad4ff") (sl_shimmerColor p)) (default_of (js "100px") (sl_borderRadius p))
          (default_of (js "3s") (sl_shimmerDuration p)) (default_of (js "0.05em") (sl_shimmerSize p))
          (default_of (js "linear-gradient(110deg,#0E2C5B,45%,#2f7fe0,55%,#0E2C5B)") (sl_background p))
     ++ [sv "className"
           (cn ([js "group relative z-0 flex cursor-pointer items-center justify-center gap-2 overflow-hidden whitespace-nowrap border border-white/10 px-6 py-3 text-white [background:var(--bg)] [border-radius:var(--radius)]";
                 js "transform-gpu transition-transform duration-300 ease-in-out active:translate-y-px"] ++ cls_opt (sl_className p)))])
    ([shimmer_spark
        (js "animate-spin-around absolute -inset-full w-auto rotate-0 [translate:0_0] [background:conic-gradient(from_calc(270deg-(var(--spread)*0.5)),transparent_0,var(--shimmer-color)_var(--spread),transparent_var(--spread))]")]
     ++ sl_children p
     ++ [shimmer_highlight; classed "div" (cn [js "absolute inset-(--cut) -z-20 [background:var(--bg)] [border-radius:var(--radius)]"]) []]).

Record ShimmerButtonProps := {
  sh_shimmerColor : option jsstring; sh_shimmerSize : option jsstring; sh_borderRadius : option jsstring; sh_shimmerDuration : option jsstring;
  sh_background : option jsstring; sh_className : option jsstring; sh_children : list vnode; sh_rest : attributes }.

Definition ShimmerButton (p : ShimmerButtonProps) : vnode :=
  VEl "button"
    (over
       (shimmer_style (default_of (js "#ffffff") (sh_shimmerColor p)) (default_of (js "100px") (sh_borderRadius p))
          (default_of (js "3s") (sh_shimmerDuration p)) (default_of (js "0.05em") (sh_shimmerSize p))
          (default_of (js "rgba(0, 0, 0, 1)") (sh_background p))
        ++ [sv "className"
              (cn ([js "group relative z-0 flex cursor-pointer items-center justify-center overflow-hidden [border-radius:var(--radius)] border border-white/10 px-6 py-3 whitespace-nowrap text-white [background:var(--bg)]";
                    js "transform-gpu transition-transform duration-300 ease-in-out active:translate-y-px"] ++ cls_opt (sh_className p)))])
       (sh_rest p))
    ([shimmer_spark
        (js "animate-spin-around absolute -inset-full w-auto [translate:0_0] rotate-0 [background:conic-gradient(from_calc(270deg-(var(--spread)*0.5)),transparent_0,var(--shimmer-color)_var(--spread),transparent_var(--spread))]")]
     ++ sh_children p
     ++ [shimmer_highlight; classed "div" (cn [js "absolute inset-(--cut) -z-20 [border-radius:var(--radius)] [background:var(--bg)]"]) []]).

(** ** Shiny button *)

Definition animationProps : attributes :=
  [sv "initial.--x" (js "100%"); sv "initial.scale" (js "0.8"); sv "animate.--x" (js "-100%"); sv "animate.scale" (js "1");
   sv "whileTap.scale" (js "0.95"); sv "transition.repeat" (js "Infinity"); sv "transition.repeatType" (js "loop");
   sv "transition.repeatDelay" (js "1"); sv "transition.type" (js "spring"); sv "transition.stiffness" (js "20");
   sv "transition.damping" (js "15"); sv "transition.mass" (js "2"); sv "transition.scale.type" (js "spring");
   sv "transition.scale.stiffness" (js "200"); sv "transition.scale.damping" (js "5"); sv "transition.scale.mass" (js "0.5")].

(** A motion prop given by the caller replaces the whole prop of the same name, as [{...props}] after [{...animationProps}] does. *)
Definition motion_prop (name : string) : string := match index 0 "." name with Some i => substring 0 i name | None => name end.
Definition replace_props (base rest : attributes) : attributes :=
  filter (fun a => negb (existsb (fun b => String.eqb (motion_prop (fst a)) (motion_prop (fst b))) rest)) base ++ rest.

Definition ShinyButton (className : option jsstring) (props : attributes) (children : list vnode) : vnode :=
  VEl "motion.button"
    (replace_props
       (sv "className"
          (cn (js "relative cursor-pointer rounded-lg border px-6 py-2 font-medium backdrop-blur-xl transition-shadow duration-300 ease-in-out hover:shadow dark:bg-[radial-gradient(circle_at_50%_0%,var(--primary)/10%_0%,transparent_60%)] dark:hover:shadow-[0_0_20px_var(--primary)/10%]"
               :: cls_opt className)) :: animationProps)
       props)
    [VEl "span"
       [sv "className" (js "relative block size-full text-sm tracking-wide text-[rgb(0,0,0,65%)] uppercase dark:font-light dark:text-[rgb(255,255,255,90%)]");
        sv "style.maskImage" (js "linear-gradient(-75deg,var(--primary) calc(var(--x) + 20%),transparent calc(var(--x) + 30%),var(--primary) calc(var(--x) + 100%))")]
       children;
     VEl "span"
       [sv "style.mask" (js "linear-gradient(rgb(0,0,0), rgb(0,0,0)) content-box exclude,linear-gradient(rgb(0,0,0), rgb(0,0,0))");
        sv "style.WebkitMask" (js "linear-gradient(rgb(0,0,0), rgb(0,0,0)) content-box exclude,linear-gradient(rgb(0,0,0), rgb(0,0,0))");
        sv "style.backgroundImage" (js "linear-gradient(-75deg,var(--primary)/10% calc(var(--x)+20%),var(--primary)/50% calc(var(--x)+25%),var(--primary)/10% calc(var(--x)+100%))");
        sv "className" (js "absolute inset-0 z-10 block rounded-[inherit] p-px")] []].

(** ** Bento grid *)

Definition BentoGrid (className : option jsstring) (props : attributes) (children : list vnode) : vnode :=
  styled cn "div" [js "grid w-full auto-rows-[22rem] grid-cols-3 gap-4"] className props children.

(** [Icon] is the name of the icon component, [background] what fills the card. *)
Record BentoCardProps := {
  bc_name : jsstring; bc_className : jsstring; bc_background : list vnode; bc_Icon : string; bc_description : jsstring; bc_href : jsstring;
  bc_cta : jsstring }.

Definition bento_cta (p : BentoCardProps) : vnode :=
  Button cn cva (Some bv_link) (Some bs_sm) (Some true) (Some (js "pointer-events-auto p-0")) []
    [VEl "a" [sv "href" (bc_href p)] [VText (bc_cta p); classed "ArrowRightIcon" (js "ms-2 h-4 w-4 rtl:rotate-180") []]].

Definition BentoCard (p : BentoCardProps) (props : attributes) : vnode :=
  VEl "div"
    (over
       [sv "key" (bc_name p);
        sv "className"
          (cn ([js "group relative col-span-3 flex flex-col justify-between overflow-hidden rounded-xl";
                js "bg-background transform-gpu [border:1px_solid_rgba(255,255,255,0.1)] [box-shadow:0_-20px_80px_-20px_#ffffff1f_inset]"]
               ++ cls_opt (Some (bc_className p))))]
       props)
    [VEl "div" [] (bc_background p);
     classed "div" (js "p-4")
       [classed "div" (js "pointer-events-none z-10 flex transform-gpu flex-col gap-1 transition-all duration-300 lg:group-hover:-translate-y-10")
          [classed (bc_Icon p) (js "h-10 w-10 origin-left transform-gpu text-sky-300/80 transition-all duration-300 ease-in-out group-hover:scale-75") [];
           classed "h3" (js "text-xl font-semibold text-foreground") [VText (bc_name p)];
           classed "p" (js "max-w-lg text-muted-foreground") [VText (bc_description p)]];
        classed "div"
          (cn [js "pointer-events-none flex w-full translate-y-0 transform-gpu flex-row items-center transition-all duration-300 group-hover:translate-y-0 group-hover:opacity-100 lg:hidden"])
          [bento_cta p]];
     classed "div"
       (cn [js "pointer-events-none absolute bottom-0 hidden w-full translate-y-10 transform-gpu flex-row items-center p-4 opacity-0 transition-all duration-300 group-hover:translate-y-0 group-hover:opacity-100 lg:flex"])
       [bento_cta p];
     classed "div" (js "pointer-events-none absolute inset-0 transform-gpu transition-all duration-300 group-hover:bg-black/3 group-hover:dark:bg-neutral-800/10") []].
End Wrappers.

(** ** Back light and scroll progress *)

Definition Backlight (id : jsstring) (blur : option num) (children : list vnode) (className : option jsstring) : vnode :=
  VEl "div" (style_opt "className" className)
    [VEl "svg" [sv "width" (js "0"); sv "height" (js "0"); sv "aria-hidden" (js "true")]
       [VEl "filter" [sv "id" id; sv "y" (js "-50%"); sv "x" (js "-50%"); sv "width" (js "200%"); sv "height" (js "200%")]
          [VEl "feGaussianBlur"
             [sv "in" (js "SourceGraphic"); sv "stdDeviation" (num_to_js (default_of (nof 20) blur)); sv "result" (js "blurred")] [];
           VEl "feColorMatrix" [sv "type" (js "saturate"); sv "in" (js "blurred"); sv "values" (js "4")] [];
           VEl "feComposite" [sv "in" (js "SourceGraphic"); sv "operator" (js "over")] []]];
     VEl "div" [sv "style.filter" (js "url(#" ++ id ++ js ")")] children].

(** [scaleX] is bound to the motion value of the scroll position. *)
Definition ScrollProgress (cn : list jsstring -> jsstring) (className : option jsstring) (props : attributes) : vnode :=
  VEl "motion.div"
    (over
       [sv "className" (cn (js "fixed inset-x-0 top-0 z-50 h-px origin-left bg-linear-to-r from-[#A97CF8] via-[#F38CB8] to-[#FDCC92]" :: cls_opt className));
        sv "style.scaleX" (js "scrollYProgress")]
       props)
    [].
