(* ===== verification/Platform.v ===== *)
(** * What the pages rely on, and components as they are first rendered

    The site is exported statically ([next.config.ts]: [output] is export), so a page is what its
    components return on their first render, before any effect has run.  [Platform] gathers what the
    pages take from elsewhere: the class-name combinator, the variant function, the identifiers of
    [useId], the URL constructor, the environment, the collation of the browser and the trigonometric
    functions.  The definitions below give a component with state the state it starts with. *)

From Stdlib Require Import String List Arith NArith ZArith Lia Bool.
From S2P Require Import Prelude JsString JsNum NumText Dom Sorting Highlight CodeBlock Decor Ui Json Site SiteViews FileTree Terminal HexagonPattern.
From S2P Require Import FlickeringGrid RetroGrid.
From S2P Require Import Widgets Effects Wrappers.
Import ListNotations.
Local Open Scope list_scope.

(** [useId] takes the place of the component in the page, from which React derives the identifier.
    [localeCompare] is consistent: a total preorder. *)
Class Platform := {
  cn : list jsstring -> jsstring;
  cva : cva_config -> cva_props -> jsstring;
  useId : string -> jsstring;
  new_URL : jsstring -> jsstring -> jsstring;
  NEXT_PUBLIC_SITE_URL : option jsstring;
  collate : jsstring -> jsstring -> Z;
  collate_consistent : Consistent collate;
  Math_cos : num -> num;
  Math_sin : num -> num }.

(** What stands where a component has thrown. *)
Definition thrown : vnode := VEl "throw" [] [].

(** [s.endsWith(t)] and [s.padStart(n, t)]. *)
Definition endsWith (s t : jsstring) : bool := startsWith (rev s) (rev t).
Fixpoint pad (fuel n : nat) (t : jsstring) : jsstring :=
  match fuel with O => [] | S f => if n <=? length t then firstn n t else t ++ pad f (n - length t) t end.
Definition padStart (s : jsstring) (n : nat) (t : jsstring) : jsstring :=
  match t with [] => s | _ => pad n (n - length s) t ++ s end.

Example padStart_ex : map (fun n => padStart (nat_to_js n) 2 (js "0")) [0; 7; 12; 345] = [js "00"; js "07"; js "12"; js "345"].
Proof. reflexivity. Qed.

Section FirstRender.
Context `{Platform}.

Definition page_url (path : jsstring) : jsstring := absoluteUrl new_URL NEXT_PUBLIC_SITE_URL (Some path).
Definition base_url : jsstring := site_url NEXT_PUBLIC_SITE_URL.

Definition code_block (code : jsstring) (language : option Language) (filename className : option jsstring) : vnode :=
  default_of thrown
    (CodeBlock cn copy_init
       {| CodeBlock.p_code := code; p_language := language; p_filename := filename; CodeBlock.p_className := className;
          p_showLineNumbers := None; p_maxHeight := None |}).

(** [<BlurFade delay={delay} inView>], not seen yet. *)
Definition fade_in (delay : option num) (children : list vnode) : vnode :=
  BlurFade.BlurFade false
    {| BlurFade.bf_children := children; BlurFade.bf_className := None; BlurFade.bf_variant := None; BlurFade.bf_duration := None;
       BlurFade.bf_delay := delay; BlurFade.bf_offset := None; BlurFade.bf_direction := None; BlurFade.bf_inView := true;
       BlurFade.bf_blur := None; BlurFade.bf_rest := [] |}.

Definition shimmer_link (href className : jsstring) (children : list vnode) : vnode :=
  ShimmerLink cn
    {| sl_href := href; sl_children := children; sl_className := Some className; sl_shimmerColor := None; sl_shimmerSize := None;
       sl_shimmerDuration := None; sl_borderRadius := None; sl_background := None |}.

(** The grid has no size yet, so it has no squares. *)
Definition animated_grid (id : string) (numSquares : nat) (maxOpacity duration repeatDelay : option num) (className : jsstring) : vnode :=
  AnimatedGrid.AnimatedGridPattern cn (useId id)
    {| AnimatedGrid.dimensions := (nof 0, nof 0); AnimatedGrid.squares := [];
       AnimatedGrid.props :=
         {| AnimatedGrid.ag_width := nof 40; AnimatedGrid.ag_height := nof 40; AnimatedGrid.ag_x := nof (-1); AnimatedGrid.ag_y := nof (-1);
            AnimatedGrid.ag_strokeDasharray := nof 0; AnimatedGrid.ag_numSquares := numSquares;
            AnimatedGrid.ag_maxOpacity := default_of (lit 1 2) maxOpacity; AnimatedGrid.ag_duration := default_of (nof 4) duration;
            AnimatedGrid.ag_repeatDelay := default_of (lit 1 2) repeatDelay; AnimatedGrid.ag_className := Some className;
            AnimatedGrid.ag_rest := [] |};
       AnimatedGrid.calls := 0 |}.

Definition word_rotate (className : jsstring) (words : list jsstring) : vnode :=
  WordRotate.WordRotate cn (Some className) None {| WordRotate.index := Some 0; WordRotate.words := words |}.

Definition number_ticker (value : num) (className : jsstring) : vnode :=
  NumberTicker.NumberTicker cn
    (NumberTicker.ticker_mount
       {| NumberTicker.nt_value := value; NumberTicker.nt_startValue := None; NumberTicker.nt_direction := None; NumberTicker.nt_delay := None;
          NumberTicker.nt_className := Some className; NumberTicker.nt_decimalPlaces := None; NumberTicker.nt_rest := [] |} false).

Definition border_beam (size duration : num) (colorFrom colorTo : jsstring) (borderWidth : option num) (className : option jsstring) : vnode :=
  BorderBeam.BorderBeam cn
    {| BorderBeam.bb_className := className; BorderBeam.bb_size := Some size; BorderBeam.bb_delay := None; BorderBeam.bb_duration := Some duration;
       BorderBeam.bb_colorFrom := Some colorFrom; BorderBeam.bb_colorTo := Some colorTo; BorderBeam.bb_transition := [];
       BorderBeam.bb_style := []; BorderBeam.bb_reverse := false; BorderBeam.bb_initialOffset := None; BorderBeam.bb_borderWidth := borderWidth |}.

(** A beam between two elements that have not been measured yet. *)
Definition animated_beam (id : string) (duration : num) (delay curvature : option num) (gradientStartColor gradientStopColor pathColor : jsstring)
    (pathOpacity : num) : vnode :=
  AnimatedBeam.AnimatedBeam cn (useId id)
    {| AnimatedBeam.ab_className := None; AnimatedBeam.ab_curvature := curvature; AnimatedBeam.ab_reverse := false;
       AnimatedBeam.ab_pathColor := Some pathColor; AnimatedBeam.ab_pathWidth := None; AnimatedBeam.ab_pathOpacity := Some pathOpacity;
       AnimatedBeam.ab_gradientStartColor := Some gradientStartColor; AnimatedBeam.ab_gradientStopColor := Some gradientStopColor;
       AnimatedBeam.ab_delay := delay; AnimatedBeam.ab_duration := Some duration; AnimatedBeam.ab_repeat := None;
       AnimatedBeam.ab_repeatDelay := None; AnimatedBeam.ab_startXOffset := None; AnimatedBeam.ab_startYOffset := None;
       AnimatedBeam.ab_endXOffset := None; AnimatedBeam.ab_endYOffset := None |}
    AnimatedBeam.beam_init.

Definition dot_pattern (id : string) (width height cx cy cr : num) (className : jsstring) : vnode :=
  DotPattern.DotPattern cn (useId id)
    {| DotPattern.dp_width := Some width; DotPattern.dp_height := Some height; DotPattern.dp_x := None; DotPattern.dp_y := None;
       DotPattern.dp_cx := Some cx; DotPattern.dp_cy := Some cy; DotPattern.dp_cr := Some cr; DotPattern.dp_className := Some className;
       DotPattern.dp_glow := false; DotPattern.dp_rest := [] |} [].

Definition retro_grid (className : jsstring) (cellSize opacity : num) : vnode :=
  RetroGrid cn false
    {| RetroGrid.p_className := Some className; p_angle := None; p_cellSize := Some cellSize; p_opacity := Some opacity;
       p_lightLineColor := None; p_darkLineColor := None; p_style := []; p_rest := [] |}.

Definition hexagon_pattern (id : string) (radius gap : num) (direction : option hex_direction) (strokeDasharray : option jsstring)
    (className : jsstring) : vnode :=
  HexagonPattern Math_cos Math_sin cn (useId id)
    {| hp_radius := radius; hp_gap := gap; hp_x := nof (-1); hp_y := nof (-1); hp_direction := default_of horizontal direction;
       hp_strokeDasharray := default_of (js "0") strokeDasharray; hp_hexagons := None; hp_className := Some className; hp_rest := [] |}.

Definition flickering_grid (squareSize gridGap : num) (color : jsstring) (maxOpacity flickerChance : num) (className : jsstring) : vnode :=
  FlickeringGrid cn
    {| fg_squareSize := squareSize; fg_gridGap := gridGap; fg_flickerChance := flickerChance; fg_color := color; fg_width := None;
       fg_height := None; fg_className := Some className; fg_maxOpacity := maxOpacity; fg_rest := [] |} FlickeringGrid.init.

(** Not mounted: the theme is taken to be dark and the highlight is outside the card. *)
Definition magic_card (className gradientColor : jsstring) (gradientOpacity : num) (children : list vnode) : vnode :=
  let p := {| MagicCard.mc_children := children; MagicCard.mc_className := Some className; MagicCard.mc_gradientSize := None;
              MagicCard.mc_gradientFrom := None; MagicCard.mc_gradientTo := None; MagicCard.mc_mode := None;
              MagicCard.mc_gradientColor := Some gradientColor; MagicCard.mc_gradientOpacity := Some gradientOpacity;
              MagicCard.mc_glowFrom := None; MagicCard.mc_glowTo := None; MagicCard.mc_glowAngle := None; MagicCard.mc_glowSize := None;
              MagicCard.mc_glowBlur := None; MagicCard.mc_glowOpacity := None |} in
  let off := nneg (MagicCard.gradientSize p) in
  MagicCard.MagicCard cn None None
    {| MagicCard.cprops := p; MagicCard.isMounted := false; MagicCard.mouseX := off; MagicCard.mouseY := off; MagicCard.orbVisible := nof 0;
       MagicCard.modeRef := MagicCard.mode p; MagicCard.glowOpacityRef := MagicCard.glowOpacity p;
       MagicCard.gradientSizeRef := MagicCard.gradientSize p; MagicCard.listening := false |}.

Definition glare_hover (className background color : jsstring) (opacity duration : num) (children : list vnode) : vnode :=
  GlareHover.GlareHover cn
    {| GlareHover.gh_background := Some background; GlareHover.gh_children := children; GlareHover.gh_color := Some color;
       GlareHover.gh_opacity := Some opacity; GlareHover.gh_angle := None; GlareHover.gh_size := None; GlareHover.gh_duration := Some duration;
       GlareHover.gh_playOnce := false; GlareHover.gh_className := Some className; GlareHover.gh_style := []; GlareHover.gh_width := None;
       GlareHover.gh_height := None; GlareHover.gh_rest := [] |}.

Definition marquee (className : jsstring) (pauseOnHover : bool) (children : list vnode) : vnode :=
  Marquee.Marquee cn
    {| Marquee.mq_className := Some className; Marquee.mq_reverse := false; Marquee.mq_pauseOnHover := pauseOnHover;
       Marquee.mq_children := children; Marquee.mq_vertical := false; Marquee.mq_repeat := None; Marquee.mq_rest := [] |}.

Definition orbiting_circles (radius duration : num) (reverse : bool) (iconSize : num) (path : bool) (children : list vnode) : list vnode :=
  OrbitingCircles.OrbitingCircles cn
    {| OrbitingCircles.oc_className := None; OrbitingCircles.oc_children := children; OrbitingCircles.oc_reverse := reverse;
       OrbitingCircles.oc_duration := Some duration; OrbitingCircles.oc_radius := Some radius; OrbitingCircles.oc_path := Some path;
       OrbitingCircles.oc_iconSize := Some iconSize; OrbitingCircles.oc_speed := None; OrbitingCircles.oc_rest := [] |}.

(** The effect that fills the sky has not run. *)
Definition meteors (number : nat) (className : jsstring) : list vnode :=
  Meteors.Meteors cn
    {| Meteors.me_number := Some number; Meteors.me_minDelay := None; Meteors.me_maxDelay := None; Meteors.me_minDuration := None;
       Meteors.me_maxDuration := None; Meteors.me_angle := None; Meteors.me_className := Some className |} [].

(** The items of a terminal in a sequence that has not started. *)
Definition typing (className children : jsstring) : item_kind * vnode :=
  (k_typing children, TypingAnimation cn None item_init (Some className) []).
Definition animated_span (delay : num) (className : jsstring) (children : list vnode) : item_kind * vnode :=
  (k_span, AnimatedSpan cn true item_init (Some delay) None false (Some className) [] children).
Definition terminal_sequence (className : jsstring) (items : list (item_kind * vnode)) : vnode :=
  let props := {| t_items := map fst items; t_className := Some className; t_sequence := Some true; t_startOnView := None |} in
  Terminal cn props (term_init props) (map snd items).

Definition marked_text (color : jsstring) (strokeWidth : num) (isView : bool) (children : list vnode) : vnode :=
  Highlighter.Highlighter
    {| Highlighter.hl_children := children; Highlighter.hl_action := None; Highlighter.hl_color := Some color;
       Highlighter.hl_strokeWidth := Some strokeWidth; Highlighter.hl_animationDuration := None; Highlighter.hl_iterations := None;
       Highlighter.hl_padding := None; Highlighter.hl_multiline := None; Highlighter.hl_isView := isView |}.
End FirstRender.
