(* ===== verification/Home.v ===== *)
(** * The sections of the home and architecture pages ([website/components/home], [website/components/architecture])

    Each component with the data it shows, translated element by element: an array of objects is a list
    of records, [map] with an index is [mapi_from], a condition in braces is [when].  The components they
    are made of come from the other files, as they are first rendered ([Platform.v]).  Names the sources
    use more than once carry the name of their file. *)

From Stdlib Require Import String List Arith NArith ZArith Lia Bool.
From S2P Require Import Prelude JsString JsNum NumText Dom Highlight CodeBlock Decor Ui Json Site SiteViews HexagonPattern Wrappers Platform.
Import ListNotations.
Local Open Scope list_scope.
Local Open Scope nat_scope.

Section Home.
Context `{Platform}.

(** ** Hero ([hero.tsx]) *)

Definition heroManifest : jsstring :=
  js "apiVersion: kubecell.io/v1alpha1
kind: VirtualCluster
metadata:
  name: child-dev
  namespace: kubecell-system
spec:
  cellRef: {name: cell1}
  classRef: {name: ascend-910b}".

Record HeroStat := { hs_value : num; hs_suffix : jsstring; hs_label : jsstring }.

Definition heroStats : list HeroStat :=
  [{| hs_value := nof 0; hs_suffix := js ""; hs_label := js "VMs to manage" |};
   {| hs_value := nof 8; hs_suffix := js ""; hs_label := js "lines to create a cluster" |};
   {| hs_value := nof 20; hs_suffix := js " min"; hs_label := js "from apply to first Ready" |};
   {| hs_value := nof 100; hs_suffix := js "%"; hs_label := js "standard kubectl, Helm, and CI" |}].

Definition hero_intro : vnode :=
  el "div" (js "mx-auto max-w-3xl text-center")
    [fade_in None
       [VEl "Link"
          [sv "href" (js "/docs/");
           sv "className"
             (js "group inline-flex items-center gap-2 rounded-full border border-white/10 bg-white/[0.03] px-3.5 py-1.5 text-xs text-muted-foreground transition-colors hover:border-sky-400/40 hover:text-foreground")]
          [el "span" (js "inline-flex h-1.5 w-1.5 rounded-full bg-emerald-400") [];
           Texts.AnimatedShinyText cn [VText (js "Open source · pre-release · not production ready yet")] (Some (js "text-xs")) None [];
           el "ArrowRight" (js "h-3 w-3 transition-transform group-hover:translate-x-0.5") []]];
     fade_in (Some (lit 8 100))
       [el "h1" (js "mt-6 text-pretty text-4xl font-semibold leading-[1.12] tracking-tight text-foreground sm:text-5xl")
          [VText (js "Give every developer");
           VText (js " ");
           el "br" (js "hidden sm:inline") [];
           Texts.AnimatedGradientText cn [VText (js "their own Kubernetes cluster")] None (Some (nof 1)) (Some (js "#7fb6ff")) (Some (js "#c4b5fd"))
             []]];
     fade_in (Some (lit 12 100))
       [el "div" (js "mt-5 flex flex-wrap items-center justify-center gap-2 text-sm text-muted-foreground")
          [VEl "span" [] [VText (js "Built for")];
           word_rotate (js "text-sm font-medium text-sky-300")
             [js "AI research teams"; js "platform engineering"; js "training labs"; js "CI pipelines"; js "edge sites"]]];
     fade_in (Some (lit 16 100))
       [el "p" (js "mx-auto mt-6 max-w-2xl text-pretty text-base leading-7 text-muted-foreground sm:text-lg")
          [VText (js "Each developer gets an isolated cluster on the hardware you already own: standard");
           VText (js " ");
           el "span" (js "text-foreground/90") [VText (js "kubectl")];
           VText
             (js ", a real control plane, persistent storage, and hard CPU, memory, and GPU quotas. No VM per person, no shared namespace everyone has to trust.")]];
     fade_in (Some (lit 24 100))
       [el "div" (js "mt-8 flex flex-col items-center justify-center gap-3 sm:flex-row")
          [shimmer_link (js "/quickstart/") (js "h-11 px-6 text-sm font-medium shadow-2xl")
             [el "Terminal" (js "h-4 w-4") []; VText (js "Start the quickstart")];
           Button cn cva (Some bv_outline) (Some bs_lg) (Some true) None []
             [VEl "a" [sv "href" site_github; sv "target" (js "_blank"); sv "rel" (js "noreferrer")]
                [el "Github" (js "h-4 w-4") []; VText (js "View on GitHub")]]]]].

Definition hero_manifest : vnode :=
  fade_in (Some (lit 32 100))
    [el "div" (js "relative mx-auto mt-14 max-w-2xl")
       [el "div" (js "absolute -inset-x-6 -inset-y-4 -z-10 rounded-3xl bg-gradient-to-r from-sky-500/10 via-transparent to-violet-500/10 blur-2xl") [];
        code_block heroManifest (Some l_yaml) (Some (js "virtualcluster.yaml")) None;
        border_beam (nof 220) (nof 10) (js "#38bdf8") (js "#8b5cf6") (Some (nof 1)) (Some (js "rounded-xl"))]].

Definition hero_stats : vnode :=
  fade_in (Some (lit 4 10))
    [el "dl" (js "mx-auto mt-14 grid max-w-4xl grid-cols-2 gap-x-6 gap-y-8 sm:grid-cols-4")
       (map
          (fun stat =>
            keyed (hs_label stat)
              (el "div" (js "text-center")
                 [el "dt" (js "sr-only") [VText (hs_label stat)];
                  el "dd" (js "text-3xl font-semibold tracking-tight text-foreground sm:text-4xl")
                    [number_ticker (hs_value stat) (js "text-foreground"); VText (hs_suffix stat)];
                  el "p" (js "mt-1.5 text-xs leading-5 text-muted-foreground") [VText (hs_label stat)]]))
          heroStats)].

Definition Hero : vnode :=
  el "section" (js "relative overflow-hidden pb-16 pt-16 sm:pb-24 sm:pt-24")
    [animated_grid "hero.background/1" 36 (Some (lit 12 100)) (Some (nof 4)) (Some (lit 6 10))
       (cn [js "absolute inset-0 -z-10 h-[46rem] w-full"; js "[mask-image:radial-gradient(60%_60%_at_50%_20%,black,transparent)]"]);
     el "div" (js "pointer-events-none absolute -top-32 left-1/2 -z-10 h-[28rem] w-[52rem] -translate-x-1/2 rounded-full bg-sky-500/10 blur-[120px]")
       [];
     el "div" (js "pointer-events-none absolute inset-x-0 bottom-0 -z-10 h-40 bg-gradient-to-b from-transparent to-background") [];
     el "div" (js "container-page relative") [hero_intro; hero_manifest; hero_stats]].

(** ** Stack marquee ([stack-marquee.tsx]) *)

Definition marquee_stack : list jsstring :=
  [js "Kubernetes";
   js "K3s";
   js "kubectl";
   js "Helm";
   js "Traefik";
   js "CoreDNS";
   js "TopoLVM";
   js "LVM";
   js "NVIDIA";
   js "Ascend 910B";
   js "ARM64";
   js "x86_64"].

Definition StackMarquee : vnode :=
  el "div" (js "relative border-y border-white/5 bg-white/[0.015] py-8")
    [el "p" (js "mb-5 text-center font-mono text-xs uppercase tracking-[0.24em] text-muted-foreground")
       [VText (js "Standard Kubernetes tooling, no new workflow to learn")];
     el "div" (js "relative")
       [marquee (js "[--duration:45s] [--gap:2.5rem]") true
          (map
             (fun name =>
               keyed name
                 (el "span" (js "rounded-full border border-white/10 bg-white/[0.03] px-4 py-1.5 text-sm text-muted-foreground") [VText name]))
             marquee_stack);
        el "div" (js "pointer-events-none absolute inset-y-0 left-0 w-24 bg-gradient-to-r from-background to-transparent") [];
        el "div" (js "pointer-events-none inset-y-0 right-0 absolute w-24 bg-gradient-to-l from-background to-transparent") []]].

(** ** Features ([feature-bento.tsx]) *)

Definition feature_cards : list BentoCardProps :=
  [{| bc_name := js "Real clusters, not namespaces";
      bc_className := js "lg:col-span-1 lg:row-start-1 lg:row-end-1";
      bc_background := [dot_pattern "features/1" (nof 20) (nof 20) (nof 1) (nof 1) (nof 1)
                          (cn [js "[mask-image:radial-gradient(18rem_circle_at_center,white,transparent)]"])];
      bc_Icon := "Boxes"%string;
      bc_description := js "Every developer gets their own API server, so they can install CRDs, operators, and webhooks without stepping on anyone else.";
      bc_href := js "/docs/concepts/";
      bc_cta := js "What you get" |};
   {| bc_name := js "Know it will fit before you create it";
      bc_className := js "lg:col-span-2 lg:row-start-1 lg:row-end-2";
      bc_background := [retro_grid (js "opacity-40") (nof 48) (lit 35 100)];
      bc_Icon := "Gauge"%string;
      bc_description := js "A dry-run request tells you whether CPU, memory, GPUs, and storage are available — and exactly what is missing when they are not. Nothing is created until you are ready.";
      bc_href := js "/docs/concepts/";
      bc_cta := js "How the dry run works" |};
   {| bc_name := js "Grow by picking a bigger tier";
      bc_className := js "lg:col-span-2 lg:row-start-2 lg:row-end-3";
      bc_background := [animated_grid "features/2" 24 (Some (lit 14 100)) (Some (nof 4)) None
                          (cn [js "absolute inset-0 [mask-image:radial-gradient(20rem_circle_at_center,white,transparent)]"])];
      bc_Icon := "SlidersHorizontal"%string;
      bc_description := js "Each cluster presents one node sized by the quota tier you choose. Need more CPU, memory, or another GPU? Move to the next tier instead of learning a new scaling model.";
      bc_href := js "/docs/concepts/";
      bc_cta := js "Understand sizing" |};
   {| bc_name := js "Isolation you can audit";
      bc_className := js "lg:col-span-1 lg:row-start-2 lg:row-end-3";
      bc_background := [hexagon_pattern "features/3" (nof 22) (nof 6) None (Some (js "2 3")) (js "absolute inset-0 opacity-40")];
      bc_Icon := "Lock"%string;
      bc_description := js "Quotas, network policy, and blocked privileged workloads are enforced on the host — visible in the same Kubernetes objects you already know.";
      bc_href := js "/docs/security/";
      bc_cta := js "Security model" |};
   {| bc_name := js "Manifests you can read in a minute";
      bc_className := js "lg:col-span-1 lg:row-start-3 lg:row-end-3";
      bc_background := [flickering_grid (nof 3) (nof 6) (js "#2f7fe0") (lit 25 100) (lit 8 100)
                          (js "absolute inset-0 [mask-image:radial-gradient(12rem_circle_at_center,white,transparent)]")];
      bc_Icon := "LayoutGrid"%string;
      bc_description := js "You write which host to use and how much CPU, memory, and GPU you need. Versions, ports, and security defaults are handled for you.";
      bc_href := js "/docs/first-virtualcluster/";
      bc_cta := js "Write your first cluster" |};
   {| bc_name := js "Tested versions, predictable upgrades";
      bc_className := js "lg:col-span-2 lg:row-start-3 lg:row-end-3";
      bc_background := [hexagon_pattern "features/4" (nof 30) (nof 10) (Some vertical) None (js "absolute inset-0 opacity-30")];
      bc_Icon := "Pin"%string;
      bc_description := js "KubeCell pins the versions it validates and reports drift in resource status, so upgrades are a deliberate step — not a surprise on a Monday morning.";
      bc_href := js "/architecture/";
      bc_cta := js "See what is pinned" |}].

Definition FeatureBento : vnode :=
  el "section" (js "relative py-20 sm:py-24")
    [el "div" (js "container-page")
       [SectionHeading cn (Some (js "Why KubeCell")) [VText (js "Platform-grade isolation without a platform rewrite")]
          (Some [VText (js "Four resources to learn, one management plane to operate, and the Kubernetes workflow your team already knows.")])
          None
          None;
        el "div" (js "mt-12")
          [BentoGrid cn (Some (js "lg:auto-rows-[18rem] lg:grid-cols-3")) []
             (map (fun card => keyed (bc_name card) (BentoCard cn cva card [])) feature_cards)]]].

(** ** Workflow ([workflow.tsx]) *)

Record WorkflowStep := { ws_icon : string; ws_title : jsstring; ws_description : jsstring }.

Definition workflow_steps : list WorkflowStep :=
  [{| ws_icon := "ClipboardCheck"%string;
      ws_title := js "Check before you change anything";
      ws_description := js "A read-only preflight inspects both clusters and stops at the first problem. Nothing is modified until you pass --apply and --confirm." |};
   {| ws_icon := "DownloadCloud"%string;
      ws_title := js "Add your host";
      ws_description := js "Register the machine and approve it manually — a deliberate safety gate, so a new host can never join silently." |};
   {| ws_icon := "Wrench"%string;
      ws_title := js "Let KubeCell prepare the host";
      ws_description := js "Storage, ingress, and accelerator support are installed at tested versions. You do not assemble the stack yourself." |};
   {| ws_icon := "Rocket"%string;
      ws_title := js "Create the developer cluster";
      ws_description := js "Pick the host and a quota tier, apply an eight-line manifest, and collect the kubeconfig from the resource status." |}].

Definition Workflow : vnode :=
  el "section" (js "relative py-20 sm:py-24")
    [el "div" (js "container-page")
       [SectionHeading cn (Some (js "How it works")) [VText (js "Four commands to a running cluster")]
          (Some
             [VText
                (js "Humans run four commands. KubeCell handles the rest: what to install, which versions, and how to keep every host consistent.")])
          None
          None;
        el "div" (js "mt-14 grid gap-12 lg:grid-cols-2 lg:items-center")
          [el "div" (js "space-y-6")
             (mapi_from
                   (fun index step =>
                     keyed (ws_title step)
                       (fade_in (Some (nmul (nof (Z.of_nat index)) (lit 8 100)))
                          [el "div" (js "flex gap-4")
                             [el "div" (js "flex flex-col items-center")
                                ([el "span"
                                       (js "inline-flex h-10 w-10 shrink-0 items-center justify-center rounded-xl border border-sky-400/20 bg-sky-500/10 text-sky-300")
                                       [el (ws_icon step) (js "h-5 w-5") []]]
                                 ++ when (index <? length workflow_steps - 1)
                                      (el "span" (js "mt-2 h-full w-px flex-1 bg-gradient-to-b from-sky-400/30 to-transparent") []));
                              el "div" (js "pb-2")
                                [el "h3" (js "text-base font-semibold text-foreground") [VText (ws_title step)];
                                 el "p" (js "mt-1 text-sm leading-6 text-muted-foreground") [VText (ws_description step)]]]]))
                   0
                   workflow_steps
              ++ [fade_in (Some (lit 4 10))
                    [el "div" (js "flex items-start gap-3 rounded-xl border border-emerald-400/15 bg-emerald-500/[0.06] p-4")
                       [el "CheckCircle2" (js "mt-0.5 h-4 w-4 shrink-0 text-emerald-400") [];
                        el "p" (js "text-sm leading-6 text-emerald-100/80")
                          [VText
                             (js "The first cluster usually takes 10–20 minutes while container images are pulled onto the host. Clusters created afterwards start much faster.")]]]]);
           fade_in (Some (lit 15 100))
             [terminal_sequence (js "max-w-none bg-[#070b14] shadow-[0_30px_80px_-40px_rgba(47,127,224,0.6)]")
                [typing (js "font-mono text-xs text-slate-300") (js "$ go run ./cmd/kubecell-installer doctor host --bundle ./release");
                 animated_span (nof 400) (js "font-mono text-xs text-emerald-400") [VText (js "✓ host reachable and healthy")];
                 animated_span (nof 300) (js "font-mono text-xs text-emerald-400") [VText (js "✓ machine profile detected: ascend-910b")];
                 animated_span (nof 300) (js "font-mono text-xs text-emerald-400") [VText (js "✓ storage available: 2.1 TiB")];
                 animated_span (nof 300) (js "font-mono text-xs text-emerald-400") [VText (js "✓ accelerators detected: 8 × Ascend 910B")];
                 typing (js "font-mono text-xs text-slate-300") (js "$ clusteradm join --cluster-name cell1 --wait");
                 animated_span (nof 500) (js "font-mono text-xs text-sky-300") [VText (js "→ host cell1 registered and waiting for approval")];
                 typing (js "font-mono text-xs text-slate-300") (js "$ kubectl apply -f virtualcluster.yaml");
                 animated_span (nof 500) (js "font-mono text-xs text-amber-300")
                   [VText (js "→ preflight: accepted (cpu, memory, 2 × Ascend 910B, storage)")];
                 animated_span (nof 700) (js "font-mono text-xs text-emerald-400") [VText (js "✓ cluster child-dev is Ready")];
                 typing (js "font-mono text-xs text-slate-300") (js "$ kubectl --kubeconfig child-dev.yaml get nodes");
                 animated_span (nof 400) (js "font-mono text-xs text-slate-100") [VText (js "NAME     STATUS   ROLES    AGE   VERSION")];
                 animated_span (nof 300) (js "font-mono text-xs text-slate-100") [VText (js "kubelet  Ready    <none>   42s   v1.34.2+k3s1")]]]]]].

(** ** Architecture diagram ([architecture-beam.tsx]) *)

Record BeamNode := { bn_icon : string; bn_title : jsstring; bn_subtitle : jsstring }.

Inductive beam_variant := simple | technical.

Record BeamNodes := { left : list BeamNode; middle : list BeamNode; right : list BeamNode }.

Definition nodes (variant : beam_variant) : BeamNodes :=
  match variant with
  | simple =>
      {| left := [{| bn_icon := "FileCode2"%string; bn_title := js "Your manifests"; bn_subtitle := js "host, quota, cluster" |};
                  {| bn_icon := "CloudCog"%string; bn_title := js "KubeCell"; bn_subtitle := js "one management cluster" |}];
         middle := [{| bn_icon := "Layers"%string; bn_title := js "Host setup"; bn_subtitle := js "namespace + quota" |};
                    {| bn_icon := "Workflow"%string; bn_title := js "Cluster creation"; bn_subtitle := js "control plane + storage" |}];
         right := [{| bn_icon := "Server"%string; bn_title := js "Your host"; bn_subtitle := js "runs the workloads" |};
                   {| bn_icon := "Boxes"%string; bn_title := js "Your cluster"; bn_subtitle := js "kubectl + kubeconfig" |}] |}
  | technical =>
      {| left := [{| bn_icon := "FileCode2"%string; bn_title := js "KubeCell CRDs"; bn_subtitle := js "Cell · Class · Plan · VC" |};
                  {| bn_icon := "CloudCog"%string; bn_title := js "OCM Hub"; bn_subtitle := js "desired state only" |}];
         middle := [{| bn_icon := "Layers"%string; bn_title := js "Foundation Work"; bn_subtitle := js "namespace + quota" |};
                    {| bn_icon := "Workflow"%string; bn_title := js "Instance Work"; bn_subtitle := js "K3k shared-mode cluster" |}];
         right := [{| bn_icon := "Server"%string; bn_title := js "Cell host"; bn_subtitle := js "work-agent applies" |};
                   {| bn_icon := "Boxes"%string; bn_title := js "VirtualCluster"; bn_subtitle := js "child K3s API + kubelet" |}] |}
  end.

Definition Node (icon : string) (title subtitle : jsstring) (className : option jsstring) : vnode :=
  el "div"
    (cn
       ([js "z-10 w-full max-w-56 rounded-xl border border-white/10 bg-[#080d19]/90 px-4 py-3 shadow-[0_10px_40px_-20px_rgba(47,127,224,0.8)] backdrop-blur"]
        ++ cls_opt className))
    [el "div" (js "flex items-center gap-2.5")
       [el "span" (js "inline-flex h-8 w-8 shrink-0 items-center justify-center rounded-lg border border-sky-400/20 bg-sky-500/10 text-sky-300")
          [el icon (js "h-4 w-4") []];
        el "div" (js "min-w-0")
          [el "p" (js "truncate text-sm font-medium text-foreground") [VText title];
           el "p" (js "truncate text-xs text-muted-foreground") [VText subtitle]]]].

(** [<Node {...node} />]. *)
Definition node_of (node : option BeamNode) : vnode :=
  match node with Some n => Node (bn_icon n) (bn_title n) (bn_subtitle n) None | None => thrown end.

(** The diagram on a narrow screen. *)
Definition beam_list (set : BeamNodes) : vnode :=
  el "div" (js "flex flex-col gap-3 md:hidden")
    (let l := left set ++ [{| bn_icon := "Layers"%string; bn_title := js "Host setup + cluster creation"; bn_subtitle := js "applied on the host" |}] ++ right set in
    mapi_from
       (fun index node =>
         keyed (bn_title node)
           (VEl "div" []
              ([el "div" (js "rounded-xl border border-white/10 bg-[#080d19]/90 px-4 py-3")
                     [el "div" (js "flex items-center gap-2.5")
                        [el "span"
                           (js "inline-flex h-8 w-8 shrink-0 items-center justify-center rounded-lg border border-sky-400/20 bg-sky-500/10 text-sky-300")
                           [el (bn_icon node) (js "h-4 w-4") []];
                         VEl "div" []
                           [el "p" (js "text-sm font-medium text-foreground") [VText (bn_title node)];
                            el "p" (js "text-xs text-muted-foreground") [VText (bn_subtitle node)]]]]]
               ++ when (index <? length l - 1) (el "div" (js "mx-auto h-5 w-px bg-gradient-to-b from-sky-400/60 to-transparent") []))))
       0
       l).

(** The diagram on a wide screen; the references of its elements are not attributes. *)
Definition beam_diagram (set : BeamNodes) : vnode :=
  el "div"
    (js "relative hidden w-full items-stretch justify-between gap-4 overflow-hidden rounded-2xl border border-white/5 bg-white/[0.015] px-6 py-10 sm:px-10 md:flex")
    [el "div" (js "pointer-events-none absolute inset-0 bg-grid-faint opacity-40") [];
     el "div" (js "relative z-10 flex flex-col justify-center gap-6") [node_of (nth_error (left set) 0); node_of (nth_error (left set) 1)];
     el "div" (js "relative z-10 flex flex-col justify-center gap-16") [node_of (nth_error (middle set) 0); node_of (nth_error (middle set) 1)];
     el "div" (js "relative z-10 flex flex-col justify-center gap-6") [node_of (nth_error (right set) 0); node_of (nth_error (right set) 1)];
     animated_beam "beam/1" (nof 4) None None (js "#38bdf8") (js "#2f7fe0") (js "#2f7fe0") (lit 15 100);
     animated_beam "beam/2" (nof 5) (Some (lit 4 10)) None (js "#2f7fe0") (js "#8b5cf6") (js "#2f7fe0") (lit 15 100);
     animated_beam "beam/3" (nof 5) (Some (lit 9 10)) (Some (nof (-60))) (js "#2f7fe0") (js "#8b5cf6") (js "#2f7fe0") (lit 15 100);
     animated_beam "beam/4" (nof 4) (Some (lit 6 10)) None (js "#38bdf8") (js "#22d3ee") (js "#2f7fe0") (lit 15 100);
     animated_beam "beam/5" (nof 4) (Some (lit 11 10)) (Some (nof 60)) (js "#8b5cf6") (js "#38bdf8") (js "#2f7fe0") (lit 15 100);
     animated_beam "beam/6" (lit 35 10) (Some (lit 14 10)) None (js "#22d3ee") (js "#2f7fe0") (js "#2f7fe0") (lit 15 100)].

Definition ArchitectureBeam (className : option jsstring) (variant : option beam_variant) : vnode :=
  let set := nodes (default_of simple variant) in
  el "div" (cn (js "w-full" :: cls_opt className)) [beam_list set; beam_diagram set].

(** ** Isolation ([isolation.tsx]) *)

Definition isolation_icons : list string :=
  ["ShieldCheck"; "Lock"; "Network"; "ScanSearch"; "Waypoints"; "UserCheck"]%string.

Definition IsolationGrid : vnode :=
  el "section" (js "relative py-20 sm:py-24")
    [el "div" (js "container-page")
       [SectionHeading cn (Some (js "Isolation model")) [VText (js "Isolation is enforced on the host, not promised in a README")]
          (Some
             [VText
                (js "Every cluster runs in its own space on the host with real Kubernetes guardrails. Nothing depends on developers behaving well.")])
          None
          None;
        el "div" (js "mt-12 grid gap-4 sm:grid-cols-2 lg:grid-cols-3")
          (mapi_from
             (fun index control =>
               let Icon := nth (index mod length isolation_icons) isolation_icons ""%string in
               keyed (i_title control)
                 (magic_card (js "h-full rounded-xl border border-white/10 bg-white/[0.02]") (js "#1d3f73") (lit 5 10)
                    [el "div" (js "flex h-full flex-col gap-3 p-6")
                       [el "span"
                          (js "inline-flex h-10 w-10 items-center justify-center rounded-xl border border-sky-400/20 bg-sky-500/10 text-sky-300")
                          [el Icon (js "h-5 w-5") []];
                        el "h3" (js "text-base font-semibold text-foreground") [VText (i_title control)];
                        el "p" (js "text-sm leading-6 text-muted-foreground") [VText (i_description control)]]]))
             0
             isolationControls)]].

(** ** Comparison ([comparison.tsx]) *)

Record ComparisonRow := {
  cr_aspect : jsstring; cr_namespaces : jsstring; cr_namespacesGood : bool; cr_vmPerDev : jsstring; cr_vmGood : bool; cr_kubecell : jsstring;
  cr_kubecellGood : bool }.

Definition comparison_rows : list ComparisonRow :=
  [{| cr_aspect := js "API surface";
      cr_namespaces := js "Shared API server, shared cluster-wide resources";
      cr_namespacesGood := false;
      cr_vmPerDev := js "Own API, heavy per-VM control plane";
      cr_vmGood := true;
      cr_kubecell := js "Own K3s API server per developer cluster";
      cr_kubecellGood := true |};
   {| cr_aspect := js "Isolation";
      cr_namespaces := js "Namespaces and RBAC only; shared kernel";
      cr_namespacesGood := false;
      cr_vmPerDev := js "Strong VM boundary, high fixed cost";
      cr_vmGood := true;
      cr_kubecell := js "Dedicated namespace, hard quota, network policy";
      cr_kubecellGood := true |};
   {| cr_aspect := js "Accelerators";
      cr_namespaces := js "Shared allocation, hard to reason about";
      cr_namespacesGood := false;
      cr_vmPerDev := js "GPU passthrough per VM, limited density";
      cr_vmGood := false;
      cr_kubecell := js "Whole cards per cluster, never shared";
      cr_kubecellGood := true |};
   {| cr_aspect := js "Density and cost";
      cr_namespaces := js "High density, weak boundaries";
      cr_namespacesGood := true;
      cr_vmPerDev := js "Low density, duplicated control planes";
      cr_vmGood := false;
      cr_kubecell := js "Shared hosts, isolated control planes";
      cr_kubecellGood := true |};
   {| cr_aspect := js "Day-2 operations";
      cr_namespaces := js "One cluster to upgrade";
      cr_namespacesGood := true;
      cr_vmPerDev := js "Thousands of VMs to patch";
      cr_vmGood := false;
      cr_kubecell := js "One management plane to operate";
      cr_kubecellGood := true |}].

Definition ComparisonCell (value : jsstring) (good : bool) : vnode :=
  el "div" (js "flex items-start gap-2")
    [if good then el "Check" (js "mt-0.5 h-4 w-4 shrink-0 text-emerald-400") [] else el "X" (js "mt-0.5 h-4 w-4 shrink-0 text-rose-400/80") [];
     el "span" (js "text-sm leading-6 text-muted-foreground") [VText value]].

Definition Comparison : vnode :=
  el "section" (js "relative py-20 sm:py-24")
    [el "div" (js "container-page")
       [SectionHeading cn (Some (js "Trade-offs")) [VText (js "Not namespaces. Not a VM per developer.")]
          (Some [VText (js "KubeCell sits between the two familiar extremes: real cluster semantics per developer, sharing the hardware underneath.")])
          None
          None;
        el "div" (js "mt-12 overflow-hidden rounded-2xl border border-white/10")
          [el "div" (js "overflow-x-auto")
             [el "table" (js "w-full min-w-[720px] border-collapse text-left")
                [VEl "thead" []
                   [el "tr" (js "bg-white/[0.03] text-sm")
                      [el "th" (js "px-5 py-4 font-medium text-muted-foreground") [VText (js "Aspect")];
                       el "th" (js "px-5 py-4 font-medium text-muted-foreground") [VText (js "Shared namespaces")];
                       el "th" (js "px-5 py-4 font-medium text-muted-foreground") [VText (js "VM per developer")];
                       el "th" (cn [js "px-5 py-4 font-semibold text-foreground"; js "border-x border-sky-400/20 bg-sky-500/[0.07]"])
                         [VText (js "KubeCell")]]];
                 VEl "tbody" []
                   (map
                      (fun row =>
                        keyed (cr_aspect row)
                          (el "tr" (js "border-t border-white/5")
                             [el "td" (js "px-5 py-4 text-sm font-medium text-foreground") [VText (cr_aspect row)];
                              el "td" (js "px-5 py-4") [ComparisonCell (cr_namespaces row) (cr_namespacesGood row)];
                              el "td" (js "px-5 py-4") [ComparisonCell (cr_vmPerDev row) (cr_vmGood row)];
                              el "td" (js "border-x border-sky-400/20 bg-sky-500/[0.07] px-5 py-4")
                                [ComparisonCell (cr_kubecell row) (cr_kubecellGood row)]]))
                      comparison_rows)]]]]].

(** ** Manifests ([code-showcase.tsx]) *)

Definition cellYaml : jsstring :=
  js "apiVersion: kubecell.io/v1alpha1
kind: Cell
metadata:
  name: cell1
  namespace: kubecell-system
spec:
  managedClusterRef:
    name: cell1
  machineProfile:
    name: ascend-910b
    devices:
    - name: ascend
      resourceName: huawei.com/Ascend910".

Definition classYaml : jsstring :=
  jsq "apiVersion: kubecell.io/v1alpha1
kind: VirtualNodeClass
metadata:
  name: ascend-910b
spec:
  entitlement:
    workloadHard:
      requests.cpu: `4`
      limits.cpu: `4`
      requests.memory: 8Gi
      limits.memory: 8Gi
      requests.huawei.com/Ascend910: `2`
      limits.huawei.com/Ascend910: `2`
  storageClassName: topolvm-provisioner".

Definition vcYaml : jsstring :=
  js "apiVersion: kubecell.io/v1alpha1
kind: VirtualClusterPlan   # isomorphic dry run first
metadata:
  name: child-dev-plan
  namespace: kubecell-system
spec:
  cellRef: {name: cell1}
  classRef: {name: ascend-910b}
---
apiVersion: kubecell.io/v1alpha1
kind: VirtualCluster       # then the real thing
metadata:
  name: child-dev
  namespace: kubecell-system
spec:
  cellRef: {name: cell1}
  classRef: {name: ascend-910b}".

Definition CodeShowcase : vnode :=
  el "section" (js "relative py-20 sm:py-24")
    [el "div" (js "container-page")
       [SectionHeading cn (Some (js "The manifests")) [VText (js "Three small files stand between a host and a developer")]
          (Some
             [VText (js "A Cell describes one physical host and what it offers. A VirtualNodeClass is a quota tier. A VirtualCluster is eight lines.")])
          None
          None;
        el "div" (js "mx-auto mt-12 max-w-3xl")
          [Tabs [sv "defaultValue" (js "cell")]
             [TabsList cn (Some (js "mx-auto flex h-auto w-fit flex-wrap justify-center gap-1 border border-white/10 bg-white/[0.03] p-1")) []
                [TabsTrigger cn None [sv "value" (js "cell")] [VText (js "Cell")];
                 TabsTrigger cn None [sv "value" (js "class")] [VText (js "VirtualNodeClass")];
                 TabsTrigger cn None [sv "value" (js "vc")] [VText (js "Plan → VirtualCluster")]];
              TabsContent cn (Some (js "mt-6")) [sv "value" (js "cell")] [code_block cellYaml (Some l_yaml) (Some (js "cell.yaml")) None];
              TabsContent cn (Some (js "mt-6")) [sv "value" (js "class")]
                [code_block classYaml (Some l_yaml) (Some (js "virtualnodeclass.yaml")) None];
              TabsContent cn (Some (js "mt-6")) [sv "value" (js "vc")] [code_block vcYaml (Some l_yaml) (Some (js "virtualcluster.yaml")) None]]];
        el "p" (js "mx-auto mt-6 max-w-3xl text-center text-sm leading-6 text-muted-foreground")
          [VText
             (js "Not sure a request will fit? Create the Plan first: it checks capacity without creating anything, tells you exactly which resource is missing, and never blocks a later change.")]]].

(** ** Use cases ([use-cases-preview.tsx]) *)

Record UseCaseCard := { uc_icon : string; uc_title : jsstring; uc_description : jsstring; uc_href : jsstring }.

Definition useCase_cards : list UseCaseCard :=
  [{| uc_icon := "BrainCircuit"%string;
      uc_title := js "Accelerator sandboxes";
      uc_description := js "Give each researcher their own cluster with two dedicated Ascend 910B cards — no partitioning tricks, no shared queue.";
      uc_href := js "/use-cases/#accelerator-sandboxes" |};
   {| uc_icon := "TestTube2"%string;
      uc_title := js "Ephemeral test environments";
      uc_description := js "Create a cluster per pull request or integration run, hand over the kubeconfig, then delete it and let KubeCell clean up the host.";
      uc_href := js "/use-cases/#ephemeral-environments" |};
   {| uc_icon := "GraduationCap"%string;
      uc_title := js "Workshops and training";
      uc_description := js "Forty students, one physical host, forty clusters. Credentials are easy to hand out, and quotas stop one busy cluster from ruining the class.";
      uc_href := js "/use-cases/#training-labs" |};
   {| uc_icon := "ShipWheel"%string;
      uc_title := js "Edge and field labs";
      uc_description := js "Hosts live where the hardware is. They connect outbound to one management plane, so there is no inbound tunnel to maintain per site.";
      uc_href := js "/use-cases/#field-labs" |};
   {| uc_icon := "Layers3"%string;
      uc_title := js "Self-service for platform teams";
      uc_description := js "Publish hosts and quota tiers once; teams self-serve clusters inside the limits you defined, with capacity visible to everyone.";
      uc_href := js "/use-cases/#platform-landlord" |}].

Definition UseCasePreview : vnode :=
  el "section" (js "relative py-20 sm:py-24")
    [el "div" (js "container-page")
       [SectionHeading cn (Some (js "Use cases")) [VText (js "One operator, five shapes of shared hardware")]
          (Some [VText (js "If a team needs a real Kubernetes API and the hardware lives on shared bare metal, KubeCell is the seam between them.")])
          None
          None;
        el "div" (js "mt-12 grid gap-4 md:grid-cols-2 lg:grid-cols-3")
          (map
             (fun useCase =>
               keyed (uc_title useCase)
                 (glare_hover (js "h-full rounded-xl border border-white/10") (js "rgba(255,255,255,0.02)") (js "#9ad4ff") (lit 35 100) (nof 600)
                    [el "div" (js "flex h-full flex-col p-6")
                       [el "span"
                          (js "inline-flex h-10 w-10 items-center justify-center rounded-xl border border-sky-400/20 bg-sky-500/10 text-sky-300")
                          [el (uc_icon useCase) (js "h-5 w-5") []];
                        el "h3" (js "mt-4 text-base font-semibold text-foreground") [VText (uc_title useCase)];
                        el "p" (js "mt-2 flex-1 text-sm leading-6 text-muted-foreground") [VText (uc_description useCase)];
                        VEl "Link"
                          [sv "href" (uc_href useCase);
                           sv "className"
                             (js "mt-4 inline-flex items-center gap-1.5 text-sm font-medium text-sky-400 transition-colors hover:text-sky-300")]
                          [VText (js "Read the scenario"); el "ArrowRight" (js "h-3.5 w-3.5") []]]]))
             useCase_cards)]].

(** ** Call to action ([cta.tsx]) *)

Definition CallToAction : vnode :=
  el "section" (js "relative py-20 sm:py-28")
    [el "div" (js "container-page")
       [el "div" (js "relative mx-auto max-w-4xl overflow-hidden rounded-3xl border border-white/10 bg-[#060a13] px-6 py-16 text-center sm:px-14")
          (meteors 22 (js "opacity-70")
           ++ [el "div" (js "pointer-events-none absolute -top-24 left-1/2 h-64 w-[36rem] -translate-x-1/2 rounded-full bg-sky-500/15 blur-[100px]")
                 [];
               el "div" (js "relative")
                 [Backlight (useId "cta/1") (Some (nof 14))
                    [el "h2" (js "text-balance text-3xl font-semibold tracking-tight text-foreground sm:text-4xl")
                       [VText (js "Give every developer a real cluster")]]
                    (Some (js "mx-auto"));
                  el "p" (js "mx-auto mt-4 max-w-2xl text-pretty text-base leading-7 text-muted-foreground")
                    [VText
                       (js "Start with the read-only preflight. Nothing is created until you explicitly confirm, so the first command you run is always safe.")];
                  el "div" (js "mt-8 flex flex-col items-center justify-center gap-3 sm:flex-row")
                    [shimmer_link (js "/quickstart/") (js "h-11 px-6 text-sm font-medium") [VText (js "Read the quickstart")];
                     Button cn cva (Some bv_outline) (Some bs_lg) (Some true) None []
                       [VEl "a" [sv "href" site_github; sv "target" (js "_blank"); sv "rel" (js "noreferrer")] [VText (js "Browse the source")]]];
                  el "p" (js "mt-6 font-mono text-xs text-muted-foreground")
                    [VText (js "go run ./cmd/kubecell-installer doctor management --bundle ./kubecell-release")]]])]].

(** ** Failure modes ([failure-modes.tsx]) *)

Record Failure := { fm_icon : string; fm_title : jsstring; fm_symptom : jsstring; fm_action : jsstring }.

Definition failures : list Failure :=
  [{| fm_icon := "Clock"%string;
      fm_title := js "Host lease goes stale";
      fm_symptom := js "Cell reports Degraded even though OCM still says Available.";
      fm_action := js "Trust the lease, not the condition. Check klusterlet health and node time skew before creating new child clusters." |};
   {| fm_icon := "Database"%string;
      fm_title := js "Storage capacity unknown";
      fm_symptom := js "storageInventory.freeCapacityKnown is false, or the observation is old.";
      fm_action := js "No feasibility conclusion is trustworthy. Fix TopoLVM/lvmd reporting and wait for a fresh Cell observation." |};
   {| fm_icon := "ServerCrash"%string;
      fm_title := js "Work not Applied";
      fm_symptom := js "A VirtualCluster stays in Provisioning and never becomes Ready.";
      fm_action := js "Walk the chain: the work status in the hub, the work-agent on the host, then the target namespace quota and any admission rejections." |};
   {| fm_icon := "FileWarning"%string;
      fm_title := js "Child API unreachable";
      fm_symptom := js "The kubeconfig exists but connections time out.";
      fm_action := js "Compare status.endpoint with the published Secret, then check K3k server Pods, the NodePort Service, and TopoLVM PVCs on the host." |};
   {| fm_icon := "AlertTriangle"%string;
      fm_title := js "Capability mismatch";
      fm_symptom := js "A Cell declares more accelerator capacity than the host actually allocates.";
      fm_action := js "Observed allocatable always wins. Align the machine profile declaration with the Device Plugin registration, then re-observe." |};
   {| fm_icon := "ShieldAlert"%string;
      fm_title := js "Tenant workload rejected";
      fm_symptom := js "Admission denies a child Pod for privileged access or hostPath volumes.";
      fm_action := js "This is expected. Use the rejection hint to pick a supported replacement, such as a PVC on the TopoLVM storage class." |}].

Definition FailureModes : vnode :=
  el "div" (js "grid gap-4 md:grid-cols-2 lg:grid-cols-3")
    (mapi_from
       (fun index failure =>
         keyed (fm_title failure)
           (Card cn (Some (js "relative h-full overflow-hidden border-white/10 bg-white/[0.02]")) []
              (when (index =? 1) (border_beam (nof 140) (nof 9) (js "#f59e0b") (js "#ef4444") None None)
               ++ [CardHeader cn None []
                     [el "span"
                        (js "inline-flex h-10 w-10 items-center justify-center rounded-xl border border-amber-400/20 bg-amber-500/10 text-amber-300")
                        [el (fm_icon failure) (js "h-5 w-5") []];
                      CardTitle cn (Some (js "mt-3 text-base")) [] [VText (fm_title failure)]];
                   CardContent cn (Some (js "space-y-3 text-sm leading-6")) []
                     [el "p" (js "text-muted-foreground")
                        [el "span" (js "font-medium text-foreground/90") [VText (js "Symptom: ")]; VText (fm_symptom failure)];
                      el "p" (js "text-muted-foreground")
                        [el "span" (js "font-medium text-foreground/90") [VText (js "Action: ")]; VText (fm_action failure)]]])))
       0
       failures).

(** ** Orbiting stack ([orbiting-stack.tsx]) *)

Record StackItem := { si_label : jsstring; si_icon : string }.

Definition orbit_inner : list StackItem :=
  [{| si_label := js "K3k"; si_icon := "BoxesIcon"%string |};
   {| si_label := js "TopoLVM"; si_icon := "HardDrive"%string |};
   {| si_label := js "Traefik"; si_icon := "Route"%string |};
   {| si_label := js "Device Plugin"; si_icon := "Cpu"%string |}].

Definition orbit_outer : list StackItem :=
  [{| si_label := js "K3s"; si_icon := "Boxes"%string |};
   {| si_label := js "OCM"; si_icon := "Network"%string |};
   {| si_label := js "CNI / CoreDNS"; si_icon := "Network"%string |};
   {| si_label := js "LVM"; si_icon := "Database"%string |};
   {| si_label := js "RuntimeClass"; si_icon := "Gauge"%string |}].

Definition Pill (item : StackItem) : vnode :=
  el "span"
    (js "inline-flex items-center gap-1.5 whitespace-nowrap rounded-full border border-white/10 bg-[#080d19] px-3 py-1.5 text-xs text-foreground shadow-[0_6px_24px_-12px_rgba(47,127,224,0.9)]")
    [el (si_icon item) (js "h-3.5 w-3.5 text-sky-300") []; VText (si_label item)].

Definition OrbitingStack : vnode :=
  el "div" (js "relative flex h-[30rem] w-full items-center justify-center overflow-hidden rounded-2xl border border-white/5 bg-white/[0.015]")
    ([el "div" (js "pointer-events-none absolute inset-0 bg-grid-faint opacity-30") [];
         el "div" (js "pointer-events-none absolute h-72 w-72 rounded-full bg-sky-500/10 blur-[80px]") [];
         el "div"
           (js "z-10 flex h-24 w-24 flex-col items-center justify-center gap-1 rounded-2xl border border-sky-400/30 bg-[#070c17] text-center shadow-[0_0_60px_-20px_rgba(47,127,224,0.9)]")
           [el "span" (js "font-mono text-[10px] uppercase tracking-widest text-sky-400") [VText (js "Cell host")];
            el "span" (js "text-sm font-semibold text-foreground") [VText (js "pinned baseline")]]]
     ++ orbiting_circles (nof 132) (nof 24) false (nof 30) false (map (fun item => keyed (si_label item) (Pill item)) orbit_inner)
     ++ orbiting_circles (nof 208) (nof 38) true (nof 30) false (map (fun item => keyed (si_label item) (Pill item)) orbit_outer)).
End Home.
