(* ===== verification/DocPages.v ===== *)
(** * Documentation pages ([website/app/docs])

    Every page of the documentation with its metadata, translated element by element.  A page is cut at
    its second-level headings: the definition named after the page and the identifier of a heading holds
    the elements from that heading up to the next.  The FAQ page is in [SiteViews.v]. *)

From Stdlib Require Import String List Arith NArith ZArith Lia Bool.
From S2P Require Import Prelude JsString JsNum NumText Dom Highlight CodeBlock Decor Ui Json Site SiteViews Platform Home.
Import ListNotations.
Local Open Scope list_scope.
Local Open Scope nat_scope.

Section Docs.
Context `{Platform}.

(** ** [docs/page.tsx] *)

Definition overview_metadata : Metadata :=
  buildMetadata (js "Documentation overview")
    (js "KubeCell documentation overview: what the operator is, the four CRDs, the three-layer architecture, design principles, and where to go next.")
    (js "/docs/")
    (Some [js "KubeCell documentation"; js "VirtualCluster"; js "KubeCell concepts"])
    None.

Definition overview_intro : list vnode :=
  [el "p" (js "font-mono text-xs uppercase tracking-[0.2em] text-sky-400") [VText (js "Documentation")];
   el "h1" (js "mt-3 text-3xl font-semibold tracking-tight text-foreground sm:text-4xl") [VText (js "KubeCell overview")];
   el "p" (js "mt-5 text-base leading-7 text-muted-foreground")
     [VText (js "KubeCell gives every developer an isolated Kubernetes cluster — a");
      VText (js " ");
      VEl "strong" [] [VText (js "VirtualCluster")];
      VText
        (js " — on shared physical hosts. A single management cluster holds the desired state; each Cell host runs the workloads. Developers get a standard, kubectl-compatible K3s API with hard CPU, memory, and GPU quotas, persistent storage, and automatically published kubeconfigs.")];
   Callout cn (Some v_warning) (Some (js "Pre-release software"))
     [VText (js "KubeCell is under active development and the APIs are ");
      VEl "code" [] [VText (js "v1alpha1")];
      VText (js ". Do not use it for production workloads yet.")]
     None].

Definition overview_what_it_is_section : list vnode :=
  [VEl "h2" [sv "id" (js "what-it-is")] [VText (js "What KubeCell is")];
   VEl "ul" []
     [VEl "li" []
        [VText (js "A small operator with exactly ");
         VEl "strong" [] [VText (js "four CRDs")];
         VText (js ": ");
         VEl "code" [] [VText (js "Cell")];
         VText (js ",");
         VText (js " ");
         VEl "code" [] [VText (js "VirtualNodeClass")];
         VText (js ", ");
         VEl "code" [] [VText (js "VirtualClusterPlan")];
         VText (js ", and");
         VText (js " ");
         VEl "code" [] [VText (js "VirtualCluster")];
         VText (js ".")];
      VEl "li" []
        [VText
           (js "A composition layer over upstream projects — K3s, K3k, TopoLVM, Traefik, and Open Cluster Management (OCM) — integrated through public APIs only.")];
      VEl "li" []
        [VText (js "A quota and isolation system: every child cluster maps to a host namespace with");
         VText (js " ");
         VEl "code" [] [VText (js "ResourceQuota")];
         VText (js ", ");
         VEl "code" [] [VText (js "LimitRange")];
         VText (js ", ");
         VEl "code" [] [VText (js "NetworkPolicy")];
         VText (js ", and admission rules that reject privileged workloads and ");
         VEl "code" [] [VText (js "hostPath")];
         VText (js " volumes.")];
      VEl "li" []
        [VText (js "An inventory and feasibility system: Cells report live capacity, and Plans tell you whether a request can be satisfied ");
         VEl "em" [] [VText (js "before")];
         VText (js " anything is created.")]]].

Definition overview_what_it_is_not_section : list vnode :=
  [VEl "h2" [sv "id" (js "what-it-is-not")] [VText (js "What KubeCell is not")];
   VEl "ul" []
     [VEl "li" [] [VText (js "Not a second scheduler, device allocator, kubelet, CNI, CSI, or Device Plugin. Those stay upstream.")];
      VEl "li" [] [VText (js "Not a namespace-with-labels product. A child cluster has its own API server, control plane, and data volume.")];
      VEl "li" []
        [VText
           (js "Not a strong-adversary multi-tenancy boundary. Developer credentials are child-cluster admin kubeconfigs, which is a deliberate trusted-network trade-off.")];
      VEl "li" []
        [VText (js "Not a horizontal autoscaler for child clusters: each child exposes exactly one logical node named ");
         VEl "code" [] [VText (js "kubelet")];
         VText (js ". You scale by switching quota tiers.")]]].

Definition overview_mental_model_section : list vnode :=
  [VEl "h2" [sv "id" (js "mental-model")] [VText (js "The mental model in four objects")];
   el "div" (js "not-prose my-6 overflow-hidden rounded-xl border border-white/10")
     [el "table" (js "w-full border-collapse text-left text-sm")
        [VEl "thead" []
           [el "tr" (js "bg-white/[0.03]")
              [el "th" (js "px-4 py-3 font-medium text-muted-foreground") [VText (js "Object")];
               el "th" (js "px-4 py-3 font-medium text-muted-foreground") [VText (js "Scope")];
               el "th" (js "px-4 py-3 font-medium text-muted-foreground") [VText (js "You use it to…")]]];
         el "tbody" (js "text-muted-foreground")
           [el "tr" (js "border-t border-white/5")
              [el "td" (js "px-4 py-3 font-mono text-xs text-sky-300") [VText (js "Cell")];
               el "td" (js "px-4 py-3") [VText (js "Namespaced")];
               el "td" (js "px-4 py-3")
                 [VText (js "Bind one OCM ");
                  VEl "code" [] [VText (js "ManagedCluster")];
                  VText (js " to one machine profile. Generated from live discovery.")]];
            el "tr" (js "border-t border-white/5")
              [el "td" (js "px-4 py-3 font-mono text-xs text-sky-300") [VText (js "VirtualNodeClass")];
               el "td" (js "px-4 py-3") [VText (js "Cluster-scoped")];
               el "td" (js "px-4 py-3") [VText (js "Publish a quota tier: hard requests/limits per child cluster plus a storage class.")]];
            el "tr" (js "border-t border-white/5")
              [el "td" (js "px-4 py-3 font-mono text-xs text-sky-300") [VText (js "VirtualClusterPlan")];
               el "td" (js "px-4 py-3") [VText (js "Namespaced")];
               el "td" (js "px-4 py-3")
                 [VText (js "Check feasibility without side effects: ");
                  VEl "code" [] [VText (js "Accepted")];
                  VText (js ", ");
                  VEl "code" [] [VText (js "Rejected")];
                  VText (js ", or ");
                  VEl "code" [] [VText (js "Unknown")];
                  VText (js ".")]];
            el "tr" (js "border-t border-white/5")
              [el "td" (js "px-4 py-3 font-mono text-xs text-sky-300") [VText (js "VirtualCluster")];
               el "td" (js "px-4 py-3") [VText (js "Namespaced")];
               el "td" (js "px-4 py-3") [VText (js "Create the child cluster and receive a published admin kubeconfig in status.")]]]]]].

Definition overview_architecture_section : list vnode :=
  [VEl "h2" [sv "id" (js "architecture")] [VText (js "Architecture at a glance")];
   VEl "p" []
     [VText
        (js "Three layers, one direction of control. The management plane declares intent; the host executes it; the child cluster is the product.")];
   el "div" (js "not-prose my-8") [ArchitectureBeam None None];
   VEl "p" []
     [VText
        (js "The controller never connects to a host directly. It applies two declarative work objects per cluster through the hub and reads host state back the same way. See");
      VText (js " ");
      VEl "Link" [sv "href" (js "/architecture/")] [VText (js "technical principles")];
      VText (js " for the full control flow.")]].

Definition overview_principles_section : list vnode :=
  [VEl "h2" [sv "id" (js "principles")] [VText (js "Design principles worth remembering")];
   VEl "ul" []
     [VEl "li" []
        [VEl "strong" [] [VText (js "Intent-only specs.")];
         VText
           (js " Human-authored manifests declare which Cell and which quota tier. Versions, ports, reservations, and security baselines are platform constants and never enter the CRDs.")];
      VEl "li" []
        [VEl "strong" [] [VText (js "One safe value means no field.")];
         VText (js " If a setting has exactly one safe value, exposing it would only create drift, so it stays out of the API.")];
      VEl "li" []
        [VEl "strong" [] [VText (js "Observed state beats declared state.")];
         VText (js " Allocatable capacity reported by the host is the source of truth; declarations are upper bounds and never inflate inventory.")];
      VEl "li" []
        [VEl "strong" [] [VText (js "Reconciliation is idempotent.")];
         VText (js " Failed steps are retried by re-rendering from the resolution snapshot, never by patching host state in place.")];
      VEl "li" []
        [VEl "strong" [] [VText (js "Built on upstream components.")];
         VText (js " K3s, K3k, TopoLVM, and OCM are used unmodified through their public APIs, so upstream fixes and behavior apply directly.")]]].

Definition overview_who_section : list vnode :=
  [VEl "h2" [sv "id" (js "who")] [VText (js "Who should read what")];
   el "div" (js "not-prose mt-6 grid gap-3 sm:grid-cols-2")
     (map
        (fun item =>
          keyed (d_href item)
            (VEl "Link"
               [sv "href" (d_href item);
                sv "className" (js "group rounded-xl border border-white/10 bg-white/[0.02] p-4 transition-colors hover:border-sky-400/30")]
               [el "p" (js "text-sm font-medium text-foreground") [VText (d_title item)];
                el "p" (js "mt-1 text-sm leading-6 text-muted-foreground") (when_some (d_description item) VText);
                el "span" (js "mt-2 inline-flex items-center gap-1 text-xs font-medium text-sky-400")
                  [VText (js "Open"); el "ArrowRight" (js "h-3 w-3 transition-transform group-hover:translate-x-0.5") []]]))
        docsFlat)].

Definition overview_status_section : list vnode :=
  [VEl "h2" [sv "id" (js "status")] [VText (js "Project status")];
   VEl "p" []
     [VText
        (js "The API shape, controllers, installer, and the first end-to-end loop are implemented. The feature matrix (PVC, networking, hostPath rejection, interaction, cascading deletion, accelerator allocation, Ingress) and release hardening are in progress. Track the work in");
      VText (js " ");
      VEl "a" [sv "href" (js "https://github.com/taosher/KubeCell/blob/main/TODOS.md")] [VText (js "TODOS.md")];
      VText (js " and report bugs through GitHub issues.")];
   el "div" (js "not-prose mt-4 flex flex-wrap gap-2")
     [Badge cn cva (Some gv_outline) (Some (js "border-emerald-400/30 text-emerald-300")) [] [VText (js "API shape frozen")];
      Badge cn cva (Some gv_outline) (Some (js "border-sky-400/30 text-sky-300")) [] [VText (js "Controllers implemented")];
      Badge cn cva (Some gv_outline) (Some (js "border-amber-400/30 text-amber-300")) [] [VText (js "Release hardening in progress")]]].

Definition DocsOverviewPage : vnode :=
  Prose cn
    (overview_intro
     ++ overview_what_it_is_section
     ++ overview_what_it_is_not_section
     ++ overview_mental_model_section
     ++ overview_architecture_section
     ++ overview_principles_section
     ++ overview_who_section
     ++ overview_status_section)
    None.

(** ** [docs/concepts] *)

Definition concepts_metadata : Metadata :=
  buildMetadata (js "Core concepts")
    (js "KubeCell core concepts explained: the four resources you work with, quota tiers, how a cluster maps to a host, and what happens when you create, resize, or delete one.")
    (js "/docs/concepts/")
    (Some
       [js "KubeCell Cell"; js "VirtualNodeClass"; js "VirtualClusterPlan"; js "logical node kubelet"; js "reflected Pod"; js "resolution snapshot"])
    None.

Definition concepts_cellExample : jsstring :=
  js "apiVersion: kubecell.io/v1alpha1
kind: Cell
metadata:
  name: cell1
  namespace: kubecell-system
spec:
  managedClusterRef:
    name: cell1              # bound OCM ManagedCluster; immutable once resolved
  machineProfile:
    name: ascend-910b        # single machine profile per Cell
    devices:
    - name: ascend
      resourceName: huawei.com/Ascend910  # exact host extended-resource key".

Definition concepts_classExample : jsstring :=
  jsq "apiVersion: kubecell.io/v1alpha1
kind: VirtualNodeClass
metadata:
  name: ascend-910b-small    # cluster-scoped; the tier name tenants reference
spec:
  entitlement:
    workloadHard:
      requests.cpu: `4`
      limits.cpu: `4`
      requests.memory: 8Gi
      limits.memory: 8Gi
      requests.huawei.com/Ascend910: `2`
      limits.huawei.com/Ascend910: `2`
  storageClassName: topolvm-provisioner".

Definition concepts_planExample : jsstring :=
  jsq "apiVersion: kubecell.io/v1alpha1
kind: VirtualClusterPlan
metadata:
  name: child-dev-plan
  namespace: kubecell-system
spec:
  cellRef: {name: cell1}
  classRef: {name: ascend-910b-small}
status:
  decision: Accepted          # Accepted | Rejected | Unknown
  expiresAt: `2026-09-22T10:15:00Z`   # stale conclusions are void
  checks: []                  # per-resource findings when Rejected".

Definition concepts_intro : list vnode :=
  [el "p" (js "font-mono text-xs uppercase tracking-[0.2em] text-sky-400") [VText (js "Introduction")];
   el "h1" (js "mt-3 text-3xl font-semibold tracking-tight text-foreground sm:text-4xl") [VText (js "Core concepts")];
   el "p" (js "mt-5 text-base leading-7 text-muted-foreground")
     [VText (js "Six ideas carry the whole design. If you understand these, the CRDs and the operational behavior will feel predictable.")]].

Definition concepts_cell_section : list vnode :=
  [VEl "h2" [sv "id" (js "cell")] [VText (js "Cell")];
   VEl "p" []
     [VText (js "A ");
      VEl "strong" [] [VText (js "Cell")];
      VText (js " is the unit of physical capacity: one OCM ");
      VEl "code" [] [VText (js "ManagedCluster")];
      VText (js " ");
      VText
        (js "bound to one host cluster, plus a single machine profile describing what the machines offer. It is the failure and isolation boundary. The spec has exactly two groups:")];
   VEl "ul" []
     [VEl "li" []
        [VEl "code" [] [VText (js "managedClusterRef.name")];
         VText (js " — the bound OCM ");
         VEl "code" [] [VText (js "ManagedCluster")];
         VText (js ". Once any VirtualCluster has resolved this Cell, the reference is immutable.")];
      VEl "li" []
        [VEl "code" [] [VText (js "machineProfile")];
         VText
           (js " — a name and an inline device contract. Multiple physical machines with the same profile all count as inventory; there is no separate");
         VText (js " ");
         VEl "code" [] [VText (js "MachineProfile")];
         VText (js " CRD.")]];
   VEl "p" []
     [VText (js "Everything else lives in ");
      VEl "code" [] [VText (js "status")];
      VText
        (js ", filled in by the controller: phase, conditions, managed cluster observations, provider readiness, per-node capacity and allocatable, aggregated inventory, storage inventory, and allocated NodePorts. Never hand-write status.")];
   code_block concepts_cellExample (Some l_yaml) (Some (js "cell.yaml")) (Some (js "not-prose my-6"));
   Callout cn (Some v_info) (Some (js "Device contract, not reservation"))
     [VText
        (js "The device list is a declarative authorization. The observed allocatable of the resource key is the source of fact. If a Cell declares eight cards but the host only allocates four, the effective capacity is four and a ");
      VEl "code" [] [VText (js "CapabilityMismatch")];
      VText (js " condition is reported.")]
     None].

Definition concepts_virtualnodeclass_section : list vnode :=
  [VEl "h2" [sv "id" (js "virtualnodeclass")] [VText (js "VirtualNodeClass")];
   VEl "p" []
     [VText (js "A ");
      VEl "strong" [] [VText (js "VirtualNodeClass")];
      VText
        (js " is a cluster-scoped quota tier. One name maps to one entitlement: the hard requests and limits applied to every child cluster that uses it, plus the storage class for child volumes.")];
   VEl "ul" []
     [VEl "li" []
        [VText (js "The class is applied as a Kubernetes ");
         VEl "code" [] [VText (js "ResourceQuota")];
         VText (js " in the child cluster's host namespace, so enforcement happens on the host, not in the child cluster.")];
      VEl "li" []
        [VText
           (js "CPU, memory, and extended resources (accelerators) all follow the same pattern: request equals limit, integer values for devices.")];
      VEl "li" []
        [VText
           (js "Classes are platform-owned. Tenants reference them but never edit them; changing a tier means changing the class, which is a platform action.")]];
   code_block concepts_classExample (Some l_yaml) (Some (js "virtualnodeclass.yaml")) (Some (js "not-prose my-6"))].

Definition concepts_virtualclusterplan_section : list vnode :=
  [VEl "h2" [sv "id" (js "virtualclusterplan")] [VText (js "VirtualClusterPlan")];
   VEl "p" []
     [VText (js "A ");
      VEl "strong" [] [VText (js "VirtualClusterPlan")];
      VText
        (js " is a side-effect-free preflight. Its spec is isomorphic to a VirtualCluster, so you can copy a plan file into a creation request once it is accepted. The controller evaluates the request against the current Cell inventory and reports exactly one decision:")];
   el "div" (js "not-prose my-6 overflow-hidden rounded-xl border border-white/10")
     [el "table" (js "w-full border-collapse text-left text-sm")
        [VEl "thead" []
           [el "tr" (js "bg-white/[0.03]")
              [el "th" (js "px-4 py-3 font-medium text-muted-foreground") [VText (js "Decision")];
               el "th" (js "px-4 py-3 font-medium text-muted-foreground") [VText (js "Meaning")];
               el "th" (js "px-4 py-3 font-medium text-muted-foreground") [VText (js "What to do")]]];
         el "tbody" (js "text-muted-foreground")
           [el "tr" (js "border-t border-white/5")
              [el "td" (js "px-4 py-3 font-mono text-xs text-emerald-300") [VText (js "Accepted")];
               el "td" (js "px-4 py-3") [VText (js "Buildable under the current inventory snapshot.")];
               el "td" (js "px-4 py-3") [VText (js "Create the VirtualCluster (rechecked at creation time).")]];
            el "tr" (js "border-t border-white/5")
              [el "td" (js "px-4 py-3 font-mono text-xs text-rose-300") [VText (js "Rejected")];
               el "td" (js "px-4 py-3") [VText (js "A required resource is missing: CPU, memory, devices, storage, or ports.")];
               el "td" (js "px-4 py-3") [VText (js "Read "); VEl "code" [] [VText (js "checks")]; VText (js " and adjust the request or Cell.")]];
            el "tr" (js "border-t border-white/5")
              [el "td" (js "px-4 py-3 font-mono text-xs text-amber-300") [VText (js "Unknown")];
               el "td" (js "px-4 py-3") [VText (js "Inventory is unavailable or stale.")];
               el "td" (js "px-4 py-3") [VText (js "Fix freshness, then retry once observations recover.")]]]]];
   Callout cn (Some v_warning) (Some (js "Acceptance is not reservation"))
     [VText (js "Plans evaluate once and never refresh periodically. ");
      VEl "code" [] [VText (js "expiresAt")];
      VText
        (js " marks when the conclusion becomes void, and the controller re-runs feasibility at real creation time. If someone else consumed capacity in between, creation is blocked and the recheck report appears in ");
      VEl "code" [] [VText (js "status.feasibilityChecks")];
      VText (js ".")]
     None;
   code_block concepts_planExample (Some l_yaml) (Some (js "plan.yaml")) (Some (js "not-prose my-6"))].

Definition concepts_virtualcluster_section : list vnode :=
  [VEl "h2" [sv "id" (js "virtualcluster")] [VText (js "VirtualCluster")];
   VEl "p" []
     [VText (js "A ");
      VEl "strong" [] [VText (js "VirtualCluster")];
      VText (js " is the product. Eight lines of spec: which Cell, which class. The controller does the rest:")];
   VEl "ol" []
     [VEl "li" [] [VText (js "Resolves the Cell and class, then writes an immutable resolution snapshot.")];
      VEl "li" [] [VText (js "Re-runs feasibility and stops on a non-accepted conclusion.")];
      VEl "li" [] [VText (js "Creates the Foundation Work, then the Instance Work once the first is Applied.")];
      VEl "li" [] [VText (js "Discovers the child API address from host nodes and publishes the admin kubeconfig.")];
      VEl "li" [] [VText (js "Reports readiness, quota usage, and per-reflected-Pod observations in status.")]];
   VEl "p" []
     [VText
        (js "Key fields are immutable: the Cell reference and class reference cannot be silently changed. To move a workload to different hardware, create a new child cluster. To change the size of a child cluster, switch to a different class.")]].

Definition concepts_logical_node_section : list vnode :=
  [VEl "h2" [sv "id" (js "logical-node")] [VText (js "The logical node")];
   VEl "p" []
     [VText (js "Every child cluster exposes exactly one node, always named ");
      VEl "code" [] [VText (js "kubelet")];
      VText
        (js ". It is an entitlement view, not a physical machine. This is why there are no horizontal fields — no node count, node pools, or replicas — and why DaemonSet-style semantics are unsupported.")];
   code_block
     (js "$ kubectl --kubeconfig child-dev.yaml get nodes
NAME      STATUS   ROLES    AGE   VERSION
kubelet   Ready    <none>   42s   v1.34.2+k3s1")
     (Some l_bash)
     (Some (js "nodes.sh"))
     (Some (js "not-prose my-6"))].

Definition concepts_reflected_pod_section : list vnode :=
  [VEl "h2" [sv "id" (js "reflected-pod")] [VText (js "Reflected Pods and PVCs")];
   VEl "p" []
     [VText (js "K3k mirrors child-cluster Pods and PVCs into the child's host namespace. A");
      VText (js " ");
      VEl "strong" [] [VText (js "reflected Pod")];
      VText
        (js " is a real host Pod with identical resource requests, so the host scheduler places it and the namespace quota accounts for it. The same is true for storage: a child PVC becomes a host PVC backed by TopoLVM.")];
   VEl "ul" []
     [VEl "li" [] [VText (js "Scheduling decisions stay in Kubernetes — there is no second scheduler to keep in sync.")];
      VEl "li" []
        [VEl "code" [] [VText (js "hostPath")];
         VText (js " volumes are rejected at admission with a replacement hint pointing to the storage class.")];
      VEl "li" [] [VText (js "Accelerator requests must use the identical extended-resource key in the child and on the host.")]]].

Definition concepts_works_section : list vnode :=
  [VEl "h2" [sv "id" (js "works")] [VText (js "Foundation Work and Instance Work")];
   VEl "p" []
     [VText (js "The controller renders exactly two OCM ");
      VEl "code" [] [VText (js "ManifestWork")];
      VText (js " objects per child cluster. The split is intentional: guardrails first, workload second.")];
   el "div" (js "not-prose my-6 grid gap-4 sm:grid-cols-2")
     [el "div" (js "rounded-xl border border-white/10 bg-white/[0.02] p-5")
        [el "p" (js "text-sm font-semibold text-foreground") [VText (js "Foundation Work")];
         el "ul" (js "mt-3 space-y-2 text-sm leading-6 text-muted-foreground")
           [VEl "li" [] [VText (js "Host namespace with policy labels and annotations")];
            VEl "li" [] [VEl "code" [] [VText (js "ResourceQuota")]; VText (js " from the class entitlement")];
            VEl "li" [] [VEl "code" [] [VText (js "LimitRange")]; VText (js " with 100m CPU / 256Mi memory defaults")];
            VEl "li" [] [VEl "code" [] [VText (js "NetworkPolicy")]; VText (js " denying cross-namespace traffic")];
            VEl "li" [] [VText (js "Port-forward RBAC for the child cluster")]]];
      el "div" (js "rounded-xl border border-white/10 bg-white/[0.02] p-5")
        [el "p" (js "text-sm font-semibold text-foreground") [VText (js "Instance Work")];
         el "ul" (js "mt-3 space-y-2 text-sm leading-6 text-muted-foreground")
           [VEl "li" [] [VText (js "K3k "); VEl "code" [] [VText (js "Cluster")]; VText (js " in Shared mode")];
            VEl "li" [] [VText (js "K3k VirtualClusterPolicy")];
            VEl "li" [] [VText (js "Server Pod, data volume, NodePort Service created by K3k")];
            VEl "li" [] [VText (js "Child admin kubeconfig Secret read back through the proxy")]]]]].

Definition concepts_snapshot_section : list vnode :=
  [VEl "h2" [sv "id" (js "snapshot")] [VText (js "Resolution snapshot")];
   VEl "p" []
     [VEl "code" [] [VText (js "VirtualCluster.status.resolved")];
      VText
        (js " is the sole basis for steady-state rendering. It records the resolved Cell, class entitlement, storage class, and the platform constants that applied at resolution time. If a class changes later, existing child clusters keep the snapshot they were built from until the operator acts — that is how KubeCell avoids surprise in-place mutations.")]].

Definition concepts_constants_section : list vnode :=
  [VEl "h2" [sv "id" (js "constants")] [VText (js "Platform constants vs. API fields")];
   VEl "p" []
     [VText (js "A field belongs in a CRD only if it has more than one safe value. Everything else is a platform constant owned by the release:")];
   el "div" (js "not-prose my-6 overflow-hidden rounded-xl border border-white/10")
     [el "table" (js "w-full border-collapse text-left text-sm")
        [VEl "thead" []
           [el "tr" (js "bg-white/[0.03]")
              [el "th" (js "px-4 py-3 font-medium text-muted-foreground") [VText (js "Concern")];
               el "th" (js "px-4 py-3 font-medium text-muted-foreground") [VText (js "Where it lives")]]];
         el "tbody" (js "text-muted-foreground")
           [el "tr" (js "border-t border-white/5")
              [el "td" (js "px-4 py-3") [VText (js "K3s, K3k, OCM versions")];
               el "td" (js "px-4 py-3") [VText (js "Release bundle, verified by the installer")]];
            el "tr" (js "border-t border-white/5")
              [el "td" (js "px-4 py-3") [VText (js "API exposure method and port range")];
               el "td" (js "px-4 py-3") [VText (js "Platform constant; endpoint is discovered into status")]];
            el "tr" (js "border-t border-white/5")
              [el "td" (js "px-4 py-3") [VText (js "Ingress apps suffix")]; el "td" (js "px-4 py-3") [VText (js "Platform-global fixed suffix")]];
            el "tr" (js "border-t border-white/5")
              [el "td" (js "px-4 py-3") [VText (js "Default container requests")];
               el "td" (js "px-4 py-3") [VText (js "LimitRange injected by the Foundation Work")]];
            el "tr" (js "border-t border-white/5")
              [el "td" (js "px-4 py-3") [VText (js "Quota tier")];
               el "td" (js "px-4 py-3") [VText (js "VirtualNodeClass (the one thing tenants choose)")]]]]]].

Definition concepts_glossary_section : list vnode :=
  [VEl "h2" [sv "id" (js "glossary")] [VText (js "Glossary")];
   el "div" (js "not-prose my-6 overflow-hidden rounded-xl border border-white/10")
     [el "table" (js "w-full border-collapse text-left text-sm")
        [el "tbody" (js "text-muted-foreground")
           (map
              (fun '(term, meaning) =>
                keyed term
                  (el "tr" (js "border-t border-white/5")
                     [el "td" (js "w-52 px-4 py-3 font-medium text-foreground") [VText term]; el "td" (js "px-4 py-3") [VText meaning]]))
              [(js "Management cluster", js "Single-node K3s carrying the OCM Hub and the KubeCell controller; runs no tenant workloads.");
               (js "ManagedCluster", js "OCM registration object representing one Cell host one-to-one.");
               (js "Cell", js "One ManagedCluster plus its host K3s cluster; the failure and isolation boundary.");
               (js "VirtualNodeClass", js "Cluster-scoped quota tier: hard-limit numbers plus storage class.");
               (js "VirtualCluster", js "The child cluster instance; key fields immutable, rich status.");
               (js "VirtualClusterPlan", js "Side-effect-free preflight; one-shot evaluation, acceptance is not reservation.");
               (js "Logical child node", js "The single node in the child API, always named kubelet; a view, not a machine.");
               (js "Reflected Pod", js "Host Pod created by K3k mirroring a child Pod, with identical requests.");
               (js "Cluster proxy / MSA", js "OCM mechanisms; the only path by which the controller reads host APIs.");
               (js "appsSuffix", js "Platform-global external domain suffix; hostnames derive as <ingress>.<vc>.<suffix>.")])]];
   VEl "p" []
     [VText (js "Next: ");
      VEl "Link" [sv "href" (js "/docs/installation/")] [VText (js "install the management plane and onboard a host")];
      VText (js ", or jump straight to the");
      VText (js " ");
      VEl "Link" [sv "href" (js "/docs/api-reference/")] [VText (js "API reference")];
      VText (js " for every field.")]].

Definition ConceptsPage : vnode :=
  Prose cn
    (concepts_intro
     ++ concepts_cell_section
     ++ concepts_virtualnodeclass_section
     ++ concepts_virtualclusterplan_section
     ++ concepts_virtualcluster_section
     ++ concepts_logical_node_section
     ++ concepts_reflected_pod_section
     ++ concepts_works_section
     ++ concepts_snapshot_section
     ++ concepts_constants_section
     ++ concepts_glossary_section)
    None.

(** ** [docs/installation] *)

Definition installation_metadata : Metadata :=
  buildMetadata (js "Installation")
    (js "Install KubeCell: pinned versions, prerequisites, the management plane, OCM Hub, host onboarding, and baseline verification in the documented order.")
    (js "/docs/installation/")
    (Some [js "install KubeCell"; js "KubeCell installer"; js "OCM Hub installation"; js "K3s host onboarding"; js "kubecell-management chart"])
    None.

Definition installation_prereq : jsstring :=
  js "# Pinned combination (do not replace silently)
#   host K3s      v1.36.3+k3s1
#   K3k           v1.2.0
#   child K3s     v1.34.2+k3s1
#   OCM Hub       v1.3.1

# Host nodes carry the profile label and TopoLVM topology labels
kubectl label node <node> hardware.kubecell.io/profile=<profile>
kubectl label node <node> topology.topolvm.io/node=<node>
kubectl label node <node> topology.kubernetes.io/zone=<node>

# Both clusters must be able to pull the controller image.
# Configure K3s registries.yaml mirrors first and verify with a small image.".

Definition installation_management : jsstring :=
  js "# 1. CRDs
kubectl apply -f kubecell-release/manifests/crds

# 2. OCM Hub (pinned version from the bundle)
go run ./cmd/kubecell-installer management \
  --bundle ./kubecell-release --apply --confirm

# 3. Verify the management plane
kubectl -n open-cluster-management get pods
kubectl -n kubecell-system get deploy".

Definition installation_hostJoin : jsstring :=
  jsq "# Run against the host cluster
export KUBECONFIG=<host-kubeconfig>

KUBECONFIG=$KUBECONFIG clusteradm join \
  --hub-token `$(clusteradm get token)` \
  --hub-apiserver https://hub.example.com:6443 \
  --cluster-name <cell-name> --wait".

Definition installation_hostAccept : jsstring :=
  js "# Run against the management cluster
export KUBECONFIG=<hub-kubeconfig>

KUBECONFIG=$KUBECONFIG clusteradm accept --clusters <cell-name> --wait".

Definition installation_hostChart : jsstring :=
  js "kubectl create ns kubecell-system   # namespaceCreate is false, create it first

helm install kubecell-host ./charts/kubecell-host \
  --namespace kubecell-system \
  --set image.repository=<controller-repo> \
  --set image.tag=<tag> --set image.pullPolicy=IfNotPresent".

Definition installation_verify : jsstring :=
  jsq "kubectl -n kubecell-system get cell,vnclass,vcp,vc

# Cell readiness: joined, fresh lease, fresh inventory
kubectl -n kubecell-system get cell cell1 \
  -o jsonpath='{.status.phase}{`\t`}{.status.managedCluster.leaseFresh}{`\n`}'".

Definition installation_order : list (jsstring * jsstring) :=
  [(js "Apply CRDs", js "Install the four KubeCell CRDs from the release bundle. This is the only step that must happen before anything else.");
   (js "Install the OCM Hub",
    js "The management controller writes ManifestWork objects into the hub, so the hub must exist and be pinned to the bundle version.");
   (js "Install the management chart",
    js "Deploys the controller, webhook, RBAC, and the optional Kite dashboard. Requires both --apply and --confirm.");
   (js "Join the host", js "Run the locked clusteradm join command on the host. The ManagedCluster name must equal the future Cell name.");
   (js "Approve the ManagedCluster", js "clusteradm accept is a mandatory manual safety gate. KubeCell never auto-approves a host.");
   (js "Install the host chart and baseline",
    js "The host chart installs the webhook; the installer installs the pinned baseline: K3k, TopoLVM, Traefik, Device Plugin.");
   (js "Generate the Cell and verify",
    js "host --step=cell produces the Cell from live discovery. Apply it, then confirm joined, fresh lease, and fresh inventory.");
   (js "Create class, plan, and child", js "Draft a quota tier with suggest-class, then follow the first VirtualCluster guide.")].

Definition installation_intro : list vnode :=
  [el "p" (js "font-mono text-xs uppercase tracking-[0.2em] text-sky-400") [VText (js "Getting started")];
   el "h1" (js "mt-3 text-3xl font-semibold tracking-tight text-foreground sm:text-4xl") [VText (js "Installation")];
   el "p" (js "mt-5 text-base leading-7 text-muted-foreground")
     [VText
        (js "KubeCell installs in a fixed order. Deviating from it is the most common cause of confusing failures, so treat this page as a checklist rather than a menu.")];
   Callout cn (Some v_warning) (Some (js "Pre-release"))
     [VText (js "KubeCell is not production ready. Install it in a lab with disposable hosts until the hardening milestones complete.")]
     None].

Definition installation_prerequisites_section : list vnode :=
  [VEl "h2" [sv "id" (js "prerequisites")] [VText (js "Prerequisites")];
   VEl "p" []
     [VText
        (js "Both clusters must be reachable from your workstation, able to pull the controller image, and running the pinned versions. Host nodes need profile and TopoLVM topology labels — labels do not survive a node rebuild, so re-apply them after any reinstall.")];
   code_block installation_prereq (Some l_bash) (Some (js "prerequisites.sh")) (Some (js "not-prose my-6"))].

Definition installation_order_section : list vnode :=
  [VEl "h2" [sv "id" (js "order")] [VText (js "Installation order")];
   VEl "ol" []
     (map (fun '(title, body) => keyed title (VEl "li" [] [VEl "strong" [] [VText title; VText (js ".")]; VText (js " "); VText body]))
        installation_order)].

Definition installation_management_section : list vnode :=
  [VEl "h2" [sv "id" (js "management")] [VText (js "Management plane")];
   VEl "p" []
     [VText
        (js "The management cluster is a single-node K3s that holds desired state and observations only. It runs no tenant workloads. Its K3s version may differ from the hosts.")];
   code_block installation_management (Some l_bash) (Some (js "management.sh")) (Some (js "not-prose my-6"));
   Callout cn (Some v_info) (Some (js "Dry-run by default"))
     [VText (js "The installer is read-only unless you pass both ");
      VEl "code" [] [VText (js "--apply")];
      VText (js " and");
      VText (js " ");
      VEl "code" [] [VText (js "--confirm")];
      VText (js ". ");
      VEl "code" [] [VText (js "doctor")];
      VText (js " never mutates anything.")]
     None].

Definition installation_host_section : list vnode :=
  [VEl "h2" [sv "id" (js "host")] [VText (js "Host onboarding")];
   VEl "p" []
     [VText
        (js "Joining is a two-step operation with a manual approval in between. The approval exists so a compromised or misconfigured host cannot register itself into your fleet unnoticed.")];
   code_block installation_hostJoin (Some l_bash) (Some (js "join.sh")) (Some (js "not-prose my-6"));
   code_block installation_hostAccept (Some l_bash) (Some (js "accept.sh")) (Some (js "not-prose my-6"));
   code_block installation_hostChart (Some l_bash) (Some (js "host-chart.sh")) (Some (js "not-prose my-6"));
   VEl "p" []
     [VText
        (js "The installer then installs the host baseline at pinned versions, idempotently: K3k, TopoLVM, Traefik, the vendor Device Plugin, and profile labels. The controller never installs these itself.")]].

Definition installation_cell_section : list vnode :=
  [VEl "h2" [sv "id" (js "cell")] [VText (js "Generate the Cell")];
   VEl "p" []
     [VText (js "Do not hand-write a Cell from memory. Generate it from live host discovery so the machine profile matches reality, then apply it.")];
   code_block
     (js "go run ./cmd/kubecell-installer host --step=cell --cell <cell-name> \
  --kubeconfig <host-kubeconfig> | grep -v '^#' > cell.yaml

kubectl apply -n kubecell-system -f cell.yaml")
     (Some l_bash)
     (Some (js "cell.sh"))
     (Some (js "not-prose my-6"));
   code_block installation_verify (Some l_bash) (Some (js "verify.sh")) (Some (js "not-prose my-6"))].

Definition installation_dashboard_section : list vnode :=
  [VEl "h2" [sv "id" (js "dashboard")] [VText (js "Optional: Kite dashboard")];
   VEl "p" []
     [VText (js "The ");
      VEl "code" [] [VText (js "kubecell-management")];
      VText (js " chart bundles the kite-org dashboard as a conditional dependency (");
      VEl "code" [] [VText (js "kite.enabled")];
      VText
        (js ", on by default). It runs single-node with sqlite, exposes a NodePort Service, and uses a dedicated ServiceAccount. Pass the initial superuser password at install time; never commit it.")]].

Definition installation_uninstall_section : list vnode :=
  [VEl "h2" [sv "id" (js "uninstall")] [VText (js "Uninstall and boundaries")];
   VEl "ul" []
     [VEl "li" []
        [VText (js "The installer only touches the selected KubeCell release. OCM Hub,");
         VText (js " ");
         VEl "code" [] [VText (js "ManagedCluster")];
         VText (js ", and klusterlet follow the OCM lifecycle and are out of Helm uninstall scope.")];
      VEl "li" [] [VText (js "Uninstalling a Helm release is not the same as uninstalling OCM. Remove registrations deliberately.")];
      VEl "li" []
        [VText
           (js "Deleting a VirtualCluster is safe and finalizer-scoped; deleting the management plane while child clusters exist is not a supported cleanup path.")]];
   VEl "p" []
     [VText (js "Next: ");
      VEl "Link" [sv "href" (js "/docs/host-onboarding/")] [VText (js "host onboarding in four commands")];
      VText (js " or");
      VText (js " ");
      VEl "Link" [sv "href" (js "/docs/first-virtualcluster/")] [VText (js "create your first VirtualCluster")];
      VText (js ".")]].

Definition InstallationPage : vnode :=
  Prose cn
    (installation_intro
     ++ installation_prerequisites_section
     ++ installation_order_section
     ++ installation_management_section
     ++ installation_host_section
     ++ installation_cell_section
     ++ installation_dashboard_section
     ++ installation_uninstall_section)
    None.

(** ** [docs/first-virtualcluster] *)

Definition first_metadata : Metadata :=
  buildMetadata (js "Create your first VirtualCluster")
    (js "Create a Cell, draft a VirtualNodeClass, preflight with a VirtualClusterPlan, create a VirtualCluster, export the admin kubeconfig, and verify workloads, storage, and ingress.")
    (js "/docs/first-virtualcluster/")
    (Some [js "create VirtualCluster"; js "KubeCell kubeconfig"; js "KubeCell Plan Accepted"; js "child cluster verification"])
    None.

Definition first_planYaml : jsstring :=
  js "apiVersion: kubecell.io/v1alpha1
kind: VirtualClusterPlan
metadata:
  name: child-dev-plan
  namespace: kubecell-system
spec:
  cellRef: {name: cell1}
  classRef: {name: ascend-910b-small}".

Definition first_vcYaml : jsstring :=
  js "apiVersion: kubecell.io/v1alpha1
kind: VirtualCluster
metadata:
  name: child-dev
  namespace: kubecell-system
spec:
  cellRef: {name: cell1}
  classRef: {name: ascend-910b-small}".

Definition first_kubeconfig : jsstring :=
  jsq "VC=child-dev

# The Secret name embeds the VirtualCluster UID
SECRET=$(kubectl -n kubecell-system get vc $VC \
  -o jsonpath='{.status.credential.secretName}')

kubectl -n kubecell-system get secret `$SECRET` \
  -o jsonpath='{.data.kubeconfig\.yaml}' | base64 -d > $VC.yaml
chmod 600 $VC.yaml

kubectl --kubeconfig $VC.yaml get nodes
kubectl --kubeconfig $VC.yaml get ns".

Definition first_workload : jsstring :=
  jsq "cat <<'EOF' | kubectl --kubeconfig child-dev.yaml apply -f -
apiVersion: v1
kind: Pod
metadata:
  name: cpu-smoke
spec:
  containers:
  - name: app
    image: registry.k8s.io/pause:3.10
    resources:
      requests: {cpu: 100m, memory: 128Mi}
      limits: {cpu: 200m, memory: 256Mi}
EOF

# Confirm the reflected host Pod and quota accounting
kubectl -n kubecell-system get vc child-dev \
  -o jsonpath='{.status.host.quotaUsed}{`\n`}'".

Definition first_intro : list vnode :=
  [el "p" (js "font-mono text-xs uppercase tracking-[0.2em] text-sky-400") [VText (js "Getting started")];
   el "h1" (js "mt-3 text-3xl font-semibold tracking-tight text-foreground sm:text-4xl") [VText (js "Create your first VirtualCluster")];
   el "p" (js "mt-5 text-base leading-7 text-muted-foreground")
     [VText (js "This guide assumes a Ready Cell and an existing quota tier. If you have not onboarded a host yet, start with ");
      VEl "Link" [sv "href" (js "/docs/host-onboarding/")] [VText (js "host onboarding")];
      VText (js ".")]].

Definition first_prerequisites_section : list vnode :=
  [VEl "h2" [sv "id" (js "prerequisites")] [VText (js "Before you start")];
   VEl "ul" []
     [VEl "li" []
        [VText (js "The target Cell is ");
         VEl "strong" [] [VText (js "Ready")];
         VText (js ": OCM ");
         VEl "code" [] [VText (js "Joined=True")];
         VText (js ", a fresh");
         VText (js " ");
         VEl "code" [] [VText (js "managed-cluster-lease")];
         VText (js ", and fresh inventory.")];
      VEl "li" [] [VText (js "The quota tier ("); VEl "code" [] [VText (js "VirtualNodeClass")]; VText (js ") you intend to use already exists.")];
      VEl "li" []
        [VText (js "You are applying into ");
         VEl "code" [] [VText (js "kubecell-system")];
         VText (js " on the management cluster, where the controller lives.")]]].

Definition first_inspect_section : list vnode :=
  [VEl "h2" [sv "id" (js "inspect")] [VText (js "1. Inspect the Cell before requesting anything")];
   VEl "p" [] [VText (js "Feasibility conclusions are only as good as the inventory they read. Check freshness first, then look at headroom.")];
   code_block
     (js "kubectl -n kubecell-system get cell cell1 -o yaml | less

# Things to look at in status:
#   conditions        -> InventoryFresh must be true
#   nodes[]           -> per-node capacity, allocatable, active/pending requests
#   inventory         -> aggregated available estimates per resource
#   storageInventory  -> freeCapacityKnown and freshness")
     (Some l_bash)
     (Some (js "inspect.sh"))
     (Some (js "not-prose my-6"));
   Callout cn (Some v_warning) (Some (js "Stop if inventory is stale"))
     [VText (js "If ");
      VEl "code" [] [VText (js "InventoryFresh")];
      VText
        (js " is false or key inventory is unknown, do not create anything. Contact operations; no feasibility conclusion is trustworthy at that point.")]
     None].

Definition first_plan_section : list vnode :=
  [VEl "h2" [sv "id" (js "plan")] [VText (js "2. Preflight with a Plan")];
   VEl "p" []
     [VText (js "Write a VirtualClusterPlan with exactly the content you intend to create. Wait for");
      VText (js " ");
      VEl "code" [] [VText (js "status.decision")];
      VText (js " and read ");
      VEl "code" [] [VText (js "checks")];
      VText (js " when it is rejected.")];
   code_block first_planYaml (Some l_yaml) (Some (js "plan.yaml")) (Some (js "not-prose my-6"));
   code_block
     (jsq "kubectl apply -f plan.yaml
kubectl -n kubecell-system get vcp child-dev-plan \
  -o jsonpath='{.status.decision}{`\n`}'

# Rejected? Read the failed items and adjust the request or the Cell.
kubectl -n kubecell-system get vcp child-dev-plan \
  -o jsonpath='{range .status.checks[*]}{.resource}{`\t`}{.result}{`\n`}{end}'")
     (Some l_bash)
     (Some (js "decision.sh"))
     (Some (js "not-prose my-6"));
   VEl "p" []
     [VEl "code" [] [VText (js "Accepted")];
      VText (js " means buildable under the current snapshot; ");
      VEl "code" [] [VText (js "Rejected")];
      VText (js " means a specific resource is missing; ");
      VEl "code" [] [VText (js "Unknown")];
      VText
        (js " means the inventory was insufficient to decide. Remember that acceptance is not reservation: the controller rechecks at creation time.")]].

Definition first_create_section : list vnode :=
  [VEl "h2" [sv "id" (js "create")] [VText (js "3. Create the VirtualCluster")];
   VEl "p" []
     [VText (js "The Plan and the VirtualCluster are isomorphic — the same file with a different");
      VText (js " ");
      VEl "code" [] [VText (js "kind")];
      VText (js ". The webhook validates that references exist and quota keys are legal.")];
   code_block first_vcYaml (Some l_yaml) (Some (js "virtualcluster.yaml")) (Some (js "not-prose my-6"));
   code_block
     (js "kubectl apply -f virtualcluster.yaml

# The first Ready transition typically takes 10-20 minutes (image pulls).
kubectl -n kubecell-system wait --for=condition=Ready vc/child-dev --timeout=25m
kubectl -n kubecell-system get vc child-dev -o wide")
     (Some l_bash)
     (Some (js "wait.sh"))
     (Some (js "not-prose my-6"))].

Definition first_kubeconfig_section : list vnode :=
  [VEl "h2" [sv "id" (js "kubeconfig")] [VText (js "4. Fetch the admin kubeconfig")];
   VEl "p" []
     [VText
        (js "The controller reads the K3k-generated kubeconfig through the OCM proxy, rewrites the server address to the discovered host address and NodePort, and publishes it as a Secret in the management plane. The Secret is always published; treat it as a credential.")];
   code_block first_kubeconfig (Some l_bash) (Some (js "kubeconfig.sh")) (Some (js "not-prose my-6"))].

Definition first_verify_section : list vnode :=
  [VEl "h2" [sv "id" (js "verify")] [VText (js "5. Verify workloads, storage, and ingress")];
   code_block first_workload (Some l_bash) (Some (js "workload.sh")) (Some (js "not-prose my-6"));
   VEl "ul" []
     [VEl "li" [] [VText (js "The child cluster has exactly one node named "); VEl "code" [] [VText (js "kubelet")]; VText (js ".")];
      VEl "li" [] [VText (js "A child PVC becomes a host PVC backed by TopoLVM; check that it binds, not just that it is created.")];
      VEl "li" []
        [VEl "code" [] [VText (js "hostPath")];
         VText (js " volumes are rejected at admission with a replacement hint — this is expected behavior, not a bug.")];
      VEl "li" []
        [VText (js "Ingress: create a standard Ingress with class ");
         VEl "code" [] [VText (js "kubecell")];
         VText (js " in the child cluster, then reach it at ");
         VEl "code" [] [VText (js "http://<ingress>.<vc>.apps.example.com")];
         VText (js ".")]]].

Definition first_delete_section : list vnode :=
  [VEl "h2" [sv "id" (js "delete")] [VText (js "6. Delete it cleanly")];
   code_block
     (js "kubectl -n kubecell-system delete vc child-dev

# The finalizer removes both ManifestWorks by UID, which removes the host
# namespace, quota, policy, and the K3k cluster. Under Retain, PVs become
# Released and data is preserved.")
     (Some l_bash)
     (Some (js "delete.sh"))
     (Some (js "not-prose my-6"));
   VEl "p" []
     [VText (js "Next: ");
      VEl "Link" [sv "href" (js "/docs/operations/")] [VText (js "day-2 operations")];
      VText (js ", or jump to the");
      VText (js " ");
      VEl "Link" [sv "href" (js "/docs/troubleshooting/")] [VText (js "troubleshooting guide")];
      VText (js " if something is not Ready.")]].

Definition FirstVirtualClusterPage : vnode :=
  Prose cn
    (first_intro
     ++ first_prerequisites_section
     ++ first_inspect_section
     ++ first_plan_section
     ++ first_create_section
     ++ first_kubeconfig_section
     ++ first_verify_section
     ++ first_delete_section)
    None.

(** ** [docs/host-onboarding] *)

Definition onboarding_metadata : Metadata :=
  buildMetadata (js "Host onboarding")
    (js "Onboard physical hosts as KubeCell Cells with four commands: doctor, join, accept, chart. Includes Cell generation, class drafting, appending workers, and a troubleshooting table.")
    (js "/docs/host-onboarding/")
    (Some [js "KubeCell host onboarding"; js "clusteradm join"; js "ManagedCluster accept"; js "kubecell-host chart"; js "suggest-class"])
    None.

Definition onboarding_doctor : jsstring :=
  js "go run ./cmd/kubecell-installer doctor management --bundle <release-dir>
go run ./cmd/kubecell-installer doctor host --bundle <release-dir> \
  --device huawei.com/Ascend910".

Definition onboarding_four : jsstring :=
  jsq "# 1. join — host context
KUBECONFIG=<host-kubeconfig> clusteradm join \
  --hub-token `$(clusteradm get token)` \
  --hub-apiserver https://hub.example.com:6443 \
  --cluster-name <cell-name> --wait

# 2. accept — management context (mandatory manual gate)
KUBECONFIG=<hub-kubeconfig> clusteradm accept --clusters <cell-name> --wait

# 3. chart — install the host chart
kubectl create ns kubecell-system
helm install kubecell-host ./charts/kubecell-host \
  --namespace kubecell-system \
  --set image.repository=<controller-repo> \
  --set image.tag=<tag> --set image.pullPolicy=IfNotPresent

# 4. cell — generate from live discovery, then apply
go run ./cmd/kubecell-installer host --step=cell --cell <cell-name> \
  --kubeconfig <host-kubeconfig> | grep -v '^#' > cell.yaml
kubectl apply -n kubecell-system -f cell.yaml".

Definition onboarding_suggest : jsstring :=
  js "go run ./cmd/kubecell-installer suggest-class \
  --cell-file cell.yaml --name <class-name>

# The draft reflects observed allocatable capacity.
# Adjust the numbers down to the tenant envelope you are comfortable with,
# then apply the VirtualNodeClass.".

Definition onboarding_append : jsstring :=
  jsq "# Case B: append same-profile workers to an existing Cell
# 1. Join the existing host cluster as a K3s agent with an independent data directory.
#    This deletes no data on that machine and runs no OCM onboarding.
# 2. Re-apply profile and topology labels, wait for node Ready and platform DaemonSets.
# 3. Confirm the new node appears in inventory:
kubectl -n kubecell-system get cell <cell-name> \
  -o jsonpath='{range .status.nodes[*]}{.name}{`\t`}{.ready}{`\n`}{end}'".

Definition onboarding_symptoms : list (jsstring * jsstring * jsstring) :=
  [(js "clusteradm init reports success but installs nothing", js "Wrong kubeconfig context", js "Re-run with an explicit KUBECONFIG= prefix");
   (js "OCM components stuck in ImagePullBackOff",
    js "Image not available from the configured mirror",
    js "Fix the component PullSpec to a reachable registry");
   (js "Preloaded image not recognized by kubelet",
    js "Short tag or incomplete layers",
    js "Re-tag with the fully qualified name and verify with crictl inspecti");
   (js "Child CoreDNS Pending",
    js "Third-party Pod without resources blocked by LimitRange",
    js "Covered by the kubecell-defaults baseline in the Foundation Work");
   (js "Child PVC reports no free storage",
    js "Missing TopoLVM topology labels",
    js "Re-apply topology.topolvm.io/node and topology.kubernetes.io/zone labels");
   (js "TopoLVM CSINode has no driver", js "Custom kubelet root directory not passed to the chart", js "Pass it with --set on the host chart");
   (js "Traefik :80 unreachable",
    js "Conflicting Service or stale host-port binding",
    js "Use hostNetwork via values, remove stale load-balancer helpers, clear stale NAT chains");
   (js "Child Ingress returns 503",
    js "Mirrored Endpoints carry a mismatched port name",
    jsq "The controller strips port names; for older clusters clear the port name to ``");
   (js "Volumes remain after VirtualCluster deletion",
    js "Orphaned logical volumes after the child API is gone",
    js "Remove only cluster-created volumes with lvremove; leave the volume group intact");
   (js "Zero accelerators reported",
    js "Device Plugin registration mismatch",
    js "Check plugin Pod logs for registration failures before changing anything")].

Definition onboarding_intro : list vnode :=
  [el "p" (js "font-mono text-xs uppercase tracking-[0.2em] text-sky-400") [VText (js "Getting started")];
   el "h1" (js "mt-3 text-3xl font-semibold tracking-tight text-foreground sm:text-4xl") [VText (js "Host onboarding")];
   el "p" (js "mt-5 text-base leading-7 text-muted-foreground")
     [VText
        (js "Humans run four commands. The installer owns the release bundle, the pinned versions, and the baseline. This page is the operational companion to the");
      VText (js " ");
      VEl "a" [sv "href" (js "https://github.com/taosher/KubeCell/blob/main/docs/operations/host-onboarding.md")] [VText (js "repository guide")];
      VText (js ".")];
   Callout cn (Some v_info) (Some (js "Conventions"))
     [VEl "code" [] [VText (js "KUBECONFIG_HUB")];
      VText (js " points at the management cluster and");
      VText (js " ");
      VEl "code" [] [VText (js "KUBECONFIG_HOST")];
      VText (js " at the host cluster. Always pass an explicit");
      VText (js " ");
      VEl "code" [] [VText (js "KUBECONFIG=")];
      VText (js " so a command cannot target the wrong cluster.")]
     None].

Definition onboarding_prerequisites_section : list vnode :=
  [VEl "h2" [sv "id" (js "prerequisites")] [VText (js "0. Prerequisites (platform team, one time)")];
   VEl "ul" []
     [VEl "li" []
        [VText (js "Pinned versions from the release: host K3s ");
         VEl "code" [] [VText (js "v1.36.3+k3s1")];
         VText (js ", K3k");
         VText (js " ");
         VEl "code" [] [VText (js "v1.2.0")];
         VText (js ", child K3s ");
         VEl "code" [] [VText (js "v1.34.2+k3s1")];
         VText (js ", OCM Hub ");
         VEl "code" [] [VText (js "v1.3.1")];
         VText (js ".")];
      VEl "li" [] [VText (js "Registry mirrors configured and verified with a small image pull.")];
      VEl "li" []
        [VText (js "Profile and topology labels on every host node:");
         VText (js " ");
         VEl "code" [] [VText (js "hardware.kubecell.io/profile")];
         VText (js ", ");
         VEl "code" [] [VText (js "topology.topolvm.io/node")];
         VText (js ",");
         VText (js " ");
         VEl "code" [] [VText (js "topology.kubernetes.io/zone")];
         VText (js ".")];
      VEl "li" [] [VText (js "Controller image available to both clusters, matching architecture.")]]].

Definition onboarding_doctor_section : list vnode :=
  [VEl "h2" [sv "id" (js "doctor")] [VText (js "1. doctor — read-only preflight")];
   code_block onboarding_doctor (Some l_bash) (Some (js "doctor.sh")) (Some (js "not-prose my-6"));
   VEl "p" []
     [VText
        (js "Stop at the first failure. On the host side, confirm: nodes Ready, profile labels present, TopoLVM capacity available, and accelerator resources reported by the Device Plugin.")]].

Definition onboarding_four_commands_section : list vnode :=
  [VEl "h2" [sv "id" (js "four-commands")] [VText (js "2. The four commands")];
   code_block onboarding_four (Some l_bash) (Some (js "four-commands.sh")) (Some (js "not-prose my-6"));
   Callout cn (Some v_warning) (Some (js "Do not reuse a stale token"))
     [VText (js "Between fetching the hub token and running ");
      VEl "code" [] [VText (js "clusteradm join")];
      VText (js ", do not call");
      VText (js " ");
      VEl "code" [] [VText (js "get token")];
      VText (js " twice — the older token may expire. The ManagedCluster name must equal the future Cell name; the generator enforces this.")]
     None].

Definition onboarding_class_section : list vnode :=
  [VEl "h2" [sv "id" (js "class")] [VText (js "3. Cell and class")];
   VEl "p" []
     [VText
        (js "The Cell comes from live discovery, so you only apply it. The class is drafted from observed allocatable capacity and then tuned down to the tenant envelope.")];
   code_block onboarding_suggest (Some l_bash) (Some (js "suggest-class.sh")) (Some (js "not-prose my-6"))].

Definition onboarding_append_workers_section : list vnode :=
  [VEl "h2" [sv "id" (js "append-workers")] [VText (js "4. Appending same-profile workers (Case B)")];
   VEl "p" []
     [VText
        (js "Growing an existing Cell does not create a new Cell and does not run OCM onboarding. Join the new machine as a K3s agent of the same host cluster, label it, and confirm it shows up in inventory. Existing workloads are neither migrated nor interrupted.")];
   code_block onboarding_append (Some l_bash) (Some (js "append-workers.sh")) (Some (js "not-prose my-6"))].

Definition onboarding_troubleshooting_section : list vnode :=
  [VEl "h2" [sv "id" (js "troubleshooting")] [VText (js "5. Troubleshooting quick reference")];
   el "div" (js "not-prose my-6 overflow-hidden rounded-xl border border-white/10")
     [el "div" (js "overflow-x-auto")
        [el "table" (js "w-full min-w-[720px] border-collapse text-left text-sm")
           [VEl "thead" []
              [el "tr" (js "bg-white/[0.03]")
                 [el "th" (js "px-4 py-3 font-medium text-muted-foreground") [VText (js "Symptom")];
                  el "th" (js "px-4 py-3 font-medium text-muted-foreground") [VText (js "Likely cause")];
                  el "th" (js "px-4 py-3 font-medium text-muted-foreground") [VText (js "Action")]]];
            el "tbody" (js "text-muted-foreground")
              (map
                 (fun '(symptom, cause, action) =>
                   keyed symptom
                     (el "tr" (js "border-t border-white/5")
                        [el "td" (js "px-4 py-3 text-foreground/85") [VText symptom];
                         el "td" (js "px-4 py-3") [VText cause];
                         el "td" (js "px-4 py-3") [VText action]]))
                 onboarding_symptoms)]]];
   VEl "p" []
     [VText (js "Next: "); VEl "Link" [sv "href" (js "/docs/first-virtualcluster/")] [VText (js "create your first VirtualCluster")]; VText (js ".")]].

Definition HostOnboardingPage : vnode :=
  Prose cn
    (onboarding_intro
     ++ onboarding_prerequisites_section
     ++ onboarding_doctor_section
     ++ onboarding_four_commands_section
     ++ onboarding_class_section
     ++ onboarding_append_workers_section
     ++ onboarding_troubleshooting_section)
    None.

(** ** [docs/operations] *)

Definition operations_metadata : Metadata :=
  buildMetadata (js "Day-2 operations")
    (js "Operate KubeCell: health checks, credential handling, quota changes, ingress and DNS, storage lifecycle, upgrades, host maintenance, and cleanup.")
    (js "/docs/operations/")
    (Some
       [js "KubeCell operations"; js "VirtualCluster quota change"; js "KubeCell upgrade"; js "host maintenance Kubernetes"; js "kubeconfig rotation"])
    None.

Definition operations_health : jsstring :=
  jsq "# Fleet overview: phase, OCM state, lease freshness
kubectl -n kubecell-system get cells \
  -o custom-columns=NAME:.metadata.name,PHASE:.status.phase,\
JOINED:.status.managedCluster.joined,AVAILABLE:.status.managedCluster.available,\
LEASE:.status.managedCluster.leaseFresh,NODES:.status.nodes[*].name

# Child clusters and their endpoints
kubectl -n kubecell-system get vc \
  -o custom-columns=NAME:.metadata.name,PHASE:.status.phase,\
CELL:.spec.cellRef.name,CLASS:.spec.classRef.name,ENDPOINT:.status.endpoint.address

# Is inventory fresh enough to make promises?
kubectl -n kubecell-system get cell cell1 \
  -o jsonpath='{range .status.conditions[*]}{.type}={.status}{`\n`}{end}'".

Definition operations_quota : jsstring :=
  js "# 1. Publish a new tier (platform action)
kubectl apply -f virtualnodeclass-large.yaml

# 2. Create a new child cluster on the larger tier
kubectl apply -f child-dev-large.yaml

# 3. Move workloads at your own pace, then delete the old cluster.
#    Existing clusters keep the resolution snapshot they were built from;
#    KubeCell never mutates a running child cluster in place.".

Definition operations_credentials : jsstring :=
  jsq "# Find the published credential
kubectl -n kubecell-system get vc child-dev \
  -o jsonpath='{.status.credential.secretName}{`\n`}'

# Endpoint changed? The controller republishes the kubeconfig.
# Re-fetch the Secret rather than editing the file by hand.
kubectl -n kubecell-system get secret <secret-name> \
  -o jsonpath='{.data.kubeconfig\.yaml}' | base64 -d > child-dev.yaml
chmod 600 child-dev.yaml".

Definition operations_ingress : jsstring :=
  js "# In the child cluster: standard Ingress, class kubecell
apiVersion: networking.k8s.io/v1
kind: Ingress
metadata:
  name: web
  namespace: default
spec:
  ingressClassName: kubecell
  rules:
  - host: web.child-dev.apps.example.com   # <ingress>.<vc>.<apps-suffix>
    http:
      paths:
      - path: /
        pathType: Prefix
        backend:
          service:
            name: web
            port:
              number: 80".

Definition operations_upgrade : jsstring :=
  jsq "# Version drift is reported, not silently fixed
kubectl -n kubecell-system get cell cell1 \
  -o jsonpath='{.status.provider.k3kVersion}{`\n`}'

# Upgrades move through releases:
#   1. Build/verify a new release bundle (digests + pinned versions).
#   2. doctor against the current fleet.
#   3. Apply the new management chart, then the host baseline per Cell.
#   4. Watch Cell conditions and recreate child clusters only if the
#      release notes require it.".

Definition operations_maintenance : jsstring :=
  js "# Planned host maintenance (v1 has no live migration)
# 1. Stop creating new child clusters on the Cell (tell tenants, or
#    temporarily remove the class from your self-service flow).
# 2. Delete or migrate child clusters deliberately; do not drain the host
#    node under running reflected Pods and expect a graceful move.
# 3. Perform maintenance, re-apply labels, verify the lease renews.
# 4. Confirm inventory freshness before reopening the Cell.".

Definition operations_intro : list vnode :=
  [el "p" (js "font-mono text-xs uppercase tracking-[0.2em] text-sky-400") [VText (js "Guides")];
   el "h1" (js "mt-3 text-3xl font-semibold tracking-tight text-foreground sm:text-4xl") [VText (js "Day-2 operations")];
   el "p" (js "mt-5 text-base leading-7 text-muted-foreground")
     [VText
        (js "KubeCell is designed to be operated from status, not from tribal knowledge. This page covers the routines that keep a fleet healthy and the actions that are deliberately manual.")]].

Definition operations_health_section : list vnode :=
  [VEl "h2" [sv "id" (js "health")] [VText (js "Routine health checks")];
   VEl "p" []
     [VText
        (jsq "Two questions matter every day: are the Cells alive, and is the inventory fresh enough to make promises? The second is easy to forget and the cause of most `the Plan lied` reports.")];
   code_block operations_health (Some l_bash) (Some (js "health.sh")) (Some (js "not-prose my-6"));
   Callout cn (Some v_info) (Some (js "Lease freshness is the liveness signal"))
     [VText (js "OCM ");
      VEl "code" [] [VText (js "Available=True")];
      VText (js " has been observed to go stale without updates. Treat a fresh");
      VText (js " ");
      VEl "code" [] [VText (js "managed-cluster-lease")];
      VText (js " as the decisive signal, and ");
      VEl "code" [] [VText (js "InventoryFresh")];
      VText (js " as the precondition for any capacity decision.")]
     None].

Definition operations_quota_section : list vnode :=
  [VEl "h2" [sv "id" (js "quota")] [VText (js "Changing a child cluster's size")];
   VEl "p" []
     [VText
        (js "There is no in-place resize. Vertical scaling is a deliberate move to a different quota tier: publish the new class, create the new child cluster, move workloads, delete the old one.")];
   code_block operations_quota (Some l_bash) (Some (js "quota.sh")) (Some (js "not-prose my-6"));
   Callout cn (Some v_tip) (Some (js "Why no in-place resize"))
     [VText
        (js "Quota changes ripple into the Foundation Work, the child control-plane size, and the resolution snapshot. Recreating keeps every step observable and reversible; patching would make partial failure states hard to reason about.")]
     None].

Definition operations_credentials_section : list vnode :=
  [VEl "h2" [sv "id" (js "credentials")] [VText (js "Credentials and endpoint changes")];
   VEl "p" []
     [VText
        (js "The child admin kubeconfig is always published. When the discovered host address changes, the controller rewrites and republishes the Secret — clients should re-fetch rather than pin an address.")];
   code_block operations_credentials (Some l_bash) (Some (js "credentials.sh")) (Some (js "not-prose my-6"));
   Callout cn (Some v_warning) (Some (js "Credentials are cluster-admin"))
     [VText
        (js "Child kubeconfigs grant admin on the child cluster. Distribute them through your secret manager, keep file modes at 600, and revoke by deleting the VirtualCluster.")]
     None].

Definition operations_ingress_section : list vnode :=
  [VEl "h2" [sv "id" (js "ingress")] [VText (js "Ingress and DNS")];
   VEl "p" []
     [VText
        (js "Host Traefik owns ports 80 and 443 for the entire host. It watches only VirtualCluster namespaces carrying the KubeCell label. Developers choose the Ingress name; the rest of the hostname is derived.")];
   code_block operations_ingress (Some l_yaml) (Some (js "ingress.yaml")) (Some (js "not-prose my-6"));
   VEl "p" []
     [VText (js "DNS automation is enabled when a second host arrives: point a wildcard record for");
      VText (js " ");
      VEl "code" [] [VText (js "*.<vc>.<apps-suffix>")];
      VText
        (js " at the Cell's ingress address. Ingress routing is outside the locked-combination commitments, so verify it in your environment before promising it to tenants.")]].

Definition operations_storage_section : list vnode :=
  [VEl "h2" [sv "id" (js "storage")] [VText (js "Storage lifecycle")];
   VEl "ul" []
     [VEl "li" []
        [VText
           (js "Child PVCs are reflected to host PVCs on TopoLVM. If a child PVC does not bind, check topology labels first, then TopoLVM health.")];
      VEl "li" []
        [VText (js "Under ");
         VEl "code" [] [VText (js "Retain")];
         VText (js ", deleting a VirtualCluster leaves PVs ");
         VEl "code" [] [VText (js "Released")];
         VText (js " and data intact. Reclaim deliberately with ");
         VEl "code" [] [VText (js "lvremove")];
         VText (js " for cluster-created volumes only; never remove the volume group.")];
      VEl "li" []
        [VText (js "Storage free space is read from TopoLVM/lvmd. Inferring it from PV capacity is explicitly forbidden, so treat ");
         VEl "code" [] [VText (js "freeCapacityKnown=false")];
         VText (jsq " as `unknown`, not `zero`.")]]].

Definition operations_upgrades_section : list vnode :=
  [VEl "h2" [sv "id" (js "upgrades")] [VText (js "Upgrades and version pinning")];
   VEl "p" [] [VText (js "Versions move through releases. The controller reports observed versions; it never upgrades anything on its own.")];
   code_block operations_upgrade (Some l_bash) (Some (js "upgrade.sh")) (Some (js "not-prose my-6"))].

Definition operations_maintenance_section : list vnode :=
  [VEl "h2" [sv "id" (js "maintenance")] [VText (js "Planned host maintenance")];
   VEl "p" []
     [VText
        (js "The first version does not migrate running child clusters between hosts. Plan maintenance windows accordingly and communicate them to tenants.")];
   code_block operations_maintenance (Some l_bash) (Some (js "maintenance.sh")) (Some (js "not-prose my-6"))].

Definition operations_cleanup_section : list vnode :=
  [VEl "h2" [sv "id" (js "cleanup")] [VText (js "Cleanup checklist")];
   VEl "ul" []
     [VEl "li" [] [VText (js "Delete child clusters you no longer need; the finalizer cleans the host side.")];
      VEl "li" [] [VText (js "Check for "); VEl "code" [] [VText (js "Released")]; VText (js " PVs and decide reclaim vs. retain per volume.")];
      VEl "li" [] [VText (js "Remove unused VirtualNodeClasses so tenants cannot request dead tiers.")];
      VEl "li" []
        [VText (js "Remove the OCM ");
         VEl "code" [] [VText (js "ManagedCluster")];
         VText (js " registration explicitly if a host leaves the fleet; Helm uninstall does not do it for you.")]];
   VEl "p" []
     [VText (js "Next: ");
      VEl "Link" [sv "href" (js "/docs/api-reference/")] [VText (js "API reference")];
      VText (js " or");
      VText (js " ");
      VEl "Link" [sv "href" (js "/docs/troubleshooting/")] [VText (js "troubleshooting")];
      VText (js ".")]].

Definition OperationsPage : vnode :=
  Prose cn
    (operations_intro
     ++ operations_health_section
     ++ operations_quota_section
     ++ operations_credentials_section
     ++ operations_ingress_section
     ++ operations_storage_section
     ++ operations_upgrades_section
     ++ operations_maintenance_section
     ++ operations_cleanup_section)
    None.

(** ** [docs/api-reference] *)

Definition api_metadata : Metadata :=
  buildMetadata (js "API reference")
    (js "KubeCell CRD reference for kubecell.io/v1alpha1: Cell, VirtualNodeClass, VirtualClusterPlan, and VirtualCluster spec and status fields, immutability rules, and phases.")
    (js "/docs/api-reference/")
    (Some [js "KubeCell API reference"; js "kubecell.io/v1alpha1"; js "Cell CRD"; js "VirtualCluster CRD fields"; js "VirtualNodeClass spec"])
    None.

Definition FieldTable (rows : list (jsstring * jsstring * jsstring * jsstring)) : vnode :=
  el "div" (js "not-prose my-6 overflow-hidden rounded-xl border border-white/10")
    [el "div" (js "overflow-x-auto")
       [el "table" (js "w-full min-w-[720px] border-collapse text-left text-sm")
          [VEl "thead" []
             [el "tr" (js "bg-white/[0.03]")
                [el "th" (js "px-4 py-3 font-medium text-muted-foreground") [VText (js "Field")];
                 el "th" (js "px-4 py-3 font-medium text-muted-foreground") [VText (js "Type")];
                 el "th" (js "px-4 py-3 font-medium text-muted-foreground") [VText (js "Required")];
                 el "th" (js "px-4 py-3 font-medium text-muted-foreground") [VText (js "Notes")]]];
           el "tbody" (js "text-muted-foreground")
             (map
                (fun '(field, type, required, notes) =>
                  keyed field
                    (el "tr" (js "border-t border-white/5")
                       [el "td" (js "px-4 py-3 font-mono text-xs text-sky-300") [VText field];
                        el "td" (js "px-4 py-3 font-mono text-xs") [VText type];
                        el "td" (js "px-4 py-3") [VText required];
                        el "td" (js "px-4 py-3") [VText notes]]))
                rows)]]].

Definition api_intro : list vnode :=
  [el "p" (js "font-mono text-xs uppercase tracking-[0.2em] text-sky-400") [VText (js "Guides")];
   el "h1" (js "mt-3 text-3xl font-semibold tracking-tight text-foreground sm:text-4xl") [VText (js "API reference")];
   el "p" (js "mt-5 text-base leading-7 text-muted-foreground")
     [VText (js "KubeCell owns exactly four CRDs under ");
      VEl "code" [] [VText (js "kubecell.io/v1alpha1")];
      VText (js ". All of them are desired-state or preflight APIs. Fields with a single safe value are platform constants and intentionally absent.")];
   el "div" (js "not-prose my-6 overflow-hidden rounded-xl border border-white/10")
     [el "table" (js "w-full border-collapse text-left text-sm")
        [VEl "thead" []
           [el "tr" (js "bg-white/[0.03]")
              [el "th" (js "px-4 py-3 font-medium text-muted-foreground") [VText (js "Kind")];
               el "th" (js "px-4 py-3 font-medium text-muted-foreground") [VText (js "Scope")];
               el "th" (js "px-4 py-3 font-medium text-muted-foreground") [VText (js "Short name")];
               el "th" (js "px-4 py-3 font-medium text-muted-foreground") [VText (js "Owner")]]];
         el "tbody" (js "text-muted-foreground")
           [el "tr" (js "border-t border-white/5")
              [el "td" (js "px-4 py-3 font-mono text-xs text-sky-300") [VText (js "Cell")];
               el "td" (js "px-4 py-3") [VText (js "Namespaced")];
               el "td" (js "px-4 py-3 font-mono text-xs") [VText (js "cell")];
               el "td" (js "px-4 py-3") [VText (js "Platform")]];
            el "tr" (js "border-t border-white/5")
              [el "td" (js "px-4 py-3 font-mono text-xs text-sky-300") [VText (js "VirtualNodeClass")];
               el "td" (js "px-4 py-3") [VText (js "Cluster-scoped")];
               el "td" (js "px-4 py-3 font-mono text-xs") [VText (js "vnclass")];
               el "td" (js "px-4 py-3") [VText (js "Platform")]];
            el "tr" (js "border-t border-white/5")
              [el "td" (js "px-4 py-3 font-mono text-xs text-sky-300") [VText (js "VirtualClusterPlan")];
               el "td" (js "px-4 py-3") [VText (js "Namespaced")];
               el "td" (js "px-4 py-3 font-mono text-xs") [VText (js "vcp")];
               el "td" (js "px-4 py-3") [VText (js "Tenant / platform")]];
            el "tr" (js "border-t border-white/5")
              [el "td" (js "px-4 py-3 font-mono text-xs text-sky-300") [VText (js "VirtualCluster")];
               el "td" (js "px-4 py-3") [VText (js "Namespaced")];
               el "td" (js "px-4 py-3 font-mono text-xs") [VText (js "vc")];
               el "td" (js "px-4 py-3") [VText (js "Tenant / platform")]]]]];
   Callout cn (Some v_info) (Some (js "Namespace"))
     [VText (js "Cells must live in the same namespace as the controller, by convention");
      VText (js " ");
      VEl "code" [] [VText (js "kubecell-system")];
      VText (js ".")]
     None].

Definition api_cell_section : list vnode :=
  [VEl "h2" [sv "id" (js "cell")] [VText (js "Cell")];
   VEl "p" []
     [VText (js "The unit of physical capacity: one OCM "); VEl "code" [] [VText (js "ManagedCluster")]; VText (js " bound to one machine profile.")];
   VEl "h3" [] [VText (js "spec")];
   FieldTable
     [(js "managedClusterRef.name", js "string", js "Yes", js "Bound OCM ManagedCluster name. Immutable once any VirtualCluster resolves the Cell.");
      (js "machineProfile.name", js "string", js "Yes", js "Profile name; the placement selector. Immutable once resolved.");
      (js "machineProfile.devices[]",
       js "array",
       js "No",
       js "Inline accelerator contract. A single machine profile per Cell, not a list of profiles.");
      (js "machineProfile.devices[].name", js "string", js "Yes", js "Stable identifier inside KubeCell, referenced by entitlement checks.");
      (js "machineProfile.devices[].resourceName",
       js "string",
       js "Yes",
       js "Exact host extended-resource key; must match character-for-character everywhere.")];
   VEl "h3" [] [VText (js "status (read-only)")];
   FieldTable
     [(js "observedGeneration", js "int64", js "—", js "Observed metadata.generation; distinguishes stale from fresh.");
      (js "phase", js "enum", js "—", js "Pending | Provisioning | Ready | Degraded | Deleting | Failed.");
      (js "conditions[]", js "[]Condition", js "—", js "Joined, Available, ProviderReady, InventoryFresh, CapabilityMismatch, and others.");
      (js "managedCluster{name,uid,joined,available,leaseFresh,leaseRenewTime}",
       js "object",
       js "—",
       js "OCM observation plus the decisive Lease freshness signal.");
      (js "provider{k3kVersion,namespaceReady,k3kCRDsReady,controllerReady,cniReady,topolvmReady}",
       js "object",
       js "—",
       js "Decomposition of host-baseline readiness.");
      (js "nodes[]{name,profile,ready,labelHash,capacity,allocatable,activeRequested,pendingRequested,readinessReasons,observedAt}",
       js "array",
       js "—",
       js "Per-node inventory and placement inputs.");
      (js "inventory{<resource>{capacity,allocatable,requested,pending,availableEstimate}}", js "map", js "—", js "Aggregated headroom per resource.");
      (js "storageInventory{provisioner,allocatedPV,perNode,freeCapacity,freeCapacityKnown,freeCapacitySource,fresh,observedAt}",
       js "object",
       js "—",
       js "TopoLVM free space must come from lvmd; inferring from PV capacity is forbidden.");
      (js "nodePorts{allocated,observedAt,fresh}", js "object", js "—", js "Allocated NodePorts for child APIs.")];
   code_block
     (jsq "apiVersion: kubecell.io/v1alpha1
kind: Cell
metadata:
  name: cell1
  namespace: kubecell-system
spec:
  managedClusterRef:
    name: cell1
  machineProfile:
    name: ascend-910b
    devices:
    - name: ascend
      resourceName: huawei.com/Ascend910
status:
  observedGeneration: 1
  phase: Ready
  managedCluster:
    name: cell1
    uid: `b3f1...`        # compared at UID level on deletion
    joined: true
    available: true       # not trustworthy alone
    leaseFresh: true      # the true liveness criterion
  provider:
    k3kVersion: v1.2.0
    namespaceReady: true
    k3kCRDsReady: true
    controllerReady: true
    cniReady: true
    topolvmReady: true")
     (Some l_yaml)
     (Some (js "cell-full.yaml"))
     (Some (js "not-prose my-6"))].

Definition api_virtualnodeclass_section : list vnode :=
  [VEl "h2" [sv "id" (js "virtualnodeclass")] [VText (js "VirtualNodeClass")];
   VEl "p" [] [VText (js "Cluster-scoped quota tier: one name, one entitlement, one storage class.")];
   FieldTable
     [(js "entitlement.workloadHard", js "map[string]Quantity", js "Yes", js "Hard requests/limits applied as a ResourceQuota in the host namespace.");
      (js "storageClassName", js "string", js "Yes", js "Storage class used for child data volumes and child PVCs (typically topolvm-provisioner).")];
   code_block
     (jsq "apiVersion: kubecell.io/v1alpha1
kind: VirtualNodeClass
metadata:
  name: ascend-910b-small
spec:
  entitlement:
    workloadHard:
      requests.cpu: `4`
      limits.cpu: `4`
      requests.memory: 8Gi
      limits.memory: 8Gi
      requests.huawei.com/Ascend910: `2`
      limits.huawei.com/Ascend910: `2`
  storageClassName: topolvm-provisioner")
     (Some l_yaml)
     (Some (js "virtualnodeclass-full.yaml"))
     (Some (js "not-prose my-6"))].

Definition api_virtualclusterplan_section : list vnode :=
  [VEl "h2" [sv "id" (js "virtualclusterplan")] [VText (js "VirtualClusterPlan")];
   VEl "p" []
     [VText
        (js "Side-effect-free preflight. The spec is isomorphic to a VirtualCluster so an accepted plan can be turned into a creation request without rewriting anything.")];
   FieldTable
     [(js "cellRef.name", js "string", js "Yes", js "Target Cell.");
      (js "classRef.name", js "string", js "Yes", js "Target quota tier.");
      (js "status.decision", js "enum", js "—", js "Accepted | Rejected | Unknown. Evaluated once; never refreshed periodically.");
      (js "status.expiresAt", js "time", js "—", js "When the conclusion becomes void.");
      (js "status.checks[]", js "array", js "—", js "Per-resource findings, including the reason for Rejected.")];
   Callout cn (Some v_warning) (Some (js "Not a reservation"))
     [marked_text (js "#38bdf8") (lit 15 10) true [VText (js "Acceptance never reserves capacity.")];
      VText (js " ");
      VText (js "The controller re-runs the same evaluation at real creation time and blocks on a non-accepted conclusion, writing the report to ");
      VEl "code" [] [VText (js "VirtualCluster.status.feasibilityChecks")];
      VText (js ".")]
     None].

Definition api_virtualcluster_section : list vnode :=
  [VEl "h2" [sv "id" (js "virtualcluster")] [VText (js "VirtualCluster")];
   VEl "p" [] [VText (js "The child cluster instance: key fields immutable, rich status.")];
   VEl "h3" [] [VText (js "spec")];
   FieldTable
     [(js "cellRef.name", js "string", js "Yes", js "Target Cell; immutable after creation.");
      (js "classRef.name", js "string", js "Yes", js "Quota tier; immutable after creation.")];
   VEl "h3" [] [VText (js "status (read-only)")];
   FieldTable
     [(js "observedGeneration", js "int64", js "—", js "Generation the status reflects.");
      (js "phase", js "enum", js "—", js "Pending | Provisioning | Ready | Degraded | Deleting | Failed.");
      (js "resolved", js "object", js "—", js "Immutable resolution snapshot: the sole basis for steady-state rendering.");
      (js "feasibilityChecks[]", js "array", js "—", js "Recheck report written at creation time.");
      (js "endpoint{address,port}", js "object", js "—", js "Discovered child API address and NodePort.");
      (js "credential.secretName", js "string", js "—", js "Secret containing the admin kubeconfig (kubeconfig.yaml key).");
      (js "host.quotaUsed", js "object", js "—", js "Quota accounting observed on the host side.");
      (js "conditions[]", js "[]Condition", js "—", js "Standard condition table.")];
   code_block
     (jsq "apiVersion: kubecell.io/v1alpha1
kind: VirtualCluster
metadata:
  name: child-dev
  namespace: kubecell-system
spec:
  cellRef: {name: cell1}
  classRef: {name: ascend-910b-small}
status:
  phase: Ready
  endpoint:
    address: 10.0.12.7
    port: 31234
  credential:
    secretName: kubecell-child-dev-<uid>-admin-kubeconfig
  host:
    quotaUsed:
      requests.cpu: `400m`
      requests.huawei.com/Ascend910: `2`")
     (Some l_yaml)
     (Some (js "virtualcluster-status.yaml"))
     (Some (js "not-prose my-6"))].

Definition api_phases_section : list vnode :=
  [VEl "h2" [sv "id" (js "phases")] [VText (js "Phases and conditions")];
   el "div" (js "not-prose my-6 overflow-hidden rounded-xl border border-white/10")
     [el "table" (js "w-full border-collapse text-left text-sm")
        [VEl "thead" []
           [el "tr" (js "bg-white/[0.03]")
              [el "th" (js "px-4 py-3 font-medium text-muted-foreground") [VText (js "Phase")];
               el "th" (js "px-4 py-3 font-medium text-muted-foreground") [VText (js "Meaning")]]];
         el "tbody" (js "text-muted-foreground")
           (map
              (fun '(phase, meaning) =>
                keyed phase
                  (el "tr" (js "border-t border-white/5")
                     [el "td" (js "px-4 py-3 font-mono text-xs text-sky-300") [VText phase]; el "td" (js "px-4 py-3") [VText meaning]]))
              [(js "Pending", js "Accepted, waiting for the controller to begin rendering.");
               (js "Provisioning", js "Works are being applied on the host; child cluster not yet Ready.");
               (js "Ready", js "Child API reachable, kubeconfig published, quota and policy in place.");
               (js "Degraded", js "The Cell lost liveness (stale lease) or a required inventory source is unavailable.");
               (js "Deleting", js "Finalizer cleanup in progress by UID.");
               (js "Failed", js "A terminal error that requires operator action; re-applying does not bypass it.")])]];
   VEl "ul" []
     [VEl "li" [] [VEl "strong" [] [VText (js "Joined / Available")]; VText (js " — OCM conditions. Available alone is not trustworthy.")];
      VEl "li" [] [VEl "strong" [] [VText (js "ProviderReady")]; VText (js " — host baseline decomposed into K3k, CNI, and TopoLVM readiness.")];
      VEl "li" []
        [VEl "strong" [] [VText (js "InventoryFresh")]; VText (js " — inventory and storage observations are recent and from a live source.")];
      VEl "li" [] [VEl "strong" [] [VText (js "CapabilityMismatch")]; VText (js " — declared device capacity exceeds observed allocatable.")]];
   VEl "p" []
     [VText (js "See also: ");
      VEl "a" [sv "href" (js "https://github.com/taosher/KubeCell/blob/main/technical-design.md")] [VText (js "technical-design.md")];
      VText (js " ");
      VText (js "for the authoritative field-by-field design and validation rules.")]].

Definition ApiReferencePage : vnode :=
  Prose cn
    (api_intro
     ++ api_cell_section
     ++ api_virtualnodeclass_section
     ++ api_virtualclusterplan_section
     ++ api_virtualcluster_section
     ++ api_phases_section)
    None.

(** ** [docs/security] *)

Definition security_metadata : Metadata :=
  buildMetadata (js "Security and isolation")
    (js "The KubeCell isolation model: per-child host namespaces, ResourceQuota and LimitRange enforcement, default-deny NetworkPolicy, admission rejection of privileged workloads and hostPath volumes, and the credential model.")
    (js "/docs/security/")
    (Some
       [js "KubeCell security";
        js "Kubernetes multi-tenancy";
        js "ResourceQuota isolation";
        js "NetworkPolicy child cluster";
        js "hostPath rejection"])
    None.

Definition security_rejection : jsstring :=
  jsq "# What the host admission layer rejects in tenant workloads
#   - privileged containers
#   - host namespaces (hostNetwork, hostPID, hostIPC)
#   - hostPath volumes (with a replacement hint pointing at the storage class)
#   - host device access outside the declared extended resources
#
# What it does not do: inspect container images, enforce vendor runtimes,
# or act as an adversarial sandbox. See `Trust model` below.".

Definition security_quotaExample : jsstring :=
  jsq "apiVersion: v1
kind: ResourceQuota
metadata:
  name: kubecell-<vc>-quota
  namespace: <vc>-ns
spec:
  hard:
    requests.cpu: `4`
    limits.cpu: `4`
    requests.memory: 8Gi
    limits.memory: 8Gi
    requests.huawei.com/Ascend910: `2`
    limits.huawei.com/Ascend910: `2`".

Definition security_intro : list vnode :=
  [el "p" (js "font-mono text-xs uppercase tracking-[0.2em] text-sky-400") [VText (js "Guides")];
   el "h1" (js "mt-3 text-3xl font-semibold tracking-tight text-foreground sm:text-4xl") [VText (js "Security and isolation")];
   el "p" (js "mt-5 text-base leading-7 text-muted-foreground")
     [VText
        (js "KubeCell gives every child cluster a real API server without giving tenants control of the host. Isolation is enforced by Kubernetes primitives on the host, plus a small admission layer that closes the obvious escalation paths.")];
   Callout cn (Some v_warning) (Some (js "Trust model"))
     [VText
        (js "This is not strong-adversary multi-tenancy. Developer credentials are child-cluster admin kubeconfigs, and the network boundary assumes trusted or at least accountable tenants. Do not use KubeCell to host untrusted third-party code.")]
     None].

Definition security_layers_section : list vnode :=
  [VEl "h2" [sv "id" (js "layers")] [VText (js "The five isolation layers")];
   VEl "ol" []
     [VEl "li" []
        [VEl "strong" [] [VText (js "Dedicated host namespace.")];
         VText
           (js " Each child cluster maps to one host namespace with policy labels and annotations. Reflected Pods and PVCs land there, and nothing else does.")];
      VEl "li" []
        [VEl "strong" [] [VText (js "ResourceQuota.")];
         VText
           (js " The VirtualNodeClass entitlement becomes a hard quota on the host namespace. Requests and limits are both enforced, so a child cluster cannot overcommit the host.")];
      VEl "li" []
        [VEl "strong" [] [VText (js "LimitRange.")];
         VText
           (js " A default of 100m CPU and 256Mi memory applies to containers that declare nothing, which prevents platform sidecars in the child cluster from landing unschedulable.")];
      VEl "li" []
        [VEl "strong" [] [VText (js "NetworkPolicy.")];
         VText (js " Cross-namespace traffic is denied by default. Only the child API server path and required platform flows are allowed.")];
      VEl "li" []
        [VEl "strong" [] [VText (js "Admission rejection.")];
         VText
           (js " Privileged containers, host namespaces, and hostPath volumes are rejected in tenant workloads before the host ever schedules them.")]];
   code_block security_quotaExample (Some l_yaml) (Some (js "quota.yaml")) (Some (js "not-prose my-6"));
   code_block security_rejection (Some l_text) (Some (js "admission.txt")) (Some (js "not-prose my-6"))].

Definition security_management_section : list vnode :=
  [VEl "h2" [sv "id" (js "management")] [VText (js "Management-plane boundary")];
   VEl "p" []
     [VText (js "The controller is intentionally weak by design. It can write OCM ");
      VEl "code" [] [VText (js "ManifestWork")];
      VText (js " ");
      VText (js "objects and read hosts through the OCM cluster proxy. It does not hold host kubeconfigs and does not open connections to host APIs.")];
   VEl "ul" []
     [VEl "li" [] [VText (js "Every host-side change is a declarative work object, which makes changes reviewable and retries idempotent.")];
      VEl "li" []
        [VText (js "A compromised controller can disrupt the fleet, but it cannot silently edit host state without leaving ManifestWork artifacts.")];
      VEl "li" []
        [VText (js "Host onboarding requires a manual ");
         VEl "code" [] [VText (js "clusteradm accept")];
         VText (js ". KubeCell never auto-approves a ManagedCluster.")]]].

Definition security_accelerators_section : list vnode :=
  [VEl "h2" [sv "id" (js "accelerators")] [VText (js "Accelerator isolation")];
   VEl "ul" []
     [VEl "li" []
        [VText
           (js "Extended resources are allocated as whole cards: request equals limit, integer values. Sharing one accelerator between child clusters is not supported.")];
      VEl "li" []
        [VText (js "Observed allocatable is the source of truth. A Cell declaration that exceeds observed capacity produces a ");
         VEl "code" [] [VText (js "CapabilityMismatch")];
         VText (js " condition instead of oversubscription.")];
      VEl "li" []
        [VText
           (js "KubeCell does not manage vendor runtimes, CDI, or Device Plugin health. Those remain host platform responsibilities, and diagnostics go through host Pod status and logs.")]]].

Definition security_credentials_section : list vnode :=
  [VEl "h2" [sv "id" (js "credentials")] [VText (js "Credentials")];
   VEl "ul" []
     [VEl "li" []
        [VText (js "Each VirtualCluster always publishes an admin kubeconfig to a management-plane Secret. There is no credential-less mode.")];
      VEl "li" []
        [VText (js "Treat the Secret as cluster-admin material for the child cluster. Store it in your secret manager and use mode 600 for files.")];
      VEl "li" []
        [VText
           (js "Revocation is deletion: removing the VirtualCluster removes the child API and its credentials. Rotate by recreating the child cluster.")]]].

Definition security_storage_section : list vnode :=
  [VEl "h2" [sv "id" (js "storage")] [VText (js "Storage and data")];
   VEl "ul" []
     [VEl "li" []
        [VText (js "Child volumes live on host TopoLVM logical volumes. Deleting a child cluster does not automatically destroy data under the ");
         VEl "code" [] [VText (js "Retain")];
         VText (js " policy.")];
      VEl "li" []
        [VText (js "Reclaim is a deliberate operator action (");
         VEl "code" [] [VText (js "lvremove")];
         VText (js " for cluster-created volumes only). Never remove the volume group.")];
      VEl "li" []
        [VEl "code" [] [VText (js "hostPath")];
         VText (js " is rejected because it would let a child workload read host data outside its namespace boundary.")]]].

Definition security_reporting_section : list vnode :=
  [VEl "h2" [sv "id" (js "reporting")] [VText (js "Reporting a security issue")];
   VEl "p" []
     [VText
        (js "Do not open a public issue for a suspected vulnerability. Contact the maintainers through the repository's security reporting channel and include reproduction steps, the affected version, and the observed versus expected behavior.")];
   VEl "p" []
     [VText (js "See also: ");
      VEl "Link" [sv "href" (js "/architecture/")] [VText (js "technical principles")];
      VText (js " for the control flow and");
      VText (js " ");
      VEl "Link" [sv "href" (js "/docs/operations/")] [VText (js "day-2 operations")];
      VText (js " for credential handling routines.")]].

Definition SecurityPage : vnode :=
  Prose cn
    (security_intro
     ++ security_layers_section
     ++ security_management_section
     ++ security_accelerators_section
     ++ security_credentials_section
     ++ security_storage_section
     ++ security_reporting_section)
    None.

(** ** [docs/troubleshooting] *)

Definition troubleshooting_metadata : Metadata :=
  buildMetadata (js "Troubleshooting")
    (js "Symptom-first KubeCell troubleshooting: Cell not Ready, ManifestWork not Applied, child API unreachable, PVCs not binding, accelerators missing, and ingress failures.")
    (js "/docs/troubleshooting/")
    (Some
       [js "KubeCell troubleshooting";
        js "Cell not ready";
        js "ManifestWork not applied";
        js "child cluster API unreachable";
        js "TopoLVM PVC pending"])
    None.

Definition troubleshooting_walkChain : jsstring :=
  js "# 1. Management plane: what does the controller believe?
kubectl -n kubecell-system get vc <vc> -o yaml
kubectl -n kubecell-system describe vc <vc>

# 2. OCM: did the work get applied?
kubectl get manifestwork -n <managed-cluster-namespace>
kubectl get manifestwork -n <managed-cluster-namespace> <work> -o yaml

# 3. Host: is the work-agent healthy and did it land?
KUBECONFIG=<host-kubeconfig> kubectl -n open-cluster-management-agent \
  get pods
KUBECONFIG=<host-kubeconfig> kubectl -n <vc>-ns get all,quota,limitrange,netpol

# 4. Child: is the control plane up and reachable?
KUBECONFIG=<host-kubeconfig> kubectl -n k3k-<vc> get pods,svc,pvc".

Definition troubleshooting_rows : list (jsstring * jsstring * jsstring) :=
  [(js "Cell not Ready",
    js "Check in order: OCM Joined/Available, then managed-cluster-lease freshness, then Cell conditions. Available=True alone is not trusted.",
    js "If the lease is stale, treat the host as offline and stop creating child clusters on it.");
   (js "Cell Degraded but OCM looks fine",
    js "Lease freshness or an inventory source failed.",
    js "Inspect conditions: ProviderReady and InventoryFresh. Fix the reported subsystem before anything else.");
   (js "Work not Applied",
    js "ManifestWork status, then host work-agent, then the target namespace.",
    js "Check namespace quota and admission rejections — a rejected manifest will retry forever.");
   (js "VirtualCluster stuck Provisioning",
    js "Foundation Work applied but Instance Work blocked, or K3k cannot schedule its server Pod.",
    js "Check K3k controller health, server Pod events, and TopoLVM PVC binding on the host.");
   (js "Child API unreachable",
    js "status.endpoint versus the published Secret, then host NodePort Service.",
    js "Re-fetch the Secret after endpoint changes; verify the NodePort is allocated and fresh.");
   (js "Child PVC Pending",
    js "Topology labels missing or TopoLVM has no free capacity.",
    js "Re-apply topology.topolvm.io/node and topology.kubernetes.io/zone, then check lvmd reporting.");
   (js "Zero accelerators visible",
    js "Device Plugin registration mismatch.",
    js "Read plugin Pod logs on the host before changing any declaration; observed allocatable wins.");
   (js "CapabilityMismatch condition",
    js "Cell declares more than the host allocates.",
    js "Align the machine profile with the observed resource key and capacity, then re-observe.");
   (js "Tenant Pod rejected",
    js "Privileged access or hostPath in the manifest.",
    js "This is intended. Use the rejection hint and switch to a PVC on the storage class.");
   (js "Ingress returns 503",
    js "Mirrored Endpoints carry a port name that does not match.",
    js "The controller strips port names; for older clusters clear the endpoint port name to an empty string.");
   (js "Image pull failures",
    js "Registry reachability or OCI-archive transfer problems.",
    js "Fix mirrors first; helpers live in hack/image/. Record digests and architectures.");
   (js "Volumes remain after deletion",
    js "Orphaned logical volumes once the child API is gone.",
    js "Remove only cluster-created volumes with lvremove; leave the volume group intact.")].

Definition troubleshooting_intro : list vnode :=
  [el "p" (js "font-mono text-xs uppercase tracking-[0.2em] text-sky-400") [VText (js "Guides")];
   el "h1" (js "mt-3 text-3xl font-semibold tracking-tight text-foreground sm:text-4xl") [VText (js "Troubleshooting")];
   el "p" (js "mt-5 text-base leading-7 text-muted-foreground")
     [VText
        (js "KubeCell spans four systems — the management plane, OCM, the host cluster, and the child K3s cluster. Almost every failure is diagnosed by walking that chain in order instead of guessing.")]].

Definition troubleshooting_chain_section : list vnode :=
  [VEl "h2" [sv "id" (js "chain")] [VText (js "Walk the chain")];
   code_block troubleshooting_walkChain (Some l_bash) (Some (js "diagnose.sh")) (Some (js "not-prose my-6"));
   Callout cn (Some v_tip) (Some (js "One rule that saves time"))
     [VText
        (jsq "Never edit host state by hand to `unstick` a child cluster. Fix the input (the manifest, the class, the inventory source) and let reconciliation re-render from the snapshot. Manual edits are overwritten on the next reconcile and hide the real cause.")]
     None].

Definition troubleshooting_symptoms_section : list vnode :=
  [VEl "h2" [sv "id" (js "symptoms")] [VText (js "Symptom reference")];
   el "div" (js "not-prose my-6 overflow-hidden rounded-xl border border-white/10")
     [el "div" (js "overflow-x-auto")
        [el "table" (js "w-full min-w-[760px] border-collapse text-left text-sm")
           [VEl "thead" []
              [el "tr" (js "bg-white/[0.03]")
                 [el "th" (js "px-4 py-3 font-medium text-muted-foreground") [VText (js "Symptom")];
                  el "th" (js "px-4 py-3 font-medium text-muted-foreground") [VText (js "Where to look")];
                  el "th" (js "px-4 py-3 font-medium text-muted-foreground") [VText (js "Action")]]];
            el "tbody" (js "text-muted-foreground")
              (map
                 (fun '(symptom, look, action) =>
                   keyed symptom
                     (el "tr" (js "border-t border-white/5")
                        [el "td" (js "px-4 py-3 text-foreground/85") [VText symptom];
                         el "td" (js "px-4 py-3") [VText look];
                         el "td" (js "px-4 py-3") [VText action]]))
                 troubleshooting_rows)]]]].

Definition troubleshooting_plan_rejected_section : list vnode :=
  [VEl "h2" [sv "id" (js "plan-rejected")] [VText (js "A Plan was rejected — now what?")];
   VEl "ol" []
     [VEl "li" []
        [VText (js "Read ");
         VEl "code" [] [VText (js "status.checks")];
         VText (js ". Each failed item names the resource that could not be satisfied.")];
      VEl "li" []
        [VText (js "Check ");
         VEl "code" [] [VText (js "expiresAt")];
         VText (js ". If the conclusion expired, re-apply the Plan for a fresh evaluation.")];
      VEl "li" []
        [VText (js "If the missing resource is storage or accelerators, verify that the Cell inventory is fresh before concluding the host is full.")];
      VEl "li" []
        [VText
           (jsq "Adjust the request or switch Cells. Do not create the VirtualCluster `to see what happens` — the controller rechecks and blocks anyway.")]]].

Definition troubleshooting_collect_section : list vnode :=
  [VEl "h2" [sv "id" (js "collect")] [VText (js "Collecting evidence for an issue")];
   VEl "ul" []
     [VEl "li" [] [VText (js "Cell and VirtualCluster YAML (including status) with timestamps.")];
      VEl "li" [] [VText (js "ManifestWork status for the affected child cluster.")];
      VEl "li" [] [VText (js "Host events for the child namespace, plus K3k server Pod logs.")];
      VEl "li" [] [VText (js "Observed versions from Cell status versus the pinned release.")];
      VEl "li" [] [VText (js "Reproduction steps and expected versus actual behavior.")]];
   VEl "p" []
     [VText (js "File bugs at");
      VText (js " ");
      VEl "a" [sv "href" (js "https://github.com/taosher/KubeCell/issues")] [VText (js "github.com/taosher/KubeCell/issues")];
      VText (js " ");
      VText (js "using the structure above. See also the");
      VText (js " ");
      VEl "Link" [sv "href" (js "/docs/host-onboarding/")] [VText (js "host onboarding troubleshooting table")];
      VText (js " for host-side symptoms.")]].

Definition TroubleshootingPage : vnode :=
  Prose cn
    (troubleshooting_intro
     ++ troubleshooting_chain_section
     ++ troubleshooting_symptoms_section
     ++ troubleshooting_plan_rejected_section
     ++ troubleshooting_collect_section)
    None.

(** ** [docs/faq] *)

Definition faq_metadata : Metadata :=
  buildMetadata (js "FAQ")
    (js "Frequently asked questions about KubeCell: what a VirtualCluster is, accelerator support, isolation guarantees, logical nodes, deletion semantics, and production readiness.")
    (js "/docs/faq/")
    (Some [js "KubeCell FAQ"; js "KubeCell limitations"; js "virtual cluster questions"])
    None.
End Docs.
