(* ===== verification/Pages.v ===== *)
(** * Pages and layouts ([website/app])

    The home page, the quickstart, the use cases, the architecture page, the page for unknown paths, and
    the two layouts, translated element by element.  A page is cut at its sections, each a definition
    named after the page and the section.  [pages] is the route table the file system gives the
    framework: the path of every page with its metadata and what it renders; [site_page] is a page inside
    its layouts. *)

From Stdlib Require Import String List Arith NArith ZArith Lia Bool.
From S2P Require Import Prelude JsString JsNum NumText Dom Highlight CodeBlock FileTree Decor Ui Json Site SiteViews Wrappers Platform Home DocPages.
Import ListNotations.
Local Open Scope list_scope.
Local Open Scope nat_scope.

Section Pages.
Context `{Platform}.

(** ** [quickstart] *)

Definition quickstart_metadata : Metadata :=
  buildMetadata (js "Quickstart")
    (js "Go from a fresh host to a working developer cluster in a handful of commands: preflight, join, approve, prepare, then apply an eight-line manifest.")
    (js "/quickstart/")
    (Some [js "KubeCell quickstart"; js "install KubeCell"; js "VirtualCluster tutorial"; js "K3k shared mode"; js "host onboarding"])
    None.

Record QuickstartStep := {
  qs_id : jsstring; qs_step : jsstring; qs_title : jsstring; qs_body : list vnode; qs_code : jsstring; qs_language : Language; qs_filename :
  jsstring }.

Definition quickstart_prerequisites : QuickstartStep :=
  {| qs_id := js "prerequisites";
     qs_step := js "00";
     qs_title := js "What you need before you start";
     qs_body := [VEl "p" []
                   [VText
                      (js "KubeCell needs one small management cluster and at least one physical host. Both run K3s and must be able to pull the images in your release bundle.")];
                 el "ul" (js "mt-4 space-y-2 text-sm leading-6 text-muted-foreground")
                   [el "li" (js "flex gap-2")
                      [el "CheckCircle2" (js "mt-1 h-4 w-4 shrink-0 text-emerald-400") [];
                       VText (js "A management cluster (single-node K3s) with admin access and outbound network access.")];
                    el "li" (js "flex gap-2")
                      [el "CheckCircle2" (js "mt-1 h-4 w-4 shrink-0 text-emerald-400") [];
                       VText
                         (js "One or more host machines prepared with the platform baseline: kernel drivers, firmware, LVM volume groups, and preloaded images.")];
                    el "li" (js "flex gap-2")
                      [el "CheckCircle2" (js "mt-1 h-4 w-4 shrink-0 text-emerald-400") [];
                       VText
                         (js "A KubeCell release bundle from the releases page: the manifests and images for one tested version, with digests included.")];
                    el "li" (js "flex gap-2")
                      [el "CheckCircle2" (js "mt-1 h-4 w-4 shrink-0 text-emerald-400") [];
                       VText (js "A label on each host node describing what the machine offers, for example");
                       VText (js " ");
                       el "code" (js "font-mono text-xs") [VText (js "hardware.kubecell.io/profile=ascend-910b")];
                       VText (js ", plus the storage topology labels your platform team provides.")]];
                 el "div" (js "mt-5 flex gap-3 rounded-xl border border-amber-400/20 bg-amber-500/[0.06] p-4")
                   [el "AlertTriangle" (js "mt-0.5 h-4 w-4 shrink-0 text-amber-300") [];
                    el "p" (js "text-sm leading-6 text-amber-100/80")
                      [VText (js "KubeCell is pre-release software. Run the quickstart in a lab environment, not in production.")]]];
     qs_code := js "# Point at the management cluster (hub) and the host cluster
export KUBECONFIG_HUB=~/.kube/hub.yaml
export KUBECONFIG_HOST=~/.kube/host.yaml

# Verify the pinned versions in the bundle before anything else
ls kubecell-release/manifests | head";
     qs_language := l_bash;
     qs_filename := js "prerequisites.sh" |}.

Definition quickstart_doctor : QuickstartStep :=
  {| qs_id := js "doctor";
     qs_step := js "01";
     qs_title := js "Run the read-only preflight";
     qs_body := [VEl "p" []
                   [el "code" (js "font-mono text-xs") [VText (js "doctor")];
                    VText
                      (js " is read-only by default and stops at the first failure. Fix everything it reports before you continue; the installer refuses to guess.")]];
     qs_code := js "go run ./cmd/kubecell-installer doctor management --bundle ./kubecell-release
go run ./cmd/kubecell-installer doctor host \
  --bundle ./kubecell-release \
  --device huawei.com/Ascend910";
     qs_language := l_bash;
     qs_filename := js "preflight.sh" |}.

Definition quickstart_management : QuickstartStep :=
  {| qs_id := js "management";
     qs_step := js "02";
     qs_title := js "Install the management plane";
     qs_body := [VEl "p" []
                   [VText
                      (js "CRDs first, then the hub that connects your hosts, then the KubeCell controller. The installer stays read-only unless you pass both");
                    VText (js " ");
                    el "code" (js "font-mono text-xs") [VText (js "--apply")];
                    VText (js " and");
                    VText (js " ");
                    el "code" (js "font-mono text-xs") [VText (js "--confirm")];
                    VText (js ".")];
                 code_block
                   (js "kubectl apply -f kubecell-release/manifests/crds

go run ./cmd/kubecell-installer management \
  --bundle ./kubecell-release --apply --confirm")
                   (Some l_bash)
                   (Some (js "management.sh"))
                   (Some (js "mt-4"))];
     qs_code := js "# The management chart bundles the optional Kite dashboard
# (kite.enabled, on by default) for viewing Cell and VirtualCluster CRs.
helm list -n kubecell-system";
     qs_language := l_bash;
     qs_filename := js "verify-management.sh" |}.

Definition quickstart_host : QuickstartStep :=
  {| qs_id := js "host";
     qs_step := js "03";
     qs_title := js "Onboard the host in four commands";
     qs_body := [VEl "p" []
                   [VText
                      (js "Join, approve by hand, install the host chart, and generate the Cell from live discovery. The manual approval is a deliberate safety gate: the installer never auto-approves a ManagedCluster.")]];
     qs_code := jsq "# 1. join (run against the host cluster)
KUBECONFIG=$KUBECONFIG_HOST clusteradm join \
  --hub-token `$(clusteradm get token)` \
  --hub-apiserver https://hub.example.com:6443 \
  --cluster-name cell1 --wait

# 2. accept (run against the management cluster)
KUBECONFIG=$KUBECONFIG_HUB clusteradm accept --clusters cell1 --wait

# 3. host chart
kubectl create ns kubecell-system
helm install kubecell-host ./charts/kubecell-host \
  --namespace kubecell-system \
  --set image.repository=<controller-repo> --set image.tag=<tag>

# 4. Cell, generated from live discovery
go run ./cmd/kubecell-installer host --step=cell --cell cell1 \
  --kubeconfig $KUBECONFIG_HOST | grep -v '^#' > cell.yaml
kubectl apply -n kubecell-system -f cell.yaml";
     qs_language := l_bash;
     qs_filename := js "host-onboarding.sh" |}.

Definition quickstart_class : QuickstartStep :=
  {| qs_id := js "class";
     qs_step := js "04";
     qs_title := js "Draft a quota tier";
     qs_body := [VEl "p" []
                   [el "code" (js "font-mono text-xs") [VText (js "suggest-class")];
                    VText
                      (js " derives a tier from observed allocatable capacity. Adjust the numbers down to the tenant envelope you are comfortable with, then apply.")]];
     qs_code := js "go run ./cmd/kubecell-installer suggest-class \
  --cell-file cell.yaml --name ascend-910b

kubectl apply -f virtualnodeclass.yaml
kubectl -n kubecell-system get cell cell1 -o wide";
     qs_language := l_bash;
     qs_filename := js "class.sh" |}.

Definition quickstart_virtualcluster : QuickstartStep :=
  {| qs_id := js "virtualcluster";
     qs_step := js "05";
     qs_title := js "Plan, then create the child cluster";
     qs_body := [VEl "p" []
                   [VText (js "Create a VirtualClusterPlan with identical content first. Wait for");
                    VText (js " ");
                    el "code" (js "font-mono text-xs") [VText (js "status.decision=Accepted")];
                    VText (js ", then create the VirtualCluster. When it reaches ");
                    el "code" (js "font-mono text-xs") [VText (js "phase=Ready")];
                    VText (js ", fetch the admin kubeconfig Secret.")]];
     qs_code := jsq "kubectl apply -f virtualcluster-plan.yaml
kubectl -n kubecell-system get vcp child-dev-plan \
  -o jsonpath='{.status.decision}{`\n`}'

kubectl apply -f virtualcluster.yaml
kubectl -n kubecell-system wait --for=condition=Ready \
  vc/child-dev --timeout=20m

# Export the admin kubeconfig (mode 600)
kubectl -n kubecell-system get secret \
  kubecell-child-dev-<uid>-admin-kubeconfig \
  -o jsonpath='{.data.kubeconfig\.yaml}' | base64 -d > child-dev.yaml
chmod 600 child-dev.yaml
kubectl --kubeconfig child-dev.yaml get nodes";
     qs_language := l_bash;
     qs_filename := js "virtualcluster.sh" |}.

Definition quickstart_steps : list QuickstartStep :=
  [quickstart_prerequisites; quickstart_doctor; quickstart_management; quickstart_host; quickstart_class; quickstart_virtualcluster].

Definition howToLd : json :=
  JObj
    [(js "@context", JStr (js "https://schema.org"));
     (js "@type", JStr (js "HowTo"));
     (js "name", JStr (js "Provision your first KubeCell VirtualCluster"));
     (js "description",
      JStr (js "Install the KubeCell management plane, onboard a physical host as a Cell, and create an isolated Kubernetes child cluster."));
     (js "url", JStr (page_url (js "/quickstart/")));
     (js "step",
      JArr
        (mapi_from
           (fun index step =>
             JObj
               [(js "@type", JStr (js "HowToStep"));
                (js "position", JInt (N.of_nat (index + 1)));
                (js "name", JStr (qs_title step));
                (js "url", JStr (page_url (js "/quickstart/#" ++ qs_id step)))])
           0
           quickstart_steps))].

Definition quickstart_hero : vnode :=
  PageHero (js "Quickstart") [VText (js "From a fresh host to your first cluster")]
    [VText (js "Six steps, four of them commands. The first command only reads, so you can run the whole flow on a lab host without fear.")]
    (Some
       [Badge cn cva (Some gv_outline) (Some (js "border-emerald-400/30 text-emerald-300")) []
          [VText (js "~30 minutes hands-on, including image pulls")];
        VEl "Link"
          [sv "href" (js "/docs/installation/");
           sv "className" (js "inline-flex items-center gap-1.5 text-sm font-medium text-sky-400 transition-colors hover:text-sky-300")]
          [VText (js "Full installation guide"); el "ArrowRight" (js "h-3.5 w-3.5") []]]).

Definition quickstart_body_section : vnode :=
  PageSection cn None None
    [el "div" (js "space-y-16")
       (mapi_from
          (fun index step =>
            keyed (qs_id step)
              (fade_in (Some (nmul (nof (Z.of_nat index)) (lit 4 100)))
                 [VEl "div" [sv "id" (qs_id step); sv "className" (js "scroll-mt-24")]
                    [el "div" (js "grid gap-8 lg:grid-cols-[0.85fr_1.15fr] lg:gap-12")
                       [VEl "div" []
                          [el "div" (js "flex items-center gap-3")
                             [el "span" (js "font-mono text-xs text-sky-400") [VText (qs_step step)];
                              el "span" (js "h-px flex-1 bg-gradient-to-r from-sky-400/40 to-transparent") []];
                           el "h2" (js "mt-4 text-2xl font-semibold tracking-tight text-foreground") [VText (qs_title step)];
                           el "div" (js "mt-4 text-sm leading-7 text-muted-foreground") (qs_body step)];
                        code_block (qs_code step) (Some (qs_language step)) (Some (qs_filename step)) None]]]))
          0
          quickstart_steps)].

Definition quickstart_next_steps_section : vnode :=
  PageSection cn None (Some (js "border-t border-white/5 bg-white/[0.015]"))
    [SectionHeading cn (Some (js "Next steps")) [VText (js "Now that a cluster exists")]
       (Some [VText (js "The interesting part is day two: keeping tenants honest, wiring ingress, and reclaiming storage.")])
       None
       None;
     el "div" (js "mt-10 grid gap-4 sm:grid-cols-2 lg:grid-cols-4")
       (map
          (fun '(href, title, description) =>
            keyed href
              (VEl "Link"
                 [sv "href" href;
                  sv "className"
                    (js "group rounded-xl border border-white/10 bg-white/[0.02] p-5 transition-colors hover:border-sky-400/30 hover:bg-white/[0.04]")]
                 [el "h3" (js "text-sm font-semibold text-foreground") [VText title];
                  el "p" (js "mt-2 text-sm leading-6 text-muted-foreground") [VText description];
                  el "span" (js "mt-3 inline-flex items-center gap-1 text-xs font-medium text-sky-400")
                    [VText (js "Open"); el "ArrowRight" (js "h-3 w-3 transition-transform group-hover:translate-x-0.5") []]]))
          [(js "/docs/concepts/", js "Understand the model", js "How hosts, quota tiers, and clusters fit together.");
           (js "/docs/operations/", js "Operate it", js "Capacity, credentials, quota changes, deletion.");
           (js "/docs/security/", js "Audit isolation", js "Quotas, network policy, and blocked workloads.");
           (js "/docs/troubleshooting/", js "Debug failures", js "Symptom-first fixes for the common cases.")])].

Definition QuickstartPage : list vnode :=
  [JsonLd howToLd; quickstart_hero; quickstart_body_section; quickstart_next_steps_section].

(** ** [use-cases] *)

Definition usecases_metadata : Metadata :=
  buildMetadata (js "Use cases")
    (js "Five concrete ways teams use KubeCell: accelerator sandboxes, ephemeral test environments, training labs, edge field labs, and platform landlord mode on shared hardware.")
    (js "/use-cases/")
    (Some
       [js "Kubernetes accelerator sandbox";
        js "ephemeral Kubernetes environments";
        js "GPU cluster for developers";
        js "training lab Kubernetes";
        js "platform landlord mode"])
    None.

Record UseCase := {
  us_id : jsstring; us_title : jsstring; us_summary : jsstring; us_audience : jsstring; us_situation : jsstring; us_kubecell : jsstring;
  us_outcome : list jsstring; us_code : jsstring; us_filename : jsstring }.

Definition usecase_accelerator_sandboxes : UseCase :=
  {| us_id := js "accelerator-sandboxes";
     us_title := js "Accelerator sandboxes for AI teams";
     us_summary := js "Every researcher gets a full Kubernetes API with two dedicated 910B cards — no partitioning tricks, no shared queue.";
     us_audience := js "Research and ML platform teams";
     us_situation := js "Your lab runs one or two powerful ARM64 hosts with eight accelerators each. Today, jobs land in a shared namespace: one runaway workload can starve everyone, and nobody can install an operator or a CRD without stepping on another team's cluster.";
     us_kubecell := js "Publish a quota tier with two whole cards, then hand out clusters. Each one is a real K3s control plane, so teams install whatever operators they need inside their own API server while the host still enforces the quota.";
     us_outcome := [js "Each cluster gets whole cards; two clusters never share one accelerator.";
                    js "Capacity shown in status is what the hardware actually reports, not what was requested.";
                    js "Quota usage is measured on the host, so the limits you set are the limits that apply.";
                    js "Works with any accelerator your cluster advertises, NVIDIA or Ascend alike."];
     us_code := jsq "apiVersion: kubecell.io/v1alpha1
kind: VirtualNodeClass
metadata:
  name: ascend-910b-small
spec:
  entitlement:
    workloadHard:
      requests.cpu: `4`
      limits.cpu: `4`
      requests.memory: 8Gi
      limits.memory: 8Gi
      requests.huawei.com/Ascend910: `2`
      limits.huawei.com/Ascend910: `2`
  storageClassName: topolvm-provisioner";
     us_filename := js "class-ascend-910b-small.yaml" |}.

Definition usecase_ephemeral_environments : UseCase :=
  {| us_id := js "ephemeral-environments";
     us_title := js "Ephemeral environments per pull request";
     us_summary := js "Spin a child cluster for an integration run, hand over a kubeconfig, then delete it and let the finalizer clean the host.";
     us_audience := js "Teams with heavy integration tests";
     us_situation := js "Integration tests need cluster-scoped objects: CRDs, webhooks, storage classes, and a control plane that can be restarted. A shared namespace cannot provide that, and provisioning a whole managed cluster per test is too slow and too expensive.";
     us_kubecell := js "A cluster is created in seconds once images are warm, and deletion is complete: KubeCell removes the cluster, its credentials, and everything it created on the host. The kubeconfig is always published to one Secret, so CI can pick it up with a single command.";
     us_outcome := [js "One cluster per branch: apply a manifest, wait for Ready, run tests, delete.";
                    js "An admin kubeconfig is published every time — no manual hand-off.";
                    js "Predictable cleanup, including PVCs, with Retain as the storage safety net.";
                    js "Dry-run checks let CI fail fast when the host is out of capacity instead of hanging."];
     us_code := js "apiVersion: kubecell.io/v1alpha1
kind: VirtualClusterPlan
metadata:
  name: pr-1842-plan
  namespace: kubecell-system
spec:
  cellRef: {name: cell1}
  classRef: {name: ci-medium}
---
# CI waits for status.decision, then creates the real VirtualCluster
apiVersion: kubecell.io/v1alpha1
kind: VirtualCluster
metadata:
  name: pr-1842
  namespace: kubecell-system
spec:
  cellRef: {name: cell1}
  classRef: {name: ci-medium}";
     us_filename := js "ci-virtualcluster.yaml" |}.

Definition usecase_training_labs : UseCase :=
  {| us_id := js "training-labs";
     us_title := js "Workshops and training labs";
     us_summary := js "Forty students, one host, forty clusters. Quota keeps the class fair and no one can break another student's control plane.";
     us_audience := js "Training providers and universities";
     us_situation := js "Students need admin rights to learn Kubernetes: install operators, break things, and fix them. Namespace-only classrooms cannot teach cluster-scoped concepts, and per-student VMs are expensive and slow to prepare.";
     us_kubecell := js "Create one small quota tier and issue a cluster per student. Each cluster shows a single node, so every kubectl tutorial works verbatim, and the host keeps a misbehaving cluster from affecting the rest of the class.";
     us_outcome := [js "Admin kubeconfigs without giving anyone access to the host.";
                    js "Hard CPU and memory caps per student, enforced by Kubernetes, not by convention.";
                    js "Students cannot break the host: privileged Pods and hostPath volumes are rejected.";
                    js "Teardown is one delete per student cluster."];
     us_code := js "# Create the whole class from a small loop
for student in $(seq 1 40); do
  cat <<EOF | kubectl apply -f -
apiVersion: kubecell.io/v1alpha1
kind: VirtualCluster
metadata:
  name: student-$student
  namespace: kubecell-system
spec:
  cellRef: {name: lab-cell}
  classRef: {name: workshop-small}
EOF
done";
     us_filename := js "classroom.sh" |}.

Definition usecase_field_labs : UseCase :=
  {| us_id := js "field-labs";
     us_title := js "Edge and field labs";
     us_summary := js "Hardware lives where the hardware is. Hosts connect outbound to one management plane — no inbound tunnel per site.";
     us_audience := js "Ops teams running remote sites";
     us_situation := js "Your accelerators and data live at a remote site behind NAT. You still need one place to declare changes, watch capacity, and hand out developer clusters — without opening inbound management paths to every machine.";
     us_kubecell := js "Hosts connect outbound to the management cluster. Every change is applied through that one channel and every observation comes back the same way, so there is no inbound tunnel to maintain and no agent to babysit.";
     us_outcome := [js "One management plane for many sites, with each site isolated on its own hosts.";
                    js "No inbound SSH or API access to hosts required for day-to-day operation.";
                    js "Sites that stop reporting are visible immediately, before anyone tries to create a cluster.";
                    js "Endpoints are discovered and republished, so kubeconfigs keep working after address changes."];
     us_code := js "kubectl -n kubecell-system get cells -o custom-columns=\
NAME:.metadata.name,PHASE:.status.phase,JOINED:.status.managedCluster.joined,\
LEASE:.status.managedCluster.leaseFresh,NODES:.status.nodes[*].name";
     us_filename := js "fleet-status.sh" |}.

Definition usecase_platform_landlord : UseCase :=
  {| us_id := js "platform-landlord";
     us_title := js "Landlord mode for platform teams";
     us_summary := js "Declare Cells and quota tiers once; product teams self-serve child clusters inside the envelope you defined.";
     us_audience := js "Internal platform teams";
     us_situation := js "Requests for clusters arrive faster than your team can provision hardware. You need the platform to own capacity and guardrails while product teams self-serve inside them — without negotiating every request in chat.";
     us_kubecell := js "The platform publishes hosts with their observed capacity and a small set of quota tiers. Teams check a request with a dry run, then create the cluster. Every step is visible as a Kubernetes resource with status, so capacity conversations happen against real data.";
     us_outcome := [js "Dry runs before commitment: accepted, rejected with reasons, or unknown.";
                    js "Capacity accounting per host: requested, pending, and available estimates.";
                    js "Bindings are immutable, so capacity cannot silently move between hosts.";
                    js "The same tested versions everywhere, upgraded through releases."];
     us_code := jsq "# Tenants can inspect headroom before asking for anything
kubectl -n kubecell-system get cell cell1 \
  -o jsonpath='{range .status.inventory[*]}{.resource}{`\t`}{.availableEstimate}{`\n`}{end}'";
     us_filename := js "capacity.sh" |}.

Definition useCases : list UseCase :=
  [usecase_accelerator_sandboxes; usecase_ephemeral_environments; usecase_training_labs; usecase_field_labs; usecase_platform_landlord].

Definition itemListLd : json :=
  JObj
    [(js "@context", JStr (js "https://schema.org"));
     (js "@type", JStr (js "ItemList"));
     (js "name", JStr (js "KubeCell use cases"));
     (js "itemListElement",
      JArr
        (mapi_from
           (fun index useCase =>
             JObj
               [(js "@type", JStr (js "ListItem"));
                (js "position", JInt (N.of_nat (index + 1)));
                (js "name", JStr (us_title useCase));
                (js "description", JStr (us_summary useCase));
                (js "url", JStr (page_url (js "/use-cases/#" ++ us_id useCase)))])
           0
           useCases))].

Definition usecases_hero : vnode :=
  PageHero (js "Use cases") [VText (js "Shared bare metal, private Kubernetes")]
    [VText
       (js "KubeCell is for teams whose hardware is too expensive to duplicate and whose workloads are too real for namespaces alone. Here are five patterns we designed for.")]
    None.

Definition usecases_body_section : vnode :=
  PageSection cn None None
    [el "div" (js "space-y-20")
       (mapi_from
          (fun index useCase =>
            keyed (us_id useCase)
              (fade_in (Some (nmul (lit 4 100) (nof (Z.of_nat index))))
                 [VEl "article" [sv "id" (us_id useCase); sv "className" (js "scroll-mt-24")]
                    [el "div" (js "flex flex-wrap items-center gap-3")
                       [Badge cn cva (Some gv_outline) (Some (js "border-sky-400/30 text-sky-300")) [] [VText (us_audience useCase)];
                        el "span" (js "font-mono text-xs text-muted-foreground") [VText (padStart (nat_to_js (index + 1)) 2 (js "0"))]];
                     el "h2" (js "mt-4 text-2xl font-semibold tracking-tight text-foreground sm:text-3xl") [VText (us_title useCase)];
                     el "p" (js "mt-3 max-w-3xl text-pretty text-base leading-7 text-muted-foreground") [VText (us_summary useCase)];
                     el "div" (js "mt-8 grid gap-8 lg:grid-cols-[1.05fr_0.95fr] lg:gap-12")
                       [el "div" (js "space-y-6")
                          [VEl "div" []
                             [el "h3" (js "text-sm font-semibold uppercase tracking-wider text-muted-foreground") [VText (js "The situation")];
                              el "p" (js "mt-2 text-sm leading-7 text-foreground/85") [VText (us_situation useCase)]];
                           VEl "div" []
                             [el "h3" (js "text-sm font-semibold uppercase tracking-wider text-muted-foreground") [VText (js "With KubeCell")];
                              el "p" (js "mt-2 text-sm leading-7 text-foreground/85") [VText (us_kubecell useCase)]];
                           VEl "div" []
                             [el "h3" (js "text-sm font-semibold uppercase tracking-wider text-muted-foreground") [VText (js "What you get")];
                              el "ul" (js "mt-2 space-y-2")
                                (map
                                   (fun item =>
                                     keyed item
                                       (el "li" (js "flex gap-2 text-sm leading-6 text-muted-foreground")
                                          [el "span" (js "mt-2 h-1.5 w-1.5 shrink-0 rounded-full bg-sky-400") []; VText item]))
                                   (us_outcome useCase))]];
                        code_block (us_code useCase) (Some (if endsWith (us_filename useCase) (js ".sh") then l_bash else l_yaml))
                          (Some (us_filename useCase))
                          None]]]))
          0
          useCases);
     el "div" (js "mt-20 rounded-2xl border border-white/10 bg-white/[0.02] p-8 text-center")
       [el "h2" (js "text-xl font-semibold text-foreground") [VText (js "Do not see your scenario?")];
        el "p" (js "mx-auto mt-3 max-w-2xl text-sm leading-6 text-muted-foreground")
          [VText
             (js "If it needs a real Kubernetes API on hardware you already own, it is probably a fit. Read the technical design or open an issue with your constraints.")];
        el "div" (js "mt-6 flex flex-wrap items-center justify-center gap-4 text-sm font-medium")
          [VEl "Link" [sv "href" (js "/architecture/"); sv "className" (js "text-sky-400 hover:text-sky-300")] [VText (js "Technical principles")];
           el "span" (js "text-white/10") [VText (js "|")];
           VEl "Link" [sv "href" (js "/quickstart/"); sv "className" (js "text-sky-400 hover:text-sky-300")] [VText (js "Quickstart")];
           el "span" (js "text-white/10") [VText (js "|")];
           VEl "a"
             [sv "href" (js "https://github.com/taosher/KubeCell/issues");
              sv "target" (js "_blank");
              sv "rel" (js "noreferrer");
              sv "className" (js "inline-flex items-center gap-1 text-sky-400 hover:text-sky-300")]
             [VText (js "Open an issue"); el "ArrowRight" (js "h-3.5 w-3.5") []]]]].

Definition UseCasesPage : list vnode :=
  [JsonLd itemListLd; usecases_hero; usecases_body_section].

(** The tree of the repository, as it is mounted. *)
Definition repo_tree : vnode :=
  default_of thrown (RepoTree cn collate (tree_mount (Some repo_elements) None (Some repo_initialExpandedItems))).

(** ** [architecture] *)

Definition architecture_metadata : Metadata :=
  buildMetadata (js "Architecture and technical principles")
    (js "How KubeCell works under the hood: the three layers, how a request becomes changes on a host, how state stays trustworthy, and which component versions each release validates.")
    (js "/architecture/")
    (Some
       [js "KubeCell architecture";
        js "OCM ManifestWork";
        js "K3k shared mode";
        js "Kubernetes operator design";
        js "TopoLVM reflection";
        js "pinned Kubernetes versions"])
    (Some article).

Record Layer := { ly_icon : string; ly_name : jsstring; ly_summary : jsstring; ly_points : list jsstring }.

Definition architecture_layers : list Layer :=
  [{| ly_icon := "CloudCog"%string;
      ly_name := js "Management cluster";
      ly_summary := js "Single-node K3s. Desired state only; it runs no tenant workloads.";
      ly_points := [js "OCM Hub: ManagedCluster, ManifestWork, ManagedServiceAccount, cluster proxy.";
                    js "KubeCell management controller plus the CRD admission webhook.";
                    js "Four CRDs: Cell, VirtualNodeClass, VirtualClusterPlan, VirtualCluster.";
                    js "Installer orchestrates release bundles; charts never mutate OCM objects."] |};
   {| ly_icon := "Server"%string;
      ly_name := js "Cell host cluster";
      ly_summary := js "One Cell equals one OCM ManagedCluster equals one physical host cluster.";
      ly_points := [js "OCM klusterlet and work-agent apply the two works per child cluster.";
                    js "K3k v1.2.0 in shared mode creates and reflects child clusters.";
                    js "Host webhook admits platform Pods and rejects tenant host access.";
                    js "Pinned baseline: CNI/CoreDNS, TopoLVM, Traefik, vendor Device Plugins."] |};
   {| ly_icon := "Boxes"%string;
      ly_name := js "VirtualCluster (child)";
      ly_summary := js "A real K3s control plane with one logical node named kubelet.";
      ly_points := [js "Independent API server and data volume, stored on TopoLVM.";
                    js "Child admin kubeconfig always published to a management-plane Secret.";
                    js "Child Pods and PVCs are reflected to the host namespace one-to-one.";
                    js "Scale vertically by switching quota tiers, never horizontally."] |}].

Record FlowStep := { cf_title : jsstring; cf_body : jsstring }.

Definition controlFlow : list FlowStep :=
  [{| cf_title := js "Resolve and snapshot";
      cf_body := js "The controller resolves the Cell and VirtualNodeClass, then writes an immutable resolution snapshot to status.resolved. All steady-state rendering reads only from that snapshot." |};
   {| cf_title := js "Re-run feasibility";
      cf_body := js "Before creating anything, the controller re-runs the same feasibility evaluation the Plan used. A non-Accepted conclusion stops the flow and the report lands in status.feasibilityChecks." |};
   {| cf_title := js "Create the Foundation Work";
      cf_body := js "Host namespace with policy labels, ResourceQuota, LimitRange, NetworkPolicy, and port-forward RBAC. Only when the work is Applied does the next step start." |};
   {| cf_title := js "Create the Instance Work";
      cf_body := js "A K3k Cluster in Shared mode plus the K3k VirtualClusterPolicy. The work-agent on the host executes it; K3k then creates the server Pod, data volume, and NodePort Service." |};
   {| cf_title := js "Publish credentials";
      cf_body := js "The controller reads the K3k kubeconfig Secret through the OCM proxy, rewrites the server address to the auto-discovered host address and NodePort, then republishes it in the management plane." |};
   {| cf_title := js "Converge and report";
      cf_body := js "Steady-state reconciliation compares observed host state with the snapshot. Drift, stale inventory, and version mismatches surface as conditions — never as silent fixes." |}].

Definition foundationWork : jsstring :=
  jsq "# Foundation Work (excerpt) — host namespace and guardrails
apiVersion: work.open-cluster-management.io/v1
kind: ManifestWork
metadata:
  name: kubecell-<vc>-foundation
  namespace: <managed-cluster-namespace>
spec:
  workload:
    manifests:
    - apiVersion: v1
      kind: Namespace
      metadata:
        name: <vc>-ns
        labels:
          kubecell.io/virtualcluster: <vc>
          kubecell.io/managed: `true`
    - apiVersion: v1
      kind: ResourceQuota      # hard requests/limits from the class
    - apiVersion: v1
      kind: LimitRange         # default 100m / 256Mi
    - apiVersion: networking.k8s.io/v1
      kind: NetworkPolicy      # deny by default
# Instance Work (excerpt) — K3k shared-mode cluster
    - apiVersion: k3k.io/v1beta1
      kind: Cluster
      spec:
        mode: shared
        servers: 1
        agents: 1
        persistence:
          type: dynamic
          storageClassName: topolvm-provisioner".

Record FreshnessCheck := { fc_check : jsstring; fc_meaning : jsstring; fc_staleRisk : jsstring }.

Definition freshnessChecks : list FreshnessCheck :=
  [{| fc_check := js "OCM Joined";
      fc_meaning := js "The klusterlet on the host registered successfully.";
      fc_staleRisk := js "Registration can be revoked or replaced." |};
   {| fc_check := js "OCM Available";
      fc_meaning := js "The hub considers the cluster reachable.";
      fc_staleRisk := js "Observed to go stale without updates; not trusted alone." |};
   {| fc_check := js "managed-cluster-lease fresh";
      fc_meaning := js "The host Lease keeps renewing.";
      fc_staleRisk := js "The decisive liveness signal for a Cell." |};
   {| fc_check := js "InventoryFresh";
      fc_meaning := js "Inventory and storage observations are recent and from a live source.";
      fc_staleRisk := js "When false, no feasibility conclusion is trustworthy." |}].

Definition nonGoals : list jsstring :=
  [js "No custom scheduler, CNI, CSI, device allocator, or host agent: standard Kubernetes behavior applies.";
   js "No automatic cross-Cell placement, migration, or failover in the first version.";
   js "No strong-adversary multi-tenancy: developer credentials are child-cluster admin kubeconfigs.";
   js "port-forward and automatic physical data reclamation are outside the locked commitments."].

Definition articleLd : json :=
  JObj
    [(js "@context", JStr (js "https://schema.org"));
     (js "@type", JStr (js "TechArticle"));
     (js "headline", JStr (js "KubeCell architecture and technical principles"));
     (js "description",
      JStr (js "Three-layer architecture, OCM ManifestWork control flow, snapshot reconciliation, endpoint discovery, and pinned upstream versions."));
     (js "url", JStr (page_url (js "/architecture/")));
     (js "author", JObj [(js "@type", JStr (js "Organization")); (js "name", JStr (js "KubeCell"))]);
     (js "about", JArr [JStr (js "Kubernetes"); JStr (js "K3k"); JStr (js "Open Cluster Management"); JStr (js "TopoLVM")]);
     (js "proficiencyLevel", JStr (js "Expert"))].

Definition architecture_hero : vnode :=
  PageHero (js "Technical principles") [VText (js "Small control plane, honest data plane")]
    [VText
       (js "KubeCell is deliberately boring: a controller that writes two OCM ManifestWorks per child cluster, reads hosts only through the OCM proxy, and treats upstream projects as the real implementation.")]
    (Some
       [Badge cn cva (Some gv_outline) (Some (js "border-sky-400/30 text-sky-300")) [] [VText (js "For platform engineers and reviewers")];
        VEl "Link"
          [sv "href" (js "https://github.com/taosher/KubeCell/blob/main/technical-design.md");
           sv "target" (js "_blank");
           sv "rel" (js "noreferrer");
           sv "className" (js "inline-flex items-center gap-1.5 text-sm font-medium text-sky-400 transition-colors hover:text-sky-300")]
          [VText (js "Read the full design document"); el "ArrowRight" (js "h-3.5 w-3.5") []]]).

Definition architecture_three_layers_section : vnode :=
  PageSection cn None None
    [SectionHeading cn (Some (js "Three layers")) [VText (js "One management cluster, many Cells, many child clusters")]
       (Some [VText (js "Each layer has a single job, and boundaries are enforced by the API surface rather than by convention.")])
       None
       None;
     el "div" (js "mt-12 grid gap-4 lg:grid-cols-3")
       (map
          (fun layer =>
            keyed (ly_name layer)
              (el "div" (js "rounded-2xl border border-white/10 bg-white/[0.02] p-6")
                 [el "span" (js "inline-flex h-11 w-11 items-center justify-center rounded-xl border border-sky-400/20 bg-sky-500/10 text-sky-300")
                    [el (ly_icon layer) (js "h-5 w-5") []];
                  el "h3" (js "mt-4 text-lg font-semibold text-foreground") [VText (ly_name layer)];
                  el "p" (js "mt-2 text-sm leading-6 text-muted-foreground") [VText (ly_summary layer)];
                  el "ul" (js "mt-4 space-y-2")
                    (map
                       (fun point =>
                         keyed point
                           (el "li" (js "flex gap-2 text-sm leading-6 text-foreground/80")
                              [el "span" (js "mt-2 h-1.5 w-1.5 shrink-0 rounded-full bg-sky-400/80") []; VText point]))
                       (ly_points layer))]))
          architecture_layers);
     el "div" (js "mt-12") [ArchitectureBeam None (Some technical)]].

Definition architecture_control_flow_section : vnode :=
  PageSection cn None (Some (js "border-y border-white/5 bg-white/[0.015]"))
    [SectionHeading cn (Some (js "Control flow")) [VText (js "What happens between kubectl apply and a kubeconfig")]
       (Some
          [VText
             (js "Every step is idempotent and safe to retry. Failed work is retried by re-rendering from the snapshot, not by patching host state in place.")])
       None
       None;
     el "div" (js "mt-12 grid gap-8 lg:grid-cols-[1.1fr_0.9fr] lg:gap-14")
       [el "ol" (js "relative space-y-8 border-l border-white/10 pl-6")
          (mapi_from
             (fun index step =>
               keyed (cf_title step)
                 (el "li" (js "relative")
                    [el "span"
                       (js "absolute -left-[31px] flex h-6 w-6 items-center justify-center rounded-full border border-sky-400/30 bg-[#070c17] font-mono text-[10px] text-sky-300")
                       [VText (nat_to_js (index + 1))];
                     el "h3" (js "text-base font-semibold text-foreground") [VText (cf_title step)];
                     el "p" (js "mt-1.5 text-sm leading-6 text-muted-foreground") [VText (cf_body step)]]))
             0
             controlFlow);
        code_block foundationWork (Some l_yaml) (Some (js "manifestwork-excerpt.yaml")) None]].

Definition architecture_truth_and_freshness_section : vnode :=
  PageSection cn None None
    [el "div" (js "grid gap-12 lg:grid-cols-2 lg:items-start lg:gap-16")
       [VEl "div" []
          [SectionHeading cn (Some (js "Truth and freshness")) [VText (js "A Cell is Ready only when its observations are alive")]
             (Some
                [VText
                   (js "KubeCell separates “the object exists” from “the system is healthy”. Lease freshness and inventory freshness are first-class conditions, because stale data is the most common cause of wrong capacity decisions.")])
             (Some a_left)
             None;
           el "div" (js "mt-8 overflow-hidden rounded-2xl border border-white/10")
             [el "table" (js "w-full border-collapse text-left text-sm")
                [VEl "thead" []
                   [el "tr" (js "bg-white/[0.03]")
                      [el "th" (js "px-4 py-3 font-medium text-muted-foreground") [VText (js "Signal")];
                       el "th" (js "px-4 py-3 font-medium text-muted-foreground") [VText (js "Means")];
                       el "th" (js "px-4 py-3 font-medium text-muted-foreground") [VText (js "Failure mode")]]];
                 VEl "tbody" []
                   (map
                      (fun row =>
                        keyed (fc_check row)
                          (el "tr" (js "border-t border-white/5")
                             [el "td" (js "px-4 py-3 font-mono text-xs text-sky-300") [VText (fc_check row)];
                              el "td" (js "px-4 py-3 text-muted-foreground") [VText (fc_meaning row)];
                              el "td" (js "px-4 py-3 text-muted-foreground") [VText (fc_staleRisk row)]]))
                      freshnessChecks)]]];
        el "div" (js "space-y-6")
          [SectionHeading cn (Some (js "Endpoint discovery")) [VText (js "Addresses are observed, never configured")]
             (Some
                [VText
                   (js "The API address is not part of spec. The controller reads Ready host nodes through the proxy, takes the InternalIP of the first node by name, and records it in status.")])
             (Some a_left)
             None;
           code_block
             (jsq "$ kubectl -n kubecell-system get vc child-dev \
    -o jsonpath='{.status.endpoint}'
{`address`:`10.0.12.7`,`port`:31234}

# When the address changes, kubeconfigs are republished
# automatically. Clients pick up the new file; no CR edit.")
             (Some l_bash)
             (Some (js "endpoint.sh"))
             None;
           el "p" (js "text-sm leading-6 text-muted-foreground")
             [VText
                (js "Exposure method, port range, and proxy identity are platform constants. That is why they are absent from the CRDs: there is exactly one safe value, so exposing them would only create drift.")]]]].

Definition architecture_code_layout_section (tree : vnode) : vnode :=
  PageSection cn None None
    [el "div" (js "grid gap-12 lg:grid-cols-[1fr_1fr] lg:items-center lg:gap-16")
       [VEl "div" []
          [SectionHeading cn (Some (js "Code layout")) [VText (js "Where to look in the repository")]
             (Some
                [VText
                   (js "The design is small enough to hold in your head: four CRDs in api/, one controller in internal/, two charts, and an installer that owns the release bundle.")])
             (Some a_left)
             None;
           el "p" (js "mt-6 text-sm leading-7 text-muted-foreground")
             [VText
                (js "Controllers never install host software; the installer does, at pinned versions. Charts never mutate OCM objects. Those two rules explain most of the directory structure.")]];
        tree]].

Definition architecture_built_on_upstream_section : vnode :=
  PageSection cn None (Some (js "border-y border-white/5 bg-white/[0.015]"))
    [el "div" (js "grid gap-12 lg:grid-cols-[0.9fr_1.1fr] lg:items-center lg:gap-16")
       [VEl "div" []
          [SectionHeading cn (Some (js "Built on upstream")) [VText (js "Upstream does the work; KubeCell owns the contract")]
             (Some
                [VText
                   (js "K3k, K3s, TopoLVM, Traefik, and OCM are used through their public APIs and never patched. You get upstream fixes and behavior directly, and every release can pin and verify the exact combination it was tested with.")])
             (Some a_left)
             None;
           el "ul" (js "mt-8 space-y-3")
             (map
                (fun item =>
                  keyed item
                    (el "li" (js "flex gap-2.5 text-sm leading-6 text-muted-foreground")
                       [el "span" (js "mt-2 h-1.5 w-1.5 shrink-0 rounded-full bg-violet-400/80") []; VText item]))
                nonGoals)];
        OrbitingStack];
     el "div" (js "mt-16")
       [SectionHeading cn (Some (js "Locked combination")) [VText (js "Versions that move together")]
          (Some [VText (js "Changing any of these requires a release, not a CR edit.")])
          (Some a_left)
          None;
        el "div" (js "mt-8 overflow-hidden rounded-2xl border border-white/10")
          [el "div" (js "overflow-x-auto")
             [el "table" (js "w-full min-w-[640px] border-collapse text-left text-sm")
                [VEl "thead" []
                   [el "tr" (js "bg-white/[0.03]")
                      [el "th" (js "px-5 py-3.5 font-medium text-muted-foreground") [VText (js "Component")];
                       el "th" (js "px-5 py-3.5 font-medium text-muted-foreground") [VText (js "Version")];
                       el "th" (js "px-5 py-3.5 font-medium text-muted-foreground") [VText (js "Notes")]]];
                 VEl "tbody" []
                   (map
                      (fun row =>
                        keyed (s_component row)
                          (el "tr" (js "border-t border-white/5")
                             [el "td" (js "px-5 py-3.5 font-medium text-foreground") [VText (s_component row)];
                              el "td" (js "px-5 py-3.5 font-mono text-xs text-sky-300") [VText (s_version row)];
                              el "td" (js "px-5 py-3.5 text-muted-foreground") [VText (s_note row)]]))
                      pinnedStack)]]]]].

Definition architecture_ingress_and_north_south_section : vnode :=
  PageSection cn None None
    [SectionHeading cn (Some (js "Ingress and north-south")) [VText (js "One host ingress, predictable hostnames")]
       (Some
          [VText
             (js "Host Traefik owns ports 80 and 443 for the whole host. It watches only VirtualCluster namespaces that carry the KubeCell label, so one noisy tenant cannot claim the edge.")])
       None
       None;
     el "div" (js "mt-10 grid gap-4 md:grid-cols-3")
       (map
          (fun '(title, body) =>
            keyed title
              (el "div" (js "rounded-2xl border border-white/10 bg-white/[0.02] p-6")
                 [el "Layers" (js "h-5 w-5 text-sky-300") [];
                  el "h3" (js "mt-3 text-base font-semibold text-foreground") [VText title];
                  el "p" (js "mt-2 text-sm leading-6 text-muted-foreground") [VText body]]))
          [(js "You choose the Ingress name",
            js "Create a standard Ingress with class kubecell in the child cluster. The hostname derives as <ingress>.<vc>.<apps-suffix>; the suffix is a platform constant.");
           (js "Endpoints stay in sync",
            js "The controller mirrors child Endpoints into the host namespace and strips port names that would break routing.");
           (js "TLS is an operator decision",
            js "Certificates are issued at the host ingress. The design keeps v1 to HTTP(S) rather than promising protocols it cannot keep.")]);
     el "div" (js "mt-10") [FailureModes]].

(** The repository tree is an argument of the page, which is given its own below. *)
Definition architecture_page (tree : vnode) : list vnode :=
  [JsonLd articleLd;
   architecture_hero;
   architecture_three_layers_section;
   architecture_control_flow_section;
   architecture_truth_and_freshness_section;
   architecture_code_layout_section tree;
   architecture_built_on_upstream_section;
   architecture_ingress_and_north_south_section].

Definition ArchitecturePage : list vnode := architecture_page repo_tree.

(** ** [page.tsx] *)

Definition softwareLd : json :=
  JObj
    [(js "@context", JStr (js "https://schema.org"));
     (js "@type", JStr (js "SoftwareSourceCode"));
     (js "name", JStr (js "KubeCell"));
     (js "description", JStr site_description);
     (js "codeRepository", JStr site_github);
     (js "programmingLanguage", JStr (js "Go"));
     (js "runtimePlatform", JStr (js "Kubernetes"));
     (js "applicationCategory", JStr (js "DeveloperApplication"));
     (js "license", JStr (site_github ++ js "/blob/main/LICENSE"));
     (js "author", JObj [(js "@type", JStr (js "Organization")); (js "name", JStr (js "KubeCell"))]);
     (js "url", JStr (page_url (js "/")))].

Definition home_architecture_section : vnode :=
  PageSection cn None (Some (js "border-y border-white/5 bg-white/[0.015]"))
    [SectionHeading cn (Some (js "Architecture")) [VText (js "One management plane, many isolated clusters")]
       (Some
          [VText
             (js "You apply manifests to a single management cluster. KubeCell turns them into changes on the host, then hands back an endpoint and a kubeconfig.")])
       None
       None;
     el "div" (js "mt-12") [ArchitectureBeam None None];
     el "div" (js "mt-8 text-center")
       [VEl "Link"
          [sv "href" (js "/architecture/");
           sv "className" (js "inline-flex items-center gap-1.5 text-sm font-medium text-sky-400 transition-colors hover:text-sky-300")]
          [VText (js "Read the technical principles"); el "ArrowRight" (js "h-3.5 w-3.5") []]]].

Definition home_tested_versions_section : vnode :=
  PageSection cn None (Some (js "border-y border-white/5 bg-white/[0.015]"))
    [SectionHeading cn (Some (js "Tested versions")) [VText (js "Versions that are validated together")]
       (Some
          [VText
             (js "KubeCell pins and verifies the components each release supports, and reports any drift in resource status — so upgrades are a decision, not a surprise.")])
       None
       None;
     el "div" (js "mt-12 overflow-hidden rounded-2xl border border-white/10")
       [el "div" (js "overflow-x-auto")
          [el "table" (js "w-full min-w-[640px] border-collapse text-left text-sm")
             [VEl "thead" []
                [el "tr" (js "bg-white/[0.03]")
                   [el "th" (js "px-5 py-3.5 font-medium text-muted-foreground") [VText (js "Component")];
                    el "th" (js "px-5 py-3.5 font-medium text-muted-foreground") [VText (js "Version")];
                    el "th" (js "px-5 py-3.5 font-medium text-muted-foreground") [VText (js "What it does for you")]]];
              VEl "tbody" []
                (map
                   (fun row =>
                     keyed (s_component row)
                       (el "tr" (js "border-t border-white/5")
                          [el "td" (js "px-5 py-3.5 font-medium text-foreground") [VText (s_component row)];
                           el "td" (js "px-5 py-3.5 font-mono text-xs text-sky-300") [VText (s_version row)];
                           el "td" (js "px-5 py-3.5 text-muted-foreground") [VText (s_note row)]]))
                   pinnedStack)]]]].

Definition HomePage : list vnode :=
  [JsonLd softwareLd;
   Hero;
   StackMarquee;
   FeatureBento;
   Workflow;
   home_architecture_section;
   IsolationGrid;
   Comparison;
   CodeShowcase;
   home_tested_versions_section;
   UseCasePreview;
   FaqPreview cn;
   CallToAction].

(** ** [not-found.tsx] *)

Definition NotFound : vnode :=
  el "div" (js "relative overflow-hidden")
    [el "div" (js "pointer-events-none absolute inset-0 bg-grid-faint opacity-50") [];
     el "div" (js "container-page relative flex min-h-[60vh] flex-col items-center justify-center py-24 text-center")
       [el "p" (js "font-mono text-xs uppercase tracking-[0.24em] text-sky-400") [VText (js "404")];
        el "h1" (js "mt-4 text-3xl font-semibold tracking-tight text-foreground sm:text-4xl") [VText (js "This cluster does not exist")];
        el "p" (js "mt-4 max-w-lg text-pretty text-base leading-7 text-muted-foreground")
          [VText (js "The page you requested is not in the desired state and cannot be reconciled. Try the documentation index or head back home.")];
        el "div" (js "mt-8 flex flex-wrap items-center justify-center gap-3")
          [Button cn cva None None (Some true) None [] [VEl "Link" [sv "href" (js "/")] [VText (js "Back to home")]];
           Button cn cva (Some bv_outline) None (Some true) None [] [VEl "Link" [sv "href" (js "/docs/")] [VText (js "Browse docs")]]]]].

(** ** Layouts *)

Definition organizationLd : json :=
  JObj
    [(js "@context", JStr (js "https://schema.org"));
     (js "@type", JStr (js "Organization"));
     (js "name", JStr (js "KubeCell"));
     (js "url", JStr base_url);
     (js "logo", JStr (page_url (js "/kubecell-logo.svg")));
     (js "sameAs", JArr [JStr site_github]);
     (js "description", JStr site_description)].

Definition websiteLd : json :=
  JObj
    [(js "@context", JStr (js "https://schema.org"));
     (js "@type", JStr (js "WebSite"));
     (js "name", JStr (js "KubeCell"));
     (js "url", JStr base_url);
     (js "description", JStr site_description);
     (js "publisher", JObj [(js "@type", JStr (js "Organization")); (js "name", JStr (js "KubeCell"))])].

Definition RootLayout (pathname : jsstring) (year : nat) (children : list vnode) : vnode :=
  VEl "html" [sv "lang" (js "en"); sv "className" (js "dark")]
    [el "body" (js "min-h-screen antialiased")
       [JsonLd (JArr [organizationLd; websiteLd]);
        ScrollProgress cn (Some (js "h-0.5 bg-gradient-to-r from-sky-400 via-violet-400 to-sky-400")) [];
        VEl "a"
          [sv "href" (js "#main");
           sv "className"
             (js "sr-only focus:not-sr-only focus:absolute focus:left-4 focus:top-4 focus:z-[100] focus:rounded-md focus:bg-primary focus:px-4 focus:py-2 focus:text-primary-foreground")]
          [VText (js "Skip to content")];
        SiteHeader cn cva pathname false;
        VEl "main" [sv "id" (js "main")] children;
        SiteFooter cn year]].

Definition DocsLayout (pathname : jsstring) (children : list vnode) : vnode :=
  el "div" (js "relative")
    [el "div" (js "pointer-events-none absolute inset-x-0 top-0 h-72 bg-grid-faint opacity-40") [];
     el "div" (js "container-page relative")
       [el "div" (js "grid gap-10 py-12 lg:grid-cols-[16rem_minmax(0,1fr)] lg:gap-14 lg:py-16")
          [el "aside" (js "lg:sticky lg:top-24 lg:h-[calc(100vh-8rem)] lg:overflow-y-auto lg:pr-2")
             [DocsMobileNav cn pathname; el "div" (js "hidden lg:block") [DocsSidebar cn pathname]];
           el "div" (js "min-w-0 max-w-3xl") (children ++ match DocsPager pathname with Some v => [v] | None => [] end)]]].

(** A metadata object of the framework; [MUrl] is a URL object. *)
#[warnings="-register-all"]
Inductive meta :=
| MStr (s : jsstring) | MNum (n : Z) | MBool (b : bool) | MUrl (u : jsstring) | MArr (l : list meta) | MObj (l : list (string * meta)).

Definition root_metadata : meta :=
  MObj
    [("metadataBase"%string, MUrl base_url);
     ("title"%string, MObj [("default"%string, MStr site_title); ("template"%string, MStr (js "%s | KubeCell"))]);
     ("description"%string, MStr site_description);
     ("keywords"%string, MArr (map MStr site_keywords));
     ("applicationName"%string, MStr site_name);
     ("authors"%string, MArr [MObj [("name"%string, MStr (js "KubeCell contributors")); ("url"%string, MStr site_github)]]);
     ("creator"%string, MStr (js "KubeCell"));
     ("publisher"%string, MStr (js "KubeCell"));
     ("category"%string, MStr (js "technology"));
     ("alternates"%string, MObj [("canonical"%string, MStr (js "/"))]);
     ("openGraph"%string,
      MObj
        [("type"%string, MStr (js "website"));
         ("locale"%string, MStr (js "en_US"));
         ("url"%string, MStr (page_url (js "/")));
         ("siteName"%string, MStr site_name);
         ("title"%string, MStr site_title);
         ("description"%string, MStr site_description);
         ("images"%string,
          MArr
            [MObj
               [("url"%string, MStr (js "/og.png"));
                ("width"%string, MNum 1200);
                ("height"%string, MNum 630);
                ("alt"%string, MStr (js "KubeCell — isolated Kubernetes child clusters on shared bare metal"))]])]);
     ("twitter"%string,
      MObj
        [("card"%string, MStr (js "summary_large_image"));
         ("title"%string, MStr site_title);
         ("description"%string, MStr site_shortDescription);
         ("images"%string, MArr [MStr (js "/og.png")])]);
     ("robots"%string,
      MObj
        [("index"%string, MBool true);
         ("follow"%string, MBool true);
         ("googleBot"%string,
          MObj
            [("index"%string, MBool true);
             ("follow"%string, MBool true);
             ("max-image-preview"%string, MStr (js "large"));
             ("max-snippet"%string, MNum (-1));
             ("max-video-preview"%string, MNum (-1))])]);
     ("icons"%string,
      MObj
        [("icon"%string, MArr [MObj [("url"%string, MStr (js "/kubecell-logo.svg")); ("type"%string, MStr (js "image/svg+xml"))]]);
         ("shortcut"%string, MArr [MStr (js "/kubecell-logo.svg")]);
         ("apple"%string, MArr [MObj [("url"%string, MStr (js "/apple-icon.png")); ("sizes"%string, MStr (js "180x180"))]])]);
     ("formatDetection"%string, MObj [("telephone"%string, MBool false)])].

Definition viewport : meta :=
  MObj
    [("width"%string, MStr (js "device-width"));
     ("initialScale"%string, MNum 1);
     ("colorScheme"%string, MStr (js "dark"));
     ("themeColor"%string, MStr (js "#04060d"))].

Definition docs_metadata : meta :=
  MObj
    [("title"%string, MObj [("default"%string, MStr (js "Documentation")); ("template"%string, MStr (js "%s | KubeCell Docs"))]);
     ("description"%string,
      MStr (js "KubeCell documentation: concepts, installation, host onboarding, day-2 operations, API reference, security, and troubleshooting."));
     ("alternates"%string, MObj [("canonical"%string, MStr (js "/docs/"))])].

(** ** The route table *)

(** A page: its path, the metadata it exports, whether the documentation layout surrounds it, and what it renders. *)
Record Page := { pg_path : jsstring; pg_metadata : option Metadata; pg_docs : bool; pg_body : list vnode }.

Definition pages_of (tree : vnode) : list Page :=
  [{| pg_path := js "/"; pg_metadata := None; pg_docs := false; pg_body := HomePage |};
   {| pg_path := js "/quickstart/"; pg_metadata := Some quickstart_metadata; pg_docs := false; pg_body := QuickstartPage |};
   {| pg_path := js "/use-cases/"; pg_metadata := Some usecases_metadata; pg_docs := false; pg_body := UseCasesPage |};
   {| pg_path := js "/architecture/"; pg_metadata := Some architecture_metadata; pg_docs := false; pg_body := architecture_page tree |};
   {| pg_path := js "/docs/"; pg_metadata := Some overview_metadata; pg_docs := true; pg_body := [DocsOverviewPage] |};
   {| pg_path := js "/docs/concepts/"; pg_metadata := Some concepts_metadata; pg_docs := true; pg_body := [ConceptsPage] |};
   {| pg_path := js "/docs/installation/"; pg_metadata := Some installation_metadata; pg_docs := true; pg_body := [InstallationPage] |};
   {| pg_path := js "/docs/first-virtualcluster/"; pg_metadata := Some first_metadata; pg_docs := true; pg_body := [FirstVirtualClusterPage] |};
   {| pg_path := js "/docs/host-onboarding/"; pg_metadata := Some onboarding_metadata; pg_docs := true; pg_body := [HostOnboardingPage] |};
   {| pg_path := js "/docs/operations/"; pg_metadata := Some operations_metadata; pg_docs := true; pg_body := [OperationsPage] |};
   {| pg_path := js "/docs/api-reference/"; pg_metadata := Some api_metadata; pg_docs := true; pg_body := [ApiReferencePage] |};
   {| pg_path := js "/docs/security/"; pg_metadata := Some security_metadata; pg_docs := true; pg_body := [SecurityPage] |};
   {| pg_path := js "/docs/troubleshooting/"; pg_metadata := Some troubleshooting_metadata; pg_docs := true; pg_body := [TroubleshootingPage] |};
   {| pg_path := js "/docs/faq/"; pg_metadata := Some faq_metadata; pg_docs := true;
      pg_body := FaqPage cn (faqLd new_URL NEXT_PUBLIC_SITE_URL) |}].

Definition pages : list Page := pages_of repo_tree.

(** A page inside its layouts, in a given year. *)
Definition site_page (year : nat) (p : Page) : vnode :=
  RootLayout (pg_path p) year (if pg_docs p then [DocsLayout (pg_path p) (pg_body p)] else pg_body p).
End Pages.
