(* ===== verification/SiteGraph.v ===== *)
(** * The site as a whole

    Properties of the exported site, over every page inside its layouts ([Pages.site_page]): its links
    and anchors, the keys of its lists, its headings and its metadata.  A check over the pages is evaluated
    with a text in place of the repository tree, whose order depends on the collation of the browser;
    that the tree contributes nothing to what is checked is proved for every collation. *)

From Stdlib Require Import String List Arith NArith ZArith Lia Bool Permutation.
From S2P Require Import Prelude JsString JsNum NumText Dom Sorting Highlight CodeBlock FileTree Decor Ui Json Site SiteViews Wrappers Platform Home DocPages Pages.
Import ListNotations.
Local Open Scope list_scope.
Local Open Scope nat_scope.

(** ** Reading a page *)

(** What [pick] finds in the elements of a tree, in document order; a drawing ([svg]) is not read. *)
Fixpoint gather {A} (pick : string -> list (string * jsstring) -> list A) (v : vnode) : list A :=
  match v with
  | VText _ => []
  | VEl tag attrs kids => if String.eqb tag "svg" then [] else pick tag attrs ++ flat_map (gather pick) kids
  end.

Definition named (names : list string) (tag : string) : bool := existsb (String.eqb tag) names.
Definition attr_list (n : string) (attrs : list (string * jsstring)) : list jsstring := match attr n attrs with Some v => [v] | None => [] end.

(** The targets of links, the anchors, the levels of the headings, and what has thrown. *)
Definition link_pick (tag : string) (attrs : list (string * jsstring)) : list jsstring :=
  if named ["Link"; "a"]%string tag then attr_list "href" attrs else [].
Definition id_pick (_ : string) (attrs : list (string * jsstring)) : list jsstring := attr_list "id" attrs.
Definition heading_pick (tag : string) (_ : list (string * jsstring)) : list nat :=
  if named ["h1"; "motion.h1"]%string tag then [1] else if named ["h2"]%string tag then [2] else if named ["h3"]%string tag then [3]
  else if named ["h4"]%string tag then [4] else [].
Definition error_pick (tag : string) (_ : list (string * jsstring)) : list unit := if named ["throw"]%string tag then [tt] else [].

Definition links : vnode -> list jsstring := gather link_pick.
Definition ids : vnode -> list jsstring := gather id_pick.
Definition headings : vnode -> list nat := gather heading_pick.
Definition errors : vnode -> list unit := gather error_pick.

(** [path#fragment]; a link to a place on the same page has an empty path. *)
Fixpoint split_hash (s : jsstring) : jsstring * option jsstring :=
  match s with
  | [] => ([], None)
  | c :: s' => if (c =? 35)%N then ([], Some s') else let '(p, f) := split_hash s' in (c :: p, f)
  end.

Definition external (href : jsstring) : bool := startsWith href (js "https://").

(** Where a link on the page at [from] leads. *)
Definition destination (from href : jsstring) : jsstring * option jsstring :=
  let '(p, f) := split_hash href in (match p with [] => from | _ => p end, f).

(** The page for unknown paths, inside the root layout. *)
Definition not_found_page `{Platform} (pathname : jsstring) (year : nat) : vnode := RootLayout pathname year [NotFound].

(** The pages that can be visited: the home page, and wherever a link of a visited page leads inside the site. *)
Inductive visited `{Platform} (year : nat) : jsstring -> Prop :=
| vis_home : visited year (js "/")
| vis_link p href : In p pages -> visited year (pg_path p) -> In href (links (site_page year p)) -> external href = false ->
                    visited year (fst (destination (pg_path p) href)).

(** Evaluates a check, once. *)
Ltac evaluate := vm_cast_no_check (eq_refl true).

(** ** What does not depend on the repository tree *)

(** A reading that finds nothing in elements which are neither links, headings nor failures and have no identifier. *)
Definition quiet {A} (pick : string -> list (string * jsstring) -> list A) : Prop :=
  forall tag attrs, named ["Link"; "a"; "h1"; "motion.h1"; "h2"; "h3"; "h4"; "throw"]%string tag = false ->
    attr "id" attrs = None -> pick tag attrs = [].

Ltac quiet_pick := intros tag attrs Ht Ha; unfold link_pick, id_pick, heading_pick, error_pick, attr_list; cbn [named existsb] in *;
  repeat (apply orb_false_iff in Ht; destruct Ht as [? Ht]);
  repeat match goal with H : String.eqb tag _ = false |- _ => rewrite H; clear H end; cbn; now rewrite ?Ha.

Lemma quiet_links : quiet link_pick.
Proof. quiet_pick. Qed.

Lemma quiet_ids : quiet id_pick.
Proof. quiet_pick. Qed.

Lemma quiet_headings : quiet heading_pick.
Proof. quiet_pick. Qed.

Lemma quiet_errors : quiet error_pick.
Proof. quiet_pick. Qed.

#[export] Hint Resolve quiet_links quiet_ids quiet_headings quiet_errors : kubecell.

Lemma attr_values n (l : list jsstring) : String.eqb "value[]" n = false -> attr n (map (fun v => ("value[]"%string, v)) l) = None.
Proof. intros E. induction l; cbn [map attr]; now rewrite ?E. Qed.

Section Tree.
Context {A : Type} (pick : string -> list (string * jsstring) -> list A) (Hq : quiet pick).
Context (cn : list jsstring -> jsstring) (context : TreeContextProps).
Context (no_open : c_openIcon context = None) (no_close : c_closeIcon context = None).

Lemma gather_quiet tag attrs kids :
  named ["Link"; "a"; "h1"; "motion.h1"; "h2"; "h3"; "h4"; "throw"]%string tag = false -> attr "id" attrs = None ->
  String.eqb tag "svg" = false -> gather pick (VEl tag attrs kids) = flat_map (gather pick) kids.
Proof using Hq. intros H1 H2 H3. cbn [gather]. now rewrite H3, (Hq tag attrs H1 H2). Qed.

Lemma gather_Folder n i s c :
  gather pick (keyed i (Folder cn context None n i s None c)) = flat_map (gather pick) c.
Proof using Hq no_open no_close.
  unfold Folder. rewrite no_open, no_close. cbn [keyed]. rewrite gather_quiet by reflexivity. cbn [flat_map].
  rewrite gather_quiet by (destruct (default_of true s); reflexivity).
  rewrite gather_quiet by reflexivity. unfold when, TreeIndicator, value_attrs.
  destruct (is_expanded context i), (match n with [] => false | _ :: _ => true end && c_indicator context);
    cbn [flat_map default_of app]; rewrite !gather_quiet by (reflexivity || now apply attr_values); cbn [flat_map gather app];
    now rewrite ?app_nil_r.
Qed.

Lemma gather_File n i s : gather pick (keyed i (File cn context i None s None None [VEl "span" [] [VText n]])) = [].
Proof using Hq.
  unfold File. cbn [keyed]. rewrite gather_quiet by (destruct s as [[]|]; reflexivity). cbn [flat_map default_of].
  rewrite !gather_quiet by reflexivity. reflexivity.
Qed.

Lemma gather_element e : gather pick (render_element cn context e) = [].
Proof using Hq no_open no_close.
  induction e as [i n t s c IH] using tree_ind. cbn [render_element].
  destruct (isFolderElement (Element i n t s c)); [rewrite gather_Folder|apply gather_File].
  destruct c as [cs|]; [|reflexivity]. cbn in IH. induction IH as [|e cs He Hcs IHcs]; [reflexivity|].
  cbn [map flat_map]. now rewrite He.
Qed.
End Tree.

Section Site.
Context `{Platform}.

Lemma gather_repo_tree {A} (pick : string -> list (string * jsstring) -> list A) : quiet pick -> gather pick repo_tree = [].
Proof.
  intros Hq. unfold repo_tree, RepoTree, Tree.
  rewrite renderTreeElements_exact by (exact (default_consistent collate collate_consistent) || apply Nat.lt_succ_diag_r).
  cbn [option_map default_of]. rewrite !gather_quiet by (assumption || reflexivity). cbn [flat_map].
  rewrite !gather_quiet by (assumption || reflexivity). cbn [flat_map].
  rewrite !gather_quiet by (assumption || reflexivity). cbn [flat_map].
  rewrite !gather_quiet by (assumption || reflexivity). rewrite !app_nil_r.
  induction (sortTreeElements _ _ _) as [|e l IH]; [reflexivity|]. cbn [map flat_map].
  now rewrite gather_element by (assumption || reflexivity).
Qed.

(** The layouts read the same around contents that read the same. *)
Lemma gather_site_page {A} (pick : string -> list (string * jsstring) -> list A) year path m docs body body' :
  flat_map (gather pick) body = flat_map (gather pick) body' ->
  gather pick (site_page year {| pg_path := path; pg_metadata := m; pg_docs := docs; pg_body := body |})
  = gather pick (site_page year {| pg_path := path; pg_metadata := m; pg_docs := docs; pg_body := body' |}).
Proof.
  intros E. unfold site_page. cbn [pg_path pg_docs pg_body].
  unfold RootLayout, DocsLayout, el. destruct docs; cbn [gather flat_map]; now rewrite ?flat_map_app, E.
Qed.

Lemma gather_architecture {A} (pick : string -> list (string * jsstring) -> list A) t t' :
  gather pick t = gather pick t' -> flat_map (gather pick) (architecture_page t) = flat_map (gather pick) (architecture_page t').
Proof.
  intros E. assert (Es : gather pick (architecture_code_layout_section t) = gather pick (architecture_code_layout_section t')).
  { unfold architecture_code_layout_section, PageSection, el. cbn [gather flat_map]. now rewrite E. }
  unfold architecture_page. cbn [flat_map]. now rewrite Es.
Qed.

(** What a reading finds on each page, by path. *)
Definition readings {A} (pick : string -> list (string * jsstring) -> list A) (year : nat) (l : list Page) : list (jsstring * list A) :=
  map (fun p => (pg_path p, gather pick (site_page year p))) l.

Lemma readings_tree {A} (pick : string -> list (string * jsstring) -> list A) year :
  quiet pick -> readings pick year pages = readings pick year (pages_of (VText [])).
Proof.
  intros Hq. unfold pages, pages_of, readings. cbn [map pg_path].
  rewrite (gather_site_page _ _ _ _ _ (architecture_page repo_tree) (architecture_page (VText []))); [reflexivity|].
  apply gather_architecture. now rewrite gather_repo_tree.
Qed.

(** A check that holds of what the reading finds on every page holds on each of them. *)
Lemma readings_check {A} (pick : string -> list (string * jsstring) -> list A) year (P : jsstring -> list A -> bool) p :
  quiet pick -> forallb (fun '(path, l) => P path l) (readings pick year (pages_of (VText []))) = true ->
  In p pages -> P (pg_path p) (gather pick (site_page year p)) = true.
Proof.
  intros Hq Hc Hp. rewrite <- readings_tree in Hc by exact Hq. rewrite forallb_forall in Hc.
  exact (Hc (_, _) (in_map _ _ _ Hp)).
Qed.

Lemma pages_paths tree : map pg_path (pages_of tree) = map r_path routes.
Proof. vm_compute. reflexivity. Qed.

(** ** Links *)

Definition mem (x : jsstring) (l : list jsstring) : bool := existsb (jseqb x) l.

Lemma mem_In x l : mem x l = true <-> In x l.
Proof.
  unfold mem. rewrite existsb_exists. split.
  - intros (y & Hy & E). apply jseqb_eq in E. now subst.
  - intros Hx. exists x. now rewrite jseqb_refl.
Qed.

(** Whether a link on the page at [from] leads to one of the pages with anchors [table]. *)
Definition leads (table : list (jsstring * list jsstring)) (from href : jsstring) : bool :=
  external href
  || existsb (fun '(path, anchors) =>
       jseqb path (fst (destination from href)) && match snd (destination from href) with Some f => mem f anchors | None => true end) table.

(** What the link leads to. *)
Definition leads_to (year : nat) (from href : jsstring) (q : Page) : Prop :=
  In q pages /\ pg_path q = fst (destination from href) /\
  forall f, snd (destination from href) = Some f -> In f (ids (site_page year q)).

Lemma leads_page year from href :
  leads (readings id_pick year (pages_of (VText []))) from href = true -> external href = false ->
  exists q, leads_to year from href q.
Proof.
  unfold leads. intros Hl He. rewrite He in Hl. cbn [orb] in Hl. rewrite <- readings_tree in Hl by auto with kubecell.
  apply existsb_exists in Hl. destruct Hl as ([path anchors] & Hin & Hl). apply andb_true_iff in Hl. destruct Hl as [Hp Hf].
  apply in_map_iff in Hin. destruct Hin as (q & Eq & Hq). injection Eq as <- <-. exists q. repeat split; [exact Hq|now apply jseqb_eq|].
  intros f Ef. rewrite Ef in Hf. now apply mem_In.
Qed.

(** The table of anchors is an argument, so that it is evaluated once. *)
Lemma links_check year :
  (fun table => forallb (fun '(path, l) => forallb (leads table path) l) (readings link_pick year (pages_of (VText []))))
    (readings id_pick year (pages_of (VText []))) = true.
Proof. evaluate. Qed.

Lemma link_leads year p href :
  In p pages -> In href (links (site_page year p)) -> external href = false -> exists q, leads_to year (pg_path p) href q.
Proof.
  intros Hp Hh. apply leads_page.
  assert (Hc := readings_check link_pick year _ p quiet_links (links_check year) Hp). cbv beta in Hc.
  rewrite forallb_forall in Hc. now apply Hc.
Qed.

Lemma not_found_check year pathname :
  (fun table => forallb (fun h => jseqb h (js "#main") || leads table [] h) (links (not_found_page pathname year)))
    (readings id_pick year (pages_of (VText []))) = true.
Proof. evaluate. Qed.

(** C14: Every link of every page of the site, in its header, footer, sidebar, pager or body, either leaves
    the site or leads to a page that exists and, where it names a fragment, to an anchor of that page;
    so do the links of the page shown for an unknown path, but for its skip link, whose anchor is its own. *)
Theorem site_links_resolve year :
  (forall p href, In p pages -> In href (links (site_page year p)) -> external href = false ->
     exists q, leads_to year (pg_path p) href q) /\
  (forall pathname href, In href (links (not_found_page pathname year)) -> external href = false ->
     href = js "#main" /\ In (js "main") (ids (not_found_page pathname year)) \/ exists q, leads_to year [] href q).
Proof.
  split; [intros p href; apply link_leads|]. intros pathname href Hh He.
  assert (Hc := not_found_check year pathname). cbv beta in Hc. rewrite forallb_forall in Hc. specialize (Hc href Hh).
  apply orb_true_iff in Hc. destruct Hc as [Hm|Hl]; [left|right; now apply leads_page].
  apply jseqb_eq in Hm. split; [exact Hm|]. apply mem_In. vm_compute. reflexivity.
Qed.

(** ** Reachability *)

(** One round of following the links from the pages in [seen]. *)
Definition follow_links (table : list (jsstring * list jsstring)) (seen : list jsstring) : list jsstring :=
  seen ++ flat_map (fun '(path, l) =>
    if mem path seen then map (fun h => fst (destination path h)) (filter (fun h => negb (external h)) l) else []) table.

Lemma follow_links_visited year seen :
  Forall (visited year) seen -> Forall (visited year) (follow_links (readings link_pick year pages) seen).
Proof.
  intros Hs. apply Forall_app. split; [exact Hs|]. apply Forall_forall. intros x Hx.
  apply in_flat_map in Hx. destruct Hx as ([path l] & Hin & Hx). apply in_map_iff in Hin. destruct Hin as (p & E & Hp).
  injection E as <- <-. destruct (mem (pg_path p) seen) eqn:Em; [|easy]. apply mem_In in Em.
  apply in_map_iff in Hx. destruct Hx as (h & <- & Hh). apply filter_In in Hh. destruct Hh as [Hh He].
  apply vis_link; [exact Hp| |exact Hh|now apply negb_true_iff]. rewrite Forall_forall in Hs. auto.
Qed.

Lemma two_clicks_check year :
  (fun table => forallb (fun path => mem path (follow_links table (follow_links table [js "/"]))) (map r_path routes))
    (readings link_pick year (pages_of (VText []))) = true.
Proof. evaluate. Qed.

Lemma two_clicks year p : In p pages -> In (pg_path p) (follow_links (readings link_pick year pages) (follow_links (readings link_pick year pages) [js "/"])).
Proof.
  intros Hp. assert (Hc := two_clicks_check year). cbv beta in Hc. rewrite <- readings_tree in Hc by auto with kubecell.
  rewrite forallb_forall in Hc. apply mem_In, Hc. rewrite <- (pages_paths repo_tree). now apply in_map.
Qed.

(** C16: Following links from the home page visits exactly the pages of the site, and every one of them is
    within two clicks of the home page. *)
Theorem site_reachable year :
  (forall path, visited year path <-> In path (map pg_path pages)) /\
  (forall p, In p pages ->
     In (pg_path p) (follow_links (readings link_pick year pages) (follow_links (readings link_pick year pages) [js "/"]))).
Proof.
  split; [|apply two_clicks]. intros path. split.
  - intros Hv. destruct Hv as [|p href Hp _ Hh He]; [now left|].
    destruct (link_leads year p href Hp Hh He) as (q & Hq & <- & _). now apply in_map.
  - intros Hp. apply in_map_iff in Hp. destruct Hp as (p & <- & Hp).
    assert (Hf : Forall (visited year) [js "/"]) by (repeat constructor).
    apply (follow_links_visited year), (follow_links_visited year) in Hf. rewrite Forall_forall in Hf. now apply Hf, two_clicks.
Qed.

(** ** Anchors, headings and metadata *)

Fixpoint distinct (l : list jsstring) : bool :=
  match l with [] => true | x :: l' => negb (mem x l') && distinct l' end.

Lemma distinct_NoDup l : distinct l = true -> NoDup l.
Proof.
  induction l as [|x l IH]; [constructor|]. cbn. intros E. apply andb_true_iff in E. destruct E as [Hx Hl].
  constructor; [|auto]. intros Hin. apply mem_In in Hin. now rewrite Hin in Hx.
Qed.

Lemma ids_check year :
  forallb (fun '(_, l) => distinct l && mem (js "main") l) (readings id_pick year (pages_of (VText []))) = true.
Proof. evaluate. Qed.


(** Levels that never go down by more than one step. *)
Fixpoint stepwise (level : nat) (l : list nat) : bool :=
  match l with [] => true | x :: l' => (x <=? S level) && stepwise x l' end.

Definition top_headings (v : vnode) : nat := count_occ Nat.eq_dec (headings v) 1.

Lemma headings_check year :
  forallb (fun '(path, l) =>
      match l with 1 :: _ => true | _ => false end
      && (count_occ Nat.eq_dec l 1 =? if jseqb path (js "/") then 2 else 1)
      && (jseqb path (js "/docs/faq/") || stepwise 0 l))
    (readings heading_pick year (pages_of (VText []))) = true.
Proof. evaluate. Qed.

Lemma errors_check year :
  forallb (fun '(_, l) => match l with [] => true | _ => false end) (readings error_pick year (pages_of (VText []))) = true.
Proof. evaluate. Qed.

(** C29: Every page renders without a failure, its code samples included; its outline begins with a top-level
    heading, which is its only one except on the home page, where the rotating words are a second; and no
    level is skipped, except on the page of frequent questions. *)
Theorem page_outline year p :
  In p pages ->
  errors (site_page year p) = [] /\
  hd_error (headings (site_page year p)) = Some 1 /\
  top_headings (site_page year p) = (if jseqb (pg_path p) (js "/") then 2 else 1) /\
  (pg_path p <> js "/docs/faq/" -> stepwise 0 (headings (site_page year p)) = true).
Proof.
  intros Hp. assert (He := readings_check error_pick year _ p quiet_errors (errors_check year) Hp).
  assert (Hh := readings_check heading_pick year _ p quiet_headings (headings_check year) Hp). cbv beta in He, Hh.
  fold (errors (site_page year p)) in He. fold (headings (site_page year p)) in Hh. unfold top_headings.
  apply andb_true_iff in Hh. destruct Hh as [Hh Hs]. apply andb_true_iff in Hh. destruct Hh as [Hh Hc].
  split; [now destruct (errors (site_page year p))|]. split; [now destruct (headings (site_page year p)) as [|[|[|]] ?]|].
  split; [now apply Nat.eqb_eq|]. intros Hn. apply jseqb_neq in Hn. now rewrite Hn in Hs.
Qed.

(** ** Keys *)

Definition key_of (v : vnode) : list jsstring := match v with VText _ => [] | VEl _ attrs _ => attr_list "key" attrs end.

(** No element of the tree has two children with the same key; a drawing is not read. *)
Fixpoint keyed_apart (v : vnode) : bool :=
  match v with
  | VText _ => true
  | VEl tag _ kids => String.eqb tag "svg" || distinct (flat_map key_of kids) && forallb keyed_apart kids
  end.

Lemma NoDup_distinct l : NoDup l -> distinct l = true.
Proof.
  induction 1 as [|x l Hx Hl IH]; [reflexivity|]. cbn. rewrite IH, andb_true_r. apply negb_true_iff.
  destruct (mem x l) eqn:E; [|reflexivity]. now apply mem_In in E.
Qed.

Lemma key_of_element cn context e : key_of (render_element cn context e) = [FileTree.id e].
Proof. destruct e as [i n t s c]. cbn [render_element]. now destruct (isFolderElement _). Qed.

Lemma key_of_elements cn context l : flat_map key_of (map (render_element cn context) l) = map FileTree.id l.
Proof. induction l as [|e l IH]; [reflexivity|]. cbn [map flat_map]. now rewrite key_of_element, IH. Qed.

Lemma all_ids_head e : exists rest, all_ids e = FileTree.id e :: rest.
Proof. destruct e as [i n t s [c|]]; eexists; reflexivity. Qed.

Lemma ids_of_all l : NoDup (flat_map all_ids l) -> NoDup (map FileTree.id l) /\ Forall (fun e => NoDup (all_ids e)) l.
Proof.
  induction l as [|e l IH]; cbn [map flat_map]; [repeat constructor|]. intros Hn.
  destruct (IH (NoDup_app_remove_l _ _ Hn)) as [Hi Hf]. split; [|constructor; [exact (NoDup_app_remove_r _ _ Hn)|exact Hf]].
  constructor; [|exact Hi]. intros Hin. apply in_map_iff in Hin. destruct Hin as (e' & E & Hin).
  destruct (all_ids_head e) as [rest Er], (all_ids_head e') as [rest' Er']. rewrite Er in Hn. inversion Hn as [|? ? Hx _]; subst.
  apply Hx, in_or_app. right. apply in_flat_map. exists e'. split; [exact Hin|]. rewrite Er', E. now left.
Qed.

Lemma keyed_apart_elements cn context l :
  Forall (fun e => NoDup (all_ids e) -> keyed_apart (render_element cn context e) = true) l -> NoDup (flat_map all_ids l) ->
  distinct (flat_map key_of (map (render_element cn context) l)) && forallb keyed_apart (map (render_element cn context) l) = true.
Proof.
  intros Hl Hn. apply ids_of_all in Hn. destruct Hn as [Hi Ha]. rewrite key_of_elements, (NoDup_distinct _ Hi). cbn [andb].
  apply forallb_forall. intros v Hv. apply in_map_iff in Hv. destruct Hv as (e & <- & He).
  rewrite Forall_forall in Hl, Ha. auto.
Qed.

Lemma keyed_apart_element cn context e :
  c_openIcon context = None -> c_closeIcon context = None -> NoDup (all_ids e) -> keyed_apart (render_element cn context e) = true.
Proof.
  intros Ho Hc. induction e as [i n t s c IH] using tree_ind. intros Hn. cbn [render_element].
  destruct (isFolderElement (Element i n t s c)); [|reflexivity].
  assert (Hk : distinct (flat_map key_of (match c with Some cs => map (render_element cn context) cs | None => [] end))
               && forallb keyed_apart (match c with Some cs => map (render_element cn context) cs | None => [] end) = true).
  { destruct c as [cs|]; [|reflexivity]. cbn in IH, Hn. inversion Hn; subst. now apply keyed_apart_elements. }
  unfold Folder, TreeIndicator, when, value_attrs. rewrite Ho, Hc.
  destruct (is_expanded context i), (match n with [] => false | _ :: _ => true end && c_indicator context), (default_of true s);
    cbn; rewrite Hk; unfold attr_list; cbn; now rewrite attr_values.
Qed.

Lemma keyed_apart_repo_tree : keyed_apart repo_tree = true.
Proof.
  unfold repo_tree, RepoTree, Tree.
  rewrite renderTreeElements_exact by (exact (default_consistent collate collate_consistent) || apply Nat.lt_succ_diag_r).
  cbn [option_map default_of].
  assert (Hn : NoDup (flat_map all_ids (sortTreeElements collate repo_elements sort_default))).
  { eapply Permutation_NoDup; [symmetry; apply sortTreeElements_perm|]. apply distinct_NoDup. vm_compute. reflexivity. }
  revert Hn. generalize (sortTreeElements collate repo_elements sort_default). intros l Hn.
  match goal with |- context [render_element cn ?c] => set (context := c) end.
  assert (Hk : distinct (flat_map key_of (map (render_element cn context) l)) && forallb keyed_apart (map (render_element cn context) l) = true).
  { apply keyed_apart_elements; [|exact Hn]. apply Forall_forall. intros e _. now apply keyed_apart_element. }
  clearbody context. cbn. rewrite Hk. unfold attr_list, value_attrs. cbn. now rewrite attr_app, attr_values.
Qed.

Lemma keyed_apart_site_page year path m docs body body' :
  flat_map key_of body = flat_map key_of body' -> forallb keyed_apart body = forallb keyed_apart body' ->
  keyed_apart (site_page year {| pg_path := path; pg_metadata := m; pg_docs := docs; pg_body := body |})
  = keyed_apart (site_page year {| pg_path := path; pg_metadata := m; pg_docs := docs; pg_body := body' |}).
Proof.
  intros Ek Ea. unfold site_page. cbn [pg_path pg_docs pg_body]. unfold RootLayout, DocsLayout, el.
  destruct docs; cbn [keyed_apart forallb flat_map key_of]; now rewrite ?flat_map_app, ?forallb_app, ?Ek, ?Ea.
Qed.

Lemma keyed_apart_architecture t t' :
  key_of t = key_of t' -> keyed_apart t = keyed_apart t' ->
  flat_map key_of (architecture_page t) = flat_map key_of (architecture_page t') /\
  forallb keyed_apart (architecture_page t) = forallb keyed_apart (architecture_page t').
Proof.
  intros Ek Ea. split; [reflexivity|].
  assert (Es : keyed_apart (architecture_code_layout_section t) = keyed_apart (architecture_code_layout_section t')).
  { unfold architecture_code_layout_section, PageSection, el. cbn [keyed_apart forallb flat_map]. now rewrite Ek, Ea. }
  unfold architecture_page. cbn [forallb]. now rewrite Es.
Qed.

Lemma keys_check year : forallb (fun p => keyed_apart (site_page year p)) (pages_of (VText [])) = true.
Proof. evaluate. Qed.


End Site.

(** ** Witnesses *)

(** A platform: class names are joined, identifiers are the places, strings are compared by their units. *)
Definition plain_platform : Platform :=
  {| cn := join [32%N]; cva := fun _ _ => []; useId := js; new_URL := fun path base => base ++ path; NEXT_PUBLIC_SITE_URL := None;
     collate := jscmp; collate_consistent := jscmp_consistent; Math_cos := fun x => x; Math_sin := fun x => x |}.

Definition page_at (path : jsstring) : Page :=
  default_of {| pg_path := []; pg_metadata := None; pg_docs := false; pg_body := [] |}
    (find (fun p => jseqb (pg_path p) path) (@pages plain_platform)).

(** A link to a fragment of another page. *)
Lemma site_links_resolve_witness :
  let href := js "/use-cases/#training-labs" in
  In href (links (@site_page plain_platform 2026 (page_at (js "/")))) /\ exists q, @leads_to plain_platform 2026 (js "/") href q.
Proof.
  assert (Hin : In (js "/use-cases/#training-labs") (links (@site_page plain_platform 2026 (page_at (js "/")))))
    by (apply mem_In; vm_compute; reflexivity).
  split; [exact Hin|].
  apply (proj1 (@site_links_resolve plain_platform 2026) (page_at (js "/"))); [now left|exact Hin|reflexivity].
Defined.

Lemma site_reachable_witness : @visited plain_platform 2026 (js "/docs/troubleshooting/").
Proof.
  apply (proj1 (@site_reachable plain_platform 2026)). apply mem_In. vm_compute. reflexivity.
Defined.


Lemma page_outline_witness : top_headings (@site_page plain_platform 2026 (page_at (js "/"))) = 2.
Proof.
  apply (@page_outline plain_platform 2026 (page_at (js "/"))). now left.
Defined.


