(* ===== verification/RetroShader.v ===== *)
(** * The fragment shader of the retro grid

    [FRAGMENT_SHADER_SOURCE] of [components/magicui/retro-grid.tsx], the program that colours one pixel of the
    grid.  Its numbers are rationals computed exactly: the shading language leaves the precision of its floats,
    and the values of its transcendental functions, to the implementation, so [radians], [sin], [cos] and [sqrt]
    are parameters, as is the value of [fwidth], which compares a pixel with its neighbours.  Rationals have an
    equality coarser than the identity ([==]); the functions of the shader respect it. *)

From Stdlib Require Import String List NArith ZArith QArith Qround Lqa Lia Bool Setoid Morphisms.
From S2P Require Import Prelude JsString JsNum NumText RetroGrid.
Import ListNotations.
Local Open Scope Q_scope.

(** ** Constants *)

Definition GRID_HEIGHT_RATIO : num := nof 3.
Definition GRID_LINE_ALIGNMENT_OFFSET_PX : num := lit 5 10.
Definition GRID_LINE_ANTIALIAS_MULTIPLIER : num := lit 9 10.
Definition GRID_LINE_WIDTH_PX : num := lit 92 100.
Definition GRID_START_OFFSET_RATIO : num := lit (-5) 10.
Definition GRID_WIDTH_RATIO : num := nof 6.
Definition GRID_X_OFFSET_RATIO : num := nof (-2).

(** The value of a float of the shader with one point, as [toFixed] writes it into the program. *)
Fixpoint decimal_value (s : jsstring) (point : bool) (acc : Z) (scale : positive) : Q :=
  match s with
  | [] => acc # scale
  | c :: s' =>
      if (c =? 46)%N then decimal_value s' true acc scale
      else decimal_value s' point (10 * acc + Z.of_N (c - 48)) (if point then 10 * scale else scale)%positive
  end.
Definition glsl_float (s : jsstring) : Q :=
  match s with c :: s' => if (c =? 45)%N then - decimal_value s' false 0 1 else decimal_value s false 0 1 | [] => 0 end.

Definition animationDurationSeconds : Q := glsl_float (toFixed (nof ANIMATION_DURATION_SECONDS) 1).
Definition gridHeightRatio : Q := glsl_float (toFixed GRID_HEIGHT_RATIO 1).
Definition gridStartOffsetRatio : Q := glsl_float (toFixed GRID_START_OFFSET_RATIO 1).
Definition gridWidthRatio : Q := glsl_float (toFixed GRID_WIDTH_RATIO 1).
Definition gridXOffsetRatio : Q := glsl_float (toFixed GRID_X_OFFSET_RATIO 1).
Definition gridLineAlignmentOffsetPx : Q := glsl_float (toFixed GRID_LINE_ALIGNMENT_OFFSET_PX 1).
Definition gridLineAntialiasMultiplier : Q := glsl_float (toFixed GRID_LINE_ANTIALIAS_MULTIPLIER 1).
Definition horizontalLodLevelOneEndPx : Q := 56 # 10.
Definition horizontalLodLevelOneStartPx : Q := 28 # 10.
Definition horizontalLodLevelTwoEndPx : Q := 3.
Definition horizontalLodLevelTwoStartPx : Q := 14 # 10.
Definition horizontalCompressionEndPx : Q := 28 # 10.
Definition horizontalCompressionStartPx : Q := 12 # 10.
Definition lineWidthPx : Q := glsl_float (toFixed GRID_LINE_WIDTH_PX 2).
Definition perspectivePx : Q := glsl_float (toFixed (nof PERSPECTIVE_PX) 1).
Definition gridTravelRatio : Q := 5 # 10.
Definition verticalCompressionEndPx : Q := 26 # 10.
Definition verticalCompressionStartPx : Q := 1.
Definition verticalEdgeCompressionEnd : Q := 95 # 100.
Definition verticalEdgeCompressionStart : Q := 45 # 100.
Definition verticalLodLevelEnd : Q := 64 # 100.
Definition verticalLodLevelStart : Q := 22 # 100.
Definition verticalTopCompressionEndCells : Q := 6.
Definition verticalTopCompressionStartCells : Q := 2.

Example shader_constants :
  [animationDurationSeconds; gridHeightRatio; gridStartOffsetRatio; gridWidthRatio; gridXOffsetRatio; gridLineAlignmentOffsetPx;
   gridLineAntialiasMultiplier; lineWidthPx; perspectivePx]
  = [150 # 10; 30 # 10; - (5 # 10); 60 # 10; - (20 # 10); 5 # 10; 9 # 10; 92 # 100; 2000 # 10].
Proof. vm_compute. reflexivity. Qed.

(** ** The shading language *)

Definition less (a b : Q) : bool := negb (Qle_bool b a).
Definition max (a b : Q) : Q := if less a b then b else a.
Definition min (a b : Q) : Q := if less b a then b else a.
Definition clampf (v lo hi : Q) : Q := min (max v lo) hi.
Definition abs (a : Q) : Q := if Qle_bool 0 a then a else - a.
Definition smoothstep (edge0 edge1 v : Q) : Q := let t := clampf ((v - edge0) / (edge1 - edge0)) 0 1 in t * t * (3 - 2 * t).
Definition mod_ (a b : Q) : Q := a - b * inject_Z (Qfloor (a / b)).

Record vec2 := { x : Q; y : Q }.
Record vec3 := { vx : Q; vy : Q; vz : Q }.
Record vec4 := { r : Q; g : Q; b : Q; a : Q }.

Definition dot3 (p q : vec3) : Q := vx p * vx q + vy p * vy q + vz p * vz q.
Definition cross (p q : vec3) : vec3 :=
  {| vx := vy p * vz q - vz p * vy q; vy := vz p * vx q - vx p * vz q; vz := vx p * vy q - vy p * vx q |}.
Definition times (p : vec3) (k : Q) : vec3 := {| vx := vx p * k; vy := vy p * k; vz := vz p * k |}.
Definition plus (p q : vec3) : vec3 := {| vx := vx p + vx q; vy := vy p + vy q; vz := vz p + vz q |}.

(** ** The shader *)

(** [VERTEX_SHADER_SOURCE]: the position, with the four fields in the place of [x], [y], [z] and [w]. *)
Definition vertex_main (a_position : vec2) : vec4 := {| r := x a_position; g := y a_position; b := 0; a := 1 |}.

Record uniforms := {
  u_container_size : vec2; u_viewport_size : vec2; u_line_color : vec4; u_angle : Q; u_cell_size : Q;
  u_device_pixel_ratio : Q; u_time : Q }.

Definition renderGridLine (wrappedCoord antiAliasWidth softnessBoost : Q) : Q :=
  1 - smoothstep lineWidthPx (lineWidthPx + antiAliasWidth * ((15 # 10) + softnessBoost)) wrappedCoord.

Section Shader.
Context (radians sin cos sqrt : Q -> Q).

Definition normalize (p : vec3) : vec3 := times p (/ sqrt (dot3 p p)).

Definition gridWidth (u : uniforms) : Q := x (u_viewport_size u) * gridWidthRatio.
Definition gridHeight (u : uniforms) : Q := y (u_viewport_size u) * gridHeightRatio.
Definition gridScrollSpeed (u : uniforms) : Q := gridHeight u * gridTravelRatio / animationDurationSeconds.

(** The point of the grid a ray through the pixel hits; [None] is [discard]. *)
Definition planePosition (u : uniforms) (gl_FragCoord : vec2) : option vec2 :=
  let angle := radians (clampf (u_angle u) 1 89) in
  let sinAngle := sin angle in
  let cosAngle := cos angle in
  let screen := {| x := x gl_FragCoord / u_device_pixel_ratio u - x (u_container_size u) * (5 # 10);
                   y := y (u_container_size u) * (5 # 10) - y gl_FragCoord / u_device_pixel_ratio u |} in
  let rayOrigin := {| vx := 0; vy := 0; vz := perspectivePx |} in
  let rayDirection := normalize {| vx := x screen; vy := y screen; vz := - perspectivePx |} in
  let planeXAxis := {| vx := 1; vy := 0; vz := 0 |} in
  let planeYAxis := {| vx := 0; vy := cosAngle; vz := sinAngle |} in
  let planeNormal := normalize (cross planeXAxis planeYAxis) in
  let denominator := dot3 rayDirection planeNormal in
  if less (abs denominator) (1 # 10000) then None
  else
    let distanceToPlane := dot3 (times rayOrigin (-1)) planeNormal / denominator in
    if Qle_bool distanceToPlane 0 then None
    else
      let hitPoint := plus rayOrigin (times rayDirection distanceToPlane) in
      let localX := vx hitPoint in
      let localY := dot3 hitPoint planeYAxis in
      let gridLeft := - (5 # 10) * x (u_container_size u) + gridXOffsetRatio * x (u_container_size u) in
      let gridTop := - (5 # 10) * y (u_container_size u) + gridStartOffsetRatio * gridHeight u in
      let planePosition := {| x := localX - gridLeft; y := localY - gridTop |} in
      if less (x planePosition) 0 || less (y planePosition) 0 || less (gridWidth u) (x planePosition)
         || less (gridHeight u) (y planePosition)
      then None else Some planePosition.

Definition patternPosition (u : uniforms) (pos : vec2) : vec2 :=
  {| x := x pos; y := y pos - u_time u * gridScrollSpeed u |}.

Definition patternDerivative (fwidth : vec2) : vec2 := {| x := max (x fwidth) (1 # 10000); y := max (y fwidth) (1 # 10000) |}.

(** How much of the pixel the vertical lines cover. *)
Definition verticalCompression (u : uniforms) (fwidth pos : vec2) : Q :=
  let verticalCellSpanPx := u_cell_size u / x (patternDerivative fwidth) in
  let sideDistance := abs (x pos / gridWidth u * 2 - 1) in
  let verticalEdgeCompression := smoothstep verticalEdgeCompressionStart verticalEdgeCompressionEnd sideDistance in
  let verticalTopCompression :=
    1 - smoothstep (u_cell_size u * verticalTopCompressionStartCells) (u_cell_size u * verticalTopCompressionEndCells) (y pos) in
  (1 - smoothstep verticalCompressionStartPx verticalCompressionEndPx verticalCellSpanPx)
  * verticalEdgeCompression * verticalTopCompression.

Definition verticalLine (u : uniforms) (fwidth pos pattern : vec2) : Q :=
  let antiAliasWidth := x (patternDerivative fwidth) * gridLineAntialiasMultiplier in
  let wrapped := mod_ (x pattern + gridLineAlignmentOffsetPx) (u_cell_size u) in
  let verticalSoftnessBoost := 1 + verticalCompression u fwidth pos * (35 # 10) in
  let verticalLod := smoothstep verticalLodLevelStart verticalLodLevelEnd (verticalCompression u fwidth pos) in
  let verticalLineFine := renderGridLine wrapped antiAliasWidth verticalSoftnessBoost in
  let verticalWrappedLod := mod_ (x pattern + gridLineAlignmentOffsetPx) (u_cell_size u * 2) in
  let verticalLineCoarse := renderGridLine verticalWrappedLod antiAliasWidth (verticalSoftnessBoost + verticalLod) in
  max (verticalLineFine * (1 - verticalLod)) (verticalLineCoarse * verticalLod).

(** How much of it the horizontal lines cover. *)
Definition horizontalLine (u : uniforms) (fwidth pattern : vec2) : Q :=
  let antiAliasWidth := y (patternDerivative fwidth) * gridLineAntialiasMultiplier in
  let wrapped := mod_ (y pattern + gridLineAlignmentOffsetPx) (u_cell_size u) in
  let horizontalCellSpanPx := u_cell_size u / y (patternDerivative fwidth) in
  let horizontalCompression := 1 - smoothstep horizontalCompressionStartPx horizontalCompressionEndPx horizontalCellSpanPx in
  let horizontalSoftnessBoost := 1 + horizontalCompression * 3 in
  let horizontalLodLevelOne := 1 - smoothstep horizontalLodLevelOneStartPx horizontalLodLevelOneEndPx horizontalCellSpanPx in
  let horizontalLodLevelTwo := 1 - smoothstep horizontalLodLevelTwoStartPx horizontalLodLevelTwoEndPx horizontalCellSpanPx in
  let horizontalLineFine := renderGridLine wrapped antiAliasWidth horizontalSoftnessBoost in
  let horizontalWrappedLodOne := mod_ (y pattern + gridLineAlignmentOffsetPx) (u_cell_size u * 2) in
  let horizontalWrappedLodTwo := mod_ (y pattern + gridLineAlignmentOffsetPx) (u_cell_size u * 4) in
  let horizontalLineCoarse := renderGridLine horizontalWrappedLodOne antiAliasWidth (horizontalSoftnessBoost + horizontalLodLevelOne) in
  let horizontalLineExtraCoarse :=
    renderGridLine horizontalWrappedLodTwo antiAliasWidth (horizontalSoftnessBoost + horizontalLodLevelOne + horizontalLodLevelTwo) in
  let horizontalLineReduced := max (horizontalLineFine * (1 - horizontalLodLevelOne)) (horizontalLineCoarse * horizontalLodLevelOne) in
  max (horizontalLineReduced * (1 - horizontalLodLevelTwo)) (horizontalLineExtraCoarse * horizontalLodLevelTwo).

(** The coverage of a point of the grid, and its colour. *)
Definition line (u : uniforms) (fwidth pos : vec2) : Q :=
  max (verticalLine u fwidth pos (patternPosition u pos)) (horizontalLine u fwidth (patternPosition u pos)).

Definition shade (u : uniforms) (fwidth pos : vec2) : option vec4 :=
  let line := line u fwidth pos in
  if Qle_bool line (1 # 1000) then None
  else
    let alpha := a (u_line_color u) * line in
    Some {| r := r (u_line_color u) * alpha; g := g (u_line_color u) * alpha; b := b (u_line_color u) * alpha; a := alpha |}.

(** [main]: the colour written to [gl_FragColor], unless the pixel is discarded. *)
Definition main (u : uniforms) (fwidth gl_FragCoord : vec2) : option vec4 :=
  match planePosition u gl_FragCoord with Some pos => shade u fwidth pos | None => None end.

End Shader.

(** ** Bounds *)

(** A coverage or an amount of detail. *)
Definition unit_interval (q : Q) : Prop := 0 <= q <= 1.

Lemma max_cases p q : p < q /\ max p q = q \/ q <= p /\ max p q = p.
Proof.
  unfold max, less. destruct (Qle_bool q p) eqn:E; cbn [negb]; [right|left]; (split; [|reflexivity]).
  - now apply Qle_bool_iff.
  - apply Qnot_le_lt. intros H. apply Qle_bool_iff in H. congruence.
Qed.

Lemma min_cases p q : q < p /\ min p q = q \/ p <= q /\ min p q = p.
Proof.
  unfold min, less. destruct (Qle_bool p q) eqn:E; cbn [negb]; [right|left]; (split; [|reflexivity]).
  - now apply Qle_bool_iff.
  - apply Qnot_le_lt. intros H. apply Qle_bool_iff in H. congruence.
Qed.

Lemma clamp_unit v : unit_interval (clampf v 0 1).
Proof.
  unfold clampf, unit_interval. destruct (max_cases v 0) as [[? ->]|[? ->]];
    [destruct (min_cases 0 1) as [[? ->]|[? ->]]|destruct (min_cases v 1) as [[? ->]|[? ->]]]; lra.
Qed.

Lemma smoothstep_unit e0 e1 v : unit_interval (smoothstep e0 e1 v).
Proof.
  unfold smoothstep. destruct (clamp_unit ((v - e0) / (e1 - e0))) as [H0 H1].
  set (t := clampf _ 0 1) in *. clearbody t.
  assert (Hl : 0 <= t * t * (3 - 2 * t)) by (repeat apply Qmult_le_0_compat; lra).
  assert (Hh : 0 <= (1 - t) * (1 - t) * (1 + 2 * t)) by (repeat apply Qmult_le_0_compat; lra).
  split; [exact Hl|]. assert (E : (1 - t) * (1 - t) * (1 + 2 * t) == 1 - t * t * (3 - 2 * t)) by ring. lra.
Qed.

Lemma unit_complement p : unit_interval p -> unit_interval (1 - p).
Proof. unfold unit_interval. lra. Qed.

Lemma unit_times p q : unit_interval p -> unit_interval q -> unit_interval (p * q).
Proof. unfold unit_interval. intros. split; nra. Qed.

Lemma unit_max p q : unit_interval p -> unit_interval q -> unit_interval (max p q).
Proof. unfold max. destruct (less p q); auto. Qed.

#[local] Hint Resolve clamp_unit smoothstep_unit unit_complement unit_times unit_max : kubecell.

Lemma renderGridLine_unit w width soft : unit_interval (renderGridLine w width soft).
Proof. apply unit_complement, smoothstep_unit. Qed.

#[local] Hint Resolve renderGridLine_unit : kubecell.

Lemma verticalCompression_unit u fwidth pos : unit_interval (verticalCompression u fwidth pos).
Proof. unfold verticalCompression. auto 6 with kubecell. Qed.

Lemma line_unit u fwidth pos : unit_interval (line u fwidth pos).
Proof. unfold line, verticalLine, horizontalLine. auto 9 with kubecell. Qed.

(** ** Lines that are always drawn *)

Lemma max_l p q : p <= max p q.
Proof. destruct (max_cases p q) as [[? ->]|[? ->]]; lra. Qed.

Lemma max_r p q : q <= max p q.
Proof. destruct (max_cases p q) as [[? ->]|[? ->]]; lra. Qed.

Lemma clamp_low v : v <= 0 -> clampf v 0 1 == 0.
Proof.
  intros H. unfold clampf. destruct (max_cases v 0) as [[? ->]|[? ->]]; [reflexivity|].
  destruct (min_cases v 1) as [[? ->]|[? ->]]; lra.
Qed.

Lemma smoothstep_low e0 e1 v : e0 < e1 -> v <= e0 -> smoothstep e0 e1 v == 0.
Proof.
  intros He Hv. unfold smoothstep. assert (Hq : (v - e0) / (e1 - e0) <= 0).
  { apply Qle_shift_div_r; lra. }
  apply clamp_low in Hq. set (t := clampf _ 0 1) in *. clearbody t. rewrite Hq. reflexivity.
Qed.

Lemma width_positive q : 0 < max q (1 # 10000) * gridLineAntialiasMultiplier.
Proof.
  assert (H := max_r q (1 # 10000)). change gridLineAntialiasMultiplier with (9 # 10). set (m := max q _) in *. clearbody m. lra.
Qed.

(** A line at its middle covers the whole pixel. *)
Lemma renderGridLine_full w width soft : w <= 0 -> 0 < width -> 0 <= soft -> renderGridLine w width soft == 1.
Proof.
  intros Hw Hp Hs. unfold renderGridLine. change lineWidthPx with (92 # 100). rewrite smoothstep_low; [reflexivity| |lra]. nra.
Qed.

(** Two levels of detail mixed by [l]: one of them keeps its part. *)
Lemma mix_lower p q l t k : 0 <= p -> 0 <= q -> k <= p * (1 - t) -> k <= q * t -> k <= max (p * (1 - l)) (q * l).
Proof.
  intros Hp Hq H1 H2. destruct (Qlt_le_dec l t) as [Hl|Hl].
  - apply Qle_trans with (p * (1 - l)); [|apply max_l]. apply Qle_trans with (p * (1 - t)); [exact H1|].
    rewrite !(Qmult_comm p). apply Qmult_le_compat_r; lra.
  - apply Qle_trans with (q * l); [|apply max_r]. apply Qle_trans with (q * t); [exact H2|].
    rewrite !(Qmult_comm q). apply Qmult_le_compat_r; lra.
Qed.

Lemma Qfloor_shift q z : Qfloor (q + inject_Z z) = (Qfloor q + z)%Z.
Proof.
  destruct q as [n d]. unfold Qfloor, Qplus, inject_Z. cbn [Qnum Qden]. rewrite Pos.mul_1_r, Z.mul_1_r, Z.div_add; lia.
Qed.

#[export] Instance less_proper : Proper (Qeq ==> Qeq ==> eq) less.
Proof. intros p p' Hp q q' Hq. unfold less. now rewrite Hp, Hq. Qed.

#[export] Instance max_proper : Proper (Qeq ==> Qeq ==> Qeq) max.
Proof. intros p p' Hp q q' Hq. unfold max. rewrite (less_proper _ _ Hp _ _ Hq). now destruct (less p' q'). Qed.

#[export] Instance min_proper : Proper (Qeq ==> Qeq ==> Qeq) min.
Proof. intros p p' Hp q q' Hq. unfold min. rewrite (less_proper _ _ Hq _ _ Hp). now destruct (less q' p'). Qed.

#[export] Instance smoothstep_proper : Proper (Qeq ==> Qeq ==> Qeq ==> Qeq) smoothstep.
Proof. intros p p' Hp q q' Hq v v' Hv. unfold smoothstep, clampf. now rewrite Hp, Hq, Hv. Qed.

#[export] Instance mod_proper : Proper (Qeq ==> Qeq ==> Qeq) mod_.
Proof.
  intros p p' Hp q q' Hq. unfold mod_. assert (E : p / q == p' / q') by now rewrite Hp, Hq.
  rewrite (Qfloor_comp _ _ E), Hp, Hq. reflexivity.
Qed.

#[export] Instance renderGridLine_proper : Proper (Qeq ==> Qeq ==> Qeq ==> Qeq) renderGridLine.
Proof. intros p p' Hp q q' Hq v v' Hv. unfold renderGridLine. now rewrite Hp, Hq, Hv. Qed.

(** The pattern repeats with the size of a cell. *)
Lemma mod_shift p q k : ~ q == 0 -> mod_ (p - q * inject_Z k) q == mod_ p q.
Proof.
  intros Hq. unfold mod_. assert (E : (p - q * inject_Z k) / q == p / q + inject_Z (- k)) by (rewrite inject_Z_opp; now field).
  rewrite E, Qfloor_shift, inject_Z_plus, inject_Z_opp. ring.
Qed.

Lemma mod_multiple p q k : ~ q == 0 -> p == q * inject_Z k -> mod_ p q == 0.
Proof.
  intros Hq E. assert (H := mod_shift p q k Hq). rewrite <- H, E.
  assert (E0 : q * inject_Z k - q * inject_Z k == 0) by ring. rewrite E0. unfold mod_.
  assert (E1 : 0 / q == 0) by now field. rewrite E1. change (inject_Z (Qfloor 0)) with 0. ring.
Qed.

Lemma verticalLine_drawn u fwidth pos pattern k :
  ~ u_cell_size u == 0 -> x pattern + gridLineAlignmentOffsetPx == u_cell_size u * 2 * inject_Z k ->
  1 # 2 <= verticalLine u fwidth pos pattern.
Proof.
  intros Hc Hk. unfold verticalLine. assert (Hv := verticalCompression_unit u fwidth pos). destruct Hv as [Hv _].
  assert (Hw := width_positive (x fwidth)). cbv zeta. unfold patternDerivative. cbn [x].
  set (comp := verticalCompression u fwidth pos) in *. set (width := max (x fwidth) _ * _) in *.
  destruct (smoothstep_unit verticalLodLevelStart verticalLodLevelEnd comp) as [Hl _]. set (lod := smoothstep _ _ comp) in *.
  assert (H1 : mod_ (x pattern + gridLineAlignmentOffsetPx) (u_cell_size u) == 0).
  { apply (mod_multiple _ _ (2 * k)); [exact Hc|]. rewrite Hk, inject_Z_mult. change (inject_Z 2) with 2. ring. }
  assert (H2 : mod_ (x pattern + gridLineAlignmentOffsetPx) (u_cell_size u * 2) == 0).
  { apply (mod_multiple _ _ k); [lra|exact Hk]. }
  rewrite H1, H2. clearbody comp width lod. rewrite !renderGridLine_full by lra. apply mix_lower with (1 # 2); lra.
Qed.

Lemma horizontalLine_drawn u fwidth pattern k :
  ~ u_cell_size u == 0 -> y pattern + gridLineAlignmentOffsetPx == u_cell_size u * 4 * inject_Z k ->
  1 # 3 <= horizontalLine u fwidth pattern.
Proof.
  intros Hc Hk. unfold horizontalLine. assert (Hw := width_positive (y fwidth)). cbv zeta. unfold patternDerivative. cbn [y].
  set (span := u_cell_size u / _). set (width := max (y fwidth) _ * _) in *.
  destruct (unit_complement _ (smoothstep_unit horizontalCompressionStartPx horizontalCompressionEndPx span)) as [H0 _].
  destruct (unit_complement _ (smoothstep_unit horizontalLodLevelOneStartPx horizontalLodLevelOneEndPx span)) as [Hl1 _].
  destruct (unit_complement _ (smoothstep_unit horizontalLodLevelTwoStartPx horizontalLodLevelTwoEndPx span)) as [Hl2 _].
  set (comp := 1 - smoothstep horizontalCompressionStartPx _ _) in *. set (one := 1 - smoothstep horizontalLodLevelOneStartPx _ _) in *.
  set (two := 1 - smoothstep horizontalLodLevelTwoStartPx _ _) in *.
  assert (Hm : forall m n, (m * n = 4)%Z -> mod_ (y pattern + gridLineAlignmentOffsetPx) (u_cell_size u * inject_Z m) == 0).
  { intros m n E. apply (mod_multiple _ _ (n * k)).
    - intros E0. apply Qmult_integral in E0. destruct E0 as [E0|E0]; [auto|]. apply (proj1 (inject_Z_injective m 0)) in E0.
      subst m. discriminate E.
    - rewrite Hk, inject_Z_mult. change 4 with (inject_Z 4). rewrite <- E, inject_Z_mult. ring. }
  assert (H1 : mod_ (y pattern + gridLineAlignmentOffsetPx) (u_cell_size u) == 0)
    by (rewrite <- (Hm 1%Z 4%Z) by reflexivity; change (inject_Z 1) with 1; now rewrite Qmult_1_r).
  assert (H2 := Hm 2%Z 2%Z eq_refl). assert (H4 := Hm 4%Z 1%Z eq_refl). change (inject_Z 2) with 2 in H2. change (inject_Z 4) with 4 in H4.
  rewrite H1, H2, H4. clearbody span width comp one two. rewrite !renderGridLine_full by lra.
  assert (Hr : 1 # 2 <= max (1 * (1 - one)) (1 * one)) by (apply mix_lower with (1 # 2); lra).
  set (reduced := max _ (1 * one)) in *. clearbody reduced. apply mix_lower with (1 # 3); lra.
Qed.

(** ** Theorems *)

(** A colour whose channels are between nothing and everything. *)
Definition color_ok (c : vec4) : Prop := unit_interval (r c) /\ unit_interval (g c) /\ unit_interval (b c) /\ unit_interval (a c).

Lemma channel_le p q : unit_interval p -> 0 <= q -> 0 <= p * q <= q.
Proof. unfold unit_interval. intros. split; nra. Qed.

Lemma shade_drawn u fwidth pos :
  1 # 3 <= line u fwidth pos -> 0 <= a (u_line_color u) ->
  exists c, shade u fwidth pos = Some c /\ a (u_line_color u) * (1 # 3) <= a c.
Proof.
  intros Hl Ha. unfold shade. cbv zeta. destruct (Qle_bool (line u fwidth pos) (1 # 1000)) eqn:E.
  - apply Qle_bool_iff in E. lra.
  - eexists. split; [reflexivity|]. cbn [a]. nra.
Qed.

(** C21: Whatever the precision of the graphics processor's functions, a pixel of the grid is discarded or gets a
    premultiplied colour, with an opacity of at most that of the line colour and no channel above it, as
    the canvas, whose context has premultiplied alpha, expects.  Every second vertical line and every fourth horizontal one is drawn with at
    least a third of the opacity at its middle, however coarse the level of detail. *)
Theorem main_pixel radians sin cos sqrt u fwidth gl_FragCoord :
  color_ok (u_line_color u) ->
  (forall c, main radians sin cos sqrt u fwidth gl_FragCoord = Some c ->
     0 <= a c <= a (u_line_color u) /\ 0 <= r c <= a c /\ 0 <= g c <= a c /\ 0 <= b c <= a c) /\
  (forall pos k, planePosition radians sin cos sqrt u gl_FragCoord = Some pos -> ~ u_cell_size u == 0 ->
     x (patternPosition u pos) + gridLineAlignmentOffsetPx == u_cell_size u * 2 * inject_Z k \/
     y (patternPosition u pos) + gridLineAlignmentOffsetPx == u_cell_size u * 4 * inject_Z k ->
     exists c, main radians sin cos sqrt u fwidth gl_FragCoord = Some c /\ a (u_line_color u) * (1 # 3) <= a c).
Proof.
  intros (Hr & Hg & Hb & Ha). unfold main. split.
  - intros c. destruct (planePosition _ _ _ _ u gl_FragCoord) as [pos|]; [|discriminate]. unfold shade. cbv zeta.
    destruct (Qle_bool _ _); [discriminate|]. intros [= <-]. cbn [r g b a]. destruct (line_unit u fwidth pos) as [Hl Hl1].
    set (l := line u fwidth pos) in *. clearbody l. assert (H0 : 0 <= a (u_line_color u) * l <= a (u_line_color u))
      by (rewrite Qmult_comm; apply channel_le; [split; assumption|apply Ha]).
    split; [exact H0|]. repeat split; now apply channel_le.
  - intros pos k Hp Hc Hk. rewrite Hp. apply shade_drawn; [|apply Ha]. unfold line. destruct Hk as [Hk|Hk].
    + eapply Qle_trans; [|apply max_l]. eapply Qle_trans; [|now apply verticalLine_drawn with k]. lra.
    + eapply Qle_trans; [|apply max_r]. now apply horizontalLine_drawn with k.
Qed.

(** The same uniforms at another time. *)
Definition at_time (u : uniforms) (time : Q) : uniforms :=
  {| u_container_size := u_container_size u; u_viewport_size := u_viewport_size u; u_line_color := u_line_color u;
     u_angle := u_angle u; u_cell_size := u_cell_size u; u_device_pixel_ratio := u_device_pixel_ratio u; u_time := time |}.

Definition color_eq (c c' : vec4) : Prop := r c == r c' /\ g c == g c' /\ b c == b c' /\ a c == a c'.

Lemma horizontalLine_period u fwidth p p' time k :
  ~ u_cell_size u == 0 -> y p' == y p - u_cell_size u * 4 * inject_Z k ->
  horizontalLine (at_time u time) fwidth p' == horizontalLine u fwidth p.
Proof.
  intros Hc Hp. unfold horizontalLine. cbv zeta. cbn [at_time u_cell_size].
  assert (Hm : forall m n, ~ m == 0 -> u_cell_size u * 4 * inject_Z k == u_cell_size u * m * inject_Z (n * k) ->
    mod_ (y p' + gridLineAlignmentOffsetPx) (u_cell_size u * m) == mod_ (y p + gridLineAlignmentOffsetPx) (u_cell_size u * m)).
  { intros m n Hm E. rewrite Hp. rewrite <- (mod_shift (y p + gridLineAlignmentOffsetPx) (u_cell_size u * m) (n * k)).
    - apply mod_proper; [|reflexivity]. rewrite <- E. ring.
    - intros E0. apply Qmult_integral in E0. destruct E0; auto. }
  assert (H1 : mod_ (y p' + gridLineAlignmentOffsetPx) (u_cell_size u) == mod_ (y p + gridLineAlignmentOffsetPx) (u_cell_size u)).
  { rewrite <- (Qmult_1_r (u_cell_size u)). apply (Hm 1 4%Z); [lra|]. rewrite inject_Z_mult. change (inject_Z 4) with 4. ring. }
  assert (H2 : mod_ (y p' + gridLineAlignmentOffsetPx) (u_cell_size u * 2) == mod_ (y p + gridLineAlignmentOffsetPx) (u_cell_size u * 2)).
  { apply (Hm 2 2%Z); [lra|]. rewrite inject_Z_mult. change (inject_Z 2) with 2. ring. }
  assert (H4 : mod_ (y p' + gridLineAlignmentOffsetPx) (u_cell_size u * 4) == mod_ (y p + gridLineAlignmentOffsetPx) (u_cell_size u * 4)).
  { apply (Hm 4 1%Z); [lra|]. rewrite Z.mul_1_l. reflexivity. }
  rewrite H1, H2, H4. reflexivity.
Qed.

(** What two frames show at a pixel. *)
Definition same_pixel (p q : option vec4) : Prop :=
  match p, q with Some c, Some c' => color_eq c c' | None, None => True | _, _ => False end.

Lemma shade_respects u u' fwidth pos :
  u_line_color u' = u_line_color u -> line u' fwidth pos == line u fwidth pos -> same_pixel (shade u fwidth pos) (shade u' fwidth pos).
Proof.
  unfold shade. cbv zeta. set (l := line u fwidth pos). set (l' := line u' fwidth pos). clearbody l l'. intros -> E.
  assert (Eb : Qle_bool l' (1 # 1000) = Qle_bool l (1 # 1000)) by now apply Qleb_comp. rewrite Eb.
  destruct (Qle_bool l (1 # 1000)); [exact I|]. unfold same_pixel, color_eq. cbn [r g b a]. rewrite E. repeat split; reflexivity.
Qed.

Lemma gridScrollSpeed_time u t : gridScrollSpeed (at_time u t) = gridScrollSpeed u.
Proof. unfold gridScrollSpeed, gridHeight. cbn [at_time u_viewport_size]. reflexivity. Qed.

Lemma planePosition_time radians sin cos sqrt u t p :
  planePosition radians sin cos sqrt (at_time u t) p = planePosition radians sin cos sqrt u p.
Proof.
  unfold planePosition, gridHeight, gridWidth. cbn [at_time u_viewport_size u_container_size u_angle u_device_pixel_ratio]. reflexivity.
Qed.

Lemma verticalLine_time u t fwidth pos :
  verticalLine (at_time u t) fwidth pos (patternPosition (at_time u t) pos) = verticalLine u fwidth pos (patternPosition u pos).
Proof.
  unfold verticalLine, verticalCompression, gridWidth, patternPosition. cbn [at_time u_viewport_size u_cell_size x]. reflexivity.
Qed.

(** The picture repeats: whenever the grid has advanced by four cells, every pixel has its colour again. *)
Theorem main_period radians sin cos sqrt u fwidth gl_FragCoord :
  ~ u_cell_size u == 0 -> ~ gridScrollSpeed u == 0 ->
  same_pixel (main radians sin cos sqrt u fwidth gl_FragCoord)
    (main radians sin cos sqrt (at_time u (u_time u + u_cell_size u * 4 / gridScrollSpeed u)) fwidth gl_FragCoord).
Proof.
  intros Hc Hs. unfold main. rewrite planePosition_time.
  destruct (planePosition _ _ _ _ u gl_FragCoord) as [pos|]; [|exact I]. apply shade_respects; [reflexivity|].
  unfold line. rewrite verticalLine_time. apply max_proper; [apply Qeq_refl|]. apply (horizontalLine_period u fwidth _ _ _ 1); [exact Hc|].
  unfold patternPosition. cbn [y]. rewrite gridScrollSpeed_time. cbn [at_time u_time].
  change (inject_Z 1) with 1. generalize dependent (gridScrollSpeed u). intros speed Hs. field. exact Hs.
Qed.

(** ** Witness *)

(** A grid of 100 by 100 pixels seen at an angle with sine 4/5 and cosine 3/5, at its centre. *)
Definition demo_uniforms : uniforms :=
  {| u_container_size := {| x := 100; y := 100 |}; u_viewport_size := {| x := 100; y := 100 |};
     u_line_color := {| r := 1; g := 1 # 2; b := 0; a := 4 # 5 |}; u_angle := 53; u_cell_size := 501 # 4; u_device_pixel_ratio := 1;
     u_time := 0 |}.
Definition demo_sqrt (q : Q) : Q := if Qle_bool q 1 then q else q / perspectivePx.
Definition demo_main := main (fun q => q) (fun _ => 4 # 5) (fun _ => 3 # 5) demo_sqrt.

Definition demo_position : vec2 :=
  match planePosition (fun q => q) (fun _ => 4 # 5) (fun _ => 3 # 5) demo_sqrt demo_uniforms {| x := 50; y := 50 |} with
  | Some pos => pos
  | None => {| x := 0; y := 0 |}
  end.

Lemma main_pixel_witness :
  exists c, demo_main demo_uniforms {| x := 1; y := 1 |} {| x := 50; y := 50 |} = Some c /\ (4 # 5) * (1 # 3) <= a c.
Proof.
  apply (main_pixel (fun q => q) (fun _ => 4 # 5) (fun _ => 3 # 5) demo_sqrt demo_uniforms {| x := 1; y := 1 |} {| x := 50; y := 50 |})
    with (pos := demo_position) (k := 1%Z).
  - repeat split; vm_compute; discriminate.
  - vm_compute. reflexivity.
  - vm_compute. discriminate.
  - left. vm_compute. reflexivity.
Defined.
