(* ===== verification/Waiting.v ===== *)
(** * Waiting for a condition

    [.agents/skills/systematic-debugging/condition-based-waiting-example.ts]: three functions that poll the
    events of a thread until a condition holds or a time has passed.  The thread manager and the clock are
    outside the file: what they answer at one check is a [look], and a run is given one for every check.  A
    promise is pending as long as its check asks for another one ([poll]).  The events are of a type declared
    elsewhere, of which only the field [type] is read. *)

From Stdlib Require Import String List Arith NArith ZArith Lia Bool SpecFloat.
From S2P Require Import Prelude JsString JsNum NumText.
Import ListNotations.
Local Open Scope list_scope.

(** How a promise is settled. *)
Inductive outcome (A : Type) := resolve (value : A) | reject (message : jsstring).
Arguments resolve {A}.
Arguments reject {A}.

(** What a check does: settle the promise, or [setTimeout(check, delay)]. *)
Inductive checked (A : Type) := settle (s : outcome A) | poll (delay : num).
Arguments settle {A}.
Arguments poll {A}.

Section Waiting.
Context {LaceEvent : Type} (type : LaceEvent -> jsstring).

(** What [threadManager.getEvents(threadId)] and [Date.now()] answer at one check. *)
Record look := { events : list LaceEvent; now : num }.

(** [timeoutMs = 5000]. *)
Definition timeout_of (timeoutMs : option num) : num := match timeoutMs with Some t => t | None => nof 5000 end.

(** [Date.now() - startTime > timeoutMs]. *)
Definition expired (startTime timeoutMs : num) (l : look) : bool := nlt timeoutMs (nsub (now l) startTime).

(** The three functions [check]. *)
Definition waitForEvent_check (eventType : jsstring) (timeoutMs startTime : num) (l : look) : checked LaceEvent :=
  match find (fun e => jseqb (type e) eventType) (events l) with
  | Some event => settle (resolve event)
  | None =>
      if expired startTime timeoutMs l
      then settle (reject (js "Timeout waiting for " ++ eventType ++ js " event after " ++ num_to_js timeoutMs ++ js "ms"))
      else poll (nof 10)
  end.

Definition waitForEventCount_check (eventType : jsstring) (count timeoutMs startTime : num) (l : look) : checked (list LaceEvent) :=
  let matchingEvents := filter (fun e => jseqb (type e) eventType) (events l) in
  if nle count (nof (Z.of_nat (length matchingEvents))) then settle (resolve matchingEvents)
  else if expired startTime timeoutMs l
  then settle (reject (js "Timeout waiting for " ++ num_to_js count ++ js " " ++ eventType ++ js " events after " ++ num_to_js timeoutMs
                       ++ js "ms (got " ++ num_to_js (nof (Z.of_nat (length matchingEvents))) ++ js ")"))
  else poll (nof 10).

Definition waitForEventMatch_check (predicate : LaceEvent -> bool) (description : jsstring) (timeoutMs startTime : num) (l : look)
  : checked LaceEvent :=
  match find predicate (events l) with
  | Some event => settle (resolve event)
  | None =>
      if expired startTime timeoutMs l
      then settle (reject (js "Timeout waiting for " ++ description ++ js " after " ++ num_to_js timeoutMs ++ js "ms"))
      else poll (nof 10)
  end.

(** The promise after at most [fuel] checks, with the number of the check that settled it; [None] is pending. *)
Fixpoint checks {A} (check : look -> checked A) (world : nat -> look) (fuel i : nat) : option (nat * outcome A) :=
  match fuel with
  | O => None
  | S fuel' => match check (world i) with settle s => Some (i, s) | poll _ => checks check world fuel' (S i) end
  end.

(** The functions: the start is read before the first check. *)
Definition waitForEvent (eventType : jsstring) (timeoutMs : option num) (startTime : num) (world : nat -> look) (fuel : nat) :=
  checks (waitForEvent_check eventType (timeout_of timeoutMs) startTime) world fuel 0.
Definition waitForEventCount (eventType : jsstring) (count : num) (timeoutMs : option num) (startTime : num) (world : nat -> look) (fuel : nat) :=
  checks (waitForEventCount_check eventType count (timeout_of timeoutMs) startTime) world fuel 0.
Definition waitForEventMatch (predicate : LaceEvent -> bool) (description : jsstring) (timeoutMs : option num) (startTime : num)
    (world : nat -> look) (fuel : nat) :=
  checks (waitForEventMatch_check predicate description (timeout_of timeoutMs) startTime) world fuel 0.

(** ** Polling *)

(** A promise is settled by the first check that does not poll. *)
Lemma checks_first {A} (check : look -> checked A) world fuel i m s :
  checks check world fuel i = Some (m, s) <->
  i <= m < i + fuel /\ check (world m) = settle s /\ forall k, i <= k < m -> exists d, check (world k) = poll d.
Proof using.
  revert i. induction fuel as [|fuel IH]; intros i; cbn [checks]; [split; [discriminate|lia]|].
  destruct (check (world i)) as [s'|d] eqn:E.
  - split.
    + intros [= <- <-]. repeat split; [lia|lia|exact E|lia].
    + intros (Hm & Hs & Hk). destruct (Nat.eq_dec i m) as [->|Hn]; [congruence|].
      destruct (Hk i) as [d Hd]; [lia|congruence].
  - rewrite IH. split.
    + intros (Hm & Hs & Hk). repeat split; [lia|lia|exact Hs|]. intros k Hlt.
      destruct (Nat.eq_dec i k) as [<-|]; [now exists d|]. apply Hk. lia.
    + intros (Hm & Hs & Hk). assert (i <> m) by (intros ->; congruence).
      repeat split; [lia|lia|exact Hs|]. intros k Hlt. apply Hk. lia.
Qed.

(** It is settled no later than any check that does not poll. *)
Lemma checks_settle {A} (check : look -> checked A) world fuel i n s :
  check (world n) = settle s -> i <= n < i + fuel -> exists m s', checks check world fuel i = Some (m, s') /\ m <= n.
Proof using.
  intros Hs. revert i. induction fuel as [|fuel IH]; intros i Hn; [lia|]. cbn [checks].
  destruct (check (world i)) as [s'|d] eqn:E; [exists i, s'; split; [reflexivity|lia]|].
  assert (i <> n) by (intros ->; congruence). apply IH. lia.
Qed.

Lemma match_check_settle predicate description timeoutMs startTime l :
  (exists e, In e (events l) /\ predicate e = true) \/ expired startTime timeoutMs l = true ->
  exists s, waitForEventMatch_check predicate description timeoutMs startTime l = settle s.
Proof using.
  unfold waitForEventMatch_check. intros [(e & He & Hp)|He].
  - destruct (find predicate (events l)) eqn:Ef; [eauto|]. exfalso. eapply find_none in Ef; [|exact He]. congruence.
  - rewrite He. destruct (find predicate (events l)); eauto.
Qed.

Lemma match_check_settled predicate description timeoutMs startTime l s :
  waitForEventMatch_check predicate description timeoutMs startTime l = settle s ->
  match s with
  | resolve e => find predicate (events l) = Some e
  | reject message => find predicate (events l) = None /\ expired startTime timeoutMs l = true
  end.
Proof using.
  unfold waitForEventMatch_check. destruct (find predicate (events l)) as [e|]; [intros [= <-]; reflexivity|].
  destruct (expired startTime timeoutMs l); intros E; inv E. auto.
Qed.

Lemma match_check_poll predicate description timeoutMs startTime l d :
  waitForEventMatch_check predicate description timeoutMs startTime l = poll d <->
  d = nof 10 /\ find predicate (events l) = None /\ expired startTime timeoutMs l = false.
Proof using.
  unfold waitForEventMatch_check. destruct (find predicate (events l)); [split; [discriminate|intros (_ & E & _); discriminate E]|].
  destruct (expired startTime timeoutMs l); [split; [discriminate|intros (_ & _ & E); discriminate E]|].
  split; [intros [= <-]; auto|intros (-> & _ & _); reflexivity].
Qed.

(** ** Theorems *)

(** C35: Waiting ends with the first check that sees a matching event or finds the time exceeded, and such a
    check ends it.  It succeeds exactly when that check sees a matching event, with the first of its events
    that matches, even if the time is exceeded; it fails only when the time is exceeded and no event matches. *)
Theorem waitForEventMatch_spec predicate description timeoutMs startTime world :
  let run := waitForEventMatch predicate description timeoutMs startTime world in
  let over n := expired startTime (timeout_of timeoutMs) (world n) in
  (forall n fuel, (exists e, In e (events (world n)) /\ predicate e = true) \/ over n = true -> n < fuel ->
     exists m s, run fuel = Some (m, s) /\ m <= n) /\
  (forall fuel m s, run fuel = Some (m, s) ->
     (forall k, k < m -> find predicate (events (world k)) = None /\ over k = false) /\
     match s with
     | resolve e => find predicate (events (world m)) = Some e
     | reject message => find predicate (events (world m)) = None /\ over m = true
     end).
Proof using.
  cbv zeta. split.
  - intros n fuel Hn Hf. destruct (match_check_settle predicate description _ _ _ Hn) as [s Hs].
    apply (checks_settle _ _ _ 0 n s Hs). lia.
  - intros fuel m s Hr. apply checks_first in Hr. destruct Hr as (_ & Hs & Hk). split.
    + intros k Hlt. destruct (Hk k) as [d Hd]; [lia|]. now apply match_check_poll in Hd.
    + exact (match_check_settled _ _ _ _ _ _ Hs).
Qed.

(** Waiting for a type of event is waiting for a match of the type, with the same message. *)
Theorem waitForEvent_match eventType timeoutMs startTime world fuel :
  waitForEvent eventType timeoutMs startTime world fuel
  = waitForEventMatch (fun e => jseqb (type e) eventType) (eventType ++ js " event") timeoutMs startTime world fuel.
Proof.
  unfold waitForEvent, waitForEventMatch. generalize 0. induction fuel as [|fuel IH]; intros i; [reflexivity|]. cbn [checks].
  unfold waitForEvent_check, waitForEventMatch_check. destruct (find _ (events (world i))); [reflexivity|].
  destruct (expired startTime (timeout_of timeoutMs) (world i)); [|apply IH]. do 4 f_equal. now rewrite <- !app_assoc.
Qed.

(** A count is met by all events of the type, not only as many as were asked for. *)
Theorem waitForEventCount_all eventType count timeoutMs startTime world fuel m l :
  waitForEventCount eventType count timeoutMs startTime world fuel = Some (m, resolve l) ->
  l = filter (fun e => jseqb (type e) eventType) (events (world m)) /\ nle count (nof (Z.of_nat (length l))) = true.
Proof.
  intros Hr. apply checks_first in Hr. destruct Hr as (_ & Hs & _). unfold waitForEventCount_check in Hs. cbv zeta in Hs.
  destruct (nle count _) eqn:E; [injection Hs as <-; auto|]. now destruct (expired _ _ _).
Qed.

(** Without a finite limit waiting never fails: nothing exceeds a time that is infinite or not a number. *)
Theorem wait_without_limit predicate description timeoutMs startTime world fuel m message :
  timeoutMs = S754_nan \/ timeoutMs = S754_infinity false ->
  waitForEventMatch predicate description (Some timeoutMs) startTime world fuel <> Some (m, reject message).
Proof using.
  intros Ht Hr. apply checks_first in Hr. destruct Hr as (_ & Hs & _). apply match_check_settled in Hs.
  destruct Hs as [_ Ho]. unfold expired, timeout_of, nlt in Ho.
  destruct Ht as [-> | ->]; destruct (nsub (now (world m)) startTime) as [| [] | |]; discriminate.
Qed.
End Waiting.

(** ** Witness *)

(** Every 100 ms a look; the result of a tool call is there at the third. *)
Definition demo_world (i : nat) : look (LaceEvent := jsstring) :=
  {| events := if i <? 2 then [js "TOOL_CALL"] else [js "TOOL_CALL"; js "TOOL_RESULT"]; now := nof (1000 + 100 * Z.of_nat i) |}.

Lemma waitForEventMatch_spec_witness :
  exists m s, waitForEventMatch (jseqb (js "TOOL_RESULT")) (js "a result") None (nof 1000) demo_world 3 = Some (m, s) /\ m <= 2.
Proof.
  apply (waitForEventMatch_spec (jseqb (js "TOOL_RESULT")) (js "a result") None (nof 1000) demo_world); [|lia].
  left. exists (js "TOOL_RESULT"). split; [right; now left|reflexivity].
Defined.

(** With a limit of 150 ms the third look is too late for it, but not if the result is there. *)
Example wait_late :
  waitForEventMatch (jseqb (js "TOOL_RESULT")) (js "a result") (Some (nof 150)) (nof 1000) demo_world 9 = Some (2, resolve (js "TOOL_RESULT")) /\
  waitForEvent (fun e => e) (js "ERROR") (Some (nof 150)) (nof 1000) demo_world 9
  = Some (2, reject (js "Timeout waiting for ERROR event after 150ms")) /\
  waitForEventCount (fun e => e) (js "TOOL_CALL") (nof 2) (Some (nof 150)) (nof 1000) demo_world 9
  = Some (2, reject (js "Timeout waiting for 2 TOOL_CALL events after 150ms (got 1)")).
Proof. vm_compute. auto. Qed.
